(* ===== verification/_CoqProject ===== *)
-Q . S2P
Prelude.v
Types.v
Bytes.v
Crypt.v
Context.v
Transcript.v
Kdf.v
CryptoOps.v
Transport.v
Secured.v
Msg.v
Chunk.v
Cert.v
Attest.v
Session.v
Standard.v
Tcg.v
Psk.v
Connect.v
Vendor.v
Frame.v
Api.v
Socket.v
Demo.v
Responder.v
RespSpec.v
RespRefine.v
Wire.v
WireSession.v
Total.v
PskSession.v
PskFinish.v
Peer.v
Link.v
Emu.v
Witness.v
