(* ===== verification/Prelude.v ===== *)
(** * A verification development for wolfSPDM

    wolfSPDM (src/src, src/wolfspdm) is a C implementation of the SPDM
    protocol (DMTF DSP0274, secured messages DSP0277): a requester that
    authenticates a device and opens an encrypted session with it, over MCTP
    or over the TCG binding of SPDM-capable TPMs.  This library models its
    code as Rocq functions and proves what makes it correct.

    ** How the code is modelled

    A C function that takes a context and returns an [int rc] is a computation
    of the monad [M S A] below: [Ok a s] is a return of [WOLFSPDM_SUCCESS] with
    its outputs, [Err rc s] a return of an error code with the context as it is
    then (so the state an early return leaves behind is part of every
    statement), and [Ub] an access that C leaves undefined: a read or write
    outside an array ([rd], [rd_sub], [wr], [fits]), or the use of a dead
    object.  [wp m Q E s] says that the run of [m] from [s] is defined and ends
    in [Q] or in [E]; no theorem about [wp] or about a run's three cases can
    hold of code that overruns a buffer.  Recursion on C loops has fuel; fuel
    that runs out is [Ub], so the same theorems show that the loops stop.

    Functions of the context alone are computations on [WOLFSPDM_CTX]; those
    that talk to the peer are computations on the context and the state [W] of
    a [Transport], the class of the application's I/O callback
    (spdm.h, [WOLFSPDM_IO_CB]), and lift the others by [on_ctx].  A buffer and
    its size are one list; a message builder takes the capacity and returns the
    bytes; integers are [Z] with the wrap-around of their width written out
    ([w8], [w16], [w32], [w64]) where the code's arithmetic could reach it.
    Definitions keep the names of the C functions; the parts of long functions
    that have a meaning of their own (a loop, a record format) have a name in
    lower case.

    wolfCrypt is the class [WolfCrypt] of Crypt.v: a function per call the code
    makes.  What the code relies on (output sizes, decryption inverts
    encryption) are law classes beside it.  [CryptTotal], that a call on valid
    arguments does not fail, is not assumed anywhere: a theorem may conclude that
    a failure refutes it.  Nothing is assumed on secrecy or
    unforgeability: the theorems say which verifications succeeded, over which
    bytes, under which keys.

    ** The files

    - Prelude: buffers, the monad, its postcondition calculus.
    - Types: protocol codes, sizes, error codes, states (spdm_types.h,
      spdm_error.h, spdm_tcg.h); the class [Config] of overridable sizes.
    - Bytes: the endian helpers, [wolfSPDM_ConstCompare], [wolfSPDM_BuildIV] of
      spdm_internal.h.
    - Crypt: the wolfCrypt interface, its laws, and [Toy], functions that
      satisfy all of them.
    - Context: [struct WOLFSPDM_CTX], the lifecycle and the setters of
      spdm_context.c; the invariant [ctx_wf].
    - Transcript: spdm_transcript.c.
    - Kdf: spdm_kdf.c, and the DSP0277 key schedule as pure functions.
    - CryptoOps: spdm_crypto.c.
    - Transport: the I/O callback, [wolfSPDM_SendReceive], the TCG frames and
      vendor-defined messages of spdm_tcg.c.
    - Secured: the record layer, spdm_secured.c.
    - Msg: the messages of spdm_msg.c.
    - Chunk: spdm_chunk.c and the exchanges built on it.
    - Cert: the certificate chain walk of spdm_standard.c.
    - Attest: spdm_attest.c.
    - Session: spdm_session.c.
    - Standard: the rest of spdm_standard.c, up to the whole handshake.
    - Tcg: the TCG profile of spdm_tcg.c: vendor commands, the pinned key,
      capabilities, algorithms, [wolfSPDM_ConnectTCG].
    - Psk: spdm_psk.c, up to [wolfSPDM_ConnectPsk].
    - Connect: [wolfSPDM_Connect] and [wolfSPDM_Disconnect] of spdm_context.c.
    - Vendor: the commands of src/vendor (modules [Nuvoton], [Nations],
      [Infineon]).
    - Frame: what an operation leaves alone, by the syntax of the operation.
    - Api: the public functions as one type of calls, and applications.
    - Socket, Demo: spdm_demo.c, its MCTP socket callback and its scenarios.
    - Responder: spdm_responder.c.  The state is [WOLFSPDM_RESP_CTX] and the
      state of the TPM behind the class [TpmCallback]; [rctx] is the embedded
      requester context, in which the two directions are exchanged
      ([swapped]).
    - RespSpec: the abstract responder: phases ([phase_of]), the stored key,
      the SPDM-only lock and the TPM ([abs_state]), and its transitions
      ([spec_step]).  RespRefine: the refinement and what follows from it.
    - Wire, WireSession: requester and responder of this repository joined by
      a transport, outside a session and inside one.  Total, PskSession,
      PskFinish: a PSK session between them, from the first message to the
      application keys; [asks] and [offers] are the two sides before it,
      [paired] after the key exchange, [psk_joined] at the end.
    - Peer, Link, Emu, Witness: a concrete responder for the standard profile,
      the joined pair, an emulator behind a socket, and the theorems' witnesses.

    Each file of a component has its definitions first, then for every
    operation [f] a lemma [f_wp] that gives its postcondition, then the
    component's theorems.  The [f_wp] lemmas are the interface between
    components: a caller's proof uses them and never the body.  [ctx_wf] is
    preserved by every operation; the views [session_view], [core], [link_view]
    and so on name the fields an operation leaves alone.

    ** What the theorems show

    - The standard handshake: [standard_session_authenticated] composes
      version, algorithm, certificate, key exchange and finish steps;
      [kex_rsp_authenticated], [key_exchange_authenticated],
      [finish_installs_app_keys], [validated_chain_is_trusted],
      [algorithms_selected_once], [parse_version_highest],
      [certificate_retrieval] are its parts; [exchange_recorded_atomically] is
      about the transcript they are signed over.
    - The other profiles: [tcg_session_authenticated], [tcg_algorithms_exact];
      [psk_session_authenticated], [psk_exchange_authenticated].
      [connect_by_mode] and [disconnect_always_wipes] are the entry points.
    - The interface: [requester_api_safe], any sequence of public calls.
    - Keys: [handshake_key_schedule] (refinement of the pure schedule),
      [derivation_labels_separate], [key_update_all_or_nothing].
    - Records: [record_round_trip], [replay_rejected], [nonces_never_repeat],
      [mctp_sequence_exhausted].
    - Chunks: [chunked_request_delivered], [chunked_response_reassembled],
      [chunk_exchange_safe].
    - Attestation: [measurements_verified], [measurement_blocks_in_bounds],
      [challenge_authenticates].
    - The responder: [responder_refines_spec], every message is one step of
      the abstract responder; [session_opens_by_finish] and
      [clear_messages_powerless] are what a peer cannot do without the keys.
    - Both ends: [psk_session_established], a PSK session comes up and both
      sides agree on it; [session_records_in_step],
      [psk_provisioning_cycle], [only_mode_switched].
    - The demonstration: [mctp_socket_delivers], [demo_exit_status].
    - Flaws are exhibited by [failed_rotation_resets_counter],
      [finish_answer_lost] of RespRefine and the lemma [tcg_clear_size_wraps] of
      Transport.

    What a success guarantees is stated over data and not over the code under
    proof: signatures by the answers of wolfCrypt ([ecdsa_ok], [mldsa_ok],
    [rsp_sig_ok], [signed_by], [leaf_of]), key schedules by pure functions,
    ALGORITHMS by the AlgStructs read off the buffer ([alg_entries], [chosen]),
    records by the AES-GCM call that made them ([sealed_under], along a
    [history] of operations).  Where a theorem is about a sequence of calls
    ([scenario_done], [key_exchange_run], [finish_accepted]) it names the states
    between them, so that what holds of the result holds of that run.

    ** Choices and bounds

    The build modelled has every feature compiled in (TCG, Nuvoton, Nations,
    Infineon, PSK, responder, MCTP, certificates, ML-DSA, ML-KEM, chunking,
    measurements, challenge, heartbeat, key update, application data).  Tests
    for NULL have a counterpart only where NULL is a meaningful argument (an
    option).  Clearing of stack buffers, freeing of wolfCrypt objects on the
    stack and debug output are not modelled.  A wolfCrypt call that fails leaves its
    output buffer unchanged (so an export that fails half-way in
    [wolfSPDM_ValidateCertChain] leaves the old bytes of [rspPubKey]).  The callback does not write the context, and a
    receive size it reports above the capacity is its failure.  Fuel: a chunked
    request needs at most one step per byte, a chunked response one per byte of
    the capacity, a certificate chain one portion per byte of the chain array
    (and two), a chain walk one certificate per byte; a socket loop one round
    per byte and one per interruption ([rounds]), which
    [mctp_socket_delivers] shows to be enough.  [RecordFits] and
    [TranscriptFits] state the sizes for which the 16-bit record length and the
    32-bit transcript length do not wrap; the default sizes satisfy them.  The
    theorems of Wire, WireSession and PskFinish ask for a message size (and a
    transcript) that holds the messages they exchange, and those of WireSession,
    PskFinish and Socket for a session
    identifier whose low byte cannot be taken for a version, which is what
    [wolfSPDM_SetRequesterSessionId] enforces.

    ** Not modelled

    The tests and their data (src/test) and the scripts; debug printing and
    what the demonstration prints; third-party wolfCrypt, the socket calls, the
    file system and [getopt_long] are interfaces. *)
From Stdlib Require Import ZArith Lia ZifyClasses ZifyInst ZifyBool Bool String Ascii.
From stdpp Require Import base tactics list numbers.
#[global] Open Scope Z_scope.

(** ** Byte buffers

    A C buffer [(const byte* p, word32 sz)] is a list of byte values; its size
    is the length of the list.  Offsets and sizes are [Z]. *)

Abbreviation bytes := (list Z).

Definition len (b : bytes) : Z := Z.of_nat (length b).

Definition sub_bytes (b : bytes) (off n : Z) : bytes :=
  take (Z.to_nat n) (drop (Z.to_nat off) b).

Definition zeros (n : Z) : bytes := replicate (Z.to_nat n) 0.

(** [splice b off d] is [b] after [XMEMCPY(b + off, d, len d)]. *)
Definition splice (b : bytes) (off : Z) (d : bytes) : bytes :=
  take (Z.to_nat off) b ++ d ++ drop (Z.to_nat off + length d) b.

(** ** Machine integers *)

Definition w8 (x : Z) : Z := x mod 2 ^ 8.
Definition w16 (x : Z) : Z := x mod 2 ^ 16.
Definition w32 (x : Z) : Z := x mod 2 ^ 32.
Definition w64 (x : Z) : Z := x mod 2 ^ 64.

Definition is_byte (x : Z) : Prop := 0 <= x < 256.
Definition is_bytes (b : bytes) : Prop := Forall is_byte b.

(** [lia] with division and modulus by constants. *)
Ltac mlia := Z.div_mod_to_equations; lia.

Lemma w16_range x : 0 <= w16 x < 2 ^ 16.
Proof. unfold w16. mlia. Qed.
Lemma w32_range x : 0 <= w32 x < 2 ^ 32.
Proof. unfold w32. mlia. Qed.
Lemma w64_range x : 0 <= w64 x < 2 ^ 64.
Proof. unfold w64. mlia. Qed.
Lemma w16_id x : 0 <= x < 2 ^ 16 -> w16 x = x.
Proof. intros. by apply Z.mod_small. Qed.
Lemma w32_id x : 0 <= x < 2 ^ 32 -> w32 x = x.
Proof. intros. by apply Z.mod_small. Qed.
Lemma w64_id x : 0 <= x < 2 ^ 64 -> w64 x = x.
Proof. intros. by apply Z.mod_small. Qed.

(** ** Record update

    [r <| f := v |>] is the C assignment [r.f = v].  A record type declares
    its eta expansion in an instance of [Settable]; the setter of a field is
    found by abstracting that field's projection in the expansion. *)

Class Settable (R : Type) := eta : R -> R.

Class Setter {R T : Type} (p : R -> T) := set : (T -> T) -> R -> R.
Strategy 100 [set].
#[global] Hint Mode Setter ! ! ! : typeclass_instances.

Ltac find_setter R p :=
  let e := constr:(_ : Settable R) in
  let e := eval red in e in
  let e := eval hnf in e in
  match eval pattern p in e with
  | ?F _ => let s := constr:(fun g r => F (fun r' => g (p r')) r) in
            let s := eval cbv beta in s in
            exact s
  end.

#[global] Hint Extern 1 (@Setter ?R _ ?p) => find_setter R p : typeclass_instances.

Declare Scope spdm_scope.
Delimit Scope spdm_scope with spdm.
#[global] Open Scope spdm_scope.

Notation "r <| p := v |>" := (@set _ _ p _ (fun _ => v) r)
  (at level 1, left associativity, format "r  <| p  :=  v |>") : spdm_scope.

(** Reading a field of an updated record: the update of another field is
    skipped, the update of the same field gives the new value. *)
Ltac field_simpl :=
  repeat match goal with
  | |- context [?p (@set ?R ?T ?q ?s ?f ?r)] =>
      first [ progress change (p (@set R T q s f r)) with (p r)
            | progress change (p (@set R T q s f r)) with (f (p r)); cbv beta ]
  end.

Ltac field_simpl_in H :=
  repeat match type of H with
  | context [?p (@set ?R ?T ?q ?s ?f ?r)] =>
      first [ progress change (p (@set R T q s f r)) with (p r) in H
            | progress change (p (@set R T q s f r)) with (f (p r)) in H; cbv beta in H ]
  end.

(** ** The state and error monad

    A C function that returns [int rc] is a computation on a state [S]:
    [Ok] is the return of [WOLFSPDM_SUCCESS] with its outputs, [Err rc] an
    early or late return of an error code (with the state as it is then), and
    [Ub] an access outside a buffer or of a dead object, which C leaves
    undefined. *)

Inductive res (S A : Type) : Type :=
| Ok (a : A) (s : S)
| Err (rc : Z) (s : S)
| Ub.
Arguments Ok {S A} _ _.
Arguments Err {S A} _ _.
Arguments Ub {S A}.

Definition M (S A : Type) : Type := S -> res S A.

Definition ret {S A} (a : A) : M S A := fun s => Ok a s.
Definition bind {S A B} (m : M S A) (f : A -> M S B) : M S B := fun s =>
  match m s with
  | Ok a s' => f a s'
  | Err rc s' => Err rc s'
  | Ub => Ub
  end.
Definition fail {S A} (rc : Z) : M S A := fun s => Err rc s.
Definition ub {S A} : M S A := fun _ => Ub.
Definition get {S} : M S S := fun s => Ok s s.
Definition modify {S} (f : S -> S) : M S unit := fun s => Ok tt (f s).

Notation "'let*' x := m 'in' k" := (bind m (fun x => k))
  (at level 10, x pattern, m at level 200, k at level 200,
   format "'[v' 'let*'  x  :=  '[' m ']'  'in' '//' k ']'") : spdm_scope.
Notation "m ;;; k" := (bind m (fun _ => k))
  (at level 199, right associativity, format "'[v' m ;;; '/' k ']'") : spdm_scope.

(** [if (b) return rc;] *)
Definition check {S} (b : bool) (rc : Z) : M S unit :=
  if b then fail rc else ret tt.

(** [if (b) m;] *)
Definition when {S} (b : bool) (m : M S unit) : M S unit :=
  if b then m else ret tt.

(** A call into third-party code that reports failure: [(rc == 0) ? .. : e] *)
Definition lift_opt {S A} (e : Z) (o : option A) : M S A :=
  match o with Some a => ret a | None => fail e end.

(** [if (rc != SUCCESS) { h; } return rc;] *)
Definition on_err {S A} (m : M S A) (h : Z -> M S unit) : M S A := fun s =>
  match m s with
  | Ok a s' => Ok a s'
  | Err rc s' => match h rc s' with
                 | Ok _ s'' => Err rc s''
                 | Err rc' s'' => Err rc' s''
                 | Ub => Ub
                 end
  | Ub => Ub
  end.

(** The return code as a value, for code that goes on after a failure. *)
Definition try {S A} (m : M S A) : M S (A + Z) := fun s =>
  match m s with
  | Ok a s' => Ok (inl a) s'
  | Err rc s' => Ok (inr rc) s'
  | Ub => Ub
  end.

(** A computation on a part of the state, run on the whole state. *)
Definition zoom {S T A} (g : S -> T) (p : T -> S -> S) (m : M T A) : M S A := fun s =>
  match m (g s) with
  | Ok a t => Ok a (p t s)
  | Err rc t => Err rc (p t s)
  | Ub => Ub
  end.

(** ** Checked memory access *)

Definition rd {S} (b : bytes) (i : Z) : M S Z :=
  if (0 <=? i) && (i <? len b) then ret (nth (Z.to_nat i) b 0) else ub.

Definition rd_sub {S} (b : bytes) (off n : Z) : M S bytes :=
  if (0 <=? off) && (0 <=? n) && (off + n <=? len b)
  then ret (sub_bytes b off n) else ub.

Definition wr {S} (b : bytes) (off : Z) (d : bytes) : M S bytes :=
  if (0 <=? off) && (off + len d <=? len b) then ret (splice b off d) else ub.

(** Equality of buffers ([XMEMCMP(a, b, n) == 0]). *)
Fixpoint bytes_eqb (a b : bytes) : bool :=
  match a, b with
  | [], [] => true
  | x :: a', y :: b' => (x =? y) && bytes_eqb a' b'
  | _, _ => false
  end.

(** A C string literal as bytes. *)
Fixpoint str (s : string) : bytes :=
  match s with
  | EmptyString => []
  | String c s' => Z.of_nat (nat_of_ascii c) :: str s'
  end.

#[global] Arguments str : simpl never.

(** ** Lemmas on buffers *)

Lemma len_nonneg b : 0 <= len b.
Proof. unfold len. lia. Qed.

Lemma len_nil : len [] = 0.
Proof. reflexivity. Qed.

Lemma len_cons x b : len (x :: b) = 1 + len b.
Proof. unfold len. simpl length. lia. Qed.

Lemma len_app a b : len (a ++ b) = len a + len b.
Proof. unfold len. rewrite length_app. lia. Qed.

Lemma len_zeros n : len (zeros n) = Z.max 0 n.
Proof. unfold len, zeros. rewrite length_replicate. lia. Qed.

Lemma len_sub_bytes b off n :
  0 <= off -> 0 <= n -> off + n <= len b -> len (sub_bytes b off n) = n.
Proof. unfold len, sub_bytes. intros. rewrite length_take, length_drop. lia. Qed.

Lemma len_sub_bytes_le b off n : 0 <= n -> len (sub_bytes b off n) <= n.
Proof. unfold len, sub_bytes. intros. rewrite length_take. lia. Qed.

Lemma len_splice b off d :
  0 <= off -> off + len d <= len b -> len (splice b off d) = len b.
Proof.
  unfold len, splice. intros. rewrite !length_app, length_take, length_drop. lia.
Qed.

Lemma sub_bytes_app_l a b n : n = len a -> sub_bytes (a ++ b) 0 n = a.
Proof.
  intros ->. unfold sub_bytes, len. rewrite drop_0, Nat2Z.id, take_app_length. done.
Qed.

Lemma sub_bytes_app_r a b off n :
  off = len a -> n = len b -> sub_bytes (a ++ b) off n = b.
Proof.
  intros -> ->. unfold sub_bytes, len. rewrite !Nat2Z.id, drop_app_length, take_ge; done.
Qed.

Lemma sub_bytes_app_mid a b c off n :
  off = len a -> n = len b -> sub_bytes (a ++ b ++ c) off n = b.
Proof.
  intros -> ->. unfold sub_bytes, len.
  rewrite !Nat2Z.id, drop_app_length, take_app_length. done.
Qed.

Lemma sub_bytes_all b n : n = len b -> sub_bytes b 0 n = b.
Proof.
  intros ->. unfold sub_bytes, len. rewrite drop_0, Nat2Z.id, take_ge; done.
Qed.

Lemma sub_bytes_splice_lo b off d n :
  0 <= n <= off -> off + len d <= len b ->
  sub_bytes (splice b off d) 0 n = sub_bytes b 0 n.
Proof.
  unfold sub_bytes, splice, len. intros. rewrite !drop_0, take_app_le.
  - rewrite take_take. f_equal. lia.
  - rewrite length_take. lia.
Qed.

Lemma sub_bytes_splice b off d n :
  0 <= off -> off + len d <= len b -> n = off + len d ->
  sub_bytes (splice b off d) 0 n = sub_bytes b 0 off ++ d.
Proof.
  unfold sub_bytes, splice, len. intros ? ? ->. rewrite !drop_0, app_assoc.
  rewrite take_app_le; [rewrite take_ge; [done|] |]; rewrite length_app, length_take; lia.
Qed.

Lemma splice_whole b d : len d = len b -> splice b 0 d = d.
Proof.
  unfold splice, len. intros Hl. cbn [take Z.to_nat app]. rewrite drop_ge, app_nil_r; [done|lia].
Qed.

Lemma app_len_inj (a b c d : bytes) : len a = len c -> a ++ b = c ++ d -> a = c /\ b = d.
Proof. intros Hl. apply app_inj_1. unfold len in Hl. lia. Qed.

Lemma bytes_eqb_eq a b : bytes_eqb a b = true <-> a = b.
Proof.
  revert b. induction a as [|x a IH]; intros [|y b]; simpl; try (split; congruence).
  rewrite andb_true_iff, Z.eqb_eq, IH. split; [intros [-> ->]; done | intros [= -> ->]; done].
Qed.

Lemma bytes_eqb_refl a : bytes_eqb a a = true.
Proof. by apply bytes_eqb_eq. Qed.

#[global] Instance bytes_eq_decision : EqDecision bytes := _.

(** ** The postcondition calculus

    [wp m Q E s]: run from [s], [m] never reaches undefined behaviour; if it
    succeeds its result satisfies [Q], if it fails its code and state satisfy
    [E]. *)

Definition wp {S A} (m : M S A) (Q : A -> S -> Prop) (E : Z -> S -> Prop) (s : S) : Prop :=
  match m s with
  | Ok a s' => Q a s'
  | Err rc s' => E rc s'
  | Ub => False
  end.

Section Wp.
Context {S : Type}.
Implicit Types s : S.

Lemma wp_ret {A} (a : A) Q E s : Q a s -> wp (ret a) Q E s.
Proof. done. Qed.

Lemma wp_fail {A} rc (Q : A -> S -> Prop) E s : E rc s -> wp (fail rc) Q E s.
Proof. done. Qed.

Lemma wp_bind {A B} (m : M S A) (f : A -> M S B) Q E s :
  wp m (fun a => wp (f a) Q E) E s -> wp (bind m f) Q E s.
Proof. unfold wp, bind. by destruct (m s). Qed.

Lemma wp_get Q E s : Q s s -> wp get Q E s.
Proof. done. Qed.

Lemma wp_modify f Q E s : Q tt (f s) -> wp (modify f) Q E s.
Proof. done. Qed.

Lemma wp_check b rc Q E s :
  (b = true -> E rc s) -> (b = false -> Q tt s) -> wp (check b rc) Q E s.
Proof. destruct b; cbn; auto. Qed.

Lemma wp_when b m Q E s :
  (b = true -> wp m Q E s) -> (b = false -> Q tt s) -> wp (when b m) Q E s.
Proof. destruct b; cbn; auto. Qed.

Lemma wp_lift_opt {A} e (o : option A) Q E s :
  (forall a, o = Some a -> Q a s) -> (o = None -> E e s) -> wp (lift_opt e o) Q E s.
Proof. destruct o; cbn; auto. Qed.

Lemma wp_rd b i Q E s :
  0 <= i < len b -> (forall x, x = nth (Z.to_nat i) b 0 -> Q x s) -> wp (rd b i) Q E s.
Proof.
  intros H HQ. unfold rd.
  replace ((0 <=? i) && (i <? len b)) with true by lia. apply wp_ret; eauto.
Qed.

Lemma wp_rd_sub b off n Q E s :
  0 <= off -> 0 <= n -> off + n <= len b ->
  Q (sub_bytes b off n) s -> wp (rd_sub b off n) Q E s.
Proof.
  intros ? ? ? HQ. unfold rd_sub.
  replace ((0 <=? off) && (0 <=? n) && (off + n <=? len b)) with true by lia.
  by apply wp_ret.
Qed.

Lemma wp_wr b off d Q E s :
  0 <= off -> off + len d <= len b ->
  Q (splice b off d) s -> wp (wr b off d) Q E s.
Proof.
  intros ? ? HQ. unfold wr.
  replace ((0 <=? off) && (off + len d <=? len b)) with true by lia. by apply wp_ret.
Qed.

Lemma wp_on_err {A} (m : M S A) h Q E s :
  wp m Q (fun rc => wp (h rc) (fun _ => E rc) E) s -> wp (on_err m h) Q E s.
Proof. unfold wp, on_err. by destruct (m s) as [| rc s' |]; [|destruct (h rc s')|]. Qed.

Lemma wp_try {A} (m : M S A) Q E s :
  wp m (fun a => Q (inl a)) (fun rc => Q (inr rc)) s -> wp (try m) Q E s.
Proof. unfold wp, try. by destruct (m s). Qed.

Lemma wp_zoom {T A} (g : S -> T) (p : T -> S -> S) (m : M T A) Q E s :
  wp m (fun a t => Q a (p t s)) (fun rc t => E rc (p t s)) (g s) -> wp (zoom g p m) Q E s.
Proof. unfold wp, zoom. by destruct (m (g s)). Qed.

Lemma wp_mono {A} (m : M S A) (Q Q' : A -> S -> Prop) (E E' : Z -> S -> Prop) s :
  wp m Q E s -> (forall a s', Q a s' -> Q' a s') ->
  (forall rc s', E rc s' -> E' rc s') -> wp m Q' E' s.
Proof. unfold wp. destruct (m s); eauto. Qed.

Lemma wp_conj {A} (m : M S A) (Q Q' : A -> S -> Prop) (E E' : Z -> S -> Prop) s :
  wp m Q E s -> wp m Q' E' s ->
  wp m (fun a s' => Q a s' /\ Q' a s') (fun rc s' => E rc s' /\ E' rc s') s.
Proof. unfold wp. destruct (m s); eauto. Qed.

(** From a specification to a statement on one run, and back. *)
Lemma wp_ok {A} (m : M S A) Q E s a s' : wp m Q E s -> m s = Ok a s' -> Q a s'.
Proof. unfold wp. intros H Hm. by rewrite Hm in H. Qed.

Lemma wp_err {A} (m : M S A) Q E s rc s' : wp m Q E s -> m s = Err rc s' -> E rc s'.
Proof. unfold wp. intros H Hm. by rewrite Hm in H. Qed.

Lemma wp_no_ub {A} (m : M S A) Q E s : wp m Q E s -> m s <> Ub.
Proof. unfold wp. by destruct (m s). Qed.

Lemma wp_intro {A} (m : M S A) (Q : A -> S -> Prop) (E : Z -> S -> Prop) s :
  m s <> Ub -> (forall a s', m s = Ok a s' -> Q a s') ->
  (forall rc s', m s = Err rc s' -> E rc s') -> wp m Q E s.
Proof. unfold wp. destruct (m s); eauto. Qed.

(** A specification may remember the run it is about. *)
Lemma wp_remember {A} (m : M S A) (Q : A -> S -> Prop) (E : Z -> S -> Prop) s :
  wp m (fun a s' => m s = Ok a s' -> Q a s') (fun rc s' => m s = Err rc s' -> E rc s') s -> wp m Q E s.
Proof. unfold wp. destruct (m s); auto. Qed.

(** Partial form: nothing is claimed about runs that reach [Ub]. *)
Lemma bind_ok {A B} (m : M S A) (f : A -> M S B) s b s' :
  bind m f s = Ok b s' <-> exists a s1, m s = Ok a s1 /\ f a s1 = Ok b s'.
Proof.
  unfold bind. split.
  - destruct (m s) eqn:Hm; try done. eauto.
  - intros (a & s1 & -> & H). done.
Qed.

Lemma bind_run {A B} (m : M S A) (f : A -> M S B) s a s1 : m s = Ok a s1 -> bind m f s = f a s1.
Proof. unfold bind. by intros ->. Qed.

Lemma bind_stops {A B} (m : M S A) (f : A -> M S B) s rc s1 :
  m s = Err rc s1 -> bind m f s = Err rc s1.
Proof. unfold bind. by intros ->. Qed.

Lemma check_ok b rc s u s' : check b rc s = Ok u s' -> b = false /\ s' = s.
Proof. by destruct b; intros [=]. Qed.

Lemma lift_opt_ok {A} e (o : option A) s a s' :
  lift_opt e o s = Ok a s' -> o = Some a /\ s' = s.
Proof. by destruct o; intros [= -> ->]. Qed.

Lemma rd_ok b i s x s' :
  rd b i s = Ok x s' -> 0 <= i < len b /\ x = nth (Z.to_nat i) b 0 /\ s' = s.
Proof.
  unfold rd. destruct ((0 <=? i) && (i <? len b)) eqn:H; [|done].
  intros [= <- <-]. split_and?; (lia || done).
Qed.

Lemma rd_sub_ok b off n s d s' :
  rd_sub b off n s = Ok d s' ->
  0 <= off /\ 0 <= n /\ off + n <= len b /\ d = sub_bytes b off n /\ s' = s.
Proof.
  unfold rd_sub. destruct (_ && _) eqn:H; [|done]. intros [= <- <-]. split_and?; (lia || done).
Qed.

Lemma rd_sub_run b off n s : 0 <= off -> 0 <= n -> off + n <= len b ->
  rd_sub b off n s = Ok (sub_bytes b off n) s.
Proof. intros. unfold rd_sub. by replace ((0 <=? off) && (0 <=? n) && (off + n <=? len b)) with true by lia. Qed.

Lemma wr_ok b off d s r s' :
  wr b off d s = Ok r s' ->
  0 <= off /\ off + len d <= len b /\ r = splice b off d /\ s' = s.
Proof. unfold wr. destruct (_ && _) eqn:H; [|done]. intros [= <- <-]. split_and?; (lia || done). Qed.
End Wp.

(** [wp_step] runs one statement of the program in the goal. *)
Ltac wp_step :=
  lazymatch goal with
  | |- wp (bind _ _) _ _ _ => apply wp_bind
  | |- wp (ret _) _ _ _ => apply wp_ret
  | |- wp (fail _) _ _ _ => apply wp_fail
  | |- wp get _ _ _ => apply wp_get
  | |- wp (modify _) _ _ _ => apply wp_modify
  | |- wp (check _ _) _ _ _ => apply wp_check; intros ?
  | |- wp (when _ _) _ _ _ => apply wp_when; intros ?
  | |- wp (lift_opt _ _) _ _ _ => apply wp_lift_opt; [intros ? ?|intros ?]
  | |- wp (rd _ _) _ _ _ => apply wp_rd; [try lia|intros ? ?]
  | |- wp (rd_sub _ _ _) _ _ _ => apply wp_rd_sub; [try lia|try lia|try lia|]
  | |- wp (wr _ _ _) _ _ _ => apply wp_wr; [try lia|try lia|]
  | |- wp (on_err _ _) _ _ _ => apply wp_on_err
  | |- wp (try _) _ _ _ => apply wp_try
  | |- wp (zoom _ _ _) _ _ _ => apply wp_zoom
  | |- wp (if ?b then _ else _) _ _ _ => destruct b eqn:?
  | |- wp (match ?x with _ => _ end) _ _ _ => destruct x eqn:?
  end.
Ltac wp_go := repeat (wp_step; cbv beta).

(** [inv_ok H] takes a successful run [H : m s = Ok a s'] apart. *)
Ltac inv_ok1 :=
  match goal with
  | H : bind _ _ _ = Ok _ _ |- _ =>
      apply bind_ok in H; destruct H as (? & ? & ? & H)
  | H : check _ _ _ = Ok _ _ |- _ => apply check_ok in H; destruct H as (? & ->)
  | H : lift_opt _ _ _ = Ok _ _ |- _ => apply lift_opt_ok in H; destruct H as (? & ->)
  | H : rd _ _ _ = Ok _ _ |- _ => apply rd_ok in H; destruct H as (? & -> & ->)
  | H : rd_sub _ _ _ _ = Ok _ _ |- _ =>
      apply rd_sub_ok in H; destruct H as (? & ? & ? & -> & ->)
  | H : wr _ _ _ _ = Ok _ _ |- _ =>
      apply wr_ok in H; destruct H as (? & ? & -> & ->)
  | H : ret _ _ = Ok _ _ |- _ => injection H as ? ?; subst
  | H : get _ = Ok _ _ |- _ => injection H as ? ?; subst
  | H : modify _ _ = Ok _ _ |- _ => injection H as ? ?; subst
  | H : fail _ _ = Ok _ _ |- _ => discriminate H
  | H : ub _ = Ok _ _ |- _ => discriminate H
  | H : Ok _ _ = Ok _ _ |- _ => injection H as ? ?; subst
  | H : Err _ _ = Ok _ _ |- _ => discriminate H
  end.
Ltac inv_ok := repeat inv_ok1.

Create HintDb blen.
#[export] Hint Rewrite len_nil len_cons len_app len_zeros : blen.
