(* ===== verification/Types.v ===== *)
(** * Constants: wolfspdm/spdm_types.h, spdm_error.h, spdm_tcg.h and the
    constants of src/spdm_internal.h.

    The modelled build has every feature on: TCG binding, Nuvoton, Nations
    and Infineon adapters, PSK, responder, MCTP, certificates, ML-DSA and
    ML-KEM, chunking, measurements, challenge, heartbeat, key update and
    application data.  The sizes a build can override are the fields of
    [Config]; the other macros are constants. *)
From Stdlib Require Import ZArith Lia ZifyClasses String.
From S2P Require Import Prelude.

(** *** SPDM version numbers *)

Definition SPDM_VERSION_10 : Z := 0x10.
Definition SPDM_VERSION_12 : Z := 0x12.
Definition SPDM_VERSION_13 : Z := 0x13.
Definition SPDM_VERSION_14 : Z := 0x14.

(** *** Request and response codes *)

Definition SPDM_GET_VERSION : Z := 0x84.
Definition SPDM_KEY_EXCHANGE : Z := 0xe4.
Definition SPDM_FINISH : Z := 0xe5.
Definition SPDM_END_SESSION : Z := 0xec.
Definition SPDM_VENDOR_DEFINED_REQUEST : Z := 0xfe.
Definition SPDM_VERSION : Z := 0x04.
Definition SPDM_KEY_EXCHANGE_RSP : Z := 0x64.
Definition SPDM_FINISH_RSP : Z := 0x65.
Definition SPDM_END_SESSION_ACK : Z := 0x6c.
Definition SPDM_ERROR : Z := 0x7f.
Definition SPDM_HEARTBEAT : Z := 0xe8.
Definition SPDM_HEARTBEAT_ACK : Z := 0x68.
Definition SPDM_KEY_UPDATE : Z := 0xe9.
Definition SPDM_KEY_UPDATE_ACK : Z := 0x69.
Definition SPDM_KEY_UPDATE_OP_UPDATE_KEY : Z := 1.
Definition SPDM_KEY_UPDATE_OP_UPDATE_ALL_KEYS : Z := 2.
Definition SPDM_KEY_UPDATE_OP_VERIFY_NEW_KEY : Z := 3.
Definition SPDM_GET_DIGESTS : Z := 0x81.
Definition SPDM_GET_CERTIFICATE : Z := 0x82.
Definition SPDM_GET_CAPABILITIES : Z := 0xe1.
Definition SPDM_NEGOTIATE_ALGORITHMS : Z := 0xe3.
Definition SPDM_DIGESTS : Z := 0x01.
Definition SPDM_CERTIFICATE : Z := 0x02.
Definition SPDM_CAPABILITIES : Z := 0x61.
Definition SPDM_ALGORITHMS : Z := 0x63.
Definition SPDM_GET_MEASUREMENTS : Z := 0xe0.
Definition SPDM_MEASUREMENTS : Z := 0x60.
Definition SPDM_CHALLENGE : Z := 0x83.
Definition SPDM_CHALLENGE_AUTH : Z := 0x03.
Definition SPDM_CHUNK_SEND : Z := 0x85.
Definition SPDM_CHUNK_GET : Z := 0x86.
Definition SPDM_CHUNK_SEND_ACK : Z := 0x05.
Definition SPDM_CHUNK_RESPONSE : Z := 0x06.
Definition SPDM_PSK_EXCHANGE : Z := 0xe6.
Definition SPDM_PSK_EXCHANGE_RSP : Z := 0x66.
Definition SPDM_PSK_FINISH : Z := 0xe7.
Definition SPDM_PSK_FINISH_RSP : Z := 0x67.

(** *** ERROR codes (Param1 of an ERROR response) *)

Definition SPDM_ERROR_INVALID_REQUEST : Z := 0x01.
Definition SPDM_ERROR_UNEXPECTED_REQUEST : Z := 0x04.
Definition SPDM_ERROR_UNSUPPORTED_REQUEST : Z := 0x07.
Definition SPDM_ERROR_LARGE_RESPONSE : Z := 0x0f.
Definition SPDM_ERROR_MAJOR_VERSION_MISMATCH : Z := 0x41.

(** *** Algorithm Set B sizes *)

Definition WOLFSPDM_HASH_SIZE : Z := 48.
Definition WOLFSPDM_ECC_KEY_SIZE : Z := 48.
Definition WOLFSPDM_ECC_POINT_SIZE : Z := (2 * WOLFSPDM_ECC_KEY_SIZE).
Definition WOLFSPDM_ECC_SIG_SIZE : Z := (2 * WOLFSPDM_ECC_KEY_SIZE).
Definition WOLFSPDM_AEAD_KEY_SIZE : Z := 32.
Definition WOLFSPDM_AEAD_IV_SIZE : Z := 12.
Definition WOLFSPDM_AEAD_TAG_SIZE : Z := 16.
Definition WOLFSPDM_SECURED_PAD : Z := 48.
Definition WOLFSPDM_AEAD_OVERHEAD : Z := (32 + WOLFSPDM_SECURED_PAD).
Definition WOLFSPDM_RANDOM_SIZE : Z := 32.
Definition MCTP_MESSAGE_TYPE_SPDM : Z := 0x05.
Definition SPDM_BIN_CONCAT_PREFIX_LEN : Z := 8.

(** *** Buffer sizes *)

Definition WOLFSPDM_FINISH_BUF_SZ : Z := 152.
Definition WOLFSPDM_FINISH_OPAQUE_MAX : Z := 256.
Definition WOLFSPDM_FINISH_RSP_MAX : Z := (4 + 2 + WOLFSPDM_FINISH_OPAQUE_MAX).
Definition WOLFSPDM_VENDOR_BUF_SZ : Z := 256.
Definition WOLFSPDM_VENDOR_RX_SZ : Z := 512.
Definition WOLFSPDM_PUBKEY_BUF_SZ : Z := 256.
Definition WOLFSPDM_MLDSA44_SIG_SIZE : Z := 2420.
Definition WOLFSPDM_MLDSA65_SIG_SIZE : Z := 3309.
Definition WOLFSPDM_MLDSA87_SIG_SIZE : Z := 4627.
Definition WOLFSPDM_MAX_SIG_SIZE : Z := WOLFSPDM_MLDSA87_SIG_SIZE.
Definition WOLFSPDM_RSP_PUBKEY_SZ : Z := 2592.
Definition WOLFSPDM_MAX_KEX_DATA : Z := 1568.
Definition WOLFSPDM_KEY_EX_TX_SZ : Z := 96 + WOLFSPDM_MAX_KEX_DATA.
Definition WOLFSPDM_KEY_EX_RX_SZ : Z := 192 + WOLFSPDM_MAX_KEX_DATA + WOLFSPDM_MAX_SIG_SIZE.
Definition WOLFSPDM_NEG_ALGO_SZ : Z := 52.
Definition WOLFSPDM_CERT_CHAIN_HDR_SZ : Z := (4 + WOLFSPDM_HASH_SIZE).
Definition WOLFSPDM_PSK_MAX_SIZE : Z := 64.
Definition WOLFSPDM_PSK_HINT_MAX : Z := 32.
Definition SPDM_MIN_DATA_TRANSFER_SIZE : Z := 42.
Definition WOLFSPDM_MEAS_BLOCK_HDR_SZ : Z := 4.

(** *** Capability flags *)

Definition SPDM_CAP_HBEAT_CAP : Z := 0x00002000.
Definition SPDM_CAP_KEY_UPD_CAP : Z := 0x00004000.
Definition SPDM_CAP_CERT_CAP : Z := 0x00000002.
Definition SPDM_CAP_ENCRYPT_CAP : Z := 0x00000040.
Definition SPDM_CAP_MAC_CAP : Z := 0x00000080.
Definition SPDM_CAP_KEY_EX_CAP : Z := 0x00000200.
Definition SPDM_CAP_CHUNK_CAP : Z := 0x00020000.
Definition SPDM_CAP_MEAS_CAP_NO_SIG : Z := 0x00000008.
Definition SPDM_CAP_MEAS_CAP_SIG : Z := 0x00000010.
Definition SPDM_CAP_CHAL_CAP : Z := 0x00000004.

(** *** Algorithm selections *)

Definition SPDM_HASH_ALGO_SHA_384 : Z := 0x00000002.
Definition SPDM_ASYM_ALGO_ECDSA_P384 : Z := 0x00000080.
Definition SPDM_DHE_ALGO_SECP384R1 : Z := 0x0010.
Definition SPDM_AEAD_ALGO_AES_256_GCM : Z := 0x0002.
Definition SPDM_KEY_SCHEDULE_SPDM : Z := 0x0001.
Definition SPDM_ALG_TYPE_DHE : Z := 2.
Definition SPDM_ALG_TYPE_AEAD : Z := 3.
Definition SPDM_ALG_TYPE_REQ_BASE_ASYM : Z := 4.
Definition SPDM_ALG_TYPE_KEY_SCHEDULE : Z := 5.
Definition SPDM_ALG_TYPE_KEM : Z := 7.
Definition SPDM_PQC_ASYM_ALGO_ML_DSA_44 : Z := 0x00000001.
Definition SPDM_PQC_ASYM_ALGO_ML_DSA_65 : Z := 0x00000002.
Definition SPDM_PQC_ASYM_ALGO_ML_DSA_87 : Z := 0x00000004.
Definition SPDM_KEM_ALGO_ML_KEM_512 : Z := 0x0001.
Definition SPDM_KEM_ALGO_ML_KEM_768 : Z := 0x0002.
Definition SPDM_KEM_ALGO_ML_KEM_1024 : Z := 0x0004.

(** *** Measurements, challenge and chunk flags *)

Definition SPDM_MEAS_REQUEST_SIG_BIT : Z := 0x01.
Definition SPDM_MEAS_SPEC_DMTF : Z := 0x01.
Definition SPDM_MEAS_SUMMARY_HASH_NONE : Z := 0x00.
Definition SPDM_CHUNK_LAST_CHUNK : Z := 0x01.
Definition SPDM_CHUNK_EARLY_ERROR : Z := 0x01.

(** *** Error codes (enum WOLFSPDM_ERROR) *)

Definition WOLFSPDM_SUCCESS : Z := 0.
Definition WOLFSPDM_E_INVALID_ARG : Z := -1.
Definition WOLFSPDM_E_BUFFER_SMALL : Z := -2.
Definition WOLFSPDM_E_BAD_STATE : Z := -3.
Definition WOLFSPDM_E_VERSION_MISMATCH : Z := -4.
Definition WOLFSPDM_E_CRYPTO_FAIL : Z := -5.
Definition WOLFSPDM_E_BAD_SIGNATURE : Z := -6.
Definition WOLFSPDM_E_BAD_HMAC : Z := -7.
Definition WOLFSPDM_E_IO_FAIL : Z := -8.
Definition WOLFSPDM_E_TIMEOUT : Z := -9.
Definition WOLFSPDM_E_PEER_ERROR : Z := -10.
Definition WOLFSPDM_E_DECRYPT_FAIL : Z := -11.
Definition WOLFSPDM_E_SEQUENCE : Z := -12.
Definition WOLFSPDM_E_NOT_CONNECTED : Z := -13.
Definition WOLFSPDM_E_ALREADY_INIT : Z := -14.
Definition WOLFSPDM_E_NO_MEMORY : Z := -15.
Definition WOLFSPDM_E_SESSION_INVALID : Z := -16.
Definition WOLFSPDM_E_KEY_EXCHANGE : Z := -17.
Definition WOLFSPDM_E_NOT_AVAILABLE : Z := -18.
Definition WOLFSPDM_E_FRAMING : Z := -19.
Definition WOLFSPDM_E_NOT_IMPL : Z := -20.
Definition WOLFSPDM_E_CERT_FAIL : Z := -21.
Definition WOLFSPDM_E_CAPS_MISMATCH : Z := -22.
Definition WOLFSPDM_E_ALGO_MISMATCH : Z := -23.
Definition WOLFSPDM_E_CERT_PARSE : Z := -24.
Definition WOLFSPDM_E_KEY_UPDATE : Z := -25.
Definition WOLFSPDM_E_MEASUREMENT : Z := -26.
Definition WOLFSPDM_E_CHALLENGE : Z := -27.
Definition WOLFSPDM_E_CHUNK : Z := -28.
Definition WOLFSPDM_E_MEAS_NOT_VERIFIED : Z := -1000.

(** *** State machine constants and version range *)

Definition WOLFSPDM_STATE_INIT : Z := 0.
Definition WOLFSPDM_STATE_VERSION : Z := 1.
Definition WOLFSPDM_STATE_CERT : Z := 2.
Definition WOLFSPDM_STATE_KEY_EX : Z := 3.
Definition WOLFSPDM_STATE_FINISH : Z := 4.
Definition WOLFSPDM_STATE_CONNECTED : Z := 5.
Definition WOLFSPDM_STATE_ERROR : Z := 6.
Definition WOLFSPDM_MAX_SPDM_VERSION : Z := SPDM_VERSION_14.
Definition WOLFSPDM_MIN_SPDM_VERSION : Z := SPDM_VERSION_12.
Definition WOLFSPDM_RUN_NONE : Z := 0.
Definition WOLFSPDM_RUN_LIVE : Z := 1.
Definition WOLFSPDM_RUN_OPEN : Z := 2.

(** *** TCG binding *)

Definition WOLFSPDM_TCG_TAG_CLEAR : Z := 0x8101.
Definition WOLFSPDM_TCG_TAG_SECURED : Z := 0x8201.
Definition WOLFSPDM_TCG_HEADER_SIZE : Z := 16.
Definition WOLFSPDM_VDCODE_LEN : Z := 8.
Definition WOLFSPDM_SPDMONLY_LOCK : Z := 0x01.
Definition WOLFSPDM_SPDMONLY_UNLOCK : Z := 0x00.
Definition WOLFSPDM_FIPS_NON_FIPS : Z := 0x00.
Definition WOLFSPDM_NUVOTON_CONN_HANDLE_DEFAULT : Z := 0.
Definition WOLFSPDM_NUVOTON_FIPS_DEFAULT : Z := WOLFSPDM_FIPS_NON_FIPS.
Definition WOLFSPDM_TCG_CAPS_FLAGS_DEFAULT : Z := 0x000193c0.
Definition WOLFSPDM_TCG_CAPS_FLAGS_PSK : Z := 0x000197c0.

(** *** Attestation sizes *)

Definition SPDM_NONCE_SZ : Z := 32.
Definition SPDM_REQ_CONTEXT_SZ : Z := 8.
Definition WOLFSPDM_ATTEST_TAIL_SZ : Z := 2 + 512 + SPDM_REQ_CONTEXT_SZ + WOLFSPDM_MAX_SIG_SIZE.
Definition SPDM_CHUNK_HDR_SZ : Z := 12.
Definition SPDM_CHUNK_FIRST_HDR_SZ : Z := (SPDM_CHUNK_HDR_SZ + 4).

(** *** Protocol modes (enum WOLFSPDM_MODE) *)

Definition WOLFSPDM_MODE_AUTO : Z := 0.
Definition WOLFSPDM_MODE_NUVOTON : Z := 1.
Definition WOLFSPDM_MODE_NATIONS : Z := 2.
Definition WOLFSPDM_MODE_NATIONS_PSK : Z := 3.
Definition WOLFSPDM_MODE_TCG : Z := 4.

(** *** Overridable sizes

    The two [#error] lines of spdm_types.h are the law [cfg_dts]; the
    declared array sizes are positive. *)

Class Config := {
  WOLFSPDM_MAX_MSG_SIZE : Z;
  WOLFSPDM_DATA_TRANSFER_SIZE : Z;
  WOLFSPDM_MAX_TRANSCRIPT : Z;
  WOLFSPDM_MAX_CERT_CHAIN : Z;
  WOLFSPDM_MAX_TRUSTED_CA : Z;
  WOLFSPDM_MAX_MEAS_RECORD : Z;
  cfg_dts : SPDM_MIN_DATA_TRANSFER_SIZE <= WOLFSPDM_DATA_TRANSFER_SIZE
            <= WOLFSPDM_MAX_MSG_SIZE;
  cfg_pos : 0 < WOLFSPDM_MAX_TRANSCRIPT /\ 0 < WOLFSPDM_MAX_CERT_CHAIN /\
            0 < WOLFSPDM_MAX_TRUSTED_CA /\ 0 < WOLFSPDM_MAX_MEAS_RECORD
}.

(** The sizes of a build that overrides nothing. *)
Definition default_config : Config.
Proof.
  refine {|
    WOLFSPDM_MAX_MSG_SIZE := 8192; WOLFSPDM_DATA_TRANSFER_SIZE := 8192;
    WOLFSPDM_MAX_TRANSCRIPT := 16384; WOLFSPDM_MAX_CERT_CHAIN := 24576;
    WOLFSPDM_MAX_TRUSTED_CA := 8192; WOLFSPDM_MAX_MEAS_RECORD := 1024 |};
  cbv; intuition discriminate.
Defined.

(** A constrained target that overrides the transcript and message sizes. *)
Definition small_config : Config.
Proof.
  refine {|
    WOLFSPDM_MAX_MSG_SIZE := 512; WOLFSPDM_DATA_TRANSFER_SIZE := 64;
    WOLFSPDM_MAX_TRANSCRIPT := 1024; WOLFSPDM_MAX_CERT_CHAIN := 256;
    WOLFSPDM_MAX_TRUSTED_CA := 128; WOLFSPDM_MAX_MEAS_RECORD := 64 |};
  cbv; intuition discriminate.
Defined.

(** Single-message buffers; the TCG binding is never chunked. *)
Definition WOLFSPDM_XFER_MSG_SIZE `{Config} : Z := WOLFSPDM_MAX_MSG_SIZE.

(** Capabilities the requester advertises. *)
Definition WOLFSPDM_REQ_CAPS : Z :=
  Z.lor (Z.lor (Z.lor (Z.lor (Z.lor SPDM_CAP_ENCRYPT_CAP SPDM_CAP_MAC_CAP)
    SPDM_CAP_KEY_EX_CAP) SPDM_CAP_HBEAT_CAP) SPDM_CAP_KEY_UPD_CAP) SPDM_CAP_CHUNK_CAP.

(** Largest certificate portion requested per GET_CERTIFICATE. *)
Definition WOLFSPDM_CERT_PORTION_SZ `{Config} : Z :=
  if WOLFSPDM_DATA_TRANSFER_SIZE <? 1024 + 8 then WOLFSPDM_DATA_TRANSFER_SIZE - 8
  else 1024.

(** Key derivation labels (DSP0277). *)
Definition SPDM_BIN_CONCAT_PREFIX_12 : bytes := str "spdm1.2 ".
Definition SPDM_BIN_CONCAT_PREFIX_13 : bytes := str "spdm1.3 ".
Definition SPDM_BIN_CONCAT_PREFIX_14 : bytes := str "spdm1.4 ".
Definition SPDM_LABEL_REQ_HS_DATA : bytes := str "req hs data".
Definition SPDM_LABEL_RSP_HS_DATA : bytes := str "rsp hs data".
Definition SPDM_LABEL_REQ_DATA : bytes := str "req app data".
Definition SPDM_LABEL_RSP_DATA : bytes := str "rsp app data".
Definition SPDM_LABEL_FINISHED : bytes := str "finished".
Definition SPDM_LABEL_KEY : bytes := str "key".
Definition SPDM_LABEL_IV : bytes := str "iv".
Definition SPDM_LABEL_UPDATE : bytes := str "traffic upd".

(** Vendor codes (8-byte ASCII). *)
Definition WOLFSPDM_VDCODE_TPM2_CMD : bytes := str "TPM2_CMD".
Definition WOLFSPDM_VDCODE_GET_PUBK : bytes := str "GET_PUBK".
Definition WOLFSPDM_VDCODE_GIVE_PUB : bytes := str "GIVE_PUB".
Definition WOLFSPDM_VDCODE_GET_STS : bytes := str "GET_STS_".
Definition WOLFSPDM_VDCODE_SPDMONLY : bytes := str "SPDMONLY".

(** *** The sizes and versions as integers for [lia] *)

#[global] Instance zc_SPDM_VERSION_10 : CstOp SPDM_VERSION_10 := {TCst := 16; TCstInj := eq_refl}.
Add Zify CstOp zc_SPDM_VERSION_10.
#[global] Instance zc_SPDM_VERSION_12 : CstOp SPDM_VERSION_12 := {TCst := 18; TCstInj := eq_refl}.
Add Zify CstOp zc_SPDM_VERSION_12.
#[global] Instance zc_SPDM_VERSION_13 : CstOp SPDM_VERSION_13 := {TCst := 19; TCstInj := eq_refl}.
Add Zify CstOp zc_SPDM_VERSION_13.
#[global] Instance zc_SPDM_VERSION_14 : CstOp SPDM_VERSION_14 := {TCst := 20; TCstInj := eq_refl}.
Add Zify CstOp zc_SPDM_VERSION_14.
#[global] Instance zc_SPDM_GET_VERSION : CstOp SPDM_GET_VERSION := {TCst := 132; TCstInj := eq_refl}.
Add Zify CstOp zc_SPDM_GET_VERSION.
#[global] Instance zc_SPDM_KEY_EXCHANGE : CstOp SPDM_KEY_EXCHANGE := {TCst := 228; TCstInj := eq_refl}.
Add Zify CstOp zc_SPDM_KEY_EXCHANGE.
#[global] Instance zc_SPDM_FINISH : CstOp SPDM_FINISH := {TCst := 229; TCstInj := eq_refl}.
Add Zify CstOp zc_SPDM_FINISH.
#[global] Instance zc_SPDM_END_SESSION : CstOp SPDM_END_SESSION := {TCst := 236; TCstInj := eq_refl}.
Add Zify CstOp zc_SPDM_END_SESSION.
#[global] Instance zc_SPDM_VENDOR_DEFINED_REQUEST : CstOp SPDM_VENDOR_DEFINED_REQUEST := {TCst := 254; TCstInj := eq_refl}.
Add Zify CstOp zc_SPDM_VENDOR_DEFINED_REQUEST.
#[global] Instance zc_SPDM_VERSION : CstOp SPDM_VERSION := {TCst := 4; TCstInj := eq_refl}.
Add Zify CstOp zc_SPDM_VERSION.
#[global] Instance zc_SPDM_KEY_EXCHANGE_RSP : CstOp SPDM_KEY_EXCHANGE_RSP := {TCst := 100; TCstInj := eq_refl}.
Add Zify CstOp zc_SPDM_KEY_EXCHANGE_RSP.
#[global] Instance zc_SPDM_FINISH_RSP : CstOp SPDM_FINISH_RSP := {TCst := 101; TCstInj := eq_refl}.
Add Zify CstOp zc_SPDM_FINISH_RSP.
#[global] Instance zc_SPDM_END_SESSION_ACK : CstOp SPDM_END_SESSION_ACK := {TCst := 108; TCstInj := eq_refl}.
Add Zify CstOp zc_SPDM_END_SESSION_ACK.
#[global] Instance zc_SPDM_ERROR : CstOp SPDM_ERROR := {TCst := 127; TCstInj := eq_refl}.
Add Zify CstOp zc_SPDM_ERROR.
#[global] Instance zc_SPDM_HEARTBEAT : CstOp SPDM_HEARTBEAT := {TCst := 232; TCstInj := eq_refl}.
Add Zify CstOp zc_SPDM_HEARTBEAT.
#[global] Instance zc_SPDM_HEARTBEAT_ACK : CstOp SPDM_HEARTBEAT_ACK := {TCst := 104; TCstInj := eq_refl}.
Add Zify CstOp zc_SPDM_HEARTBEAT_ACK.
#[global] Instance zc_SPDM_KEY_UPDATE : CstOp SPDM_KEY_UPDATE := {TCst := 233; TCstInj := eq_refl}.
Add Zify CstOp zc_SPDM_KEY_UPDATE.
#[global] Instance zc_SPDM_KEY_UPDATE_ACK : CstOp SPDM_KEY_UPDATE_ACK := {TCst := 105; TCstInj := eq_refl}.
Add Zify CstOp zc_SPDM_KEY_UPDATE_ACK.
#[global] Instance zc_SPDM_KEY_UPDATE_OP_UPDATE_KEY : CstOp SPDM_KEY_UPDATE_OP_UPDATE_KEY := {TCst := 1; TCstInj := eq_refl}.
Add Zify CstOp zc_SPDM_KEY_UPDATE_OP_UPDATE_KEY.
#[global] Instance zc_SPDM_KEY_UPDATE_OP_UPDATE_ALL_KEYS : CstOp SPDM_KEY_UPDATE_OP_UPDATE_ALL_KEYS := {TCst := 2; TCstInj := eq_refl}.
Add Zify CstOp zc_SPDM_KEY_UPDATE_OP_UPDATE_ALL_KEYS.
#[global] Instance zc_SPDM_KEY_UPDATE_OP_VERIFY_NEW_KEY : CstOp SPDM_KEY_UPDATE_OP_VERIFY_NEW_KEY := {TCst := 3; TCstInj := eq_refl}.
Add Zify CstOp zc_SPDM_KEY_UPDATE_OP_VERIFY_NEW_KEY.
#[global] Instance zc_SPDM_GET_DIGESTS : CstOp SPDM_GET_DIGESTS := {TCst := 129; TCstInj := eq_refl}.
Add Zify CstOp zc_SPDM_GET_DIGESTS.
#[global] Instance zc_SPDM_GET_CERTIFICATE : CstOp SPDM_GET_CERTIFICATE := {TCst := 130; TCstInj := eq_refl}.
Add Zify CstOp zc_SPDM_GET_CERTIFICATE.
#[global] Instance zc_SPDM_GET_CAPABILITIES : CstOp SPDM_GET_CAPABILITIES := {TCst := 225; TCstInj := eq_refl}.
Add Zify CstOp zc_SPDM_GET_CAPABILITIES.
#[global] Instance zc_SPDM_NEGOTIATE_ALGORITHMS : CstOp SPDM_NEGOTIATE_ALGORITHMS := {TCst := 227; TCstInj := eq_refl}.
Add Zify CstOp zc_SPDM_NEGOTIATE_ALGORITHMS.
#[global] Instance zc_SPDM_DIGESTS : CstOp SPDM_DIGESTS := {TCst := 1; TCstInj := eq_refl}.
Add Zify CstOp zc_SPDM_DIGESTS.
#[global] Instance zc_SPDM_CERTIFICATE : CstOp SPDM_CERTIFICATE := {TCst := 2; TCstInj := eq_refl}.
Add Zify CstOp zc_SPDM_CERTIFICATE.
#[global] Instance zc_SPDM_CAPABILITIES : CstOp SPDM_CAPABILITIES := {TCst := 97; TCstInj := eq_refl}.
Add Zify CstOp zc_SPDM_CAPABILITIES.
#[global] Instance zc_SPDM_ALGORITHMS : CstOp SPDM_ALGORITHMS := {TCst := 99; TCstInj := eq_refl}.
Add Zify CstOp zc_SPDM_ALGORITHMS.
#[global] Instance zc_SPDM_GET_MEASUREMENTS : CstOp SPDM_GET_MEASUREMENTS := {TCst := 224; TCstInj := eq_refl}.
Add Zify CstOp zc_SPDM_GET_MEASUREMENTS.
#[global] Instance zc_SPDM_MEASUREMENTS : CstOp SPDM_MEASUREMENTS := {TCst := 96; TCstInj := eq_refl}.
Add Zify CstOp zc_SPDM_MEASUREMENTS.
#[global] Instance zc_SPDM_CHALLENGE : CstOp SPDM_CHALLENGE := {TCst := 131; TCstInj := eq_refl}.
Add Zify CstOp zc_SPDM_CHALLENGE.
#[global] Instance zc_SPDM_CHALLENGE_AUTH : CstOp SPDM_CHALLENGE_AUTH := {TCst := 3; TCstInj := eq_refl}.
Add Zify CstOp zc_SPDM_CHALLENGE_AUTH.
#[global] Instance zc_SPDM_CHUNK_SEND : CstOp SPDM_CHUNK_SEND := {TCst := 133; TCstInj := eq_refl}.
Add Zify CstOp zc_SPDM_CHUNK_SEND.
#[global] Instance zc_SPDM_CHUNK_GET : CstOp SPDM_CHUNK_GET := {TCst := 134; TCstInj := eq_refl}.
Add Zify CstOp zc_SPDM_CHUNK_GET.
#[global] Instance zc_SPDM_CHUNK_SEND_ACK : CstOp SPDM_CHUNK_SEND_ACK := {TCst := 5; TCstInj := eq_refl}.
Add Zify CstOp zc_SPDM_CHUNK_SEND_ACK.
#[global] Instance zc_SPDM_CHUNK_RESPONSE : CstOp SPDM_CHUNK_RESPONSE := {TCst := 6; TCstInj := eq_refl}.
Add Zify CstOp zc_SPDM_CHUNK_RESPONSE.
#[global] Instance zc_SPDM_PSK_EXCHANGE : CstOp SPDM_PSK_EXCHANGE := {TCst := 230; TCstInj := eq_refl}.
Add Zify CstOp zc_SPDM_PSK_EXCHANGE.
#[global] Instance zc_SPDM_PSK_EXCHANGE_RSP : CstOp SPDM_PSK_EXCHANGE_RSP := {TCst := 102; TCstInj := eq_refl}.
Add Zify CstOp zc_SPDM_PSK_EXCHANGE_RSP.
#[global] Instance zc_SPDM_PSK_FINISH : CstOp SPDM_PSK_FINISH := {TCst := 231; TCstInj := eq_refl}.
Add Zify CstOp zc_SPDM_PSK_FINISH.
#[global] Instance zc_SPDM_PSK_FINISH_RSP : CstOp SPDM_PSK_FINISH_RSP := {TCst := 103; TCstInj := eq_refl}.
Add Zify CstOp zc_SPDM_PSK_FINISH_RSP.
#[global] Instance zc_WOLFSPDM_HASH_SIZE : CstOp WOLFSPDM_HASH_SIZE := {TCst := 48; TCstInj := eq_refl}.
Add Zify CstOp zc_WOLFSPDM_HASH_SIZE.
#[global] Instance zc_WOLFSPDM_ECC_KEY_SIZE : CstOp WOLFSPDM_ECC_KEY_SIZE := {TCst := 48; TCstInj := eq_refl}.
Add Zify CstOp zc_WOLFSPDM_ECC_KEY_SIZE.
#[global] Instance zc_WOLFSPDM_ECC_POINT_SIZE : CstOp WOLFSPDM_ECC_POINT_SIZE := {TCst := 96; TCstInj := eq_refl}.
Add Zify CstOp zc_WOLFSPDM_ECC_POINT_SIZE.
#[global] Instance zc_WOLFSPDM_ECC_SIG_SIZE : CstOp WOLFSPDM_ECC_SIG_SIZE := {TCst := 96; TCstInj := eq_refl}.
Add Zify CstOp zc_WOLFSPDM_ECC_SIG_SIZE.
#[global] Instance zc_WOLFSPDM_AEAD_KEY_SIZE : CstOp WOLFSPDM_AEAD_KEY_SIZE := {TCst := 32; TCstInj := eq_refl}.
Add Zify CstOp zc_WOLFSPDM_AEAD_KEY_SIZE.
#[global] Instance zc_WOLFSPDM_AEAD_IV_SIZE : CstOp WOLFSPDM_AEAD_IV_SIZE := {TCst := 12; TCstInj := eq_refl}.
Add Zify CstOp zc_WOLFSPDM_AEAD_IV_SIZE.
#[global] Instance zc_WOLFSPDM_AEAD_TAG_SIZE : CstOp WOLFSPDM_AEAD_TAG_SIZE := {TCst := 16; TCstInj := eq_refl}.
Add Zify CstOp zc_WOLFSPDM_AEAD_TAG_SIZE.
#[global] Instance zc_WOLFSPDM_SECURED_PAD : CstOp WOLFSPDM_SECURED_PAD := {TCst := 48; TCstInj := eq_refl}.
Add Zify CstOp zc_WOLFSPDM_SECURED_PAD.
#[global] Instance zc_WOLFSPDM_AEAD_OVERHEAD : CstOp WOLFSPDM_AEAD_OVERHEAD := {TCst := 80; TCstInj := eq_refl}.
Add Zify CstOp zc_WOLFSPDM_AEAD_OVERHEAD.
#[global] Instance zc_WOLFSPDM_RANDOM_SIZE : CstOp WOLFSPDM_RANDOM_SIZE := {TCst := 32; TCstInj := eq_refl}.
Add Zify CstOp zc_WOLFSPDM_RANDOM_SIZE.
#[global] Instance zc_MCTP_MESSAGE_TYPE_SPDM : CstOp MCTP_MESSAGE_TYPE_SPDM := {TCst := 5; TCstInj := eq_refl}.
Add Zify CstOp zc_MCTP_MESSAGE_TYPE_SPDM.
#[global] Instance zc_SPDM_BIN_CONCAT_PREFIX_LEN : CstOp SPDM_BIN_CONCAT_PREFIX_LEN := {TCst := 8; TCstInj := eq_refl}.
Add Zify CstOp zc_SPDM_BIN_CONCAT_PREFIX_LEN.
#[global] Instance zc_WOLFSPDM_FINISH_BUF_SZ : CstOp WOLFSPDM_FINISH_BUF_SZ := {TCst := 152; TCstInj := eq_refl}.
Add Zify CstOp zc_WOLFSPDM_FINISH_BUF_SZ.
#[global] Instance zc_WOLFSPDM_FINISH_OPAQUE_MAX : CstOp WOLFSPDM_FINISH_OPAQUE_MAX := {TCst := 256; TCstInj := eq_refl}.
Add Zify CstOp zc_WOLFSPDM_FINISH_OPAQUE_MAX.
#[global] Instance zc_WOLFSPDM_FINISH_RSP_MAX : CstOp WOLFSPDM_FINISH_RSP_MAX := {TCst := 262; TCstInj := eq_refl}.
Add Zify CstOp zc_WOLFSPDM_FINISH_RSP_MAX.
#[global] Instance zc_WOLFSPDM_VENDOR_BUF_SZ : CstOp WOLFSPDM_VENDOR_BUF_SZ := {TCst := 256; TCstInj := eq_refl}.
Add Zify CstOp zc_WOLFSPDM_VENDOR_BUF_SZ.
#[global] Instance zc_WOLFSPDM_VENDOR_RX_SZ : CstOp WOLFSPDM_VENDOR_RX_SZ := {TCst := 512; TCstInj := eq_refl}.
Add Zify CstOp zc_WOLFSPDM_VENDOR_RX_SZ.
#[global] Instance zc_WOLFSPDM_PUBKEY_BUF_SZ : CstOp WOLFSPDM_PUBKEY_BUF_SZ := {TCst := 256; TCstInj := eq_refl}.
Add Zify CstOp zc_WOLFSPDM_PUBKEY_BUF_SZ.
#[global] Instance zc_WOLFSPDM_MLDSA44_SIG_SIZE : CstOp WOLFSPDM_MLDSA44_SIG_SIZE := {TCst := 2420; TCstInj := eq_refl}.
Add Zify CstOp zc_WOLFSPDM_MLDSA44_SIG_SIZE.
#[global] Instance zc_WOLFSPDM_MLDSA65_SIG_SIZE : CstOp WOLFSPDM_MLDSA65_SIG_SIZE := {TCst := 3309; TCstInj := eq_refl}.
Add Zify CstOp zc_WOLFSPDM_MLDSA65_SIG_SIZE.
#[global] Instance zc_WOLFSPDM_MLDSA87_SIG_SIZE : CstOp WOLFSPDM_MLDSA87_SIG_SIZE := {TCst := 4627; TCstInj := eq_refl}.
Add Zify CstOp zc_WOLFSPDM_MLDSA87_SIG_SIZE.
#[global] Instance zc_WOLFSPDM_MAX_SIG_SIZE : CstOp WOLFSPDM_MAX_SIG_SIZE := {TCst := 4627; TCstInj := eq_refl}.
Add Zify CstOp zc_WOLFSPDM_MAX_SIG_SIZE.
#[global] Instance zc_WOLFSPDM_RSP_PUBKEY_SZ : CstOp WOLFSPDM_RSP_PUBKEY_SZ := {TCst := 2592; TCstInj := eq_refl}.
Add Zify CstOp zc_WOLFSPDM_RSP_PUBKEY_SZ.
#[global] Instance zc_WOLFSPDM_MAX_KEX_DATA : CstOp WOLFSPDM_MAX_KEX_DATA := {TCst := 1568; TCstInj := eq_refl}.
Add Zify CstOp zc_WOLFSPDM_MAX_KEX_DATA.
#[global] Instance zc_WOLFSPDM_KEY_EX_TX_SZ : CstOp WOLFSPDM_KEY_EX_TX_SZ := {TCst := 1664; TCstInj := eq_refl}.
Add Zify CstOp zc_WOLFSPDM_KEY_EX_TX_SZ.
#[global] Instance zc_WOLFSPDM_KEY_EX_RX_SZ : CstOp WOLFSPDM_KEY_EX_RX_SZ := {TCst := 6387; TCstInj := eq_refl}.
Add Zify CstOp zc_WOLFSPDM_KEY_EX_RX_SZ.
#[global] Instance zc_WOLFSPDM_NEG_ALGO_SZ : CstOp WOLFSPDM_NEG_ALGO_SZ := {TCst := 52; TCstInj := eq_refl}.
Add Zify CstOp zc_WOLFSPDM_NEG_ALGO_SZ.
#[global] Instance zc_WOLFSPDM_CERT_CHAIN_HDR_SZ : CstOp WOLFSPDM_CERT_CHAIN_HDR_SZ := {TCst := 52; TCstInj := eq_refl}.
Add Zify CstOp zc_WOLFSPDM_CERT_CHAIN_HDR_SZ.
#[global] Instance zc_WOLFSPDM_PSK_MAX_SIZE : CstOp WOLFSPDM_PSK_MAX_SIZE := {TCst := 64; TCstInj := eq_refl}.
Add Zify CstOp zc_WOLFSPDM_PSK_MAX_SIZE.
#[global] Instance zc_WOLFSPDM_PSK_HINT_MAX : CstOp WOLFSPDM_PSK_HINT_MAX := {TCst := 32; TCstInj := eq_refl}.
Add Zify CstOp zc_WOLFSPDM_PSK_HINT_MAX.
#[global] Instance zc_SPDM_MIN_DATA_TRANSFER_SIZE : CstOp SPDM_MIN_DATA_TRANSFER_SIZE := {TCst := 42; TCstInj := eq_refl}.
Add Zify CstOp zc_SPDM_MIN_DATA_TRANSFER_SIZE.
#[global] Instance zc_WOLFSPDM_MEAS_BLOCK_HDR_SZ : CstOp WOLFSPDM_MEAS_BLOCK_HDR_SZ := {TCst := 4; TCstInj := eq_refl}.
Add Zify CstOp zc_WOLFSPDM_MEAS_BLOCK_HDR_SZ.
#[global] Instance zc_WOLFSPDM_SUCCESS : CstOp WOLFSPDM_SUCCESS := {TCst := 0; TCstInj := eq_refl}.
Add Zify CstOp zc_WOLFSPDM_SUCCESS.
#[global] Instance zc_WOLFSPDM_E_INVALID_ARG : CstOp WOLFSPDM_E_INVALID_ARG := {TCst := -1; TCstInj := eq_refl}.
Add Zify CstOp zc_WOLFSPDM_E_INVALID_ARG.
#[global] Instance zc_WOLFSPDM_E_BUFFER_SMALL : CstOp WOLFSPDM_E_BUFFER_SMALL := {TCst := -2; TCstInj := eq_refl}.
Add Zify CstOp zc_WOLFSPDM_E_BUFFER_SMALL.
#[global] Instance zc_WOLFSPDM_E_BAD_STATE : CstOp WOLFSPDM_E_BAD_STATE := {TCst := -3; TCstInj := eq_refl}.
Add Zify CstOp zc_WOLFSPDM_E_BAD_STATE.
#[global] Instance zc_WOLFSPDM_E_VERSION_MISMATCH : CstOp WOLFSPDM_E_VERSION_MISMATCH := {TCst := -4; TCstInj := eq_refl}.
Add Zify CstOp zc_WOLFSPDM_E_VERSION_MISMATCH.
#[global] Instance zc_WOLFSPDM_E_CRYPTO_FAIL : CstOp WOLFSPDM_E_CRYPTO_FAIL := {TCst := -5; TCstInj := eq_refl}.
Add Zify CstOp zc_WOLFSPDM_E_CRYPTO_FAIL.
#[global] Instance zc_WOLFSPDM_E_BAD_SIGNATURE : CstOp WOLFSPDM_E_BAD_SIGNATURE := {TCst := -6; TCstInj := eq_refl}.
Add Zify CstOp zc_WOLFSPDM_E_BAD_SIGNATURE.
#[global] Instance zc_WOLFSPDM_E_BAD_HMAC : CstOp WOLFSPDM_E_BAD_HMAC := {TCst := -7; TCstInj := eq_refl}.
Add Zify CstOp zc_WOLFSPDM_E_BAD_HMAC.
#[global] Instance zc_WOLFSPDM_E_IO_FAIL : CstOp WOLFSPDM_E_IO_FAIL := {TCst := -8; TCstInj := eq_refl}.
Add Zify CstOp zc_WOLFSPDM_E_IO_FAIL.
#[global] Instance zc_WOLFSPDM_E_TIMEOUT : CstOp WOLFSPDM_E_TIMEOUT := {TCst := -9; TCstInj := eq_refl}.
Add Zify CstOp zc_WOLFSPDM_E_TIMEOUT.
#[global] Instance zc_WOLFSPDM_E_PEER_ERROR : CstOp WOLFSPDM_E_PEER_ERROR := {TCst := -10; TCstInj := eq_refl}.
Add Zify CstOp zc_WOLFSPDM_E_PEER_ERROR.
#[global] Instance zc_WOLFSPDM_E_DECRYPT_FAIL : CstOp WOLFSPDM_E_DECRYPT_FAIL := {TCst := -11; TCstInj := eq_refl}.
Add Zify CstOp zc_WOLFSPDM_E_DECRYPT_FAIL.
#[global] Instance zc_WOLFSPDM_E_SEQUENCE : CstOp WOLFSPDM_E_SEQUENCE := {TCst := -12; TCstInj := eq_refl}.
Add Zify CstOp zc_WOLFSPDM_E_SEQUENCE.
#[global] Instance zc_WOLFSPDM_E_NOT_CONNECTED : CstOp WOLFSPDM_E_NOT_CONNECTED := {TCst := -13; TCstInj := eq_refl}.
Add Zify CstOp zc_WOLFSPDM_E_NOT_CONNECTED.
#[global] Instance zc_WOLFSPDM_E_ALREADY_INIT : CstOp WOLFSPDM_E_ALREADY_INIT := {TCst := -14; TCstInj := eq_refl}.
Add Zify CstOp zc_WOLFSPDM_E_ALREADY_INIT.
#[global] Instance zc_WOLFSPDM_E_NO_MEMORY : CstOp WOLFSPDM_E_NO_MEMORY := {TCst := -15; TCstInj := eq_refl}.
Add Zify CstOp zc_WOLFSPDM_E_NO_MEMORY.
#[global] Instance zc_WOLFSPDM_E_SESSION_INVALID : CstOp WOLFSPDM_E_SESSION_INVALID := {TCst := -16; TCstInj := eq_refl}.
Add Zify CstOp zc_WOLFSPDM_E_SESSION_INVALID.
#[global] Instance zc_WOLFSPDM_E_KEY_EXCHANGE : CstOp WOLFSPDM_E_KEY_EXCHANGE := {TCst := -17; TCstInj := eq_refl}.
Add Zify CstOp zc_WOLFSPDM_E_KEY_EXCHANGE.
#[global] Instance zc_WOLFSPDM_E_NOT_AVAILABLE : CstOp WOLFSPDM_E_NOT_AVAILABLE := {TCst := -18; TCstInj := eq_refl}.
Add Zify CstOp zc_WOLFSPDM_E_NOT_AVAILABLE.
#[global] Instance zc_WOLFSPDM_E_FRAMING : CstOp WOLFSPDM_E_FRAMING := {TCst := -19; TCstInj := eq_refl}.
Add Zify CstOp zc_WOLFSPDM_E_FRAMING.
#[global] Instance zc_WOLFSPDM_E_NOT_IMPL : CstOp WOLFSPDM_E_NOT_IMPL := {TCst := -20; TCstInj := eq_refl}.
Add Zify CstOp zc_WOLFSPDM_E_NOT_IMPL.
#[global] Instance zc_WOLFSPDM_E_CERT_FAIL : CstOp WOLFSPDM_E_CERT_FAIL := {TCst := -21; TCstInj := eq_refl}.
Add Zify CstOp zc_WOLFSPDM_E_CERT_FAIL.
#[global] Instance zc_WOLFSPDM_E_CAPS_MISMATCH : CstOp WOLFSPDM_E_CAPS_MISMATCH := {TCst := -22; TCstInj := eq_refl}.
Add Zify CstOp zc_WOLFSPDM_E_CAPS_MISMATCH.
#[global] Instance zc_WOLFSPDM_E_ALGO_MISMATCH : CstOp WOLFSPDM_E_ALGO_MISMATCH := {TCst := -23; TCstInj := eq_refl}.
Add Zify CstOp zc_WOLFSPDM_E_ALGO_MISMATCH.
#[global] Instance zc_WOLFSPDM_E_CERT_PARSE : CstOp WOLFSPDM_E_CERT_PARSE := {TCst := -24; TCstInj := eq_refl}.
Add Zify CstOp zc_WOLFSPDM_E_CERT_PARSE.
#[global] Instance zc_WOLFSPDM_E_KEY_UPDATE : CstOp WOLFSPDM_E_KEY_UPDATE := {TCst := -25; TCstInj := eq_refl}.
Add Zify CstOp zc_WOLFSPDM_E_KEY_UPDATE.
#[global] Instance zc_WOLFSPDM_E_MEASUREMENT : CstOp WOLFSPDM_E_MEASUREMENT := {TCst := -26; TCstInj := eq_refl}.
Add Zify CstOp zc_WOLFSPDM_E_MEASUREMENT.
#[global] Instance zc_WOLFSPDM_E_CHALLENGE : CstOp WOLFSPDM_E_CHALLENGE := {TCst := -27; TCstInj := eq_refl}.
Add Zify CstOp zc_WOLFSPDM_E_CHALLENGE.
#[global] Instance zc_WOLFSPDM_E_CHUNK : CstOp WOLFSPDM_E_CHUNK := {TCst := -28; TCstInj := eq_refl}.
Add Zify CstOp zc_WOLFSPDM_E_CHUNK.
#[global] Instance zc_WOLFSPDM_E_MEAS_NOT_VERIFIED : CstOp WOLFSPDM_E_MEAS_NOT_VERIFIED := {TCst := -1000; TCstInj := eq_refl}.
Add Zify CstOp zc_WOLFSPDM_E_MEAS_NOT_VERIFIED.
#[global] Instance zc_WOLFSPDM_STATE_INIT : CstOp WOLFSPDM_STATE_INIT := {TCst := 0; TCstInj := eq_refl}.
Add Zify CstOp zc_WOLFSPDM_STATE_INIT.
#[global] Instance zc_WOLFSPDM_STATE_VERSION : CstOp WOLFSPDM_STATE_VERSION := {TCst := 1; TCstInj := eq_refl}.
Add Zify CstOp zc_WOLFSPDM_STATE_VERSION.
#[global] Instance zc_WOLFSPDM_STATE_CERT : CstOp WOLFSPDM_STATE_CERT := {TCst := 2; TCstInj := eq_refl}.
Add Zify CstOp zc_WOLFSPDM_STATE_CERT.
#[global] Instance zc_WOLFSPDM_STATE_KEY_EX : CstOp WOLFSPDM_STATE_KEY_EX := {TCst := 3; TCstInj := eq_refl}.
Add Zify CstOp zc_WOLFSPDM_STATE_KEY_EX.
#[global] Instance zc_WOLFSPDM_STATE_FINISH : CstOp WOLFSPDM_STATE_FINISH := {TCst := 4; TCstInj := eq_refl}.
Add Zify CstOp zc_WOLFSPDM_STATE_FINISH.
#[global] Instance zc_WOLFSPDM_STATE_CONNECTED : CstOp WOLFSPDM_STATE_CONNECTED := {TCst := 5; TCstInj := eq_refl}.
Add Zify CstOp zc_WOLFSPDM_STATE_CONNECTED.
#[global] Instance zc_WOLFSPDM_STATE_ERROR : CstOp WOLFSPDM_STATE_ERROR := {TCst := 6; TCstInj := eq_refl}.
Add Zify CstOp zc_WOLFSPDM_STATE_ERROR.
#[global] Instance zc_WOLFSPDM_MAX_SPDM_VERSION : CstOp WOLFSPDM_MAX_SPDM_VERSION := {TCst := 20; TCstInj := eq_refl}.
Add Zify CstOp zc_WOLFSPDM_MAX_SPDM_VERSION.
#[global] Instance zc_WOLFSPDM_MIN_SPDM_VERSION : CstOp WOLFSPDM_MIN_SPDM_VERSION := {TCst := 18; TCstInj := eq_refl}.
Add Zify CstOp zc_WOLFSPDM_MIN_SPDM_VERSION.
#[global] Instance zc_WOLFSPDM_RUN_NONE : CstOp WOLFSPDM_RUN_NONE := {TCst := 0; TCstInj := eq_refl}.
Add Zify CstOp zc_WOLFSPDM_RUN_NONE.
#[global] Instance zc_WOLFSPDM_RUN_LIVE : CstOp WOLFSPDM_RUN_LIVE := {TCst := 1; TCstInj := eq_refl}.
Add Zify CstOp zc_WOLFSPDM_RUN_LIVE.
#[global] Instance zc_WOLFSPDM_RUN_OPEN : CstOp WOLFSPDM_RUN_OPEN := {TCst := 2; TCstInj := eq_refl}.
Add Zify CstOp zc_WOLFSPDM_RUN_OPEN.
#[global] Instance zc_WOLFSPDM_TCG_TAG_CLEAR : CstOp WOLFSPDM_TCG_TAG_CLEAR := {TCst := 33025; TCstInj := eq_refl}.
Add Zify CstOp zc_WOLFSPDM_TCG_TAG_CLEAR.
#[global] Instance zc_WOLFSPDM_TCG_TAG_SECURED : CstOp WOLFSPDM_TCG_TAG_SECURED := {TCst := 33281; TCstInj := eq_refl}.
Add Zify CstOp zc_WOLFSPDM_TCG_TAG_SECURED.
#[global] Instance zc_WOLFSPDM_TCG_HEADER_SIZE : CstOp WOLFSPDM_TCG_HEADER_SIZE := {TCst := 16; TCstInj := eq_refl}.
Add Zify CstOp zc_WOLFSPDM_TCG_HEADER_SIZE.
#[global] Instance zc_WOLFSPDM_VDCODE_LEN : CstOp WOLFSPDM_VDCODE_LEN := {TCst := 8; TCstInj := eq_refl}.
Add Zify CstOp zc_WOLFSPDM_VDCODE_LEN.
#[global] Instance zc_WOLFSPDM_SPDMONLY_LOCK : CstOp WOLFSPDM_SPDMONLY_LOCK := {TCst := 1; TCstInj := eq_refl}.
Add Zify CstOp zc_WOLFSPDM_SPDMONLY_LOCK.
#[global] Instance zc_WOLFSPDM_SPDMONLY_UNLOCK : CstOp WOLFSPDM_SPDMONLY_UNLOCK := {TCst := 0; TCstInj := eq_refl}.
Add Zify CstOp zc_WOLFSPDM_SPDMONLY_UNLOCK.
#[global] Instance zc_WOLFSPDM_FIPS_NON_FIPS : CstOp WOLFSPDM_FIPS_NON_FIPS := {TCst := 0; TCstInj := eq_refl}.
Add Zify CstOp zc_WOLFSPDM_FIPS_NON_FIPS.
#[global] Instance zc_WOLFSPDM_NUVOTON_CONN_HANDLE_DEFAULT : CstOp WOLFSPDM_NUVOTON_CONN_HANDLE_DEFAULT := {TCst := 0; TCstInj := eq_refl}.
Add Zify CstOp zc_WOLFSPDM_NUVOTON_CONN_HANDLE_DEFAULT.
#[global] Instance zc_WOLFSPDM_NUVOTON_FIPS_DEFAULT : CstOp WOLFSPDM_NUVOTON_FIPS_DEFAULT := {TCst := 0; TCstInj := eq_refl}.
Add Zify CstOp zc_WOLFSPDM_NUVOTON_FIPS_DEFAULT.
#[global] Instance zc_WOLFSPDM_TCG_CAPS_FLAGS_DEFAULT : CstOp WOLFSPDM_TCG_CAPS_FLAGS_DEFAULT := {TCst := 103360; TCstInj := eq_refl}.
Add Zify CstOp zc_WOLFSPDM_TCG_CAPS_FLAGS_DEFAULT.
#[global] Instance zc_WOLFSPDM_TCG_CAPS_FLAGS_PSK : CstOp WOLFSPDM_TCG_CAPS_FLAGS_PSK := {TCst := 104384; TCstInj := eq_refl}.
Add Zify CstOp zc_WOLFSPDM_TCG_CAPS_FLAGS_PSK.
#[global] Instance zc_SPDM_NONCE_SZ : CstOp SPDM_NONCE_SZ := {TCst := 32; TCstInj := eq_refl}.
Add Zify CstOp zc_SPDM_NONCE_SZ.
#[global] Instance zc_SPDM_REQ_CONTEXT_SZ : CstOp SPDM_REQ_CONTEXT_SZ := {TCst := 8; TCstInj := eq_refl}.
Add Zify CstOp zc_SPDM_REQ_CONTEXT_SZ.
#[global] Instance zc_WOLFSPDM_ATTEST_TAIL_SZ : CstOp WOLFSPDM_ATTEST_TAIL_SZ := {TCst := 5149; TCstInj := eq_refl}.
Add Zify CstOp zc_WOLFSPDM_ATTEST_TAIL_SZ.
#[global] Instance zc_SPDM_CHUNK_HDR_SZ : CstOp SPDM_CHUNK_HDR_SZ := {TCst := 12; TCstInj := eq_refl}.
Add Zify CstOp zc_SPDM_CHUNK_HDR_SZ.
#[global] Instance zc_SPDM_CHUNK_FIRST_HDR_SZ : CstOp SPDM_CHUNK_FIRST_HDR_SZ := {TCst := 16; TCstInj := eq_refl}.
Add Zify CstOp zc_SPDM_CHUNK_FIRST_HDR_SZ.
