(* ===== verification/Bytes.v ===== *)
(** * Byte order, IV and compare helpers of src/spdm_internal.h *)
From Stdlib Require Import ZArith Lia.
From stdpp Require Import base tactics list numbers.
From S2P Require Import Prelude Types.

(** A pointer into a buffer is the rest of the buffer; [at_ p i] is [p[i]]. *)
Definition at_ (p : bytes) (i : nat) : Z := nth i p 0.

(** ** Byte-order helpers *)

Definition SPDM_Set16LE (val : Z) : bytes :=
  [Z.land val 0xFF; w8 (Z.shiftr val 8)].

Definition SPDM_Get16LE (buf : bytes) : Z :=
  w16 (Z.lor (at_ buf 0) (Z.shiftl (at_ buf 1) 8)).

Definition SPDM_Set16BE (val : Z) : bytes :=
  [w8 (Z.shiftr val 8); Z.land val 0xFF].

Definition SPDM_Get16BE (buf : bytes) : Z :=
  w16 (Z.lor (Z.shiftl (at_ buf 0) 8) (at_ buf 1)).

Definition SPDM_Set32LE (val : Z) : bytes :=
  [Z.land val 0xFF; Z.land (Z.shiftr val 8) 0xFF;
   Z.land (Z.shiftr val 16) 0xFF; Z.land (Z.shiftr val 24) 0xFF].

Definition SPDM_Get32LE (buf : bytes) : Z :=
  Z.lor (Z.lor (Z.lor (at_ buf 0) (Z.shiftl (at_ buf 1) 8))
    (Z.shiftl (at_ buf 2) 16)) (Z.shiftl (at_ buf 3) 24).

Definition SPDM_Set32BE (val : Z) : bytes :=
  [w8 (Z.shiftr val 24); Z.land (Z.shiftr val 16) 0xFF;
   Z.land (Z.shiftr val 8) 0xFF; Z.land val 0xFF].

Definition SPDM_Get32BE (buf : bytes) : Z :=
  Z.lor (Z.lor (Z.lor (Z.shiftl (at_ buf 0) 24) (Z.shiftl (at_ buf 1) 16))
    (Z.shiftl (at_ buf 2) 8)) (at_ buf 3).

Definition SPDM_Set64LE (val : Z) : bytes :=
  [Z.land val 0xFF; Z.land (Z.shiftr val 8) 0xFF;
   Z.land (Z.shiftr val 16) 0xFF; Z.land (Z.shiftr val 24) 0xFF;
   Z.land (Z.shiftr val 32) 0xFF; Z.land (Z.shiftr val 40) 0xFF;
   Z.land (Z.shiftr val 48) 0xFF; Z.land (Z.shiftr val 56) 0xFF].

Definition SPDM_Get64LE (buf : bytes) : Z :=
  Z.lor (Z.lor (Z.lor (Z.lor (Z.lor (Z.lor (Z.lor
    (at_ buf 0) (Z.shiftl (at_ buf 1) 8)) (Z.shiftl (at_ buf 2) 16))
    (Z.shiftl (at_ buf 3) 24)) (Z.shiftl (at_ buf 4) 32))
    (Z.shiftl (at_ buf 5) 40)) (Z.shiftl (at_ buf 6) 48))
    (Z.shiftl (at_ buf 7) 56).

(** Reads of a field at an offset of a message. *)
Definition rd16le {S} (b : bytes) (off : Z) : M S Z :=
  let* p := rd_sub b off 2 in ret (SPDM_Get16LE p).
Definition rd16be {S} (b : bytes) (off : Z) : M S Z :=
  let* p := rd_sub b off 2 in ret (SPDM_Get16BE p).
Definition rd32le {S} (b : bytes) (off : Z) : M S Z :=
  let* p := rd_sub b off 4 in ret (SPDM_Get32LE p).
Definition rd32be {S} (b : bytes) (off : Z) : M S Z :=
  let* p := rd_sub b off 4 in ret (SPDM_Get32BE p).
Definition rd64le {S} (b : bytes) (off : Z) : M S Z :=
  let* p := rd_sub b off 8 in ret (SPDM_Get64LE p).

(** ** Constant-time compare: 0 when equal *)

Fixpoint const_compare_loop (a b : bytes) (sz : nat) (diff : Z) : Z :=
  match sz with
  | O => diff
  | S sz' => const_compare_loop (drop 1 a) (drop 1 b) sz'
               (Z.lor diff (w8 (Z.lxor (at_ a 0) (at_ b 0))))
  end.

Definition wolfSPDM_ConstCompare (a b : bytes) (sz : Z) : Z :=
  const_compare_loop a b (Z.to_nat sz) 0.

(** ** IV: base IV XOR the little-endian sequence number *)

Fixpoint xor_prefix (iv seq : bytes) : bytes :=
  match iv, seq with
  | x :: iv', y :: seq' => Z.lxor x y :: xor_prefix iv' seq'
  | _, _ => iv
  end.

Definition wolfSPDM_BuildIV (baseIv : bytes) (seqNum : Z) : bytes :=
  xor_prefix baseIv (SPDM_Set64LE seqNum).

(** ** TCG SPDM binding header *)

Definition wolfSPDM_WriteTcgHeader (tag totalSz connHandle fips : Z) : bytes :=
  SPDM_Set16BE tag ++ SPDM_Set32BE totalSz ++ SPDM_Set32BE connHandle ++
  SPDM_Set16BE fips ++ zeros 4.

(** ** Little- and big-endian numbers as sums *)

Lemma lor_shiftl_add a b n :
  0 <= n -> 0 <= a < 2 ^ n -> Z.lor a (Z.shiftl b n) = a + b * 2 ^ n.
Proof.
  intros Hn Ha. rewrite <- Z.shiftl_mul_pow2 by done.
  rewrite <- Z.lxor_lor, Z.add_nocarry_lxor; try done;
    apply Z.bits_inj'; intros i Hi; rewrite Z.land_spec, Z.bits_0, Z.shiftl_spec by done;
    (destruct (Z.ltb_spec i n);
     [rewrite (Z.testbit_neg_r b) by lia; apply andb_false_r
     |rewrite <- (Z.mod_small a (2 ^ n)) by done;
      rewrite Z.mod_pow2_bits_high by lia; done]).
Qed.

Lemma land_FF x : Z.land x 0xFF = x mod 256.
Proof. change 0xFF with (Z.ones 8). by rewrite Z.land_ones. Qed.

Lemma is_byte_lxor x y : is_byte x -> is_byte y -> is_byte (Z.lxor x y).
Proof.
  unfold is_byte. intros Hx Hy.
  replace (Z.lxor x y) with (Z.lxor x y mod 2 ^ 8);
    [apply (Z.mod_pos_bound _ (2 ^ 8)); lia|].
  apply Z.bits_inj'. intros i Hi.
  destruct (Z.ltb_spec i 8); [by rewrite Z.mod_pow2_bits_low by lia|].
  rewrite Z.mod_pow2_bits_high, Z.lxor_spec by lia.
  rewrite <- (Z.mod_small x (2 ^ 8)), <- (Z.mod_small y (2 ^ 8)) by done.
  by rewrite !Z.mod_pow2_bits_high by lia.
Qed.

Lemma is_byte_at p i : is_bytes p -> is_byte (at_ p i).
Proof.
  intros H. unfold at_. destruct (le_lt_dec (length p) i) as [Hi|Hi].
  - rewrite nth_overflow by done. unfold is_byte; lia.
  - by apply (proj1 (List.Forall_forall _ _) H), nth_In.
Qed.

Lemma is_byte_land_FF x : is_byte (Z.land x 0xFF).
Proof. rewrite land_FF. unfold is_byte. mlia. Qed.

Lemma is_byte_w8 x : is_byte (w8 x).
Proof. unfold is_byte, w8. mlia. Qed.

Section Endian.
Variable p : bytes.
Hypothesis Hp : is_bytes p.

Ltac bounds := pose proof (is_byte_at p 0 Hp); pose proof (is_byte_at p 1 Hp);
  pose proof (is_byte_at p 2 Hp); pose proof (is_byte_at p 3 Hp);
  pose proof (is_byte_at p 4 Hp); pose proof (is_byte_at p 5 Hp);
  pose proof (is_byte_at p 6 Hp); pose proof (is_byte_at p 7 Hp);
  unfold is_byte in *.

Lemma Get16LE_sum : SPDM_Get16LE p = at_ p 0 + 256 * at_ p 1.
Proof.
  bounds. unfold SPDM_Get16LE. rewrite lor_shiftl_add by lia.
  unfold w16. rewrite Z.mod_small; lia.
Qed.

Lemma Get16BE_sum : SPDM_Get16BE p = 256 * at_ p 0 + at_ p 1.
Proof.
  bounds. unfold SPDM_Get16BE. rewrite Z.lor_comm, lor_shiftl_add by lia.
  unfold w16. rewrite Z.mod_small; lia.
Qed.

Lemma Get32LE_sum : SPDM_Get32LE p =
  at_ p 0 + 256 * at_ p 1 + 65536 * at_ p 2 + 16777216 * at_ p 3.
Proof.
  bounds. unfold SPDM_Get32LE.
  rewrite (lor_shiftl_add _ (at_ p 1)), (lor_shiftl_add _ (at_ p 2)),
    (lor_shiftl_add _ (at_ p 3)); lia.
Qed.

Lemma Get32BE_sum : SPDM_Get32BE p =
  16777216 * at_ p 0 + 65536 * at_ p 1 + 256 * at_ p 2 + at_ p 3.
Proof.
  bounds. unfold SPDM_Get32BE.
  rewrite (Z.lor_comm (Z.lor (Z.lor _ _) _)),
    (Z.lor_comm (Z.lor (Z.shiftl (at_ p 0) 24) _) (Z.shiftl (at_ p 2) 8)),
    (Z.lor_comm (Z.shiftl (at_ p 0) 24)), !Z.lor_assoc.
  rewrite (lor_shiftl_add _ (at_ p 2)), (lor_shiftl_add _ (at_ p 1)),
    (lor_shiftl_add _ (at_ p 0)); lia.
Qed.

Lemma Get64LE_sum : SPDM_Get64LE p =
  at_ p 0 + 256 * at_ p 1 + 65536 * at_ p 2 + 16777216 * at_ p 3 +
  2 ^ 32 * (at_ p 4 + 256 * at_ p 5 + 65536 * at_ p 6 + 16777216 * at_ p 7).
Proof.
  bounds. unfold SPDM_Get64LE.
  rewrite (lor_shiftl_add _ (at_ p 1)), (lor_shiftl_add _ (at_ p 2)),
    (lor_shiftl_add _ (at_ p 3)), (lor_shiftl_add _ (at_ p 4)),
    (lor_shiftl_add _ (at_ p 5)), (lor_shiftl_add _ (at_ p 6)),
    (lor_shiftl_add _ (at_ p 7)); lia.
Qed.

Lemma Get16LE_range : 0 <= SPDM_Get16LE p < 2 ^ 16.
Proof. apply w16_range. Qed.

Lemma Get32LE_range : 0 <= SPDM_Get32LE p < 2 ^ 32.
Proof. bounds. rewrite Get32LE_sum. lia. Qed.

Lemma Get32BE_range : 0 <= SPDM_Get32BE p < 2 ^ 32.
Proof. bounds. rewrite Get32BE_sum. lia. Qed.
End Endian.

(** ** The helpers are inverse to each other *)

Ltac set_bytes :=
  repeat constructor; first [apply is_byte_land_FF | apply is_byte_w8].

Lemma is_bytes_Set16LE v : is_bytes (SPDM_Set16LE v).
Proof. set_bytes. Qed.
Lemma is_bytes_Set16BE v : is_bytes (SPDM_Set16BE v).
Proof. set_bytes. Qed.
Lemma is_bytes_Set32LE v : is_bytes (SPDM_Set32LE v).
Proof. set_bytes. Qed.
Lemma is_bytes_Set32BE v : is_bytes (SPDM_Set32BE v).
Proof. set_bytes. Qed.
Lemma is_bytes_Set64LE v : is_bytes (SPDM_Set64LE v).
Proof. set_bytes. Qed.

(** Reading ignores what follows the field. *)
Lemma Get16LE_app p q : length p = 2%nat -> SPDM_Get16LE (p ++ q) = SPDM_Get16LE p.
Proof. destruct p as [|? [|? [|]]]; done. Qed.
Lemma Get32LE_app p q : length p = 4%nat -> SPDM_Get32LE (p ++ q) = SPDM_Get32LE p.
Proof. destruct p as [|? [|? [|? [|? [|]]]]]; done. Qed.

Ltac set_sum v :=
  unfold at_; cbn [nth SPDM_Set16LE SPDM_Set16BE SPDM_Set32LE SPDM_Set32BE SPDM_Set64LE];
  unfold w8; rewrite ?land_FF, ?Z.shiftr_div_pow2 by lia; cbn [Z.pow Z.pow_pos Pos.iter Z.mul Pos.mul] in *;
  mlia.

Lemma Get16LE_Set16LE v : 0 <= v < 2 ^ 16 -> SPDM_Get16LE (SPDM_Set16LE v) = v.
Proof. intros. rewrite Get16LE_sum by apply is_bytes_Set16LE. set_sum v. Qed.

Lemma Get16BE_Set16BE v : 0 <= v < 2 ^ 16 -> SPDM_Get16BE (SPDM_Set16BE v) = v.
Proof. intros. rewrite Get16BE_sum by apply is_bytes_Set16BE. set_sum v. Qed.

Lemma Get32LE_Set32LE v : 0 <= v < 2 ^ 32 -> SPDM_Get32LE (SPDM_Set32LE v) = v.
Proof. intros. rewrite Get32LE_sum by apply is_bytes_Set32LE. set_sum v. Qed.

Lemma Get32BE_Set32BE v : 0 <= v < 2 ^ 32 -> SPDM_Get32BE (SPDM_Set32BE v) = v.
Proof. intros. rewrite Get32BE_sum by apply is_bytes_Set32BE. set_sum v. Qed.

Lemma Get64LE_Set64LE v : 0 <= v < 2 ^ 64 -> SPDM_Get64LE (SPDM_Set64LE v) = v.
Proof. intros. rewrite Get64LE_sum by apply is_bytes_Set64LE. set_sum v. Qed.

(** [wolfSPDM_ConstCompare] is a buffer comparison. *)

Lemma const_compare_loop_0 sz a b diff :
  is_bytes a -> is_bytes b -> (sz <= length a)%nat -> (sz <= length b)%nat ->
  const_compare_loop a b sz diff = 0 <-> diff = 0 /\ take sz a = take sz b.
Proof.
  revert a b diff. induction sz as [|sz IH]; intros a b diff Ha Hb La Lb; simpl.
  - split; [done|by intros [? _]].
  - destruct a as [|x a], b as [|y b]; simpl in La, Lb; try lia.
    inversion Ha; inversion Hb; subst. simpl. rewrite !drop_0, IH by (done || lia).
    unfold at_, w8; simpl nth. rewrite Z.lor_eq_0_iff.
    rewrite (Z.mod_small (Z.lxor x y)) by (by apply is_byte_lxor).
    rewrite Z.lxor_eq_0_iff. split; [by intros [[-> ->] ->]|by intros [-> [= -> ->]]].
Qed.

Lemma wolfSPDM_ConstCompare_eq a b sz :
  is_bytes a -> is_bytes b -> 0 <= sz -> sz <= len a -> sz <= len b ->
  wolfSPDM_ConstCompare a b sz = 0 <-> sub_bytes a 0 sz = sub_bytes b 0 sz.
Proof.
  unfold wolfSPDM_ConstCompare, len, sub_bytes. intros.
  rewrite const_compare_loop_0, !drop_0 by (done || lia).
  split; [by intros [_ ?]|done].
Qed.

(** ** Lengths *)

Lemma len_WriteTcgHeader t s c f :
  len (wolfSPDM_WriteTcgHeader t s c f) = WOLFSPDM_TCG_HEADER_SIZE.
Proof. reflexivity. Qed.

Lemma xor_prefix_length iv seq : length (xor_prefix iv seq) = length iv.
Proof. revert seq. induction iv; intros [|]; simpl; auto. Qed.

Lemma xor_prefix_inj iv s1 s2 :
  length s1 = length s2 -> (length s1 <= length iv)%nat ->
  xor_prefix iv s1 = xor_prefix iv s2 -> s1 = s2.
Proof.
  revert s1 s2. induction iv as [|x iv IH]; intros [|a s1] [|b s2] Hl Hi Heq;
    simpl in *; try done; try lia.
  injection Heq as Hx Ht. f_equal; [|apply IH; (done || lia)].
  apply (f_equal (Z.lxor x)) in Hx.
  by rewrite <- !Z.lxor_assoc, !Z.lxor_nilpotent, !Z.lxor_0_l in Hx.
Qed.

Lemma wolfSPDM_BuildIV_len iv n : len (wolfSPDM_BuildIV iv n) = len iv.
Proof. unfold len, wolfSPDM_BuildIV. by rewrite xor_prefix_length. Qed.

(** Different sequence numbers never share an IV. *)
Lemma wolfSPDM_BuildIV_inj iv m n :
  8 <= len iv -> 0 <= m < 2 ^ 64 -> 0 <= n < 2 ^ 64 ->
  wolfSPDM_BuildIV iv m = wolfSPDM_BuildIV iv n -> m = n.
Proof.
  intros Hiv Hm Hn Heq. apply xor_prefix_inj in Heq; [|done|].
  - rewrite <- (Get64LE_Set64LE m), <- (Get64LE_Set64LE n), Heq by done. done.
  - unfold len in Hiv. simpl. lia.
Qed.
