(* ===== verification/Crypt.v ===== *)
(** * The wolfCrypt interface

    wolfCrypt is the library's only crypto dependency and is not part of this
    repository: its objects and functions are the fields of the class
    [WolfCrypt], one per function the sources call.  A call that can fail
    returns an option (or a return code beside the updated object).  What the
    code relies on is stated by the law classes below, one per documented
    guarantee; a theorem lists the classes it needs.  [Toy] gives concrete
    functions that satisfy every law, so theorems can be run. *)
From Stdlib Require Import ZArith Lia.
From stdpp Require Import base tactics list numbers.
From S2P Require Import Prelude Types Bytes.

(** The fields of wolfCrypt's [DecodedCert] that the sources read;
    [publicKey] is the pointer and [pubKeySize], [signature] the pointer and
    [sigLength]. *)
Record DecodedCert := {
  keyOID : Z;
  publicKey : option bytes;
  isCA : bool;
  certBegin : Z;
  sigIndex : Z;
  signatureOID : Z;
  signature : bytes
}.

Class WolfCrypt := {
  (* wolfssl/wolfcrypt/random.h *)
  WC_RNG : Type;
  wc_InitRng : option WC_RNG;
  wc_RNG_GenerateBlock : WC_RNG -> Z -> WC_RNG * option bytes;
  (* sha512.h *)
  wc_Sha384 : Type;
  wc_InitSha384 : option wc_Sha384;
  wc_Sha384Update : wc_Sha384 -> bytes -> Z * wc_Sha384;
  wc_Sha384Final : wc_Sha384 -> option bytes;
  (* hmac.h, kdf.h *)
  Hmac : Type;
  wc_HmacInit : option Hmac;
  wc_HmacSetKey : Hmac -> bytes -> option Hmac;
  wc_HmacUpdate : Hmac -> bytes -> option Hmac;
  wc_HmacFinal : Hmac -> option bytes;
  wc_HKDF_Extract : bytes -> bytes -> option bytes;
  wc_HKDF_Expand : bytes -> bytes -> Z -> option bytes;
  (* aes.h: key object, plaintext, iv, aad to ciphertext and tag, and back *)
  Aes : Type;
  wc_AesInit : option Aes;
  wc_AesGcmSetKey : Aes -> bytes -> option Aes;
  wc_AesGcmEncrypt : Aes -> bytes -> bytes -> bytes -> option (bytes * bytes);
  wc_AesGcmDecrypt : Aes -> bytes -> bytes -> bytes -> bytes -> option bytes;
  (* ecc.h *)
  ecc_key : Type;
  ECC_SECP384R1 : Z;
  wc_ecc_init : option ecc_key;
  wc_ecc_make_key : WC_RNG -> Z -> ecc_key -> WC_RNG * option ecc_key;
  wc_ecc_set_rng : ecc_key -> option ecc_key;
  wc_ecc_export_public_raw : ecc_key -> option (bytes * bytes);
  wc_ecc_import_unsigned : ecc_key -> bytes -> bytes -> option bytes -> Z -> option ecc_key;
  wc_ecc_check_key : ecc_key -> bool;
  wc_ecc_shared_secret : WC_RNG -> ecc_key -> ecc_key -> WC_RNG * option bytes;
  wc_ecc_rs_raw_to_sig : bytes -> bytes -> option bytes;
  wc_ecc_sig_to_rs : bytes -> option (bytes * bytes);
  wc_ecc_verify_hash : bytes -> bytes -> ecc_key -> option bool;
  wc_ecc_sign_hash : WC_RNG -> bytes -> ecc_key -> WC_RNG * option bytes;
  wc_EccPublicKeyDecode : bytes -> ecc_key -> option ecc_key;
  wc_ecc_get_curve_id : ecc_key -> Z;
  (* wc_mlkem.h *)
  MlKemKey : Type;
  WOLFSSL_WC_ML_KEM_512 : bool;
  WOLFSSL_WC_ML_KEM_768 : bool;
  WOLFSSL_WC_ML_KEM_1024 : bool;
  WC_ML_KEM_512 : Z;
  WC_ML_KEM_768 : Z;
  WC_ML_KEM_1024 : Z;
  wc_MlKemKey_Init : Z -> option MlKemKey;
  wc_MlKemKey_MakeKey : MlKemKey -> WC_RNG -> WC_RNG * option MlKemKey;
  wc_MlKemKey_PublicKeySize : MlKemKey -> option Z;
  wc_MlKemKey_EncodePublicKey : MlKemKey -> Z -> option bytes;
  wc_MlKemKey_CipherTextSize : MlKemKey -> option Z;
  wc_MlKemKey_SharedSecretSize : MlKemKey -> option Z;
  wc_MlKemKey_Decapsulate : MlKemKey -> bytes -> option bytes;
  (* wc_mldsa.h *)
  MlDsaKey : Type;
  WOLFSSL_NO_ML_DSA_44 : bool;
  WOLFSSL_NO_ML_DSA_65 : bool;
  WOLFSSL_NO_ML_DSA_87 : bool;
  WC_ML_DSA_44 : Z;
  WC_ML_DSA_65 : Z;
  WC_ML_DSA_87 : Z;
  wc_MlDsaKey_Init : option MlDsaKey;
  wc_MlDsaKey_SetParams : MlDsaKey -> Z -> option MlDsaKey;
  wc_MlDsaKey_ImportPubRaw : MlDsaKey -> bytes -> option MlDsaKey;
  wc_MlDsaKey_VerifyCtx : MlDsaKey -> bytes -> bytes -> bytes -> option bool;
  (* asn.h *)
  ECDSAk : Z;
  ML_DSA_44k : Z;
  ML_DSA_65k : Z;
  ML_DSA_87k : Z;
  CTC_SHA384wECDSA : Z;
  CTC_ML_DSA_44 : Z;
  CTC_ML_DSA_65 : Z;
  CTC_ML_DSA_87 : Z;
  wc_ParseCert : bytes -> option DecodedCert
}.

(** ** Documented guarantees *)

(** Output sizes: a call that reports success has filled its output buffer
    with bytes; coordinates and secrets never exceed the curve size. *)
Class CryptSizes `{WolfCrypt} := {
  rng_size : forall r n r' b, 0 <= n -> wc_RNG_GenerateBlock r n = (r', Some b) ->
    len b = n /\ is_bytes b;
  sha_size : forall h d, wc_Sha384Final h = Some d ->
    len d = WOLFSPDM_HASH_SIZE /\ is_bytes d;
  hmac_size : forall h d, wc_HmacFinal h = Some d ->
    len d = WOLFSPDM_HASH_SIZE /\ is_bytes d;
  extract_size : forall s k d, wc_HKDF_Extract s k = Some d ->
    len d = WOLFSPDM_HASH_SIZE /\ is_bytes d;
  expand_size : forall k i n d, 0 <= n -> wc_HKDF_Expand k i n = Some d ->
    len d = n /\ is_bytes d;
  gcm_enc_size : forall k p iv aad c t, wc_AesGcmEncrypt k p iv aad = Some (c, t) ->
    len c = len p /\ len t = WOLFSPDM_AEAD_TAG_SIZE /\ is_bytes c /\ is_bytes t;
  gcm_dec_size : forall k c iv t aad p, wc_AesGcmDecrypt k c iv t aad = Some p ->
    len p = len c /\ is_bytes p;
  ecc_pub_size : forall k x y, wc_ecc_export_public_raw k = Some (x, y) ->
    len x <= WOLFSPDM_ECC_KEY_SIZE /\ len y <= WOLFSPDM_ECC_KEY_SIZE /\
    is_bytes x /\ is_bytes y;
  ecc_rs_size : forall d r s, wc_ecc_sig_to_rs d = Some (r, s) ->
    len r <= WOLFSPDM_ECC_KEY_SIZE /\ len s <= WOLFSPDM_ECC_KEY_SIZE /\
    is_bytes r /\ is_bytes s;
  ecc_ss_size : forall r a b r' d, wc_ecc_shared_secret r a b = (r', Some d) ->
    len d <= WOLFSPDM_ECC_KEY_SIZE /\ is_bytes d;
  kem_pub_size : forall k n b, 0 <= n -> wc_MlKemKey_EncodePublicKey k n = Some b ->
    len b = n /\ is_bytes b;
  kem_pub_pos : forall k n, wc_MlKemKey_PublicKeySize k = Some n -> 0 <= n;
  kem_ct_size : forall k n, wc_MlKemKey_CipherTextSize k = Some n ->
    0 < n <= WOLFSPDM_MAX_KEX_DATA;
  cert_bounds : forall der cert, wc_ParseCert der = Some cert ->
    0 <= cert.(certBegin) /\ cert.(sigIndex) <= len der;
  kem_ss_size : forall k n ct d, wc_MlKemKey_SharedSecretSize k = Some n ->
    wc_MlKemKey_Decapsulate k ct = Some d -> 0 <= n /\ len d = n /\ is_bytes d
}.

(** AES-GCM decryption under the same key, IV and AAD inverts encryption. *)
Class GcmRoundTrip `{WolfCrypt} :=
  gcm_dec_enc : forall k p iv aad c t,
    wc_AesGcmEncrypt k p iv aad = Some (c, t) ->
    wc_AesGcmDecrypt k c iv t aad = Some p.

(** No call on valid arguments fails: the sizes are right and no resource is
    exhausted.  This is assumed only where a theorem says that an operation
    succeeds; the checks that depend on the peer (verification, decryption) are
    not in it. *)
Class CryptTotal `{WolfCrypt} := {
  rng_total : forall r n, 0 < n -> is_Some (wc_RNG_GenerateBlock r n).2;
  sha_init_total : is_Some wc_InitSha384;
  sha_update_total : forall h d, (wc_Sha384Update h d).1 = 0;
  sha_final_total : forall h, is_Some (wc_Sha384Final h);
  hmac_init_total : is_Some wc_HmacInit;
  hmac_key_total : forall h k, is_Some (wc_HmacSetKey h k);
  hmac_update_total : forall h d, is_Some (wc_HmacUpdate h d);
  hmac_final_total : forall h, is_Some (wc_HmacFinal h);
  extract_total : forall s k, is_Some (wc_HKDF_Extract s k);
  expand_total : forall k i n, 0 <= n <= WOLFSPDM_HASH_SIZE -> is_Some (wc_HKDF_Expand k i n);
  aes_init_total : is_Some wc_AesInit;
  aes_key_total : forall a k, len k = WOLFSPDM_AEAD_KEY_SIZE -> is_Some (wc_AesGcmSetKey a k);
  gcm_enc_total : forall a p iv aad, is_bytes p -> is_Some (wc_AesGcmEncrypt a p iv aad)
}.

(** The ML-DSA parameter-set identifiers are non-zero and distinct. *)
Class MlDsaLevels `{WolfCrypt} := {
  mldsa_nz : WC_ML_DSA_44 <> 0 /\ WC_ML_DSA_65 <> 0 /\ WC_ML_DSA_87 <> 0;
  mldsa_distinct : WC_ML_DSA_44 <> WC_ML_DSA_65 /\ WC_ML_DSA_44 <> WC_ML_DSA_87 /\
    WC_ML_DSA_65 <> WC_ML_DSA_87
}.

(** ** A concrete instance

    Small computable functions with the shape of the real ones: checksums for
    hashes, a byte-wise one-time pad with a checksum tag for the AEAD,
    multiplication modulo 251 for Diffie-Hellman. *)
Module Toy.
Fixpoint sum (acc : Z) (b : bytes) : Z :=
  match b with
  | [] => acc
  | x :: b' => sum ((acc * 31 + x + 1) mod 251) b'
  end.

Definition fill (n : Z) (x : Z) : bytes := replicate (Z.to_nat n) x.
Definition digest (b : bytes) : bytes := fill 48 (sum 7 b).
Definition pad (k : bytes) (iv : bytes) (b : bytes) : bytes :=
  map (fun x => Z.lxor (w8 x) (sum 3 (k ++ iv))) b.
Definition tag (k iv aad c : bytes) : bytes := fill 16 (sum 5 (k ++ iv ++ aad ++ c)).

(** A key pair: the private scalar (0 when unknown) and the public one. *)
Definition key : Type := Z * Z.
Definition coord (p : Z) : bytes := fill 47 0 ++ [w8 p].

(** The functions but for HKDF-Expand. *)
Definition with_expand (expand : bytes -> bytes -> Z -> option bytes) : WolfCrypt := {|
  WC_RNG := Z;
  wc_InitRng := Some 1;
  wc_RNG_GenerateBlock := fun r n => (r + 1, Some (fill n (w8 r)));
  wc_Sha384 := bytes;
  wc_InitSha384 := Some [];
  wc_Sha384Update := fun h b => (0, h ++ b);
  wc_Sha384Final := fun h => Some (digest h);
  Hmac := bytes;
  wc_HmacInit := Some [];
  wc_HmacSetKey := fun h k => Some (h ++ k);
  wc_HmacUpdate := fun h b => Some (h ++ b);
  wc_HmacFinal := fun h => Some (digest h);
  wc_HKDF_Extract := fun s k => Some (digest (s ++ k));
  wc_HKDF_Expand := expand;
  Aes := bytes;
  wc_AesInit := Some [];
  wc_AesGcmSetKey := fun _ k => Some k;
  wc_AesGcmEncrypt := fun k p iv aad =>
    let c := pad k iv p in
    if forallb (fun x => (0 <=? x) && (x <? 256)) p
    then Some (c, tag k iv aad c) else None;
  wc_AesGcmDecrypt := fun k c iv t aad =>
    if bytes_eqb t (tag k iv aad c) then Some (pad k iv c) else None;
  ecc_key := key;
  ECC_SECP384R1 := 15;
  wc_ecc_init := Some (0, 0);
  wc_ecc_make_key := fun r _ _ => (r + 1, Some (2 + r mod 200, 6 * (2 + r mod 200) mod 251));
  wc_ecc_set_rng := Some;
  wc_ecc_export_public_raw := fun k => Some (coord (snd k), coord 9);
  wc_ecc_import_unsigned := fun _ x y d _ =>
    Some (match d with Some d' => at_ d' 47 | None => 0 end, at_ x 47);
  wc_ecc_check_key := fun k => negb (snd k =? 0);
  wc_ecc_shared_secret := fun r a b => (r, Some [w8 (fst a * snd b mod 251)]);
  wc_ecc_rs_raw_to_sig := fun r s => Some (r ++ s);
  wc_ecc_sig_to_rs := fun d =>
    let r := take 48 d in let s := drop 48 d in
    if (length d =? 96)%nat && forallb (fun x => (0 <=? x) && (x <? 256)) d
    then Some (r, s) else None;
  wc_ecc_verify_hash := fun d h k => Some (bytes_eqb d (digest h ++ coord (snd k)));
  wc_ecc_sign_hash := fun r h k => (r + 1, Some (digest h ++ coord (6 * fst k mod 251)));
  wc_EccPublicKeyDecode := fun b _ => Some (0, at_ b 0);
  wc_ecc_get_curve_id := fun _ => 15;
  MlKemKey := Z;
  WOLFSSL_WC_ML_KEM_512 := true;
  WOLFSSL_WC_ML_KEM_768 := true;
  WOLFSSL_WC_ML_KEM_1024 := true;
  WC_ML_KEM_512 := 1;
  WC_ML_KEM_768 := 2;
  WC_ML_KEM_1024 := 3;
  wc_MlKemKey_Init := Some;
  wc_MlKemKey_MakeKey := fun k r => (r + 1, Some k);
  wc_MlKemKey_PublicKeySize := fun _ => Some 32;
  wc_MlKemKey_EncodePublicKey := fun k n => Some (fill n (w8 k));
  wc_MlKemKey_CipherTextSize := fun _ => Some 32;
  wc_MlKemKey_SharedSecretSize := fun _ => Some 32;
  wc_MlKemKey_Decapsulate := fun k ct => Some (fill 32 (sum k ct mod 256));
  MlDsaKey := bytes;
  WOLFSSL_NO_ML_DSA_44 := false;
  WOLFSSL_NO_ML_DSA_65 := false;
  WOLFSSL_NO_ML_DSA_87 := false;
  WC_ML_DSA_44 := 2;
  WC_ML_DSA_65 := 3;
  WC_ML_DSA_87 := 5;
  wc_MlDsaKey_Init := Some [];
  wc_MlDsaKey_SetParams := fun _ l => Some [l];
  wc_MlDsaKey_ImportPubRaw := fun k b => Some (k ++ b);
  wc_MlDsaKey_VerifyCtx := fun k sg c m =>
    Some (bytes_eqb (take 48 sg) (digest (k ++ c ++ m)));
  ECDSAk := 518;
  ML_DSA_44k := 1;
  ML_DSA_65k := 2;
  ML_DSA_87k := 3;
  CTC_SHA384wECDSA := 525;
  CTC_ML_DSA_44 := 11;
  CTC_ML_DSA_65 := 12;
  CTC_ML_DSA_87 := 13;
  (* 0x30 len key-byte issuer-byte: a two-byte certificate *)
  wc_ParseCert := fun b =>
    if (4 <=? length b)%nat then
      Some {| keyOID := 518; publicKey := Some [at_ b 2]; isCA := true;
              certBegin := 2; sigIndex := 3; signatureOID := 525;
              signature := digest (digest [at_ b 2]) ++ coord (at_ b 3) |}
    else None
|}.

(** One that refuses an all-zero secret, and one that refuses nothing. *)
Definition expand_some (k i : bytes) (n : Z) : option bytes := Some (fill n (sum 11 (k ++ i))).
Definition expand_nonzero (k i : bytes) (n : Z) : option bytes :=
  if forallb (Z.eqb 0) k then None else expand_some k i n.

Definition crypt : WolfCrypt := with_expand expand_nonzero.
Definition crypt_total : WolfCrypt := with_expand expand_some.

Lemma sum_range acc b : 0 <= acc < 251 -> 0 <= sum acc b < 251.
Proof. revert acc. induction b as [|x b IH]; intros acc H; simpl; [done|]. apply IH. mlia. Qed.

Lemma len_fill n x : 0 <= n -> len (fill n x) = n.
Proof. unfold len, fill. rewrite length_replicate. lia. Qed.

Lemma is_bytes_fill n x : is_byte x -> is_bytes (fill n x).
Proof. intros. by apply Forall_replicate. Qed.

Lemma is_byte_sum acc b : 0 <= acc < 251 -> is_byte (sum acc b).
Proof. intros H. pose proof (sum_range acc b H). unfold is_byte. lia. Qed.

Lemma is_bytes_pad k iv b : is_bytes (pad k iv b).
Proof.
  apply List.Forall_map, List.Forall_forall. intros x _.
  apply is_byte_lxor; [apply is_byte_w8|by apply is_byte_sum].
Qed.

Lemma len_pad k iv b : len (pad k iv b) = len b.
Proof. unfold len, pad. by rewrite length_map. Qed.

Lemma is_bytes_forallb b :
  forallb (fun x => (0 <=? x) && (x <? 256)) b = true -> is_bytes b.
Proof.
  intros H. apply List.Forall_forall. intros x Hx.
  apply (proj1 (List.forallb_forall _ _) H) in Hx. unfold is_byte. lia.
Qed.

Lemma pad_pad k iv b : is_bytes b -> pad k iv (pad k iv b) = b.
Proof.
  intros Hb. unfold pad. rewrite List.map_map. rewrite <- (List.map_id b) at 2.
  apply List.map_ext_in. intros x Hx.
  assert (is_byte x) as Hxb by (by apply (proj1 (List.Forall_forall _ _) Hb)).
  assert (w8 x = x) as -> by (apply Z.mod_small; exact Hxb).
  assert (is_byte (Z.lxor x (sum 3 (k ++ iv)))) as Hy
    by (apply is_byte_lxor; [done|by apply is_byte_sum]).
  assert (w8 (Z.lxor x (sum 3 (k ++ iv))) = Z.lxor x (sum 3 (k ++ iv))) as ->
    by (apply Z.mod_small; exact Hy).
  by rewrite Z.lxor_assoc, Z.lxor_nilpotent, Z.lxor_0_r.
Qed.

Ltac toy := intros; simplify_eq/=; repeat case_match; simplify_eq/=;
  rewrite ?len_fill, ?len_pad by done;
  split_and?; try done; try (apply is_bytes_fill; first [apply is_byte_w8 | by apply is_byte_sum]);
  try apply is_bytes_pad.

Lemma coord_bytes p : is_bytes (coord p).
Proof. apply Forall_app; split; [by apply is_bytes_fill|]. repeat constructor; apply is_byte_w8. Qed.

Lemma single_bytes x : is_bytes [w8 x].
Proof. repeat constructor; apply is_byte_w8. Qed.

Lemma expand_some_size k i n d : 0 <= n -> expand_some k i n = Some d -> len d = n /\ is_bytes d.
Proof. unfold expand_some. toy. Qed.

Lemma sizes_with expand :
  (forall k i n d, 0 <= n -> expand k i n = Some d -> len d = n /\ is_bytes d) ->
  @CryptSizes (with_expand expand).
Proof.
  intros Hex. split; cbn -[fill digest Z.le Z.lt len sum coord]; unfold digest, tag.
  - toy.
  - toy.
  - toy.
  - toy.
  - exact Hex.
  - toy.
  - toy.
  - intros k x y [= <- <-]. split_and!; [done|done|apply coord_bytes|apply coord_bytes].
  - intros d r s H. case_match eqn:Hd; [|done].
    apply andb_true_iff in Hd as [Hl Hb]. apply Nat.eqb_eq in Hl.
    injection H as <- <-. apply is_bytes_forallb in Hb. unfold len.
    rewrite length_take, length_drop, Hl.
    split_and!; [done|done|by apply Forall_take|by apply Forall_drop].
  - intros r a b r' d [= _ <-]. split; [done|apply single_bytes].
  - intros k n b Hn [= <-]. rewrite len_fill by done. split; [done|].
    apply is_bytes_fill, is_byte_w8.
  - by intros k n [= <-].
  - by intros k n [= <-].
  - intros [|x0 [|x1 [|x2 [|x3 d]]]] cert; try done. intros Hc.
    apply (f_equal (option_map (fun c => (certBegin c, sigIndex c)))) in Hc.
    cbn [option_map certBegin sigIndex] in Hc. injection Hc as <- <-. rewrite !len_cons. pose proof (len_nonneg d). lia.
  - intros k n ct d [= <-] [= <-]. rewrite len_fill by done. split_and!; [done|done|].
    apply is_bytes_fill. unfold is_byte. mlia.
Qed.

#[global] Instance sizes : @CryptSizes crypt.
Proof.
  apply sizes_with. intros k i n d Hn. unfold expand_nonzero. case_match; [done|]. by apply expand_some_size.
Qed.
#[global] Instance sizes_total : @CryptSizes crypt_total.
Proof. apply sizes_with, expand_some_size. Qed.

Lemma roundtrip_with expand : @GcmRoundTrip (with_expand expand).
Proof.
  intros k p iv aad c t H. cbn in *. case_match eqn:Hp; [|done].
  injection H as <- <-. rewrite bytes_eqb_refl. f_equal. apply pad_pad.
  by apply is_bytes_forallb.
Qed.

#[global] Instance roundtrip : @GcmRoundTrip crypt := roundtrip_with _.
#[global] Instance roundtrip_total : @GcmRoundTrip crypt_total := roundtrip_with _.

#[global] Instance total : @CryptTotal crypt_total.
Proof.
  split; cbn -[fill digest]; try by intros; eexists; reflexivity.
  intros k p iv aad Hp. case_match eqn:Hc; [by eexists|]. exfalso. revert Hc.
  apply not_false_iff_true, List.forallb_forall. intros x Hx.
  apply (proj1 (List.Forall_forall _ _) Hp) in Hx. unfold is_byte in Hx. lia.
Qed.

#[global] Instance levels : @MlDsaLevels crypt.
Proof. split; cbn; lia. Qed.
End Toy.
