(* ===== verification/Context.v ===== *)
(** * The requester context: src/spdm_internal.h and src/spdm_context.c

    [WOLFSPDM_CTX] has the fields of [struct WOLFSPDM_CTX] under their names.
    A fixed array is a list of the array's size (see [shape]); the running
    hashes are [None] when freed; the [ephemeral] union is a tagged value, so
    that a use of the dead member is undefined.  Operations on the context
    alone are computations on [WOLFSPDM_CTX]. *)
From Stdlib Require Import ZArith Lia String.
From stdpp Require Import base tactics list numbers.
From S2P Require Import Prelude Types Bytes Crypt.

(** ** The context structure *)

Record ctx_flags := {
  debug : bool;
  initialized : bool;
  isDynamic : bool;
  rngInitialized : bool;
  ephemeralKeyInit : bool;
  ephemeralIsKem : bool;
  hasRspPubKey : bool;
  hasReqKeyPair : bool;
  allowUntrustedCert : bool;
  rspKeyFromCert : bool
}.

#[global] Instance ctx_flags_eta : Settable ctx_flags := fun r => {|
  debug := debug r; initialized := initialized r; isDynamic := isDynamic r;
  rngInitialized := rngInitialized r; ephemeralKeyInit := ephemeralKeyInit r;
  ephemeralIsKem := ephemeralIsKem r; hasRspPubKey := hasRspPubKey r;
  hasReqKeyPair := hasReqKeyPair r; allowUntrustedCert := allowUntrustedCert r;
  rspKeyFromCert := rspKeyFromCert r |}.

Section Struct.
Context `{WolfCrypt}.

(** The union [ephemeral]; [eph_none] is freed or never initialized. *)
Inductive ephemeral_t :=
| eph_none
| eph_ecc (k : ecc_key)
| eph_mlkem (k : MlKemKey).

Record WOLFSPDM_CTX := {
  state : Z;
  mode : Z;
  ioCb : Z;
  ioUserCtx : Z;
  connectionHandle : Z;
  fipsIndicator : Z;
  reqPubKeyTPMT : bytes;
  reqPubKeyTPMTLen : Z;
  psk : bytes;
  pskSz : Z;
  pskHint : bytes;
  pskHintSz : Z;
  rng : option WC_RNG;
  maxVersion : Z;
  spdmVersion : Z;
  lastPeerErrorCode : Z;
  ephemeral : ephemeral_t;
  sharedSecret : bytes;
  sharedSecretSz : Z;
  transcript : bytes;
  transcriptLen : Z;
  certChainHash : bytes;
  th1 : bytes;
  th2 : bytes;
  handshakeSecret : bytes;
  reqHsSecret : bytes;
  rspHsSecret : bytes;
  reqFinishedKey : bytes;
  rspFinishedKey : bytes;
  reqDataKey : bytes;
  rspDataKey : bytes;
  reqDataIv : bytes;
  rspDataIv : bytes;
  reqAppSecret : bytes;
  rspAppSecret : bytes;
  reqSeqNum : Z;
  rspSeqNum : Z;
  reqSessionId : Z;
  rspSessionId : Z;
  sessionId : Z;
  rspPubKey : bytes;
  rspPubKeyLen : Z;
  mutAuthRequested : Z;
  reqSlotIdParam : Z;
  reqPrivKey : bytes;
  reqPrivKeyLen : Z;
  reqPubKey : bytes;
  rspCaps : Z;
  vcaLen : Z;
  dataTransferSize : Z;
  maxSpdmMsgSize : Z;
  certChainLen : Z;
  trustedCASz : Z;
  slotMask : Z;
  currentSlotId : Z;
  chunkHandle : Z;
  pqcAsymSel : Z;
  kemAlgSel : Z;
  kexAdvKem : Z;
  kexAdvDhe : Z;
  certChain : bytes;
  trustedCA : bytes;
  l1l2Hash : option wc_Sha384;
  measRecordLen : Z;
  measBlockCount : Z;
  l1l2State : Z;
  measRecord : bytes;
  m1Hash : option wc_Sha384;
  m1State : Z;
  flags : ctx_flags
}.

#[global] Instance ctx_eta : Settable WOLFSPDM_CTX := fun r => {|
  state := state r; mode := mode r; ioCb := ioCb r; ioUserCtx := ioUserCtx r;
  connectionHandle := connectionHandle r; fipsIndicator := fipsIndicator r;
  reqPubKeyTPMT := reqPubKeyTPMT r; reqPubKeyTPMTLen := reqPubKeyTPMTLen r;
  psk := psk r; pskSz := pskSz r; pskHint := pskHint r; pskHintSz := pskHintSz r;
  rng := rng r; maxVersion := maxVersion r; spdmVersion := spdmVersion r;
  lastPeerErrorCode := lastPeerErrorCode r; ephemeral := ephemeral r;
  sharedSecret := sharedSecret r; sharedSecretSz := sharedSecretSz r;
  transcript := transcript r; transcriptLen := transcriptLen r;
  certChainHash := certChainHash r; th1 := th1 r; th2 := th2 r;
  handshakeSecret := handshakeSecret r; reqHsSecret := reqHsSecret r;
  rspHsSecret := rspHsSecret r; reqFinishedKey := reqFinishedKey r;
  rspFinishedKey := rspFinishedKey r; reqDataKey := reqDataKey r;
  rspDataKey := rspDataKey r; reqDataIv := reqDataIv r; rspDataIv := rspDataIv r;
  reqAppSecret := reqAppSecret r; rspAppSecret := rspAppSecret r;
  reqSeqNum := reqSeqNum r; rspSeqNum := rspSeqNum r;
  reqSessionId := reqSessionId r; rspSessionId := rspSessionId r;
  sessionId := sessionId r; rspPubKey := rspPubKey r; rspPubKeyLen := rspPubKeyLen r;
  mutAuthRequested := mutAuthRequested r; reqSlotIdParam := reqSlotIdParam r;
  reqPrivKey := reqPrivKey r; reqPrivKeyLen := reqPrivKeyLen r; reqPubKey := reqPubKey r;
  rspCaps := rspCaps r; vcaLen := vcaLen r; dataTransferSize := dataTransferSize r;
  maxSpdmMsgSize := maxSpdmMsgSize r; certChainLen := certChainLen r;
  trustedCASz := trustedCASz r; slotMask := slotMask r; currentSlotId := currentSlotId r;
  chunkHandle := chunkHandle r; pqcAsymSel := pqcAsymSel r; kemAlgSel := kemAlgSel r;
  kexAdvKem := kexAdvKem r; kexAdvDhe := kexAdvDhe r; certChain := certChain r;
  trustedCA := trustedCA r; l1l2Hash := l1l2Hash r; measRecordLen := measRecordLen r;
  measBlockCount := measBlockCount r; l1l2State := l1l2State r;
  measRecord := measRecord r; m1Hash := m1Hash r; m1State := m1State r;
  flags := flags r |}.
End Struct.

(** An assignment to fields of the context. *)
Notation upd f := (@modify WOLFSPDM_CTX f).

(** Reading fields of an updated context. *)
Ltac ctx_simpl := cbn [set
    debug initialized isDynamic rngInitialized ephemeralKeyInit ephemeralIsKem
    hasRspPubKey hasReqKeyPair allowUntrustedCert rspKeyFromCert state mode ioCb
    ioUserCtx connectionHandle fipsIndicator reqPubKeyTPMT reqPubKeyTPMTLen psk
    pskSz pskHint pskHintSz rng maxVersion spdmVersion lastPeerErrorCode ephemeral
    sharedSecret sharedSecretSz transcript transcriptLen certChainHash th1 th2
    handshakeSecret reqHsSecret rspHsSecret reqFinishedKey rspFinishedKey reqDataKey
    rspDataKey reqDataIv rspDataIv reqAppSecret rspAppSecret reqSeqNum rspSeqNum
    reqSessionId rspSessionId sessionId rspPubKey rspPubKeyLen mutAuthRequested
    reqSlotIdParam reqPrivKey reqPrivKeyLen reqPubKey rspCaps vcaLen
    dataTransferSize maxSpdmMsgSize certChainLen trustedCASz slotMask currentSlotId
    chunkHandle pqcAsymSel kemAlgSel kexAdvKem kexAdvDhe certChain trustedCA
    l1l2Hash measRecordLen measBlockCount l1l2State measRecord m1Hash m1State flags].
Ltac ctx_simpl_in H := cbn [set
    debug initialized isDynamic rngInitialized ephemeralKeyInit ephemeralIsKem
    hasRspPubKey hasReqKeyPair allowUntrustedCert rspKeyFromCert state mode ioCb
    ioUserCtx connectionHandle fipsIndicator reqPubKeyTPMT reqPubKeyTPMTLen psk
    pskSz pskHint pskHintSz rng maxVersion spdmVersion lastPeerErrorCode ephemeral
    sharedSecret sharedSecretSz transcript transcriptLen certChainHash th1 th2
    handshakeSecret reqHsSecret rspHsSecret reqFinishedKey rspFinishedKey reqDataKey
    rspDataKey reqDataIv rspDataIv reqAppSecret rspAppSecret reqSeqNum rspSeqNum
    reqSessionId rspSessionId sessionId rspPubKey rspPubKeyLen mutAuthRequested
    reqSlotIdParam reqPrivKey reqPrivKeyLen reqPubKey rspCaps vcaLen
    dataTransferSize maxSpdmMsgSize certChainLen trustedCASz slotMask currentSlotId
    chunkHandle pqcAsymSel kemAlgSel kexAdvKem kexAdvDhe certChain trustedCA
    l1l2Hash measRecordLen measBlockCount l1l2State measRecord m1Hash m1State flags] in H.

(** Runs a computation: the monad's operations and the fields of contexts. *)
Ltac run := cbn [negb andb orb]; cbv beta iota delta [bind modify get ret lift_opt fail ub check when on_err try
  zoom mbind option_bind]; ctx_simpl.

(** [XMEMSET(ctx, 0, sizeof(WOLFSPDM_CTX))] *)
Definition zero_flags : ctx_flags := {|
  debug := false; initialized := false; isDynamic := false; rngInitialized := false;
  ephemeralKeyInit := false; ephemeralIsKem := false; hasRspPubKey := false;
  hasReqKeyPair := false; allowUntrustedCert := false; rspKeyFromCert := false |}.

Definition zero_ctx `{WolfCrypt} `{Config} : WOLFSPDM_CTX := {|
  state := 0; mode := 0; ioCb := 0; ioUserCtx := 0; connectionHandle := 0;
  fipsIndicator := 0; reqPubKeyTPMT := zeros (WOLFSPDM_PUBKEY_BUF_SZ / 2);
  reqPubKeyTPMTLen := 0; psk := zeros WOLFSPDM_PSK_MAX_SIZE; pskSz := 0;
  pskHint := zeros WOLFSPDM_PSK_HINT_MAX; pskHintSz := 0; rng := None;
  maxVersion := 0; spdmVersion := 0; lastPeerErrorCode := 0; ephemeral := eph_none;
  sharedSecret := zeros WOLFSPDM_ECC_KEY_SIZE; sharedSecretSz := 0;
  transcript := zeros WOLFSPDM_MAX_TRANSCRIPT; transcriptLen := 0;
  certChainHash := zeros WOLFSPDM_HASH_SIZE; th1 := zeros WOLFSPDM_HASH_SIZE;
  th2 := zeros WOLFSPDM_HASH_SIZE; handshakeSecret := zeros WOLFSPDM_HASH_SIZE;
  reqHsSecret := zeros WOLFSPDM_HASH_SIZE; rspHsSecret := zeros WOLFSPDM_HASH_SIZE;
  reqFinishedKey := zeros WOLFSPDM_HASH_SIZE; rspFinishedKey := zeros WOLFSPDM_HASH_SIZE;
  reqDataKey := zeros WOLFSPDM_AEAD_KEY_SIZE; rspDataKey := zeros WOLFSPDM_AEAD_KEY_SIZE;
  reqDataIv := zeros WOLFSPDM_AEAD_IV_SIZE; rspDataIv := zeros WOLFSPDM_AEAD_IV_SIZE;
  reqAppSecret := zeros WOLFSPDM_HASH_SIZE; rspAppSecret := zeros WOLFSPDM_HASH_SIZE;
  reqSeqNum := 0; rspSeqNum := 0; reqSessionId := 0; rspSessionId := 0; sessionId := 0;
  rspPubKey := zeros WOLFSPDM_RSP_PUBKEY_SZ; rspPubKeyLen := 0; mutAuthRequested := 0;
  reqSlotIdParam := 0; reqPrivKey := zeros WOLFSPDM_ECC_KEY_SIZE; reqPrivKeyLen := 0;
  reqPubKey := zeros WOLFSPDM_ECC_POINT_SIZE; rspCaps := 0; vcaLen := 0;
  dataTransferSize := 0; maxSpdmMsgSize := 0; certChainLen := 0; trustedCASz := 0;
  slotMask := 0; currentSlotId := 0; chunkHandle := 0; pqcAsymSel := 0; kemAlgSel := 0;
  kexAdvKem := 0; kexAdvDhe := 0; certChain := zeros WOLFSPDM_MAX_CERT_CHAIN;
  trustedCA := zeros WOLFSPDM_MAX_TRUSTED_CA; l1l2Hash := None; measRecordLen := 0;
  measBlockCount := 0; l1l2State := 0; measRecord := zeros WOLFSPDM_MAX_MEAS_RECORD;
  m1Hash := None; m1State := 0; flags := zero_flags |}.

Section Context.
Context `{WolfCrypt} `{Config}.
Notation CM := (M WOLFSPDM_CTX).

(** ** Inline helpers of spdm_internal.h *)

Definition wolfSPDM_IsTcgMode (ctx : WOLFSPDM_CTX) : bool :=
  (ctx.(mode) =? WOLFSPDM_MODE_TCG) || (ctx.(mode) =? WOLFSPDM_MODE_NUVOTON) ||
  (ctx.(mode) =? WOLFSPDM_MODE_NATIONS) || (ctx.(mode) =? WOLFSPDM_MODE_NATIONS_PSK).

Definition wolfSPDM_ChunkOn (ctx : WOLFSPDM_CTX) : bool :=
  negb (wolfSPDM_IsTcgMode ctx) && negb (Z.land ctx.(rspCaps) SPDM_CAP_CHUNK_CAP =? 0).

Definition WOLFSPDM_MLDSA_44_SET : Z :=
  if WOLFSSL_NO_ML_DSA_44 then 0 else SPDM_PQC_ASYM_ALGO_ML_DSA_44.
Definition WOLFSPDM_MLDSA_65_SET : Z :=
  if WOLFSSL_NO_ML_DSA_65 then 0 else SPDM_PQC_ASYM_ALGO_ML_DSA_65.
Definition WOLFSPDM_MLDSA_87_SET : Z :=
  if WOLFSSL_NO_ML_DSA_87 then 0 else SPDM_PQC_ASYM_ALGO_ML_DSA_87.
Definition WOLFSPDM_MLDSA_SETS : Z :=
  Z.lor (Z.lor WOLFSPDM_MLDSA_44_SET WOLFSPDM_MLDSA_65_SET) WOLFSPDM_MLDSA_87_SET.

Definition wolfSPDM_MlDsaLevel (pqcAsymSel : Z) : Z :=
  if Z.land pqcAsymSel WOLFSPDM_MLDSA_SETS =? 0 then 0
  else if pqcAsymSel =? SPDM_PQC_ASYM_ALGO_ML_DSA_44 then WC_ML_DSA_44
  else if pqcAsymSel =? SPDM_PQC_ASYM_ALGO_ML_DSA_65 then WC_ML_DSA_65
  else if pqcAsymSel =? SPDM_PQC_ASYM_ALGO_ML_DSA_87 then WC_ML_DSA_87
  else 0.

Definition WOLFSPDM_MLKEM_512_SET : Z :=
  if WOLFSSL_WC_ML_KEM_512 then SPDM_KEM_ALGO_ML_KEM_512 else 0.
Definition WOLFSPDM_MLKEM_768_SET : Z :=
  if WOLFSSL_WC_ML_KEM_768 then SPDM_KEM_ALGO_ML_KEM_768 else 0.
Definition WOLFSPDM_MLKEM_1024_SET : Z :=
  if WOLFSSL_WC_ML_KEM_1024 then SPDM_KEM_ALGO_ML_KEM_1024 else 0.
Definition WOLFSPDM_MLKEM_SETS : Z :=
  Z.lor (Z.lor WOLFSPDM_MLKEM_512_SET WOLFSPDM_MLKEM_768_SET) WOLFSPDM_MLKEM_1024_SET.

Definition wolfSPDM_RspMlDsaLevel (ctx : WOLFSPDM_CTX) : Z :=
  if negb (wolfSPDM_IsTcgMode ctx) then wolfSPDM_MlDsaLevel ctx.(pqcAsymSel) else 0.

Definition wolfSPDM_SigSize (ctx : WOLFSPDM_CTX) : Z :=
  let level := wolfSPDM_RspMlDsaLevel ctx in
  if level =? WC_ML_DSA_44 then WOLFSPDM_MLDSA44_SIG_SIZE
  else if level =? WC_ML_DSA_65 then WOLFSPDM_MLDSA65_SIG_SIZE
  else if level =? WC_ML_DSA_87 then WOLFSPDM_MLDSA87_SIG_SIZE
  else WOLFSPDM_ECC_SIG_SIZE.

(** The argument-check macros; [bufSz] is a capacity for a builder and the
    message itself for a parser. *)
Definition SPDM_CHECK_BUILD_ARGS {S} (bufSz minSz : Z) : M S unit :=
  check (bufSz <? minSz) WOLFSPDM_E_BUFFER_SMALL.

Definition SPDM_CHECK_PARSE_ARGS {S} (buf : bytes) (minSz : Z) : M S unit :=
  check (len buf <? minSz) WOLFSPDM_E_INVALID_ARG.

Definition SPDM_CHECK_PARSE_OR_ERROR_ARGS {S} (buf : bytes) (minSz : Z) : M S unit :=
  check (len buf <? 4) WOLFSPDM_E_INVALID_ARG ;;;
  if len buf <? minSz then
    let* code := rd buf 1 in check (negb (code =? SPDM_ERROR)) WOLFSPDM_E_INVALID_ARG
  else ret tt.

(** ** Freeing *)

Definition wolfSPDM_FreeEphemeralKey : CM unit :=
  let* ctx := @get WOLFSPDM_CTX in
  if negb ctx.(flags).(ephemeralKeyInit) then ret tt
  else
    (if ctx.(flags).(ephemeralIsKem) then
       match ctx.(ephemeral) with
       | eph_mlkem _ =>
           upd (fun c => c <| ephemeral := eph_none |>
                              <| flags := c.(flags) <| ephemeralIsKem := false |> |>)
       | _ => ub
       end
     else
       match ctx.(ephemeral) with
       | eph_ecc _ => upd (fun c => c <| ephemeral := eph_none |>)
       | _ => ub
       end) ;;;
    upd (fun c => c <| flags := c.(flags) <| ephemeralKeyInit := false |> |>).

(** spdm_attest.c: free both running hashes *)
Definition wolfSPDM_AttestFree : CM unit :=
  let* ctx := @get WOLFSPDM_CTX in
  when (negb (ctx.(l1l2State) =? WOLFSPDM_RUN_NONE))
    (match ctx.(l1l2Hash) with
     | Some _ => upd (fun c => c <| l1l2Hash := None |> <| l1l2State := WOLFSPDM_RUN_NONE |>)
     | None => ub
     end) ;;;
  when (negb (ctx.(m1State) =? WOLFSPDM_RUN_NONE))
    (match ctx.(m1Hash) with
     | Some _ => upd (fun c => c <| m1Hash := None |> <| m1State := WOLFSPDM_RUN_NONE |>)
     | None => ub
     end).

(** ** Context management *)

(** The whole memory is cleared first, so the state before does not matter. *)
Definition wolfSPDM_Init : CM unit :=
  upd (fun _ => zero_ctx <| state := WOLFSPDM_STATE_INIT |>) ;;;
  let* r := lift_opt WOLFSPDM_E_CRYPTO_FAIL wc_InitRng in
  upd (fun c => c <| rng := Some r |>
                     <| flags := c.(flags) <| rngInitialized := true |> |>) ;;;
  upd (fun c => c <| reqSessionId := 0x0001 |>) ;;;
  upd (fun c => c <| kexAdvDhe := 1 |> <| kexAdvKem := WOLFSPDM_MLKEM_SETS |>) ;;;
  upd (fun c => c <| flags := c.(flags) <| initialized := true |> |>).

(** [mem] is the block [XMALLOC] returns, [None] for NULL. *)
Definition wolfSPDM_New (mem : option WOLFSPDM_CTX) : option WOLFSPDM_CTX :=
  match mem with
  | None => None
  | Some garbage =>
      match wolfSPDM_Init garbage with
      | Ok _ c => Some (c <| flags := c.(flags) <| isDynamic := true |> |>)
      | _ => None
      end
  end.

Definition wolfSPDM_Free : CM unit :=
  wolfSPDM_FreeEphemeralKey ;;;
  wolfSPDM_AttestFree ;;;
  upd (fun _ => zero_ctx).

Definition wolfSPDM_InitStatic (sizeof_ctx size : Z) : CM unit :=
  check (size <? sizeof_ctx) WOLFSPDM_E_BUFFER_SMALL ;;;
  wolfSPDM_Init.

(** ** Configuration *)

Definition wolfSPDM_SetIO (cb userCtx : Z) : CM unit :=
  check (cb =? 0) WOLFSPDM_E_INVALID_ARG ;;;
  upd (fun c => c <| ioCb := cb |> <| ioUserCtx := userCtx |>).

Definition wolfSPDM_HasIO (ctx : WOLFSPDM_CTX) : bool := negb (ctx.(ioCb) =? 0).

Definition wolfSPDM_SetResponderPubKey (pubKey : bytes) : CM unit :=
  check (negb (len pubKey =? WOLFSPDM_ECC_POINT_SIZE)) WOLFSPDM_E_INVALID_ARG ;;;
  let* ctx := @get WOLFSPDM_CTX in
  let* a := wr ctx.(rspPubKey) 0 pubKey in
  upd (fun c => c <| rspPubKey := a |> <| rspPubKeyLen := len pubKey |>
    <| flags := c.(flags) <| hasRspPubKey := true |> <| rspKeyFromCert := false |> |>).

Definition wolfSPDM_SetRequesterKeyPair (privKey pubKey : bytes) : CM unit :=
  check (negb (len privKey =? WOLFSPDM_ECC_KEY_SIZE) ||
         negb (len pubKey =? WOLFSPDM_ECC_POINT_SIZE)) WOLFSPDM_E_INVALID_ARG ;;;
  let* ctx := @get WOLFSPDM_CTX in
  let* a := wr ctx.(reqPrivKey) 0 privKey in
  let* b := wr ctx.(reqPubKey) 0 pubKey in
  upd (fun c => c <| reqPrivKey := a |> <| reqPrivKeyLen := len privKey |>
    <| reqPubKey := b |> <| flags := c.(flags) <| hasReqKeyPair := true |> |>).

Definition wolfSPDM_SetRequesterKeyTPMT (tpmtPub : bytes) : CM unit :=
  let* ctx := @get WOLFSPDM_CTX in
  check (len tpmtPub >? len ctx.(reqPubKeyTPMT)) WOLFSPDM_E_INVALID_ARG ;;;
  let* a := wr ctx.(reqPubKeyTPMT) 0 tpmtPub in
  upd (fun c => c <| reqPubKeyTPMT := a |> <| reqPubKeyTPMTLen := len tpmtPub |>).

Definition wolfSPDM_SetMaxVersion (v : Z) : CM unit :=
  check (negb (v =? 0) &&
         ((v <? WOLFSPDM_MIN_SPDM_VERSION) || (v >? WOLFSPDM_MAX_SPDM_VERSION)))
    WOLFSPDM_E_INVALID_ARG ;;;
  upd (fun c => c <| maxVersion := v |>).

Definition wolfSPDM_SetRequesterSessionId (id : Z) : CM unit :=
  check ((id =? 0x0000) || (id =? 0xFFFF) ||
         ((Z.land id 0xFF >=? 0x10) && (Z.land id 0xFF <=? 0x1F)))
    WOLFSPDM_E_INVALID_ARG ;;;
  upd (fun c => c <| reqSessionId := id |>).

Definition wolfSPDM_GetLastPeerError (ctx : WOLFSPDM_CTX) : Z := ctx.(lastPeerErrorCode).

Definition wolfSPDM_SetDebug (enable : Z) : CM unit :=
  upd (fun c => c <| flags := c.(flags) <| debug := negb (enable =? 0) |> |>).

Definition wolfSPDM_SetMode (m : Z) : CM unit :=
  if m =? WOLFSPDM_MODE_TCG then
    upd (fun c => c <| mode := WOLFSPDM_MODE_TCG |> <| connectionHandle := 0 |>
                       <| fipsIndicator := WOLFSPDM_FIPS_NON_FIPS |>)
  else if m =? WOLFSPDM_MODE_NUVOTON then
    upd (fun c => c <| mode := WOLFSPDM_MODE_NUVOTON |>
                       <| connectionHandle := WOLFSPDM_NUVOTON_CONN_HANDLE_DEFAULT |>
                       <| fipsIndicator := WOLFSPDM_NUVOTON_FIPS_DEFAULT |>)
  else if m =? WOLFSPDM_MODE_NATIONS then
    upd (fun c => c <| mode := WOLFSPDM_MODE_NATIONS |> <| connectionHandle := 0 |>
                       <| fipsIndicator := WOLFSPDM_FIPS_NON_FIPS |>)
  else if m =? WOLFSPDM_MODE_NATIONS_PSK then
    upd (fun c => c <| mode := WOLFSPDM_MODE_NATIONS_PSK |> <| connectionHandle := 0 |>
                       <| fipsIndicator := WOLFSPDM_FIPS_NON_FIPS |>)
  else if m =? WOLFSPDM_MODE_AUTO then
    upd (fun c => c <| mode := WOLFSPDM_MODE_AUTO |>)
  else fail WOLFSPDM_E_INVALID_ARG.

Definition wolfSPDM_GetMode (ctx : WOLFSPDM_CTX) : Z := ctx.(mode).

(** ** Session status *)

Definition wolfSPDM_IsConnected (ctx : WOLFSPDM_CTX) : Z :=
  if ctx.(state) =? WOLFSPDM_STATE_CONNECTED then 1 else 0.

Definition wolfSPDM_GetSessionId (ctx : WOLFSPDM_CTX) : Z :=
  if (ctx.(state) <? WOLFSPDM_STATE_KEY_EX) || (ctx.(state) =? WOLFSPDM_STATE_ERROR)
  then 0 else ctx.(sessionId).

Definition wolfSPDM_GetNegotiatedVersion (ctx : WOLFSPDM_CTX) : Z :=
  if ctx.(state) <? WOLFSPDM_STATE_VERSION then 0 else ctx.(spdmVersion).

Definition wolfSPDM_GetVersion_Negotiated (ctx : WOLFSPDM_CTX) : Z :=
  wolfSPDM_GetNegotiatedVersion ctx.

Definition wolfSPDM_GetConnectionHandle (ctx : WOLFSPDM_CTX) : Z := ctx.(connectionHandle).

Definition wolfSPDM_GetFipsIndicator (ctx : WOLFSPDM_CTX) : Z := ctx.(fipsIndicator).

(** ** Session reset *)

Definition wolfSPDM_ResetSession : CM unit :=
  upd (fun c => c <| state := WOLFSPDM_STATE_INIT |> <| sessionId := 0 |>
    <| rspSessionId := 0 |> <| reqSeqNum := 0 |> <| rspSeqNum := 0 |>
    <| mutAuthRequested := 0 |> <| reqSlotIdParam := 0 |>) ;;;
  upd (fun c => c <| reqDataKey := zeros WOLFSPDM_AEAD_KEY_SIZE |>
    <| rspDataKey := zeros WOLFSPDM_AEAD_KEY_SIZE |>
    <| reqDataIv := zeros WOLFSPDM_AEAD_IV_SIZE |>
    <| rspDataIv := zeros WOLFSPDM_AEAD_IV_SIZE |>
    <| reqAppSecret := zeros WOLFSPDM_HASH_SIZE |>
    <| rspAppSecret := zeros WOLFSPDM_HASH_SIZE |>) ;;;
  upd (fun c => c <| reqHsSecret := zeros WOLFSPDM_HASH_SIZE |>
    <| rspHsSecret := zeros WOLFSPDM_HASH_SIZE |>
    <| reqFinishedKey := zeros WOLFSPDM_HASH_SIZE |>
    <| rspFinishedKey := zeros WOLFSPDM_HASH_SIZE |>) ;;;
  upd (fun c => c <| handshakeSecret := zeros WOLFSPDM_HASH_SIZE |>
    <| sharedSecret := zeros WOLFSPDM_ECC_KEY_SIZE |> <| sharedSecretSz := 0 |>
    <| th1 := zeros WOLFSPDM_HASH_SIZE |> <| th2 := zeros WOLFSPDM_HASH_SIZE |>) ;;;
  wolfSPDM_FreeEphemeralKey ;;;
  upd (fun c => c <| rspCaps := 0 |> <| dataTransferSize := 0 |>
    <| maxSpdmMsgSize := 0 |>) ;;;
  upd (fun c => c <| measBlockCount := 0 |> <| measRecordLen := 0 |>) ;;;
  wolfSPDM_AttestFree.
End Context.

(** ** Error strings *)

Definition wolfSPDM_GetErrorString (error : Z) : string :=
  if error =? WOLFSPDM_SUCCESS then "Success"
  else if error =? WOLFSPDM_E_INVALID_ARG then "Invalid argument"
  else if error =? WOLFSPDM_E_BUFFER_SMALL then "Buffer too small"
  else if error =? WOLFSPDM_E_BAD_STATE then "Invalid state"
  else if error =? WOLFSPDM_E_VERSION_MISMATCH then "Version mismatch"
  else if error =? WOLFSPDM_E_CRYPTO_FAIL then "Crypto operation failed"
  else if error =? WOLFSPDM_E_BAD_SIGNATURE then "Bad signature"
  else if error =? WOLFSPDM_E_BAD_HMAC then "HMAC verification failed"
  else if error =? WOLFSPDM_E_IO_FAIL then "I/O failure"
  else if error =? WOLFSPDM_E_TIMEOUT then "Timeout"
  else if error =? WOLFSPDM_E_PEER_ERROR then "Peer error response"
  else if error =? WOLFSPDM_E_DECRYPT_FAIL then "Decryption failed"
  else if error =? WOLFSPDM_E_SEQUENCE then "Sequence number error"
  else if error =? WOLFSPDM_E_NOT_CONNECTED then "Not connected"
  else if error =? WOLFSPDM_E_ALREADY_INIT then "Already initialized"
  else if error =? WOLFSPDM_E_NO_MEMORY then "Memory allocation failed"
  else if error =? WOLFSPDM_E_SESSION_INVALID then "Invalid session"
  else if error =? WOLFSPDM_E_KEY_EXCHANGE then "Key exchange failed"
  else if error =? WOLFSPDM_E_NOT_AVAILABLE then "Feature not compiled in"
  else if error =? WOLFSPDM_E_FRAMING then "Framing violation"
  else if error =? WOLFSPDM_E_NOT_IMPL then "Not implemented"
  else if error =? WOLFSPDM_E_CERT_FAIL then "Certificate check failed"
  else if error =? WOLFSPDM_E_CAPS_MISMATCH then "Capability mismatch"
  else if error =? WOLFSPDM_E_ALGO_MISMATCH then "Algorithm mismatch"
  else if error =? WOLFSPDM_E_CERT_PARSE then "Certificate parse failed"
  else if error =? WOLFSPDM_E_KEY_UPDATE then "Key update failed"
  else if error =? WOLFSPDM_E_MEASUREMENT then "Measurement response invalid"
  else if error =? WOLFSPDM_E_CHALLENGE then "Challenge response invalid"
  else if error =? WOLFSPDM_E_CHUNK then "Chunked transfer failed"
  else if error =? WOLFSPDM_E_MEAS_NOT_VERIFIED
  then "Measurements not verified (legacy, never returned)"
  else "Unknown error".

(** ** Well-formed contexts: what [wolfSPDM_Init] establishes

    Every array has its declared size (and the stored chain holds bytes), every length counter stays within its
    array, the generator is seeded, the live union member and the running hashes
    agree with their flags. *)

Section Wf.
Context `{WolfCrypt} `{Config}.

(** The declared sizes, one by one. *)
Definition sizes_ok (c : WOLFSPDM_CTX) : Prop :=
  len c.(reqPubKeyTPMT) = WOLFSPDM_PUBKEY_BUF_SZ / 2 /\
  len c.(psk) = WOLFSPDM_PSK_MAX_SIZE /\ len c.(pskHint) = WOLFSPDM_PSK_HINT_MAX /\
  len c.(sharedSecret) = WOLFSPDM_ECC_KEY_SIZE /\
  len c.(transcript) = WOLFSPDM_MAX_TRANSCRIPT /\
  len c.(certChainHash) = WOLFSPDM_HASH_SIZE /\ len c.(th1) = WOLFSPDM_HASH_SIZE /\
  len c.(th2) = WOLFSPDM_HASH_SIZE /\ len c.(handshakeSecret) = WOLFSPDM_HASH_SIZE /\
  len c.(reqHsSecret) = WOLFSPDM_HASH_SIZE /\ len c.(rspHsSecret) = WOLFSPDM_HASH_SIZE /\
  len c.(reqFinishedKey) = WOLFSPDM_HASH_SIZE /\
  len c.(rspFinishedKey) = WOLFSPDM_HASH_SIZE /\
  len c.(reqDataKey) = WOLFSPDM_AEAD_KEY_SIZE /\
  len c.(rspDataKey) = WOLFSPDM_AEAD_KEY_SIZE /\
  len c.(reqDataIv) = WOLFSPDM_AEAD_IV_SIZE /\ len c.(rspDataIv) = WOLFSPDM_AEAD_IV_SIZE /\
  len c.(reqAppSecret) = WOLFSPDM_HASH_SIZE /\ len c.(rspAppSecret) = WOLFSPDM_HASH_SIZE /\
  len c.(rspPubKey) = WOLFSPDM_RSP_PUBKEY_SZ /\ len c.(reqPrivKey) = WOLFSPDM_ECC_KEY_SIZE /\
  len c.(reqPubKey) = WOLFSPDM_ECC_POINT_SIZE /\
  len c.(certChain) = WOLFSPDM_MAX_CERT_CHAIN /\ is_bytes c.(certChain) /\
  len c.(trustedCA) = WOLFSPDM_MAX_TRUSTED_CA /\
  len c.(measRecord) = WOLFSPDM_MAX_MEAS_RECORD.

Definition bounds_ok (c : WOLFSPDM_CTX) : Prop :=
  0 <= c.(reqPubKeyTPMTLen) <= WOLFSPDM_PUBKEY_BUF_SZ / 2 /\
  0 <= c.(pskSz) <= WOLFSPDM_PSK_MAX_SIZE /\ 0 <= c.(pskHintSz) <= WOLFSPDM_PSK_HINT_MAX /\
  0 <= c.(sharedSecretSz) <= WOLFSPDM_ECC_KEY_SIZE /\
  0 <= c.(transcriptLen) <= WOLFSPDM_MAX_TRANSCRIPT /\
  0 <= c.(vcaLen) <= WOLFSPDM_MAX_TRANSCRIPT /\
  0 <= c.(rspPubKeyLen) <= WOLFSPDM_RSP_PUBKEY_SZ /\
  0 <= c.(certChainLen) <= WOLFSPDM_MAX_CERT_CHAIN /\
  0 <= c.(trustedCASz) <= WOLFSPDM_MAX_TRUSTED_CA /\
  0 <= c.(measRecordLen) <= WOLFSPDM_MAX_MEAS_RECORD /\
  0 <= c.(spdmVersion) <= 255 /\ 0 <= c.(reqSessionId) <= 2 ^ 16 - 1 /\
  0 <= c.(rspSessionId) <= 2 ^ 16 - 1 /\ 0 <= c.(reqSeqNum) <= 2 ^ 64 - 1 /\
  0 <= c.(rspSeqNum) <= 2 ^ 64 - 1 /\ 0 <= c.(chunkHandle) <= 255 /\
  0 <= c.(sessionId) <= 2 ^ 32 - 1 /\ 0 <= c.(connectionHandle) <= 2 ^ 32 - 1 /\
  0 <= c.(fipsIndicator) <= 2 ^ 16 - 1 /\
  (c.(dataTransferSize) = 0 \/
   SPDM_MIN_DATA_TRANSFER_SIZE <= c.(dataTransferSize) <= 2 ^ 32 - 1) /\
  0 <= c.(state) <= WOLFSPDM_STATE_ERROR.

Definition union_ok (c : WOLFSPDM_CTX) : Prop :=
  match c.(flags).(ephemeralKeyInit), c.(flags).(ephemeralIsKem), c.(ephemeral) with
  | false, false, _ => True
  | true, true, eph_mlkem _ => True
  | true, false, eph_ecc _ => True
  | _, _, _ => False
  end.

Definition objects_ok (c : WOLFSPDM_CTX) : Prop :=
  is_Some c.(rng) /\
  (c.(l1l2State) <> WOLFSPDM_RUN_NONE -> is_Some c.(l1l2Hash)) /\
  (c.(m1State) <> WOLFSPDM_RUN_NONE -> is_Some c.(m1Hash)).

Record ctx_wf (c : WOLFSPDM_CTX) : Prop := wf_build {
  wf_sizes : sizes_ok c;
  wf_bounds : bounds_ok c;
  wf_union : union_ok c;
  wf_objects : objects_ok c
}.

(** A context that differs in no array size, counter, union or hash flag. *)
Lemma wf_frame c c' : sizes_ok c' = sizes_ok c -> bounds_ok c' = bounds_ok c ->
  union_ok c' = union_ok c -> objects_ok c' = objects_ok c -> ctx_wf c -> ctx_wf c'.
Proof. intros Hs Hc Hu Ho [? ? ? ?]. split; rewrite ?Hs, ?Hc, ?Hu, ?Ho; assumption. Qed.

Lemma Init_wp c (Q : unit -> WOLFSPDM_CTX -> Prop) E :
  (forall c', ctx_wf c' -> c'.(flags).(initialized) = true -> Q tt c') ->
  (forall c', E WOLFSPDM_E_CRYPTO_FAIL c') -> wp wolfSPDM_Init Q E c.
Proof.
  intros HQ HE. unfold wolfSPDM_Init. wp_go; [|done]. pose proof cfg_pos.
  apply HQ; [|done]. split.
  - unfold sizes_ok, zero_ctx; ctx_simpl. rewrite !len_zeros.
    split_and!; try done; try lia. by apply Forall_replicate.
  - unfold bounds_ok, zero_ctx; ctx_simpl. split_and!; try done; lia.
  - exact I.
  - split_and!; unfold zero_ctx; ctx_simpl; done.
Qed.

End Wf.

(** [wf_tac]: a context updated from a well-formed one is well-formed.  The
    facts on the new values are in the hypotheses. *)
Ltac wf_side :=
  first [ assumption
        | rewrite ?len_splice, ?len_zeros by lia; lia ].

Ltac wf_facts Hwf :=
  let Hs := fresh "Hs" in let Hb := fresh "Hb" in
  pose proof (wf_sizes _ Hwf) as Hs; pose proof (wf_bounds _ Hwf) as Hb;
  unfold sizes_ok in Hs; unfold bounds_ok in Hb; destruct_and? Hs; destruct_and? Hb.

Ltac wf_tac :=
  match goal with
  | H : ctx_wf ?c |- ctx_wf ?c => exact H
  | H : ctx_wf ?c |- ctx_wf ?c' =>
      apply wf_build;
      [ unfold sizes_ok; ctx_simpl;
        first [ exact (wf_sizes _ H)
              | wf_facts H; pose proof cfg_pos; pose proof cfg_dts; split_and!; wf_side ]
      | unfold bounds_ok; ctx_simpl;
        first [ exact (wf_bounds _ H)
              | wf_facts H; pose proof cfg_pos; pose proof cfg_dts; split_and!; wf_side ]
      | unfold union_ok; ctx_simpl; first [exact (wf_union _ H) | assumption | idtac]
      | unfold objects_ok; ctx_simpl; first [exact (wf_objects _ H) | assumption | idtac] ]
  end.

(** Equality of contexts by cases on the records. *)
Ltac ctx_eq c :=
  destruct c as []; repeat match goal with f : ctx_flags |- _ => destruct f end; reflexivity.

(** ** Lemmas on the context operations *)

Section ContextLemmas.
Context `{WolfCrypt} `{Config}.
Implicit Types c : WOLFSPDM_CTX.

(** The results of freeing, as functions. *)
Definition eph_freed c : WOLFSPDM_CTX :=
  if c.(flags).(ephemeralKeyInit)
  then c <| ephemeral := eph_none |>
         <| flags := c.(flags) <| ephemeralIsKem := false |> <| ephemeralKeyInit := false |> |>
  else c.

Definition l1l2_freed c : WOLFSPDM_CTX :=
  if c.(l1l2State) =? WOLFSPDM_RUN_NONE then c
  else c <| l1l2Hash := None |> <| l1l2State := WOLFSPDM_RUN_NONE |>.

Definition m1_freed c : WOLFSPDM_CTX :=
  if c.(m1State) =? WOLFSPDM_RUN_NONE then c
  else c <| m1Hash := None |> <| m1State := WOLFSPDM_RUN_NONE |>.

Lemma FreeEphemeralKey_run c :
  union_ok c -> wolfSPDM_FreeEphemeralKey c = Ok tt (eph_freed c).
Proof.
  unfold union_ok, wolfSPDM_FreeEphemeralKey, eph_freed, bind, get; cbn beta iota.
  destruct (ephemeralKeyInit (flags c)); [|done].
  destruct (ephemeralIsKem (flags c)) eqn:Hk; destruct (ephemeral c); try done.
  intros _; cbn; f_equal. destruct c as [], flags0; cbn in *. by subst.
Qed.

Lemma AttestFree_run c :
  objects_ok c -> wolfSPDM_AttestFree c = Ok tt (m1_freed (l1l2_freed c)).
Proof.
  intros (_ & Hl & Hm). unfold wolfSPDM_AttestFree, m1_freed, l1l2_freed, bind, get, when.
  destruct (Z.eqb_spec (l1l2State c) WOLFSPDM_RUN_NONE) as [|Hn];
    destruct (Z.eqb_spec (m1State c) WOLFSPDM_RUN_NONE) as [E|Hn'];
    cbn [negb ret]; ctx_simpl; rewrite ?E; try done;
    try (destruct (Hl Hn) as [h ->]); try (destruct (Hm Hn') as [h' ->]); cbn;
    repeat case_match; try done; lia.
Qed.

Lemma eph_freed_wf c : ctx_wf c -> ctx_wf (eph_freed c).
Proof.
  intros Hwf. unfold eph_freed. destruct (ephemeralKeyInit _); [|done].
  destruct Hwf as [? ? ? Ho]. by split.
Qed.

Lemma eph_freed_init c : (eph_freed c).(flags).(ephemeralKeyInit) = false.
Proof. unfold eph_freed. by destruct (ephemeralKeyInit (flags c)) eqn:?. Qed.

Lemma attest_freed_wf c : ctx_wf c -> ctx_wf (m1_freed (l1l2_freed c)).
Proof.
  intros [? ? ? (Hr & Hl & Hm)]. unfold m1_freed, l1l2_freed.
  destruct (l1l2State c =? _) eqn:E1; ctx_simpl; destruct (m1State c =? _) eqn:E2;
    split; try done; split_and!; ctx_simpl; try done; intros []; lia.
Qed.

(** The projection of a freed context on a field the freeing leaves alone. *)
Ltac freed := unfold m1_freed, l1l2_freed, eph_freed; repeat case_match; reflexivity.

(** What a reset must leave nothing of. *)
Record session_wiped c : Prop := {
  sw_state : c.(state) = WOLFSPDM_STATE_INIT;
  sw_ids : c.(sessionId) = 0 /\ c.(rspSessionId) = 0;
  sw_seq : c.(reqSeqNum) = 0 /\ c.(rspSeqNum) = 0;
  sw_auth : c.(mutAuthRequested) = 0 /\ c.(reqSlotIdParam) = 0;
  sw_keys : c.(reqDataKey) = zeros WOLFSPDM_AEAD_KEY_SIZE /\
            c.(rspDataKey) = zeros WOLFSPDM_AEAD_KEY_SIZE /\
            c.(reqDataIv) = zeros WOLFSPDM_AEAD_IV_SIZE /\
            c.(rspDataIv) = zeros WOLFSPDM_AEAD_IV_SIZE;
  sw_app : c.(reqAppSecret) = zeros WOLFSPDM_HASH_SIZE /\
           c.(rspAppSecret) = zeros WOLFSPDM_HASH_SIZE;
  sw_hs : c.(reqHsSecret) = zeros WOLFSPDM_HASH_SIZE /\
          c.(rspHsSecret) = zeros WOLFSPDM_HASH_SIZE /\
          c.(reqFinishedKey) = zeros WOLFSPDM_HASH_SIZE /\
          c.(rspFinishedKey) = zeros WOLFSPDM_HASH_SIZE /\
          c.(handshakeSecret) = zeros WOLFSPDM_HASH_SIZE;
  sw_shared : c.(sharedSecret) = zeros WOLFSPDM_ECC_KEY_SIZE /\ c.(sharedSecretSz) = 0;
  sw_th : c.(th1) = zeros WOLFSPDM_HASH_SIZE /\ c.(th2) = zeros WOLFSPDM_HASH_SIZE;
  sw_eph : c.(flags).(ephemeralKeyInit) = false;
  sw_caps : c.(rspCaps) = 0 /\ c.(dataTransferSize) = 0 /\ c.(maxSpdmMsgSize) = 0;
  sw_meas : c.(measBlockCount) = 0 /\ c.(measRecordLen) = 0;
  sw_runs : c.(l1l2State) = WOLFSPDM_RUN_NONE /\ c.(m1State) = WOLFSPDM_RUN_NONE
}.

(** What a reset must keep: transport, mode, configured keys, PSK, anchors. *)
Definition identity c :=
  (c.(mode), c.(ioCb), c.(ioUserCtx), c.(connectionHandle), c.(fipsIndicator),
   (c.(reqPubKeyTPMT), c.(reqPubKeyTPMTLen)), (c.(psk), c.(pskSz), c.(pskHint), c.(pskHintSz)),
   c.(rng), c.(maxVersion), c.(reqSessionId), (c.(rspPubKey), c.(rspPubKeyLen)),
   (c.(reqPrivKey), c.(reqPrivKeyLen), c.(reqPubKey)), (c.(trustedCA), c.(trustedCASz)),
   (c.(flags).(hasRspPubKey), c.(flags).(hasReqKeyPair), c.(flags).(allowUntrustedCert),
    c.(flags).(rspKeyFromCert), c.(flags).(initialized))).

Lemma eph_freed_identity c : identity (eph_freed c) = identity c.
Proof. unfold eph_freed. by destruct (ephemeralKeyInit (flags c)). Qed.

Lemma attest_freed_identity c : identity (m1_freed (l1l2_freed c)) = identity c.
Proof. unfold m1_freed, l1l2_freed. destruct (l1l2State c =? _); case_match; reflexivity. Qed.

(** The context after a reset, as a function. *)
Definition wiped c : WOLFSPDM_CTX := c <| state := WOLFSPDM_STATE_INIT |>
  <| sessionId := 0 |> <| rspSessionId := 0 |> <| reqSeqNum := 0 |> <| rspSeqNum := 0 |>
  <| mutAuthRequested := 0 |> <| reqSlotIdParam := 0 |>
  <| reqDataKey := zeros WOLFSPDM_AEAD_KEY_SIZE |>
  <| rspDataKey := zeros WOLFSPDM_AEAD_KEY_SIZE |>
  <| reqDataIv := zeros WOLFSPDM_AEAD_IV_SIZE |> <| rspDataIv := zeros WOLFSPDM_AEAD_IV_SIZE |>
  <| reqAppSecret := zeros WOLFSPDM_HASH_SIZE |> <| rspAppSecret := zeros WOLFSPDM_HASH_SIZE |>
  <| reqHsSecret := zeros WOLFSPDM_HASH_SIZE |> <| rspHsSecret := zeros WOLFSPDM_HASH_SIZE |>
  <| reqFinishedKey := zeros WOLFSPDM_HASH_SIZE |>
  <| rspFinishedKey := zeros WOLFSPDM_HASH_SIZE |>
  <| handshakeSecret := zeros WOLFSPDM_HASH_SIZE |>
  <| sharedSecret := zeros WOLFSPDM_ECC_KEY_SIZE |> <| sharedSecretSz := 0 |>
  <| th1 := zeros WOLFSPDM_HASH_SIZE |> <| th2 := zeros WOLFSPDM_HASH_SIZE |>.

Definition forget_peer c : WOLFSPDM_CTX := c <| rspCaps := 0 |> <| dataTransferSize := 0 |>
  <| maxSpdmMsgSize := 0 |> <| measBlockCount := 0 |> <| measRecordLen := 0 |>.

Definition reset_ctx c : WOLFSPDM_CTX :=
  m1_freed (l1l2_freed (forget_peer (eph_freed (wiped c)))).

Lemma wiped_wf c : ctx_wf c -> ctx_wf (wiped c).
Proof. intros. unfold wiped. wf_tac. Qed.

Lemma forget_peer_wf c : ctx_wf c -> ctx_wf (forget_peer c).
Proof. intros. unfold forget_peer. wf_tac. Qed.

Lemma reset_wf c : ctx_wf c -> ctx_wf (reset_ctx c).
Proof. intros. by apply attest_freed_wf, forget_peer_wf, eph_freed_wf, wiped_wf. Qed.

Lemma attest_freed_fields c (A : Type) (p : WOLFSPDM_CTX -> A) :
  (forall c h s, p (c <| l1l2Hash := h |> <| l1l2State := s |>) = p c) ->
  (forall c h s, p (c <| m1Hash := h |> <| m1State := s |>) = p c) ->
  p (m1_freed (l1l2_freed c)) = p c.
Proof.
  intros Hl Hm. unfold m1_freed, l1l2_freed.
  destruct (l1l2State c =? _); case_match; by rewrite ?Hm, ?Hl.
Qed.

Lemma reset_wiped c : session_wiped (reset_ctx c).
Proof.
  unfold reset_ctx.
  assert (session_wiped ((forget_peer (eph_freed (wiped c))) <| l1l2State := 0 |> <| m1State := 0 |>))
    as Hw.
  { destruct c; unfold forget_peer, eph_freed, wiped; ctx_simpl.
    destruct (ephemeralKeyInit _) eqn:Hi; split; ctx_simpl; auto. }
  revert Hw. generalize (forget_peer (eph_freed (wiped c))). intros c1 Hw. destruct Hw.
  split; rewrite ?attest_freed_fields by done; try assumption.
  unfold m1_freed, l1l2_freed.
  destruct (Z.eqb_spec (l1l2State c1) WOLFSPDM_RUN_NONE); case_match; split; ctx_simpl; try done;
    by apply Z.eqb_eq.
Qed.

Lemma wiped_identity c : identity (wiped c) = identity c.
Proof. destruct c. reflexivity. Qed.

Lemma forget_peer_identity c : identity (forget_peer c) = identity c.
Proof. destruct c. reflexivity. Qed.

Lemma reset_identity c : identity (reset_ctx c) = identity c.
Proof.
  unfold reset_ctx. by rewrite attest_freed_identity, forget_peer_identity,
    eph_freed_identity, wiped_identity.
Qed.

Lemma FreeEphemeralKey_wp c Q E : union_ok c -> Q tt (eph_freed c) ->
  wp wolfSPDM_FreeEphemeralKey Q E c.
Proof. intros Hu HQ. unfold wp. by rewrite FreeEphemeralKey_run. Qed.

Lemma AttestFree_wp c Q E : objects_ok c -> Q tt (m1_freed (l1l2_freed c)) ->
  wp wolfSPDM_AttestFree Q E c.
Proof. intros Hu HQ. unfold wp. by rewrite AttestFree_run. Qed.

Lemma ResetSession_wp c (Q : unit -> WOLFSPDM_CTX -> Prop) E : ctx_wf c ->
  (ctx_wf (reset_ctx c) -> Q tt (reset_ctx c)) -> wp wolfSPDM_ResetSession Q E c.
Proof.
  intros Hwf HQ. pose proof (reset_wf _ Hwf) as Hr. unfold reset_ctx in *.
  unfold wolfSPDM_ResetSession. do 8 (wp_step; cbv beta).
  fold (wiped c). apply wp_bind, FreeEphemeralKey_wp; [apply wiped_wf, Hwf|]. cbv beta.
  do 4 (wp_step; cbv beta). fold (forget_peer (eph_freed (wiped c))).
  apply AttestFree_wp; [apply forget_peer_wf, eph_freed_wf, wiped_wf, Hwf|].
  exact (HQ Hr).
Qed.
End ContextLemmas.
