(* ===== verification/Transcript.v ===== *)
(** * The message transcript: src/spdm_transcript.c

    [tr c] is the transcript's contents, the first [transcriptLen] bytes of
    the fixed array. *)
From Stdlib Require Import ZArith Lia.
From stdpp Require Import base tactics list numbers.
From S2P Require Import Prelude Types Bytes Crypt Context.

Section Transcript.
Context `{WolfCrypt} `{Config}.
Notation CM := (M WOLFSPDM_CTX).

Definition wolfSPDM_TranscriptReset : CM unit :=
  upd (fun c => c <| transcript := zeros WOLFSPDM_MAX_TRANSCRIPT |> <| transcriptLen := 0 |>) ;;;
  upd (fun c => c <| certChainHash := zeros WOLFSPDM_HASH_SIZE |>
    <| th1 := zeros WOLFSPDM_HASH_SIZE |> <| th2 := zeros WOLFSPDM_HASH_SIZE |>).

Definition wolfSPDM_TranscriptAdd (data : bytes) : CM unit :=
  let* ctx := @get WOLFSPDM_CTX in
  check ((ctx.(transcriptLen) >? WOLFSPDM_MAX_TRANSCRIPT) ||
         (len data >? WOLFSPDM_MAX_TRANSCRIPT - ctx.(transcriptLen)))
    WOLFSPDM_E_BUFFER_SMALL ;;;
  let* t := wr ctx.(transcript) ctx.(transcriptLen) data in
  upd (fun c => c <| transcript := t |>
                  <| transcriptLen := w32 (c.(transcriptLen) + len data) |>).

(** One [if (d != NULL && sz > 0)] step of the hash; a NULL buffer is empty. *)
Definition sha_update {S} (sha : wc_Sha384) (d : bytes) : M S wc_Sha384 :=
  if 0 <? len d then
    let '(rc, sha') := wc_Sha384Update sha d in
    check (negb (rc =? 0)) WOLFSPDM_E_CRYPTO_FAIL ;;; ret sha'
  else ret sha.

Definition wolfSPDM_Sha384Hash {S} (d1 d2 d3 : bytes) : M S bytes :=
  let* sha := lift_opt WOLFSPDM_E_CRYPTO_FAIL wc_InitSha384 in
  let* sha := sha_update sha d1 in
  let* sha := sha_update sha d2 in
  let* sha := sha_update sha d3 in
  lift_opt WOLFSPDM_E_CRYPTO_FAIL (wc_Sha384Final sha).

Definition wolfSPDM_TranscriptHash : CM bytes :=
  let* ctx := @get WOLFSPDM_CTX in
  let* t := rd_sub ctx.(transcript) 0 ctx.(transcriptLen) in
  wolfSPDM_Sha384Hash t [] [].

(** ** Contents and lemmas *)

Definition tr (c : WOLFSPDM_CTX) : bytes := sub_bytes c.(transcript) 0 c.(transcriptLen).

Definition tr_add (c : WOLFSPDM_CTX) (data : bytes) : WOLFSPDM_CTX :=
  c <| transcript := splice c.(transcript) c.(transcriptLen) data |>
    <| transcriptLen := c.(transcriptLen) + len data |>.

Definition tr_reset (c : WOLFSPDM_CTX) : WOLFSPDM_CTX :=
  c <| transcript := zeros WOLFSPDM_MAX_TRANSCRIPT |> <| transcriptLen := 0 |>
    <| certChainHash := zeros WOLFSPDM_HASH_SIZE |>
    <| th1 := zeros WOLFSPDM_HASH_SIZE |> <| th2 := zeros WOLFSPDM_HASH_SIZE |>.

(** A build's transcript array is below 4 GiB, as a word32 length needs. *)
Class TranscriptFits := transcript_fits : WOLFSPDM_MAX_TRANSCRIPT < 2 ^ 32.
Context `{TranscriptFits}.

Lemma tr_add_wf c data : ctx_wf c -> c.(transcriptLen) + len data <= WOLFSPDM_MAX_TRANSCRIPT ->
  ctx_wf (tr_add c data).
Proof. intros. pose proof (len_nonneg data). unfold tr_add. wf_tac. Qed.

Lemma tr_tr_add c data : ctx_wf c ->
  c.(transcriptLen) + len data <= WOLFSPDM_MAX_TRANSCRIPT -> tr (tr_add c data) = tr c ++ data.
Proof.
  intros Hwf Hle. pose proof (wf_bounds _ Hwf) as Hb. pose proof (wf_sizes _ Hwf) as Hs.
  unfold bounds_ok, sizes_ok in *. unfold tr, tr_add; ctx_simpl. apply sub_bytes_splice; lia.
Qed.

Lemma TranscriptAdd_wp c data (Q : unit -> WOLFSPDM_CTX -> Prop) (E : Z -> WOLFSPDM_CTX -> Prop) :
  ctx_wf c ->
  (c.(transcriptLen) + len data <= WOLFSPDM_MAX_TRANSCRIPT -> ctx_wf (tr_add c data) ->
   Q tt (tr_add c data)) ->
  (WOLFSPDM_MAX_TRANSCRIPT < c.(transcriptLen) + len data -> E WOLFSPDM_E_BUFFER_SMALL c) ->
  wp (wolfSPDM_TranscriptAdd data) Q E c.
Proof.
  intros Hwf HQ HE. pose proof (wf_bounds _ Hwf) as Hb. pose proof (wf_sizes _ Hwf) as Hs.
  unfold bounds_ok, sizes_ok in *. pose proof (len_nonneg data). pose proof transcript_fits.
  unfold wolfSPDM_TranscriptAdd. wp_go; [apply HE; lia|].
  rewrite w32_id by lia. apply HQ; [lia|]. apply tr_add_wf; [done|lia].
Qed.

Lemma TranscriptReset_wp c (Q : unit -> WOLFSPDM_CTX -> Prop) E : ctx_wf c ->
  (ctx_wf (tr_reset c) -> Q tt (tr_reset c)) -> wp wolfSPDM_TranscriptReset Q E c.
Proof.
  intros Hwf HQ. unfold wolfSPDM_TranscriptReset. wp_go. apply HQ. unfold tr_reset. wf_tac.
Qed.

Lemma tr_reset_nil c : tr (tr_reset c) = [].
Proof. reflexivity. Qed.

(** The hash as a function: hashing touches no state. *)
Definition sha_step (sha : wc_Sha384) (d : bytes) : option wc_Sha384 :=
  if 0 <? len d then
    let '(rc, sha') := wc_Sha384Update sha d in if rc =? 0 then Some sha' else None
  else Some sha.

Definition sha384 (d1 d2 d3 : bytes) : option bytes :=
  sha0 ← wc_InitSha384;
  sha1 ← sha_step sha0 d1;
  sha2 ← sha_step sha1 d2;
  sha3 ← sha_step sha2 d3;
  wc_Sha384Final sha3.

Lemma sha_update_run {S} sha d (s : S) :
  sha_update sha d s = lift_opt WOLFSPDM_E_CRYPTO_FAIL (sha_step sha d) s.
Proof.
  unfold sha_update, sha_step. destruct (0 <? len d); [|done].
  destruct (wc_Sha384Update sha d) as [rc sha']. by destruct (rc =? 0).
Qed.

Lemma Sha384Hash_run {S} d1 d2 d3 (s : S) :
  wolfSPDM_Sha384Hash d1 d2 d3 s = lift_opt WOLFSPDM_E_CRYPTO_FAIL (sha384 d1 d2 d3) s.
Proof.
  unfold wolfSPDM_Sha384Hash, sha384. run. destruct wc_InitSha384 as [s0|]; run; [|done].
  rewrite sha_update_run. destruct (sha_step s0 d1) as [s1|]; run; [|done].
  rewrite sha_update_run. destruct (sha_step s1 d2) as [s2|]; run; [|done].
  rewrite sha_update_run. by destruct (sha_step s2 d3) as [s3|].
Qed.

Lemma sha384_size `{!CryptSizes} d1 d2 d3 h :
  sha384 d1 d2 d3 = Some h -> len h = WOLFSPDM_HASH_SIZE /\ is_bytes h.
Proof. unfold sha384. intros Hh. simplify_option_eq. by eapply sha_size. Qed.

Lemma Sha384Hash_wp `{!CryptSizes} {S} d1 d2 d3 (Q : bytes -> S -> Prop) E s :
  (forall h, sha384 d1 d2 d3 = Some h -> len h = WOLFSPDM_HASH_SIZE -> is_bytes h -> Q h s) ->
  E WOLFSPDM_E_CRYPTO_FAIL s -> wp (wolfSPDM_Sha384Hash d1 d2 d3) Q E s.
Proof.
  intros HQ HE. unfold wp. rewrite Sha384Hash_run.
  destruct (sha384 d1 d2 d3) eqn:Hh; [|done]. destruct (sha384_size _ _ _ _ Hh). by apply HQ.
Qed.

Lemma TranscriptHash_run c : ctx_wf c ->
  wolfSPDM_TranscriptHash c = lift_opt WOLFSPDM_E_CRYPTO_FAIL (sha384 (tr c) [] []) c.
Proof.
  intros Hwf. pose proof (wf_bounds _ Hwf) as Hb. pose proof (wf_sizes _ Hwf) as Hs.
  unfold bounds_ok, sizes_ok in *. unfold wolfSPDM_TranscriptHash, rd_sub. run.
  replace ((0 <=? 0) && (0 <=? transcriptLen c) && (0 + transcriptLen c <=? len (transcript c)))
    with true by lia.
  apply Sha384Hash_run.
Qed.

Lemma TranscriptHash_wp `{!CryptSizes} c (Q : bytes -> WOLFSPDM_CTX -> Prop) E : ctx_wf c ->
  (forall h, sha384 (tr c) [] [] = Some h -> len h = WOLFSPDM_HASH_SIZE -> is_bytes h -> Q h c) ->
  E WOLFSPDM_E_CRYPTO_FAIL c -> wp wolfSPDM_TranscriptHash Q E c.
Proof.
  intros Hwf HQ HE. unfold wp. rewrite TranscriptHash_run by done.
  destruct (sha384 _ _ _) eqn:Hh; [|done]. destruct (sha384_size _ _ _ _ Hh). by apply HQ.
Qed.
End Transcript.
