(* ===== verification/Kdf.v ===== *)
(** * Key derivation: src/spdm_kdf.c

    A call that fails leaves its output buffer as it was. *)
From Stdlib Require Import ZArith Lia String.
From stdpp Require Import base tactics list numbers.
From S2P Require Import Prelude Types Bytes Crypt Context Transcript.

(** Size of [info[128]]. *)
Definition HKDF_INFO_SZ : Z := 128.

Definition bin_concat_prefix (spdmVersion : Z) : bytes :=
  if spdmVersion >=? 0x14 then SPDM_BIN_CONCAT_PREFIX_14
  else if spdmVersion >=? 0x13 then SPDM_BIN_CONCAT_PREFIX_13
  else SPDM_BIN_CONCAT_PREFIX_12.

(** The BinConcat string: Length (2 LE), prefix, label, context. *)
Definition bin_concat (spdmVersion : Z) (label context : bytes) (outSz : Z) : bytes :=
  [w8 (Z.land outSz 0xFF); w8 (Z.land (Z.shiftr outSz 8) 0xFF)] ++
  bin_concat_prefix spdmVersion ++ label ++ context.

Section Kdf.
Context `{WolfCrypt} `{Config}.
Notation CM := (M WOLFSPDM_CTX).

(** A NULL context is the empty one. *)
Definition wolfSPDM_HkdfExpandLabel {S} (spdmVersion : Z) (secret label context : bytes)
    (outSz : Z) : M S bytes :=
  check ((len label >? HKDF_INFO_SZ) || (len context >? HKDF_INFO_SZ) ||
         (2 + SPDM_BIN_CONCAT_PREFIX_LEN + len label + len context >? HKDF_INFO_SZ))
    WOLFSPDM_E_BUFFER_SMALL ;;;
  lift_opt WOLFSPDM_E_CRYPTO_FAIL
    (wc_HKDF_Expand secret (bin_concat spdmVersion label context outSz) outSz).

Definition wolfSPDM_ComputeVerifyData {S} (finishedKey thHash : bytes) : M S bytes :=
  let* hmac := lift_opt WOLFSPDM_E_CRYPTO_FAIL wc_HmacInit in
  let* k := rd_sub finishedKey 0 WOLFSPDM_HASH_SIZE in
  let* hmac := lift_opt WOLFSPDM_E_CRYPTO_FAIL (wc_HmacSetKey hmac k) in
  let* h := rd_sub thHash 0 WOLFSPDM_HASH_SIZE in
  let* hmac := lift_opt WOLFSPDM_E_CRYPTO_FAIL (wc_HmacUpdate hmac h) in
  lift_opt WOLFSPDM_E_CRYPTO_FAIL (wc_HmacFinal hmac).

(** [key] and [iv] are the context fields the output pointers point to. *)
Definition wolfSPDM_DeriveKeyIvPair (spdmVersion : Z) (secret : bytes)
    (set_key set_iv : bytes -> WOLFSPDM_CTX -> WOLFSPDM_CTX) : CM unit :=
  let* key := wolfSPDM_HkdfExpandLabel spdmVersion secret SPDM_LABEL_KEY []
                WOLFSPDM_AEAD_KEY_SIZE in
  upd (set_key key) ;;;
  let* iv := wolfSPDM_HkdfExpandLabel spdmVersion secret SPDM_LABEL_IV []
               WOLFSPDM_AEAD_IV_SIZE in
  upd (set_iv iv).

(** The two directions' key and IV fields. *)
Definition set_req_key (b : bytes) (c : WOLFSPDM_CTX) : WOLFSPDM_CTX := c <| reqDataKey := b |>.
Definition set_req_iv (b : bytes) (c : WOLFSPDM_CTX) : WOLFSPDM_CTX := c <| reqDataIv := b |>.
Definition set_rsp_key (b : bytes) (c : WOLFSPDM_CTX) : WOLFSPDM_CTX := c <| rspDataKey := b |>.
Definition set_rsp_iv (b : bytes) (c : WOLFSPDM_CTX) : WOLFSPDM_CTX := c <| rspDataIv := b |>.

Definition wipe_handshake_keys (c : WOLFSPDM_CTX) : WOLFSPDM_CTX :=
  c <| reqHsSecret := zeros WOLFSPDM_HASH_SIZE |> <| rspHsSecret := zeros WOLFSPDM_HASH_SIZE |>
    <| reqFinishedKey := zeros WOLFSPDM_HASH_SIZE |>
    <| rspFinishedKey := zeros WOLFSPDM_HASH_SIZE |>
    <| reqDataKey := zeros WOLFSPDM_AEAD_KEY_SIZE |>
    <| rspDataKey := zeros WOLFSPDM_AEAD_KEY_SIZE |>
    <| reqDataIv := zeros WOLFSPDM_AEAD_IV_SIZE |> <| rspDataIv := zeros WOLFSPDM_AEAD_IV_SIZE |>.

Definition wolfSPDM_DeriveFromHandshakeSecret (th1Hash : bytes) : CM unit :=
  on_err
    (let* c := @get WOLFSPDM_CTX in
     let v := c.(spdmVersion) in
     let* reqHs := wolfSPDM_HkdfExpandLabel v c.(handshakeSecret) SPDM_LABEL_REQ_HS_DATA
                     th1Hash WOLFSPDM_HASH_SIZE in
     upd (fun c => c <| reqHsSecret := reqHs |>) ;;;
     let* rspHs := wolfSPDM_HkdfExpandLabel v c.(handshakeSecret) SPDM_LABEL_RSP_HS_DATA
                     th1Hash WOLFSPDM_HASH_SIZE in
     upd (fun c => c <| rspHsSecret := rspHs |>) ;;;
     let* reqFin := wolfSPDM_HkdfExpandLabel v reqHs SPDM_LABEL_FINISHED []
                      WOLFSPDM_HASH_SIZE in
     upd (fun c => c <| reqFinishedKey := reqFin |>) ;;;
     let* rspFin := wolfSPDM_HkdfExpandLabel v rspHs SPDM_LABEL_FINISHED []
                      WOLFSPDM_HASH_SIZE in
     upd (fun c => c <| rspFinishedKey := rspFin |>) ;;;
     wolfSPDM_DeriveKeyIvPair v reqHs set_req_key set_req_iv ;;;
     wolfSPDM_DeriveKeyIvPair v rspHs set_rsp_key set_rsp_iv)
    (fun _ => upd wipe_handshake_keys).

Definition wolfSPDM_DeriveHandshakeKeys (th1Hash : bytes) : CM unit :=
  let* c := @get WOLFSPDM_CTX in
  let* ikm := rd_sub c.(sharedSecret) 0 c.(sharedSecretSz) in
  let* hs := lift_opt WOLFSPDM_E_CRYPTO_FAIL
               (wc_HKDF_Extract (zeros WOLFSPDM_HASH_SIZE) ikm) in
  upd (fun c => c <| handshakeSecret := hs |>) ;;;
  wolfSPDM_DeriveFromHandshakeSecret th1Hash.

Definition wolfSPDM_DeriveAppDataKeys : CM unit :=
  let* c := @get WOLFSPDM_CTX in
  let v := c.(spdmVersion) in
  let* th2Hash := wolfSPDM_TranscriptHash in
  let* salt := wolfSPDM_HkdfExpandLabel v c.(handshakeSecret) (str "derived") []
                 WOLFSPDM_HASH_SIZE in
  let* masterSecret := lift_opt WOLFSPDM_E_CRYPTO_FAIL
                         (wc_HKDF_Extract salt (zeros WOLFSPDM_HASH_SIZE)) in
  let* reqApp := wolfSPDM_HkdfExpandLabel v masterSecret SPDM_LABEL_REQ_DATA th2Hash
                   WOLFSPDM_HASH_SIZE in
  let* rspApp := wolfSPDM_HkdfExpandLabel v masterSecret SPDM_LABEL_RSP_DATA th2Hash
                   WOLFSPDM_HASH_SIZE in
  wolfSPDM_DeriveKeyIvPair v reqApp set_req_key set_req_iv ;;;
  wolfSPDM_DeriveKeyIvPair v rspApp set_rsp_key set_rsp_iv ;;;
  upd (fun c => c <| reqAppSecret := reqApp |> <| rspAppSecret := rspApp |>) ;;;
  upd (fun c => c <| reqSeqNum := 0 |> <| rspSeqNum := 0 |>).

(** [appSecret], [key] and [iv] point into the context. *)
Definition wolfSPDM_UpdateDirection (spdmVersion : Z) (appSecret : bytes)
    (set_secret set_key set_iv : bytes -> WOLFSPDM_CTX -> WOLFSPDM_CTX) : CM unit :=
  let* next := wolfSPDM_HkdfExpandLabel spdmVersion appSecret SPDM_LABEL_UPDATE []
                 WOLFSPDM_HASH_SIZE in
  wolfSPDM_DeriveKeyIvPair spdmVersion next set_key set_iv ;;;
  upd (set_secret next).

Definition set_req_app (b : bytes) (c : WOLFSPDM_CTX) : WOLFSPDM_CTX := c <| reqAppSecret := b |>.
Definition set_rsp_app (b : bytes) (c : WOLFSPDM_CTX) : WOLFSPDM_CTX := c <| rspAppSecret := b |>.

Definition wolfSPDM_DeriveUpdatedKeys (updateAll : bool) : CM unit :=
  let* c := @get WOLFSPDM_CTX in
  wolfSPDM_UpdateDirection c.(spdmVersion) c.(reqAppSecret) set_req_app set_req_key set_req_iv ;;;
  when updateAll
    (wolfSPDM_UpdateDirection c.(spdmVersion) c.(rspAppSecret) set_rsp_app set_rsp_key set_rsp_iv).

(** ** Lemmas *)

Lemma len_bin_concat v label context n :
  len (bin_concat v label context n) = 2 + SPDM_BIN_CONCAT_PREFIX_LEN + len label + len context.
Proof.
  unfold bin_concat, bin_concat_prefix. rewrite !len_app.
  assert (forall a b : bool, len (if a then SPDM_BIN_CONCAT_PREFIX_14
    else if b then SPDM_BIN_CONCAT_PREFIX_13 else SPDM_BIN_CONCAT_PREFIX_12) = 8) as ->
    by (by intros [] []).
  unfold SPDM_BIN_CONCAT_PREFIX_LEN. rewrite !len_cons, len_nil. lia.
Qed.

Lemma HkdfExpandLabel_wp `{!CryptSizes} {S} v secret label context n
    (Q : bytes -> S -> Prop) (E : Z -> S -> Prop) s :
  0 <= n ->
  (forall d, len d = n -> is_bytes d -> Q d s) ->
  (E WOLFSPDM_E_BUFFER_SMALL s) -> E WOLFSPDM_E_CRYPTO_FAIL s ->
  wp (wolfSPDM_HkdfExpandLabel v secret label context n) Q E s.
Proof.
  intros Hn HQ HE1 HE2. unfold wolfSPDM_HkdfExpandLabel. wp_go; try done.
  edestruct expand_size; eauto.
Qed.

(** The verify data of a FINISH exchange as a function. *)
Definition verify_data (finishedKey thHash : bytes) : option bytes :=
  h0 ← wc_HmacInit;
  h1 ← wc_HmacSetKey h0 (sub_bytes finishedKey 0 WOLFSPDM_HASH_SIZE);
  h2 ← wc_HmacUpdate h1 (sub_bytes thHash 0 WOLFSPDM_HASH_SIZE);
  wc_HmacFinal h2.

Lemma ComputeVerifyData_wp `{!CryptSizes} {S} key th (Q : bytes -> S -> Prop) (E : Z -> S -> Prop) s :
  WOLFSPDM_HASH_SIZE <= len key -> WOLFSPDM_HASH_SIZE <= len th ->
  (forall d, verify_data key th = Some d -> len d = WOLFSPDM_HASH_SIZE -> is_bytes d -> Q d s) ->
  E WOLFSPDM_E_CRYPTO_FAIL s ->
  wp (wolfSPDM_ComputeVerifyData key th) Q E s.
Proof.
  intros Hk Ht HQ HE. unfold wolfSPDM_ComputeVerifyData, verify_data in *. wp_go; try done.
  edestruct hmac_size; [eassumption|]. apply HQ; [|done..]. by simplify_option_eq.
Qed.

(** ** The DSP0277 key schedule

    The same derivations as pure functions of the secret, the version and the
    transcript hashes. *)

Definition expand (v : Z) (secret label context : bytes) (n : Z) : option bytes :=
  wc_HKDF_Expand secret (bin_concat v label context n) n.

Definition traffic (v : Z) (secret : bytes) : option (bytes * bytes) :=
  key ← expand v secret SPDM_LABEL_KEY [] WOLFSPDM_AEAD_KEY_SIZE;
  iv ← expand v secret SPDM_LABEL_IV [] WOLFSPDM_AEAD_IV_SIZE;
  Some (key, iv).

Record hs_keys := {
  k_req_hs : bytes; k_rsp_hs : bytes; k_req_fin : bytes; k_rsp_fin : bytes;
  k_req : bytes * bytes; k_rsp : bytes * bytes
}.

Definition hs_schedule (v : Z) (hs th1Hash : bytes) : option hs_keys :=
  reqHs ← expand v hs SPDM_LABEL_REQ_HS_DATA th1Hash WOLFSPDM_HASH_SIZE;
  rspHs ← expand v hs SPDM_LABEL_RSP_HS_DATA th1Hash WOLFSPDM_HASH_SIZE;
  reqFin ← expand v reqHs SPDM_LABEL_FINISHED [] WOLFSPDM_HASH_SIZE;
  rspFin ← expand v rspHs SPDM_LABEL_FINISHED [] WOLFSPDM_HASH_SIZE;
  req ← traffic v reqHs;
  rsp ← traffic v rspHs;
  Some {| k_req_hs := reqHs; k_rsp_hs := rspHs; k_req_fin := reqFin; k_rsp_fin := rspFin;
          k_req := req; k_rsp := rsp |}.

Definition install_hs (k : hs_keys) (c : WOLFSPDM_CTX) : WOLFSPDM_CTX :=
  c <| reqHsSecret := k_req_hs k |> <| rspHsSecret := k_rsp_hs k |>
    <| reqFinishedKey := k_req_fin k |> <| rspFinishedKey := k_rsp_fin k |>
    <| reqDataKey := fst (k_req k) |> <| reqDataIv := snd (k_req k) |>
    <| rspDataKey := fst (k_rsp k) |> <| rspDataIv := snd (k_rsp k) |>.

Record app_keys := {
  k_req_app : bytes; k_rsp_app : bytes; k_areq : bytes * bytes; k_arsp : bytes * bytes
}.

Definition app_schedule (v : Z) (hs th2Hash : bytes) : option app_keys :=
  salt ← expand v hs (str "derived") [] WOLFSPDM_HASH_SIZE;
  master ← wc_HKDF_Extract salt (zeros WOLFSPDM_HASH_SIZE);
  reqApp ← expand v master SPDM_LABEL_REQ_DATA th2Hash WOLFSPDM_HASH_SIZE;
  rspApp ← expand v master SPDM_LABEL_RSP_DATA th2Hash WOLFSPDM_HASH_SIZE;
  req ← traffic v reqApp;
  rsp ← traffic v rspApp;
  Some {| k_req_app := reqApp; k_rsp_app := rspApp; k_areq := req; k_arsp := rsp |}.

Definition install_app (k : app_keys) (c : WOLFSPDM_CTX) : WOLFSPDM_CTX :=
  c <| reqDataKey := fst (k_areq k) |> <| reqDataIv := snd (k_areq k) |>
    <| rspDataKey := fst (k_arsp k) |> <| rspDataIv := snd (k_arsp k) |>
    <| reqAppSecret := k_req_app k |> <| rspAppSecret := k_rsp_app k |>
    <| reqSeqNum := 0 |> <| rspSeqNum := 0 |>.

(** Labels and hashes fit the info buffer, so a derivation is one expand. *)
Lemma HkdfExpandLabel_run {S} v secret label context n (s : S) :
  2 + SPDM_BIN_CONCAT_PREFIX_LEN + len label + len context <= HKDF_INFO_SZ ->
  wolfSPDM_HkdfExpandLabel v secret label context n s =
  lift_opt WOLFSPDM_E_CRYPTO_FAIL (expand v secret label context n) s.
Proof.
  unfold HKDF_INFO_SZ, SPDM_BIN_CONCAT_PREFIX_LEN. intros Hl. pose proof (len_nonneg label).
  pose proof (len_nonneg context). unfold wolfSPDM_HkdfExpandLabel, bind, check.
  unfold HKDF_INFO_SZ, SPDM_BIN_CONCAT_PREFIX_LEN.
  replace ((len label >? 128) || (len context >? 128) ||
    (2 + 8 + len label + len context >? 128)) with false by lia. done.
Qed.

Ltac label_fits :=
  repeat match goal with Hl : len _ = _ |- _ => rewrite Hl end; vm_compute; discriminate.

Lemma DeriveKeyIvPair_run v secret fk fi c :
  wolfSPDM_DeriveKeyIvPair v secret fk fi c =
  match expand v secret SPDM_LABEL_KEY [] WOLFSPDM_AEAD_KEY_SIZE with
  | None => Err WOLFSPDM_E_CRYPTO_FAIL c
  | Some key =>
      match expand v secret SPDM_LABEL_IV [] WOLFSPDM_AEAD_IV_SIZE with
      | None => Err WOLFSPDM_E_CRYPTO_FAIL (fk key c)
      | Some iv => Ok tt (fi iv (fk key c))
      end
  end.
Proof.
  unfold wolfSPDM_DeriveKeyIvPair, bind. rewrite HkdfExpandLabel_run by label_fits.
  destruct (expand v secret SPDM_LABEL_KEY [] WOLFSPDM_AEAD_KEY_SIZE); run; [|done].
  rewrite HkdfExpandLabel_run by label_fits.
  destruct (expand v secret SPDM_LABEL_IV [] WOLFSPDM_AEAD_IV_SIZE); run; done.
Qed.

(** The handshake derivation installs exactly the schedule's keys, or wipes
    every key it may have touched. *)
Lemma DeriveFromHandshakeSecret_run c th1Hash :
  len th1Hash = WOLFSPDM_HASH_SIZE ->
  wolfSPDM_DeriveFromHandshakeSecret th1Hash c =
  match hs_schedule c.(spdmVersion) c.(handshakeSecret) th1Hash with
  | Some k => Ok tt (install_hs k c)
  | None => Err WOLFSPDM_E_CRYPTO_FAIL (wipe_handshake_keys c)
  end.
Proof.
  intros Hth. unfold wolfSPDM_DeriveFromHandshakeSecret, hs_schedule, traffic, on_err.
  run.
  rewrite HkdfExpandLabel_run by label_fits.
  destruct (expand _ _ SPDM_LABEL_REQ_HS_DATA _ _) as [reqHs|]; run; [|done].
  rewrite HkdfExpandLabel_run by label_fits.
  destruct (expand _ _ SPDM_LABEL_RSP_HS_DATA _ _) as [rspHs|]; run; [|by destruct c].
  rewrite HkdfExpandLabel_run by label_fits.
  destruct (expand _ reqHs SPDM_LABEL_FINISHED _ _) as [reqFin|]; run; [|by destruct c].
  rewrite HkdfExpandLabel_run by label_fits.
  destruct (expand _ rspHs SPDM_LABEL_FINISHED _ _) as [rspFin|]; run; [|by destruct c].
  rewrite DeriveKeyIvPair_run.
  destruct (expand _ reqHs SPDM_LABEL_KEY _ _) as [k1|]; run; [|by destruct c].
  destruct (expand _ reqHs SPDM_LABEL_IV _ _) as [i1|]; run; [|by destruct c].
  rewrite DeriveKeyIvPair_run.
  destruct (expand _ rspHs SPDM_LABEL_KEY _ _) as [k2|]; run; [|by destruct c].
  destruct (expand _ rspHs SPDM_LABEL_IV _ _) as [i2|]; run; [done|by destruct c].
Qed.

Definition pair_sized (p : bytes * bytes) : Prop :=
  len (fst p) = WOLFSPDM_AEAD_KEY_SIZE /\ len (snd p) = WOLFSPDM_AEAD_IV_SIZE.

Section Sizes.
Context `{!CryptSizes}.

Lemma expand_len v secret label context n d :
  0 <= n -> expand v secret label context n = Some d -> len d = n.
Proof. intros Hn Hd. by edestruct expand_size. Qed.

Lemma traffic_sized v secret p : traffic v secret = Some p -> pair_sized p.
Proof.
  unfold traffic. intros Hp. simplify_option_eq.
  split; eapply expand_len; eauto; done.
Qed.

Lemma install_hs_wf v hs th k c :
  hs_schedule v hs th = Some k -> ctx_wf c -> ctx_wf (install_hs k c).
Proof.
  unfold hs_schedule. intros Hk Hwf. simplify_option_eq.
  repeat match goal with
  | Ht : traffic _ _ = Some _ |- _ => apply traffic_sized in Ht as [??]
  | He : expand _ _ _ _ _ = Some _ |- _ => apply expand_len in He; [|done]
  end.
  unfold install_hs; cbn [k_req_hs k_rsp_hs k_req_fin k_rsp_fin k_req k_rsp]. wf_tac.
Qed.

Lemma install_app_wf v hs th k c :
  app_schedule v hs th = Some k -> ctx_wf c -> ctx_wf (install_app k c).
Proof.
  unfold app_schedule. intros Hk Hwf. simplify_option_eq.
  repeat match goal with
  | Ht : traffic _ _ = Some _ |- _ => apply traffic_sized in Ht as [??]
  | He : expand _ _ _ _ _ = Some _ |- _ => apply expand_len in He; [|done]
  end.
  unfold install_app; cbn [k_req_app k_rsp_app k_areq k_arsp]. wf_tac.
Qed.

Lemma wipe_handshake_keys_wf c : ctx_wf c -> ctx_wf (wipe_handshake_keys c).
Proof. intros Hwf. unfold wipe_handshake_keys. wf_tac. Qed.

Lemma DeriveFromHandshakeSecret_wp c th1Hash (Q : unit -> WOLFSPDM_CTX -> Prop) E :
  ctx_wf c -> len th1Hash = WOLFSPDM_HASH_SIZE ->
  (forall k, hs_schedule c.(spdmVersion) c.(handshakeSecret) th1Hash = Some k ->
     ctx_wf (install_hs k c) -> Q tt (install_hs k c)) ->
  (ctx_wf (wipe_handshake_keys c) -> E WOLFSPDM_E_CRYPTO_FAIL (wipe_handshake_keys c)) ->
  wp (wolfSPDM_DeriveFromHandshakeSecret th1Hash) Q E c.
Proof.
  intros Hwf Hth HQ HE. unfold wp. rewrite DeriveFromHandshakeSecret_run by done.
  destruct (hs_schedule _ _ _) as [k|] eqn:Hk.
  - apply HQ; [done|]. by eapply install_hs_wf.
  - apply HE. by apply wipe_handshake_keys_wf.
Qed.

Lemma DeriveHandshakeKeys_wp c th1Hash (Q : unit -> WOLFSPDM_CTX -> Prop)
    (E : Z -> WOLFSPDM_CTX -> Prop) :
  ctx_wf c -> len th1Hash = WOLFSPDM_HASH_SIZE ->
  (forall hs k, wc_HKDF_Extract (zeros WOLFSPDM_HASH_SIZE)
       (sub_bytes c.(sharedSecret) 0 c.(sharedSecretSz)) = Some hs ->
     hs_schedule c.(spdmVersion) hs th1Hash = Some k ->
     ctx_wf (install_hs k (c <| handshakeSecret := hs |>)) ->
     Q tt (install_hs k (c <| handshakeSecret := hs |>))) ->
  (forall c', ctx_wf c' ->
     c' = c \/ (exists hs, c' = wipe_handshake_keys (c <| handshakeSecret := hs |>)) ->
     E WOLFSPDM_E_CRYPTO_FAIL c') ->
  wp (wolfSPDM_DeriveHandshakeKeys th1Hash) Q E c.
Proof.
  intros Hwf Hth HQ HE. pose proof (wf_bounds _ Hwf) as Hb. pose proof (wf_sizes _ Hwf) as Hs.
  unfold bounds_ok, sizes_ok in *. unfold wolfSPDM_DeriveHandshakeKeys. wp_go; [|auto].
  match goal with Hx : wc_HKDF_Extract _ _ = Some _ |- _ =>
    pose proof (extract_size _ _ _ Hx) as [Hl _] end.
  apply DeriveFromHandshakeSecret_wp; [wf_tac|done|ctx_simpl; eauto|eauto].
Qed.

Lemma DeriveKeyIvPair_wp v secret fk fi c (Q : unit -> WOLFSPDM_CTX -> Prop)
    (E : Z -> WOLFSPDM_CTX -> Prop) :
  (forall k i, traffic v secret = Some (k, i) -> pair_sized (k, i) -> Q tt (fi i (fk k c))) ->
  (traffic v secret = None -> E WOLFSPDM_E_CRYPTO_FAIL c) ->
  (forall k, traffic v secret = None -> expand v secret SPDM_LABEL_KEY [] WOLFSPDM_AEAD_KEY_SIZE = Some k ->
     len k = WOLFSPDM_AEAD_KEY_SIZE -> E WOLFSPDM_E_CRYPTO_FAIL (fk k c)) ->
  wp (wolfSPDM_DeriveKeyIvPair v secret fk fi) Q E c.
Proof.
  intros HQ HE1 HE2. unfold wp. rewrite DeriveKeyIvPair_run. unfold traffic in *.
  destruct (expand v secret SPDM_LABEL_KEY _ _) as [k|] eqn:Hk; [|by apply HE1].
  destruct (expand v secret SPDM_LABEL_IV _ _) as [i|] eqn:Hi; cbn in *.
  - apply HQ; [done|]. eapply (traffic_sized v secret). unfold traffic. by rewrite Hk, Hi.
  - apply HE2; [done|done|by eapply expand_len].
Qed.

(** On failure only the data keys and IVs may have changed. *)
Definition only_data_keys (c c' : WOLFSPDM_CTX) : Prop :=
  exists k1 i1 k2 i2, c' = c <| reqDataKey := k1 |> <| reqDataIv := i1 |>
                             <| rspDataKey := k2 |> <| rspDataIv := i2 |>.

Lemma only_data_keys_refl c : only_data_keys c c.
Proof. exists c.(reqDataKey), c.(reqDataIv), c.(rspDataKey), c.(rspDataIv). by destruct c. Qed.

Lemma only_data_keys_req c c' k : only_data_keys c c' -> only_data_keys c (set_req_key k c').
Proof. intros (k1 & i1 & k2 & i2 & ->). exists k, i1, k2, i2. by destruct c. Qed.
Lemma only_data_keys_rsp c c' k : only_data_keys c c' -> only_data_keys c (set_rsp_key k c').
Proof. intros (k1 & i1 & k2 & i2 & ->). exists k1, i1, k, i2. by destruct c. Qed.
Lemma only_data_keys_req_iv c c' i : only_data_keys c c' -> only_data_keys c (set_req_iv i c').
Proof. intros (k1 & i1 & k2 & i2 & ->). exists k1, i, k2, i2. by destruct c. Qed.

Lemma DeriveAppDataKeys_wp c (Q : unit -> WOLFSPDM_CTX -> Prop) (E : Z -> WOLFSPDM_CTX -> Prop) :
  ctx_wf c ->
  (forall th2 k, sha384 (tr c) [] [] = Some th2 ->
     app_schedule c.(spdmVersion) c.(handshakeSecret) th2 = Some k ->
     ctx_wf (install_app k c) -> Q tt (install_app k c)) ->
  (forall c', ctx_wf c' -> only_data_keys c c' -> E WOLFSPDM_E_CRYPTO_FAIL c') ->
  wp wolfSPDM_DeriveAppDataKeys Q E c.
Proof.
  intros Hwf HQ HE. pose proof (only_data_keys_refl c) as Hk0.
  unfold wolfSPDM_DeriveAppDataKeys. do 2 (wp_step; cbv beta). apply wp_bind.
  apply TranscriptHash_wp; [done| |auto]. intros th2 Hth Hlen _. specialize (HQ th2).
  unfold app_schedule in HQ. unfold wp in *. run.
  rewrite HkdfExpandLabel_run by label_fits.
  destruct (expand _ _ (str "derived") _ _) as [salt|] eqn:?; run; [|auto].
  destruct (wc_HKDF_Extract _ _) as [master|] eqn:?; run; [|auto].
  rewrite HkdfExpandLabel_run by label_fits.
  destruct (expand _ _ SPDM_LABEL_REQ_DATA _ _) as [reqApp|] eqn:?; run; [|auto].
  rewrite HkdfExpandLabel_run by label_fits.
  destruct (expand _ _ SPDM_LABEL_RSP_DATA _ _) as [rspApp|] eqn:?; run; [|auto].
  change (wp (wolfSPDM_DeriveKeyIvPair (spdmVersion c) reqApp set_req_key set_req_iv ;;;
    wolfSPDM_DeriveKeyIvPair (spdmVersion c) rspApp set_rsp_key set_rsp_iv ;;;
    upd (fun c => c <| reqAppSecret := reqApp |> <| rspAppSecret := rspApp |>) ;;;
    upd (fun c => c <| reqSeqNum := 0 |> <| rspSeqNum := 0 |>)) Q E c).
  apply wp_bind, DeriveKeyIvPair_wp.
  - intros k1 i1 Ht1 [Hk1 Hi1]. cbn [fst snd] in *. apply wp_bind, DeriveKeyIvPair_wp.
    + intros k2 i2 Ht2 [Hk2 Hi2]. wp_go.
      specialize (HQ {| k_req_app := reqApp; k_rsp_app := rspApp; k_areq := (k1, i1);
        k_arsp := (k2, i2) |} Hth). apply HQ; [by simplify_option_eq|].
      eapply install_app_wf; [|done]. unfold app_schedule. by simplify_option_eq.
    + intros _. apply HE; [unfold set_req_iv, set_req_key; wf_tac|].
      by apply only_data_keys_req_iv, only_data_keys_req.
    + intros k2 _ _ Hk2. apply HE; [unfold set_rsp_key, set_req_iv, set_req_key; wf_tac|].
      by apply only_data_keys_rsp, only_data_keys_req_iv, only_data_keys_req.
  - intros _. by apply HE.
  - intros k1 _ _ Hk1. apply HE; [unfold set_req_key; wf_tac|]. by apply only_data_keys_req.
Qed.
End Sizes.

(** ** Properties *)

(** C13: the handshake keys are exactly those of the DSP0277 schedule: the
    handshake secret is extracted from the shared secret, and every traffic
    secret, finished key, data key and IV is the labelled expansion of its
    parent for the negotiated version and TH1.  If any derivation fails the
    error is returned and every key the call may have written is wiped. *)
Theorem handshake_key_schedule c th1Hash :
  ctx_wf c -> len th1Hash = WOLFSPDM_HASH_SIZE ->
  wolfSPDM_DeriveHandshakeKeys th1Hash c =
  match wc_HKDF_Extract (zeros WOLFSPDM_HASH_SIZE)
          (sub_bytes c.(sharedSecret) 0 c.(sharedSecretSz)) with
  | None => Err WOLFSPDM_E_CRYPTO_FAIL c
  | Some hs =>
      let c1 := c <| handshakeSecret := hs |> in
      match hs_schedule c.(spdmVersion) hs th1Hash with
      | Some k => Ok tt (install_hs k c1)
      | None => Err WOLFSPDM_E_CRYPTO_FAIL (wipe_handshake_keys c1)
      end
  end.
Proof.
  intros Hwf Hth. pose proof (wf_bounds _ Hwf) as Hb. pose proof (wf_sizes _ Hwf) as Hs.
  unfold bounds_ok, sizes_ok in *. unfold wolfSPDM_DeriveHandshakeKeys, rd_sub. run.
  replace (_ && _) with true by lia. run.
  destruct (wc_HKDF_Extract _ _) as [hs|]; run; [|done].
  rewrite DeriveFromHandshakeSecret_run by done. reflexivity.
Qed.

(** The labels the library derives with. *)
Definition labels : list bytes :=
  [SPDM_LABEL_REQ_HS_DATA; SPDM_LABEL_RSP_HS_DATA; SPDM_LABEL_REQ_DATA; SPDM_LABEL_RSP_DATA;
   SPDM_LABEL_FINISHED; SPDM_LABEL_KEY; SPDM_LABEL_IV; SPDM_LABEL_UPDATE; str "derived"].

Lemma labels_prefix_free :
  Forall (fun l => Forall (fun l' => l = l' \/
    take (Nat.min (length l) (length l')) l <> take (Nat.min (length l) (length l')) l') labels)
    labels.
Proof.
  unfold labels. repeat (apply List.Forall_cons || apply List.Forall_nil);
    (first [by left | right; vm_compute; discriminate]).
Qed.

(** C38: key separation.  For any of the library's labels, any versions, output
    sizes and contexts, two BinConcat strings that are equal have the same label
    and the same context: the labels are prefix-free, so no key is derived twice
    under different names; and with a hash as context every label fits the info
    buffer, so [wolfSPDM_HkdfExpandLabel] is always one expansion. *)
Theorem derivation_labels_separate l l' v v' ctx ctx' n n' secret (c : WOLFSPDM_CTX) :
  In l labels -> In l' labels ->
  (bin_concat v l ctx n = bin_concat v' l' ctx' n' -> l = l' /\ ctx = ctx') /\
  (len ctx <= WOLFSPDM_HASH_SIZE ->
   wolfSPDM_HkdfExpandLabel v secret l ctx n c =
   lift_opt WOLFSPDM_E_CRYPTO_FAIL (wc_HKDF_Expand secret (bin_concat v l ctx n) n) c).
Proof.
  intros Hl Hl'. split.
  - unfold bin_concat. intros Heq. apply app_len_inj in Heq as [_ Heq]; [|done].
    apply app_len_inj in Heq as [_ Heq].
    2: { unfold bin_concat_prefix. repeat case_match; reflexivity. }
    pose proof labels_prefix_free as Hp. rewrite List.Forall_forall in Hp. specialize (Hp l Hl).
    rewrite List.Forall_forall in Hp. destruct (Hp l' Hl') as [-> | Hne].
    + split; [done|]. by apply app_inv_head in Heq.
    + destruct Hne. apply (f_equal (take (Nat.min (length l) (length l')))) in Heq.
      rewrite !take_app_le in Heq by lia. done.
  - intros Hc. apply HkdfExpandLabel_run.
    assert (Forall (fun l => len l <= 64) labels) as Hf
      by (repeat constructor; vm_compute; discriminate).
    rewrite List.Forall_forall in Hf. specialize (Hf l Hl).
    unfold HKDF_INFO_SZ, SPDM_BIN_CONCAT_PREFIX_LEN. lia.
Qed.
End Kdf.
