(* ===== verification/CryptoOps.v ===== *)
(** * Random numbers, ephemeral keys and signatures: src/spdm_crypto.c

    Output buffers of the caller are results; an output that lives in the
    context is written only by a call that succeeds. *)
From Stdlib Require Import ZArith Lia.
From stdpp Require Import base tactics list numbers.
From S2P Require Import Prelude Types Bytes Crypt Context.

(** The first [currentSz] bytes of a buffer, padded on the left. *)
Definition wolfSPDM_LeftPadToSize (buf : bytes) (targetSz : Z) : bytes :=
  if len buf <? targetSz then zeros (targetSz - len buf) ++ buf else buf.

Section CryptoOps.
Context `{WolfCrypt} `{Config}.
Notation CM := (M WOLFSPDM_CTX).

(** ** Random numbers *)

(** A call that uses the context's generator. *)
Definition with_rng {A} (f : WC_RNG -> WC_RNG * option A) : CM A :=
  let* ctx := @get WOLFSPDM_CTX in
  match ctx.(rng) with
  | None => ub
  | Some r =>
      let '(r', o) := f r in
      upd (fun c => c <| rng := Some r' |>) ;;;
      lift_opt WOLFSPDM_E_CRYPTO_FAIL o
  end.

Definition wolfSPDM_GetRandom (outSz : Z) : CM bytes :=
  check (outSz =? 0) WOLFSPDM_E_INVALID_ARG ;;;
  let* ctx := @get WOLFSPDM_CTX in
  check (negb ctx.(flags).(rngInitialized)) WOLFSPDM_E_BAD_STATE ;;;
  with_rng (fun r => wc_RNG_GenerateBlock r outSz).

(** ** Ephemeral ECDHE key *)

Definition wolfSPDM_GenerateEphemeralKey : CM unit :=
  let* ctx := @get WOLFSPDM_CTX in
  check (negb ctx.(flags).(rngInitialized)) WOLFSPDM_E_BAD_STATE ;;;
  wolfSPDM_FreeEphemeralKey ;;;
  let* k0 := lift_opt WOLFSPDM_E_CRYPTO_FAIL wc_ecc_init in
  let* k1 := with_rng (fun r => wc_ecc_make_key r WOLFSPDM_ECC_KEY_SIZE k0) in
  let* k := lift_opt WOLFSPDM_E_CRYPTO_FAIL (wc_ecc_set_rng k1) in
  upd (fun c => c <| ephemeral := eph_ecc k |>
                  <| flags := c.(flags) <| ephemeralKeyInit := true |> |>).

(** The live ECC member of the union. *)
Definition eph_ecc_key : CM ecc_key :=
  let* ctx := @get WOLFSPDM_CTX in
  match ctx.(ephemeral) with eph_ecc k => ret k | _ => ub end.

Definition eph_kem_key : CM MlKemKey :=
  let* ctx := @get WOLFSPDM_CTX in
  match ctx.(ephemeral) with eph_mlkem k => ret k | _ => ub end.

Definition wolfSPDM_ExportEphemeralPubKey (pubKeyXSz pubKeyYSz : Z) : CM (bytes * bytes) :=
  let* ctx := @get WOLFSPDM_CTX in
  check (negb ctx.(flags).(ephemeralKeyInit)) WOLFSPDM_E_BAD_STATE ;;;
  check ctx.(flags).(ephemeralIsKem) WOLFSPDM_E_BAD_STATE ;;;
  check ((pubKeyXSz <? WOLFSPDM_ECC_KEY_SIZE) || (pubKeyYSz <? WOLFSPDM_ECC_KEY_SIZE))
    WOLFSPDM_E_BUFFER_SMALL ;;;
  let* k := eph_ecc_key in
  let* (x, y) := lift_opt WOLFSPDM_E_CRYPTO_FAIL (wc_ecc_export_public_raw k) in
  ret (wolfSPDM_LeftPadToSize x WOLFSPDM_ECC_KEY_SIZE,
       wolfSPDM_LeftPadToSize y WOLFSPDM_ECC_KEY_SIZE).

(** A P-384 public key from its coordinates, checked to be on the curve. *)
Definition import_checked (x y : bytes) (d : option bytes) : option ecc_key :=
  k0 ← wc_ecc_init;
  k ← wc_ecc_import_unsigned k0 x y d ECC_SECP384R1;
  if wc_ecc_check_key k then Some k else None.

Definition clear_shared (c : WOLFSPDM_CTX) : WOLFSPDM_CTX :=
  c <| sharedSecret := zeros WOLFSPDM_ECC_KEY_SIZE |> <| sharedSecretSz := 0 |>.

Definition wolfSPDM_ComputeSharedSecret (peerPubKeyX peerPubKeyY : bytes) : CM unit :=
  let* ctx := @get WOLFSPDM_CTX in
  check (negb ctx.(flags).(ephemeralKeyInit)) WOLFSPDM_E_BAD_STATE ;;;
  check ctx.(flags).(ephemeralIsKem) WOLFSPDM_E_BAD_STATE ;;;
  on_err
    (let* peerKey := lift_opt WOLFSPDM_E_CRYPTO_FAIL
                       (import_checked peerPubKeyX peerPubKeyY None) in
     let* k := eph_ecc_key in
     (* the key carries the generator set at generation *)
     let* ss := with_rng (fun r => wc_ecc_shared_secret r k peerKey) in
     let* a := wr ctx.(sharedSecret) 0 (wolfSPDM_LeftPadToSize ss WOLFSPDM_ECC_KEY_SIZE) in
     upd (fun c => c <| sharedSecret := a |> <| sharedSecretSz := WOLFSPDM_ECC_KEY_SIZE |>))
    (fun _ => upd clear_shared).

(** ** Ephemeral ML-KEM key *)

Definition wolfSPDM_MlKemType (kemAlgSel : Z) : option Z :=
  let sel := Z.land kemAlgSel WOLFSPDM_MLKEM_SETS in
  if sel =? SPDM_KEM_ALGO_ML_KEM_512 then Some WC_ML_KEM_512
  else if sel =? SPDM_KEM_ALGO_ML_KEM_768 then Some WC_ML_KEM_768
  else if sel =? SPDM_KEM_ALGO_ML_KEM_1024 then Some WC_ML_KEM_1024
  else None.

Definition wolfSPDM_GenerateMlKemKey (ekSz : Z) : CM bytes :=
  let* ctx := @get WOLFSPDM_CTX in
  check (negb ctx.(flags).(rngInitialized)) WOLFSPDM_E_BAD_STATE ;;;
  let* type := lift_opt WOLFSPDM_E_ALGO_MISMATCH (wolfSPDM_MlKemType ctx.(kemAlgSel)) in
  wolfSPDM_FreeEphemeralKey ;;;
  let* k0 := lift_opt WOLFSPDM_E_CRYPTO_FAIL (wc_MlKemKey_Init type) in
  upd (fun c => c <| ephemeral := eph_mlkem k0 |>
    <| flags := c.(flags) <| ephemeralKeyInit := true |> <| ephemeralIsKem := true |> |>) ;;;
  on_err
    (let* k := with_rng (fun r => wc_MlKemKey_MakeKey k0 r) in
     upd (fun c => c <| ephemeral := eph_mlkem k |>) ;;;
     let* pubSz := lift_opt WOLFSPDM_E_CRYPTO_FAIL (wc_MlKemKey_PublicKeySize k) in
     check (pubSz >? ekSz) WOLFSPDM_E_BUFFER_SMALL ;;;
     lift_opt WOLFSPDM_E_CRYPTO_FAIL (wc_MlKemKey_EncodePublicKey k pubSz))
    (fun _ => wolfSPDM_FreeEphemeralKey).

Definition wolfSPDM_MlKemDecapsulate (ct : bytes) : CM unit :=
  let* ctx := @get WOLFSPDM_CTX in
  check (negb ctx.(flags).(ephemeralKeyInit) || negb ctx.(flags).(ephemeralIsKem))
    WOLFSPDM_E_BAD_STATE ;;;
  let* k := eph_kem_key in
  on_err
    (let* expCtSz := lift_opt WOLFSPDM_E_CRYPTO_FAIL (wc_MlKemKey_CipherTextSize k) in
     let* ssSz := lift_opt WOLFSPDM_E_CRYPTO_FAIL (wc_MlKemKey_SharedSecretSize k) in
     check (ssSz >? len ctx.(sharedSecret)) WOLFSPDM_E_CRYPTO_FAIL ;;;
     check (negb (len ct =? expCtSz)) WOLFSPDM_E_KEY_EXCHANGE ;;;
     let* ss := lift_opt WOLFSPDM_E_CRYPTO_FAIL (wc_MlKemKey_Decapsulate k ct) in
     let* a := wr ctx.(sharedSecret) 0 ss in
     upd (fun c => c <| sharedSecret := a |> <| sharedSecretSz := ssSz |>))
    (fun _ => upd clear_shared).

(** ** Signatures *)

(** The key object is on the stack (no WOLFSPDM_DYNAMIC_MEMORY). *)
Definition wolfSPDM_MlDsaVerify {S} (level : Z) (pub context msg sig : bytes) : M S unit :=
  check (len context >? 255) WOLFSPDM_E_INVALID_ARG ;;;
  let verified :=
    k0 ← wc_MlDsaKey_Init;
    k1 ← wc_MlDsaKey_SetParams k0 level;
    k ← wc_MlDsaKey_ImportPubRaw k1 pub;
    wc_MlDsaKey_VerifyCtx k sig context msg in
  match verified with
  | Some true => ret tt
  | _ => fail WOLFSPDM_E_BAD_SIGNATURE
  end.

(** X and Y of a raw point, or of the point that ends a TPMT_PUBLIC. *)
Definition wolfSPDM_ExtractEccPoint {S} (pubKey : bytes) : M S (bytes * bytes) :=
  if len pubKey =? WOLFSPDM_ECC_POINT_SIZE then
    let* x := rd_sub pubKey 0 WOLFSPDM_ECC_KEY_SIZE in
    let* y := rd_sub pubKey WOLFSPDM_ECC_KEY_SIZE WOLFSPDM_ECC_KEY_SIZE in
    ret (x, y)
  else if len pubKey >=? WOLFSPDM_ECC_POINT_SIZE + 4 then
    let pointOffset := len pubKey - (WOLFSPDM_ECC_POINT_SIZE + 4) in
    let* szX := rd16be pubKey pointOffset in
    let* szY := rd16be pubKey (pointOffset + 2 + WOLFSPDM_ECC_KEY_SIZE) in
    check (negb (szX =? WOLFSPDM_ECC_KEY_SIZE) || negb (szY =? WOLFSPDM_ECC_KEY_SIZE))
      WOLFSPDM_E_INVALID_ARG ;;;
    let* x := rd_sub pubKey (pointOffset + 2) WOLFSPDM_ECC_KEY_SIZE in
    let* y := rd_sub pubKey (pointOffset + 4 + WOLFSPDM_ECC_KEY_SIZE) WOLFSPDM_ECC_KEY_SIZE in
    ret (x, y)
  else fail WOLFSPDM_E_INVALID_ARG.

(** The verification proper: import and check the key, encode the signature,
    verify. *)
Definition ecdsa_verify (x y hash sig : bytes) : bool :=
  match
    k ← import_checked x y None;
    der ← wc_ecc_rs_raw_to_sig (sub_bytes sig 0 WOLFSPDM_ECC_KEY_SIZE)
            (sub_bytes sig WOLFSPDM_ECC_KEY_SIZE WOLFSPDM_ECC_KEY_SIZE);
    wc_ecc_verify_hash der hash k
  with
  | Some true => true
  | _ => false
  end.

Definition wolfSPDM_VerifySignature (hash sig : bytes) : CM unit :=
  let* ctx := @get WOLFSPDM_CTX in
  check (negb ctx.(flags).(hasRspPubKey) || (ctx.(rspPubKeyLen) <? WOLFSPDM_ECC_POINT_SIZE))
    WOLFSPDM_E_BAD_STATE ;;;
  check (negb (len sig =? WOLFSPDM_ECC_SIG_SIZE)) WOLFSPDM_E_INVALID_ARG ;;;
  let* pub := rd_sub ctx.(rspPubKey) 0 ctx.(rspPubKeyLen) in
  let* (x, y) := wolfSPDM_ExtractEccPoint pub in
  check (negb (ecdsa_verify x y hash sig)) WOLFSPDM_E_BAD_SIGNATURE.

Definition wolfSPDM_SignHash (hash : bytes) (sigSz : Z) : CM bytes :=
  let* ctx := @get WOLFSPDM_CTX in
  check (negb ctx.(flags).(hasReqKeyPair) || (ctx.(reqPrivKeyLen) =? 0))
    WOLFSPDM_E_BAD_STATE ;;;
  check (sigSz <? WOLFSPDM_ECC_POINT_SIZE) WOLFSPDM_E_BUFFER_SMALL ;;;
  let* x := rd_sub ctx.(reqPubKey) 0 WOLFSPDM_ECC_KEY_SIZE in
  let* y := rd_sub ctx.(reqPubKey) WOLFSPDM_ECC_KEY_SIZE WOLFSPDM_ECC_KEY_SIZE in
  let* d := rd_sub ctx.(reqPrivKey) 0 WOLFSPDM_ECC_KEY_SIZE in
  let* k := lift_opt WOLFSPDM_E_CRYPTO_FAIL
              (k0 ← wc_ecc_init; wc_ecc_import_unsigned k0 x y (Some d) ECC_SECP384R1) in
  let* der := with_rng (fun r => wc_ecc_sign_hash r hash k) in
  let* (r, s) := lift_opt WOLFSPDM_E_CRYPTO_FAIL (wc_ecc_sig_to_rs der) in
  ret (wolfSPDM_LeftPadToSize r WOLFSPDM_ECC_KEY_SIZE ++
       wolfSPDM_LeftPadToSize s WOLFSPDM_ECC_KEY_SIZE).

(** ** Lemmas *)

Lemma LeftPad_len buf n : len buf <= n -> len (wolfSPDM_LeftPadToSize buf n) = n.
Proof.
  unfold wolfSPDM_LeftPadToSize. intros. pose proof (len_nonneg buf).
  destruct (Z.ltb_spec (len buf) n); [|lia]. rewrite len_app, len_zeros. lia.
Qed.

Lemma LeftPad_bytes buf n : is_bytes buf -> is_bytes (wolfSPDM_LeftPadToSize buf n).
Proof.
  unfold wolfSPDM_LeftPadToSize. intros. case_match; [|done]. apply Forall_app; split; [|done].
  by apply Forall_replicate.
Qed.

(** The updates that only these operations make. *)
Definition set_rng (r : WC_RNG) (c : WOLFSPDM_CTX) : WOLFSPDM_CTX := c <| rng := Some r |>.

Lemma set_rng_wf r c : ctx_wf c -> ctx_wf (set_rng r c).
Proof.
  intros [? ? ? (? & ? & ?)]. by split.
Qed.

Lemma with_rng_wp {A} (f : WC_RNG -> WC_RNG * option A) c (Q : A -> WOLFSPDM_CTX -> Prop)
    (E : Z -> WOLFSPDM_CTX -> Prop) : ctx_wf c ->
  (forall r r' a, f r = (r', Some a) -> ctx_wf (set_rng r' c) -> Q a (set_rng r' c)) ->
  (forall r, ctx_wf (set_rng r c) -> E WOLFSPDM_E_CRYPTO_FAIL (set_rng r c)) ->
  wp (with_rng f) Q E c.
Proof.
  intros Hwf HQ HE. pose proof (wf_objects _ Hwf) as [[r Hr] _].
  unfold with_rng. apply wp_bind, wp_get. rewrite Hr. destruct (f r) as [r' o] eqn:Hf.
  apply wp_bind, wp_modify. pose proof (set_rng_wf r' _ Hwf).
  apply wp_lift_opt; [intros a ->; eapply HQ; eauto|intros ->; by apply HE].
Qed.

Lemma GetRandom_wp `{!CryptSizes} n c (Q : bytes -> WOLFSPDM_CTX -> Prop)
    (E : Z -> WOLFSPDM_CTX -> Prop) : ctx_wf c -> 0 < n ->
  (forall r b, len b = n -> is_bytes b -> ctx_wf (set_rng r c) -> Q b (set_rng r c)) ->
  (E WOLFSPDM_E_BAD_STATE c) ->
  (forall r, ctx_wf (set_rng r c) -> E WOLFSPDM_E_CRYPTO_FAIL (set_rng r c)) ->
  wp (wolfSPDM_GetRandom n) Q E c.
Proof.
  intros Hwf Hn HQ HE1 HE2. unfold wolfSPDM_GetRandom. wp_go; [lia|done|].
  apply with_rng_wp; [done| |done]. intros r r' b Hb Hwf'.
  destruct (rng_size r n r' b) as [? ?]; [lia|done|]. eauto.
Qed.

(** A context with another ephemeral key (or none) and generator state. *)
Definition eph_step (c c' : WOLFSPDM_CTX) : Prop :=
  exists r e i k, c' = c <| rng := r |> <| ephemeral := e |>
    <| flags := c.(flags) <| ephemeralKeyInit := i |> <| ephemeralIsKem := k |> |>.

Lemma eph_step_refl c : eph_step c c.
Proof.
  exists c.(rng), c.(ephemeral), c.(flags).(ephemeralKeyInit), c.(flags).(ephemeralIsKem).
  ctx_eq c.
Qed.

Lemma eph_step_ecc c c' e : eph_step c c' ->
  eph_step c (c' <| ephemeral := e |>
                 <| flags := c'.(flags) <| ephemeralKeyInit := true |> |>).
Proof. intros (r & ? & ? & k & ->). exists r, e, true, k. ctx_eq c. Qed.

Lemma eph_step_kem c c' e : eph_step c c' ->
  eph_step c (c' <| ephemeral := e |> <| flags := c'.(flags) <| ephemeralKeyInit := true |>
                                                   <| ephemeralIsKem := true |> |>).
Proof. intros (r & ? & ? & ? & ->). exists r, e, true, true. ctx_eq c. Qed.

Lemma eph_step_eph c c' e : eph_step c c' -> eph_step c (c' <| ephemeral := e |>).
Proof. intros (r & ? & i & k & ->). exists r, e, i, k. ctx_eq c. Qed.

Lemma eph_step_rng c c' r : eph_step c c' -> eph_step c (set_rng r c').
Proof. intros (? & e & i & k & ->). exists (Some r), e, i, k. ctx_eq c. Qed.

Lemma eph_step_freed c c' : eph_step c c' -> eph_step c (eph_freed c').
Proof.
  intros (r & e & i & k & ->). unfold eph_freed; ctx_simpl. destruct i.
  - exists r, eph_none, false, false. ctx_eq c.
  - exists r, e, false, k. ctx_eq c.
Qed.

Lemma GenerateEphemeralKey_wp c (Q : unit -> WOLFSPDM_CTX -> Prop)
    (E : Z -> WOLFSPDM_CTX -> Prop) : ctx_wf c ->
  (forall c', ctx_wf c' -> eph_step c c' -> c'.(flags).(ephemeralKeyInit) = true ->
     c'.(flags).(ephemeralIsKem) = false -> Q tt c') ->
  (forall rc c', rc = WOLFSPDM_E_BAD_STATE \/ rc = WOLFSPDM_E_CRYPTO_FAIL ->
     ctx_wf c' -> eph_step c c' -> E rc c') ->
  wp wolfSPDM_GenerateEphemeralKey Q E c.
Proof.
  intros Hwf HQ HE. pose proof (eph_step_refl c) as Hs0.
  unfold wolfSPDM_GenerateEphemeralKey. wp_go; [by apply HE; auto|].
  pose proof (eph_freed_wf _ Hwf) as Hwf1. pose proof (eph_step_freed _ _ Hs0) as Hs1.
  apply FreeEphemeralKey_wp; [apply Hwf|]. pose proof (eph_freed_init c) as Hi.
  assert (ephemeralIsKem (flags (eph_freed c)) = false) as Hk.
  { pose proof (wf_union _ Hwf1) as Hu. unfold union_ok in Hu. rewrite Hi in Hu.
    by destruct (ephemeralIsKem _). }
  revert Hwf1 Hs1 Hi Hk. generalize (eph_freed c). intros c1 Hwf1 Hs1 Hi Hk.
  wp_go; [|by apply HE; auto]. apply with_rng_wp; [done| |intros; apply HE; auto using eph_step_rng].
  intros r r' k1 _ Hwf2. pose proof (eph_step_rng _ _ r' Hs1) as Hs2.
  change (ephemeralIsKem (flags (set_rng r' c1)) = false) in Hk.
  revert Hwf2 Hs2 Hk. generalize (set_rng r' c1). intros c2 Hwf2 Hs2 Hk.
  wp_go; [|by apply HE; auto]. apply HQ; [|by apply eph_step_ecc|done|done].
  destruct Hwf2 as [? ? ? ?]. split; try done. unfold union_ok; ctx_simpl. by rewrite Hk.
Qed.

Lemma eph_ecc_key_wp c (Q : ecc_key -> WOLFSPDM_CTX -> Prop) E : ctx_wf c ->
  c.(flags).(ephemeralKeyInit) = true -> c.(flags).(ephemeralIsKem) = false ->
  (forall k, c.(ephemeral) = eph_ecc k -> Q k c) -> wp eph_ecc_key Q E c.
Proof.
  intros Hwf Hi Hk HQ. pose proof (wf_union _ Hwf) as Hu. unfold union_ok in Hu.
  rewrite Hi, Hk in Hu. unfold eph_ecc_key. wp_go; try done. by apply HQ.
Qed.

Lemma eph_kem_key_wp c (Q : MlKemKey -> WOLFSPDM_CTX -> Prop) E : ctx_wf c ->
  c.(flags).(ephemeralKeyInit) = true -> c.(flags).(ephemeralIsKem) = true ->
  (forall k, c.(ephemeral) = eph_mlkem k -> Q k c) -> wp eph_kem_key Q E c.
Proof.
  intros Hwf Hi Hk HQ. pose proof (wf_union _ Hwf) as Hu. unfold union_ok in Hu.
  rewrite Hi, Hk in Hu. unfold eph_kem_key. wp_go; try done. by apply HQ.
Qed.

Lemma ExportEphemeralPubKey_wp `{!CryptSizes} nx ny c (Q : bytes * bytes -> WOLFSPDM_CTX -> Prop)
    (E : Z -> WOLFSPDM_CTX -> Prop) : ctx_wf c ->
  (forall k x y, c.(ephemeral) = eph_ecc k ->
     wc_ecc_export_public_raw k = Some (x, y) ->
     Q (wolfSPDM_LeftPadToSize x WOLFSPDM_ECC_KEY_SIZE,
        wolfSPDM_LeftPadToSize y WOLFSPDM_ECC_KEY_SIZE) c) ->
  (forall rc, rc < 0 -> E rc c) ->
  wp (wolfSPDM_ExportEphemeralPubKey nx ny) Q E c.
Proof.
  intros Hwf HQ HE. unfold wolfSPDM_ExportEphemeralPubKey.
  do 2 (wp_step; cbv beta). wp_step; wp_step; [by apply HE|].
  wp_step; wp_step; [by apply HE|]. wp_step; wp_step; [by apply HE|]. wp_step.
  apply eph_ecc_key_wp; [done|by destruct (ephemeralKeyInit _)|done|].
  intros k Hk. wp_go; [eauto|by apply HE].
Qed.

(** The shared secret and generator are all an ECDH or decapsulation touches;
    on failure the secret is cleared. *)
Lemma clear_shared_wf c : ctx_wf c -> ctx_wf (clear_shared c).
Proof. intros. unfold clear_shared. wf_tac. Qed.

Definition set_shared (a : bytes) (n : Z) (c : WOLFSPDM_CTX) : WOLFSPDM_CTX :=
  c <| sharedSecret := a |> <| sharedSecretSz := n |>.

Lemma ComputeSharedSecret_wp `{!CryptSizes} x y c (Q : unit -> WOLFSPDM_CTX -> Prop)
    (E : Z -> WOLFSPDM_CTX -> Prop) : ctx_wf c ->
  (forall r r' k pk ss, c.(ephemeral) = eph_ecc k -> import_checked x y None = Some pk ->
     wc_ecc_shared_secret r k pk = (r', Some ss) ->
     let a := wolfSPDM_LeftPadToSize ss WOLFSPDM_ECC_KEY_SIZE in
     ctx_wf (set_shared a WOLFSPDM_ECC_KEY_SIZE (set_rng r' c)) ->
     Q tt (set_shared a WOLFSPDM_ECC_KEY_SIZE (set_rng r' c))) ->
  (forall rc c', rc < 0 -> ctx_wf c' -> c' = c \/ c' = clear_shared c \/
     (exists r, c' = clear_shared (set_rng r c)) -> E rc c') ->
  wp (wolfSPDM_ComputeSharedSecret x y) Q E c.
Proof.
  intros Hwf HQ HE. unfold wolfSPDM_ComputeSharedSecret.
  do 2 (wp_step; cbv beta). wp_step; wp_step; [by apply HE; auto|].
  wp_step; wp_step; [by apply HE; auto|]. wp_step. wp_step. wp_step.
  2: { wp_go. apply HE; auto using clear_shared_wf. done. }
  wp_step. apply eph_ecc_key_wp; [done|by destruct (ephemeralKeyInit _)|done|].
  intros k Hk. wp_step. apply with_rng_wp; [done| |].
  2: { intros r Hr. wp_go. apply HE; eauto using clear_shared_wf. done. }
  intros r r' ss Hss Hwf'. destruct (ecc_ss_size _ _ _ _ _ Hss) as [Hl _].
  pose proof (LeftPad_len ss _ Hl) as Hp. wf_facts Hwf.
  wp_go. rewrite splice_whole by lia.
  eapply HQ; eauto. unfold set_shared. wf_tac.
Qed.

Lemma GenerateMlKemKey_wp `{!CryptSizes} n c (Q : bytes -> WOLFSPDM_CTX -> Prop)
    (E : Z -> WOLFSPDM_CTX -> Prop) : ctx_wf c ->
  (forall k sz ek c', c'.(ephemeral) = eph_mlkem k -> wc_MlKemKey_PublicKeySize k = Some sz ->
     wc_MlKemKey_EncodePublicKey k sz = Some ek -> len ek <= n -> ctx_wf c' -> eph_step c c' ->
     Q ek c') ->
  (forall rc c', rc < 0 -> ctx_wf c' -> eph_step c c' -> E rc c') ->
  wp (wolfSPDM_GenerateMlKemKey n) Q E c.
Proof.
  intros Hwf HQ HE. pose proof (eph_step_refl c) as Hs0.
  unfold wolfSPDM_GenerateMlKemKey.
  do 2 (wp_step; cbv beta). wp_step; wp_step; [by apply HE|].
  wp_step. wp_step; [|by apply HE]. wp_step.
  pose proof (eph_freed_wf _ Hwf) as Hwf1. pose proof (eph_step_freed _ _ Hs0) as Hs1.
  apply FreeEphemeralKey_wp; [apply Hwf|].
  revert Hwf1 Hs1. generalize (eph_freed c). intros c1 Hwf1 Hs1.
  wp_step. wp_step; [|by apply HE]. wp_step. wp_step.
  match goal with |- wp _ _ _ ?x => assert (eph_step c x) as Hs2 by (by apply eph_step_kem);
    assert (ctx_wf x) as Hwf2 by (destruct Hwf1; by split);
    assert (x.(flags).(ephemeralKeyInit) = true /\ x.(flags).(ephemeralIsKem) = true) as Hf by done;
    revert Hs2 Hwf2 Hf; generalize x end.
  intros c2 Hs2 Hwf2 [Hi Hk]. wp_step. wp_step.
  assert (forall c' rc, ctx_wf c' -> eph_step c c' -> rc < 0 ->
    wp wolfSPDM_FreeEphemeralKey (fun _ => E rc) E c') as Hfail.
  { intros c' rc Hw Hs Hrc. apply FreeEphemeralKey_wp; [apply Hw|].
    by apply HE; [|apply eph_freed_wf|apply eph_step_freed]. }
  apply with_rng_wp; [done| |intros; apply Hfail; auto using eph_step_rng; done].
  intros r r' k _ Hwf3. pose proof (eph_step_rng _ _ r' Hs2) as Hs3.
  change ((set_rng r' c2).(flags).(ephemeralKeyInit) = true) in Hi.
  change ((set_rng r' c2).(flags).(ephemeralIsKem) = true) in Hk.
  revert Hwf3 Hs3 Hi Hk. generalize (set_rng r' c2). intros c3 Hwf3 Hs3 Hi Hk.
  wp_step. wp_step.
  pose proof (eph_step_eph _ _ (eph_mlkem k) Hs3) as Hs4.
  assert (ctx_wf (c3 <| ephemeral := eph_mlkem k |>)) as Hwf4.
  { destruct Hwf3. split; try done. unfold union_ok; ctx_simpl. by rewrite Hi, Hk. }
  wp_step; wp_step; [|by apply Hfail]. wp_step; wp_step; [by apply Hfail|].
  wp_step; [|by apply Hfail].
  edestruct kem_pub_size as [? ?]; [by eapply kem_pub_pos|done|]. eapply HQ; try done. lia.
Qed.

Lemma MlKemDecapsulate_wp `{!CryptSizes} ct c (Q : unit -> WOLFSPDM_CTX -> Prop)
    (E : Z -> WOLFSPDM_CTX -> Prop) : ctx_wf c ->
  (forall a n, ctx_wf (set_shared a n c) -> Q tt (set_shared a n c)) ->
  (forall rc c', rc < 0 -> ctx_wf c' -> c' = c \/ c' = clear_shared c -> E rc c') ->
  wp (wolfSPDM_MlKemDecapsulate ct) Q E c.
Proof.
  intros Hwf HQ HE. unfold wolfSPDM_MlKemDecapsulate.
  do 2 (wp_step; cbv beta). wp_step; wp_step; [by apply HE; auto|]. wp_step.
  apply eph_kem_key_wp; [done|by destruct (ephemeralKeyInit _), (ephemeralIsKem _)..|].
  intros k Hk. wp_go; try (apply HE; auto using clear_shared_wf; done).
  - wf_facts Hwf. edestruct kem_ss_size as (? & ? & ?); [done|done|]. lia.
  - wf_facts Hwf. edestruct kem_ss_size as (? & ? & ?); [done|done|].
    apply HQ. unfold set_shared. wf_tac.
Qed.

Lemma ExtractEccPoint_wp {S} pub (Q : bytes * bytes -> S -> Prop) (E : Z -> S -> Prop) s :
  (forall x y, len x = WOLFSPDM_ECC_KEY_SIZE -> len y = WOLFSPDM_ECC_KEY_SIZE ->
     Q (x, y) s) ->
  E WOLFSPDM_E_INVALID_ARG s -> wp (wolfSPDM_ExtractEccPoint pub) Q E s.
Proof.
  intros HQ HE. unfold wolfSPDM_ExtractEccPoint, rd16be. pose proof (len_nonneg pub).
  wp_go; try done; unfold WOLFSPDM_ECC_POINT_SIZE in *; try lia; apply HQ; apply len_sub_bytes; lia.
Qed.

(** wolfCrypt has found [sig] good: the calls that it takes and their answer,
    stated apart from the code that makes them. *)
Definition ecdsa_ok (x y hash sig : bytes) : Prop :=
  exists k der, import_checked x y None = Some k /\
    wc_ecc_rs_raw_to_sig (sub_bytes sig 0 WOLFSPDM_ECC_KEY_SIZE)
      (sub_bytes sig WOLFSPDM_ECC_KEY_SIZE WOLFSPDM_ECC_KEY_SIZE) = Some der /\
    wc_ecc_verify_hash der hash k = Some true.

Definition mldsa_ok (level : Z) (pub context msg sig : bytes) : Prop :=
  len context <= 255 /\
  exists k0 k1 k, wc_MlDsaKey_Init = Some k0 /\ wc_MlDsaKey_SetParams k0 level = Some k1 /\
    wc_MlDsaKey_ImportPubRaw k1 pub = Some k /\ wc_MlDsaKey_VerifyCtx k sig context msg = Some true.

Lemma ecdsa_verify_ok x y hash sig : ecdsa_verify x y hash sig = true -> ecdsa_ok x y hash sig.
Proof.
  unfold ecdsa_verify, ecdsa_ok. destruct (import_checked x y None) as [k|]; [|done]. cbn.
  destruct (wc_ecc_rs_raw_to_sig _ _) as [der|]; [|done]. cbn.
  destruct (wc_ecc_verify_hash der hash k) as [[]|] eqn:Hv; [|done..]. by exists k, der.
Qed.

Lemma MlDsaVerify_wp {St} level pub ctxStr msg sig (Q : unit -> St -> Prop) (E : Z -> St -> Prop) s :
  (mldsa_ok level pub ctxStr msg sig -> Q tt s) ->
  E WOLFSPDM_E_INVALID_ARG s -> E WOLFSPDM_E_BAD_SIGNATURE s ->
  wp (wolfSPDM_MlDsaVerify level pub ctxStr msg sig) Q E s.
Proof.
  intros HQ HE1 HE2. unfold wolfSPDM_MlDsaVerify. wp_step; wp_step; [done|]. cbv zeta.
  destruct wc_MlDsaKey_Init as [k0|] eqn:H0'; [|by wp_step]. cbn.
  destruct (wc_MlDsaKey_SetParams k0 level) as [k1|] eqn:H1'; [|by wp_step]. cbn.
  destruct (wc_MlDsaKey_ImportPubRaw k1 pub) as [k|] eqn:H2'; [|by wp_step]. cbn.
  destruct (wc_MlDsaKey_VerifyCtx k sig ctxStr msg) as [[]|] eqn:Hv; [wp_step|by wp_step..].
  apply HQ. split; [lia|]. by exists k0, k1, k.
Qed.

(** Verification is a test on the stored key; the context never changes. *)
Lemma VerifySignature_wp hash sig c (Q : unit -> WOLFSPDM_CTX -> Prop)
    (E : Z -> WOLFSPDM_CTX -> Prop) : ctx_wf c ->
  (forall x y, c.(flags).(hasRspPubKey) = true ->
     wolfSPDM_ExtractEccPoint (sub_bytes c.(rspPubKey) 0 c.(rspPubKeyLen)) tt = Ok (x, y) tt ->
     ecdsa_ok x y hash sig -> Q tt c) ->
  (forall rc, rc < 0 -> E rc c) ->
  wp (wolfSPDM_VerifySignature hash sig) Q E c.
Proof.
  intros Hwf HQ HE. wf_facts Hwf. unfold wolfSPDM_VerifySignature. wp_go; try by apply HE.
  assert (forall b, wolfSPDM_ExtractEccPoint b c =
    match wolfSPDM_ExtractEccPoint b tt with
    | Ok a _ => Ok a c | Err rc _ => Err rc c | Ub => Ub end) as Hpoly.
  { intros b. unfold wolfSPDM_ExtractEccPoint, rd16be, rd_sub.
    repeat (match goal with |- context [if ?b then _ else _] => destruct b end; run); done. }
  specialize (Hpoly (sub_bytes (rspPubKey c) 0 (rspPubKeyLen c))).
  pose proof (ExtractEccPoint_wp (sub_bytes (rspPubKey c) 0 (rspPubKeyLen c))
    (fun _ _ => True) (fun rc _ => rc = WOLFSPDM_E_INVALID_ARG) tt (fun _ _ _ _ => I) eq_refl) as Hx.
  unfold wp in Hx |- *. rewrite Hpoly.
  destruct (wolfSPDM_ExtractEccPoint _ tt) as [[x y] []|rc []|] eqn:Hp; [|cbn in *; subst; by apply HE|done].
  cbn. destruct (ecdsa_verify x y hash sig) eqn:Hv; cbn; [|by apply HE].
  eapply HQ; eauto using ecdsa_verify_ok. by destruct (hasRspPubKey _).
Qed.

Lemma SignHash_wp `{!CryptSizes} hash n c (Q : bytes -> WOLFSPDM_CTX -> Prop)
    (E : Z -> WOLFSPDM_CTX -> Prop) : ctx_wf c ->
  (forall sig r, len sig = WOLFSPDM_ECC_SIG_SIZE -> is_bytes sig ->
     ctx_wf (set_rng r c) -> Q sig (set_rng r c)) ->
  (forall rc c', rc < 0 -> ctx_wf c' -> c' = c \/ (exists r, c' = set_rng r c) -> E rc c') ->
  wp (wolfSPDM_SignHash hash n) Q E c.
Proof.
  intros Hwf HQ HE. wf_facts Hwf. unfold wolfSPDM_SignHash.
  wp_go; unfold WOLFSPDM_ECC_POINT_SIZE in *; try lia; try (apply HE; [done|done|by left]).
  apply with_rng_wp; [done| |intros; apply HE; eauto; done].
  intros r r' der Hder Hwf'. wp_go; [|apply HE; eauto; done].
  edestruct ecc_rs_size as (? & ? & ? & ?); [done|].
  apply HQ; [|apply Forall_app; split; by apply LeftPad_bytes|done].
  rewrite len_app, !LeftPad_len by done. done.
Qed.
End CryptoOps.
