(* ===== verification/Transport.v ===== *)
(** * Framing and I/O: the TCG binding of src/spdm_tcg.c and
    wolfSPDM_SendReceive of src/spdm_context.c

    The transport is the caller's I/O callback: [io_call cb user ctx tx cap w]
    runs the callback [cb] with its user context on the request [tx] in the
    world [w]; it answers with the response, or [None] for a non-zero return
    code.  Operations that exchange messages run on a context and a world. *)
From Stdlib Require Import ZArith Lia.
From stdpp Require Import base tactics list numbers.
From S2P Require Import Prelude Types Bytes Crypt Context.

Class Transport `{WolfCrypt} (W : Type) :=
  io_call : Z -> Z -> WOLFSPDM_CTX -> bytes -> Z -> W -> W * option bytes.

(** The response buffer holds bytes. *)
Class TransportBytes `{Transport W} :=
  io_bytes : forall cb user ctx tx cap w w' rx,
    io_call cb user ctx tx cap w = (w', Some rx) -> is_bytes rx.

(** The copy [XMEMCPY(dst, src, n)] of [n] bytes into a buffer of [cap]. *)
Definition fits {S} (n cap : Z) : M S unit := if n <=? cap then ret tt else ub.

Lemma wp_fits {S} n cap (Q : unit -> S -> Prop) E s :
  n <= cap -> Q tt s -> wp (fits n cap) Q E s.
Proof. intros Hn HQ. unfold fits. by replace (n <=? cap) with true by lia. Qed.

(** ** TCG binding frames *)

Record WOLFSPDM_TCG_CLEAR_HDR := {
  hdr_tag : Z; hdr_size : Z; hdr_connectionHandle : Z; hdr_fipsIndicator : Z;
  hdr_reserved : Z
}.

Section Frames.
Context `{WolfCrypt}.

(** The sum of sizes is a word32. *)
Definition wolfSPDM_BuildTcgClearMessage (spdmPayload : bytes) (outBufSz : Z)
    : M WOLFSPDM_CTX bytes :=
  let* ctx := @get WOLFSPDM_CTX in
  let totalSz := w32 (WOLFSPDM_TCG_HEADER_SIZE + len spdmPayload) in
  check (outBufSz <? totalSz) WOLFSPDM_E_BUFFER_SMALL ;;;
  fits (WOLFSPDM_TCG_HEADER_SIZE + len spdmPayload) outBufSz ;;;
  ret (wolfSPDM_WriteTcgHeader WOLFSPDM_TCG_TAG_CLEAR totalSz ctx.(connectionHandle)
         ctx.(fipsIndicator) ++ spdmPayload).
End Frames.

Definition wolfSPDM_ParseTcgClearMessage {S} (inBuf : bytes) (spdmPayloadSz : Z)
    : M S (bytes * WOLFSPDM_TCG_CLEAR_HDR) :=
  check (len inBuf <? WOLFSPDM_TCG_HEADER_SIZE) WOLFSPDM_E_BUFFER_SMALL ;;;
  let* tag := rd16be inBuf 0 in
  check (negb (tag =? WOLFSPDM_TCG_TAG_CLEAR)) WOLFSPDM_E_PEER_ERROR ;;;
  let* msgSize := rd32be inBuf 2 in
  check ((msgSize <? WOLFSPDM_TCG_HEADER_SIZE) || (msgSize >? len inBuf))
    WOLFSPDM_E_BUFFER_SMALL ;;;
  let payloadSz := msgSize - WOLFSPDM_TCG_HEADER_SIZE in
  check (spdmPayloadSz <? payloadSz) WOLFSPDM_E_BUFFER_SMALL ;;;
  let* conn := rd32be inBuf 6 in
  let* fips := rd16be inBuf 10 in
  let* rsvd := rd32be inBuf 12 in
  let* payload := rd_sub inBuf WOLFSPDM_TCG_HEADER_SIZE payloadSz in
  ret (payload, {| hdr_tag := tag; hdr_size := msgSize; hdr_connectionHandle := conn;
                   hdr_fipsIndicator := fips; hdr_reserved := rsvd |}).

(** ** Vendor-defined messages

    [vdCode] is the C string without its NUL; [payload] is [None] for NULL. *)

Definition opt_bytes (p : option bytes) : bytes := default [] p.

Definition wolfSPDM_BuildVendorDefined {S} (spdmVersion : Z) (vdCode : bytes)
    (payload : option bytes) (payloadSz outBufSz : Z) : M S bytes :=
  check (existsb (fun b => b =? 0)
           (sub_bytes (vdCode ++ [0]) 0 WOLFSPDM_VDCODE_LEN)) WOLFSPDM_E_INVALID_ARG ;;;
  check (match payload with None => negb (payloadSz =? 0) | Some _ => false end)
    WOLFSPDM_E_INVALID_ARG ;;;
  check (payloadSz >? 0xFFFF - WOLFSPDM_VDCODE_LEN) WOLFSPDM_E_INVALID_ARG ;;;
  let totalSz := 1 + 1 + 1 + 1 + 2 + 1 + 2 + WOLFSPDM_VDCODE_LEN + payloadSz in
  check (outBufSz <? totalSz) WOLFSPDM_E_BUFFER_SMALL ;;;
  let* code := rd_sub vdCode 0 WOLFSPDM_VDCODE_LEN in
  let* data := rd_sub (opt_bytes payload) 0 payloadSz in
  ret ([spdmVersion; SPDM_VENDOR_DEFINED_REQUEST; 0x00; 0x00] ++ SPDM_Set16LE 0x0001 ++
       [0x00] ++ SPDM_Set16LE (w16 (WOLFSPDM_VDCODE_LEN + payloadSz)) ++ code ++ data).

Definition wolfSPDM_ParseVendorDefined {S} (inBuf : bytes) (payloadSz : Z)
    : M S (bytes * bytes) :=
  check (len inBuf <? 17) WOLFSPDM_E_BUFFER_SMALL ;;;
  let* vendorIdLen := rd inBuf 6 in
  let offset := 6 + (1 + vendorIdLen) in
  check (offset + 2 >? len inBuf) WOLFSPDM_E_BUFFER_SMALL ;;;
  let* reqLength := rd16le inBuf offset in
  let offset := offset + 2 in
  check (reqLength <? WOLFSPDM_VDCODE_LEN) WOLFSPDM_E_BUFFER_SMALL ;;;
  check (offset + reqLength >? len inBuf) WOLFSPDM_E_BUFFER_SMALL ;;;
  let* vdCode := rd_sub inBuf offset WOLFSPDM_VDCODE_LEN in
  let offset := offset + WOLFSPDM_VDCODE_LEN in
  let dataLen := reqLength - WOLFSPDM_VDCODE_LEN in
  check (payloadSz <? dataLen) WOLFSPDM_E_BUFFER_SMALL ;;;
  let* payload := rd_sub inBuf offset dataLen in
  ret (vdCode, payload).

(** ** One exchange with the peer *)

Section IO.
Context `{WolfCrypt} `{Config} {W : Type} `{!Transport W}.

(** A context operation inside an operation with I/O. *)
Definition on_ctx {A} (m : M WOLFSPDM_CTX A) : M (WOLFSPDM_CTX * W) A :=
  zoom fst (fun c s => (c, snd s)) m.

Definition get_ctx : M (WOLFSPDM_CTX * W) WOLFSPDM_CTX := on_ctx get.
Definition upd_ctx (f : WOLFSPDM_CTX -> WOLFSPDM_CTX) : M (WOLFSPDM_CTX * W) unit :=
  on_ctx (modify f).

(** [ctx->ioCb(...) != 0 || rxSz > cap] is an I/O failure. *)
Definition call_io (tx : bytes) (cap : Z) : M (WOLFSPDM_CTX * W) bytes := fun '(c, w) =>
  let '(w', r) := io_call c.(ioCb) c.(ioUserCtx) c tx cap w in
  match r with
  | None => Err WOLFSPDM_E_IO_FAIL (c, w')
  | Some rx => if len rx >? cap then Err WOLFSPDM_E_IO_FAIL (c, w') else Ok rx (c, w')
  end.

Definition TCG_BUF_SZ : Z :=
  WOLFSPDM_MAX_MSG_SIZE + WOLFSPDM_AEAD_OVERHEAD + WOLFSPDM_TCG_HEADER_SIZE.

(** A version byte 0x10-0x1F marks a clear message. *)
Definition is_clear_msg (tx : bytes) : bool :=
  (0 <? len tx) && (at_ tx 0 >=? 0x10) && (at_ tx 0 <=? 0x1F).

Definition wolfSPDM_TcgSendReceive (tx : bytes) (rxSz : Z) : M (WOLFSPDM_CTX * W) bytes :=
  let* ctx := get_ctx in
  let* tcgTx :=
    (if is_clear_msg tx then on_ctx (wolfSPDM_BuildTcgClearMessage tx TCG_BUF_SZ)
     else
       check (len tx >? TCG_BUF_SZ - WOLFSPDM_TCG_HEADER_SIZE) WOLFSPDM_E_BUFFER_SMALL ;;;
       ret (wolfSPDM_WriteTcgHeader WOLFSPDM_TCG_TAG_SECURED
              (WOLFSPDM_TCG_HEADER_SIZE + len tx) ctx.(connectionHandle) ctx.(fipsIndicator)
            ++ tx)) in
  let* tcgRx := call_io tcgTx TCG_BUF_SZ in
  check (len tcgRx <? WOLFSPDM_TCG_HEADER_SIZE) WOLFSPDM_E_BUFFER_SMALL ;;;
  let* tag := rd16be tcgRx 0 in
  check (negb (tag =? WOLFSPDM_TCG_TAG_CLEAR) && negb (tag =? WOLFSPDM_TCG_TAG_SECURED))
    WOLFSPDM_E_PEER_ERROR ;;;
  let* fips := rd16be tcgRx 10 in
  when (negb (fips =? 0)) (upd_ctx (fun c => c <| fipsIndicator := fips |>)) ;;;
  let* msgSize := rd32be tcgRx 2 in
  check ((msgSize <? WOLFSPDM_TCG_HEADER_SIZE) || (msgSize >? len tcgRx))
    WOLFSPDM_E_BUFFER_SMALL ;;;
  let payloadSz := msgSize - WOLFSPDM_TCG_HEADER_SIZE in
  check (payloadSz >? rxSz) WOLFSPDM_E_BUFFER_SMALL ;;;
  rd_sub tcgRx WOLFSPDM_TCG_HEADER_SIZE payloadSz.

Definition wolfSPDM_SendReceive (tx : bytes) (rxSz : Z) : M (WOLFSPDM_CTX * W) bytes :=
  let* ctx := get_ctx in
  check (ctx.(ioCb) =? 0) WOLFSPDM_E_IO_FAIL ;;;
  if wolfSPDM_IsTcgMode ctx then wolfSPDM_TcgSendReceive tx rxSz
  else call_io tx rxSz.
End IO.

(** ** Lemmas *)

Lemma Get16BE_range p : 0 <= SPDM_Get16BE p < 2 ^ 16.
Proof. apply w16_range. Qed.

Lemma is_bytes_sub b off n : is_bytes b -> is_bytes (sub_bytes b off n).
Proof. intros. by apply Forall_take, Forall_drop. Qed.

Lemma is_bytes_nth b i : is_bytes b -> is_byte (nth i b 0).
Proof. apply is_byte_at. Qed.

Lemma wp_rd16le {S} b off (Q : Z -> S -> Prop) E s :
  0 <= off -> off + 2 <= len b ->
  (forall v, v = SPDM_Get16LE (sub_bytes b off 2) -> 0 <= v < 2 ^ 16 -> Q v s) ->
  wp (rd16le b off) Q E s.
Proof. intros ? ? HQ. unfold rd16le. wp_go. apply HQ; [done|apply w16_range]. Qed.

Lemma rd16be_run {S} b off (s : S) : 0 <= off -> off + 2 <= len b ->
  rd16be b off s = Ok (SPDM_Get16BE (sub_bytes b off 2)) s.
Proof. intros. unfold rd16be. by rewrite (bind_run _ _ _ _ _ (rd_sub_run b off 2 s ltac:(lia) ltac:(lia) ltac:(lia))). Qed.

Lemma rd32be_run {S} b off (s : S) : 0 <= off -> off + 4 <= len b ->
  rd32be b off s = Ok (SPDM_Get32BE (sub_bytes b off 4)) s.
Proof. intros. unfold rd32be. by rewrite (bind_run _ _ _ _ _ (rd_sub_run b off 4 s ltac:(lia) ltac:(lia) ltac:(lia))). Qed.

Lemma wp_rd16be {S} b off (Q : Z -> S -> Prop) E s :
  0 <= off -> off + 2 <= len b ->
  (forall v, v = SPDM_Get16BE (sub_bytes b off 2) -> 0 <= v < 2 ^ 16 -> Q v s) ->
  wp (rd16be b off) Q E s.
Proof. intros ? ? HQ. unfold rd16be. wp_go. apply HQ; [done|apply w16_range]. Qed.

Lemma wp_rd32le {S} b off (Q : Z -> S -> Prop) E s :
  is_bytes b -> 0 <= off -> off + 4 <= len b ->
  (forall v, v = SPDM_Get32LE (sub_bytes b off 4) -> 0 <= v < 2 ^ 32 -> Q v s) ->
  wp (rd32le b off) Q E s.
Proof.
  intros ? ? ? HQ. unfold rd32le. wp_go. apply HQ; [done|by apply Get32LE_range, is_bytes_sub].
Qed.

Lemma wp_rd32be {S} b off (Q : Z -> S -> Prop) E s :
  is_bytes b -> 0 <= off -> off + 4 <= len b ->
  (forall v, v = SPDM_Get32BE (sub_bytes b off 4) -> 0 <= v < 2 ^ 32 -> Q v s) ->
  wp (rd32be b off) Q E s.
Proof.
  intros ? ? ? HQ. unfold rd32be. wp_go. apply HQ; [done|by apply Get32BE_range, is_bytes_sub].
Qed.

(** One statement of a message parser or an operation with I/O. *)
Ltac io_step :=
  lazymatch goal with
  | |- wp (rd16le _ _) _ _ _ => apply wp_rd16le; [try lia|try lia|intros ? ? ?]
  | |- wp (rd16be _ _) _ _ _ => apply wp_rd16be; [try lia|try lia|intros ? ? ?]
  | |- wp (rd32le _ _) _ _ _ => apply wp_rd32le; [try done|try lia|try lia|intros ? ? ?]
  | |- wp (rd32be _ _) _ _ _ => apply wp_rd32be; [try done|try lia|try lia|intros ? ? ?]
  | |- wp (fits _ _) _ _ _ => apply wp_fits; [try lia|]
  | |- wp (on_ctx _) _ _ _ => apply wp_zoom; cbn [fst snd]
  | |- wp get_ctx _ _ _ => apply wp_zoom, wp_get; cbn [fst snd]
  | |- wp (upd_ctx _) _ _ _ => apply wp_zoom, wp_modify; cbn [fst snd]
  | |- _ => wp_step
  end; cbv beta.
Ltac io_go := repeat io_step.

(** A peer that answers with a prepared list of messages. *)
Module Script.
Section Script.
Context `{WolfCrypt}.

Definition transport : Transport (list bytes) := fun cb user ctx tx cap w =>
  match w with
  | [] => ([], None)
  | rx :: w' => (w', Some (map w8 rx))
  end.

Lemma bytes_ok : @TransportBytes _ _ transport.
Proof.
  intros cb user ctx tx cap [|rx w] w' rx'; cbn; [done|]. intros [= _ <-].
  apply List.Forall_map, List.Forall_forall. intros. apply is_byte_w8.
Qed.

Lemma map_w8 b : is_bytes b -> map w8 b = b.
Proof.
  induction 1 as [|x b Hx Hb IH]; [done|]. cbn. rewrite IH. f_equal. by apply Z.mod_small.
Qed.
End Script.
End Script.

Section IOLemmas.
Context `{WolfCrypt} `{Config} {W : Type} `{!Transport W} `{!TransportBytes}.

(** A run of the library's own code beside the network. *)
Lemma on_ctx_ok {A} (m : M WOLFSPDM_CTX A) (s : WOLFSPDM_CTX * W) a s' :
  on_ctx m s = Ok a s' <-> exists c', m s.1 = Ok a c' /\ s' = (c', s.2).
Proof.
  unfold on_ctx, zoom. destruct s as [c w]. cbn [fst snd]. split.
  - destruct (m c) as [? c'|? ?|]; try done. intros [= -> <-]. eauto.
  - by intros (c' & -> & ->).
Qed.

Lemma call_io_wp tx cap c (w : W) (Q : bytes -> WOLFSPDM_CTX * W -> Prop)
    (E : Z -> WOLFSPDM_CTX * W -> Prop) :
  (forall w' rx, is_bytes rx -> len rx <= cap ->
     io_call c.(ioCb) c.(ioUserCtx) c tx cap w = (w', Some rx) -> Q rx (c, w')) ->
  (forall w', E WOLFSPDM_E_IO_FAIL (c, w')) ->
  wp (call_io tx cap) Q E (c, w).
Proof.
  intros HQ HE. unfold wp, call_io.
  destruct (io_call _ _ _ _ _ _) as [w' [rx|]] eqn:Hio; [|done].
  destruct (Z.gtb_spec (len rx) cap); [done|]. apply HQ; [|lia|done]. by eapply io_bytes.
Qed.

(** All an exchange changes in the context is the FIPS indicator. *)
Definition fips_step (c c' : WOLFSPDM_CTX) : Prop :=
  c' = c \/ exists f, 0 < f < 2 ^ 16 /\ c' = c <| fipsIndicator := f |>.

Lemma fips_step_wf c c' : fips_step c c' -> ctx_wf c -> ctx_wf c'.
Proof. intros [->|(f & Hf & ->)] Hwf; [done|]. wf_tac. Qed.

Lemma TcgSendReceive_wp tx cap c (w : W) (Q : bytes -> WOLFSPDM_CTX * W -> Prop)
    (E : Z -> WOLFSPDM_CTX * W -> Prop) :
  len tx < 2 ^ 32 - WOLFSPDM_TCG_HEADER_SIZE ->
  (forall rx c' w', is_bytes rx -> len rx <= cap -> fips_step c c' -> Q rx (c', w')) ->
  (forall rc c' w', rc < 0 -> fips_step c c' -> E rc (c', w')) ->
  wp (wolfSPDM_TcgSendReceive tx cap) Q E (c, w).
Proof.
  intros Htx HQ HE. pose proof (len_nonneg tx).
  assert (forall w' rc, rc < 0 -> E rc (c, w')) as HE0 by (intros; apply HE; [done|by left]).
  unfold wolfSPDM_TcgSendReceive. do 2 io_step. io_step.
  apply (wp_mono _ (fun _ s => s = (c, w)) _ (fun rc s => rc < 0 /\ s = (c, w))).
  { unfold wolfSPDM_BuildTcgClearMessage. case_match; io_go; try done.
    rewrite w32_id in * by lia. lia. }
  2: { intros rc s [? ->]. by apply HE0. }
  intros tcgTx s ->. io_step. apply call_io_wp; [|intros; by apply HE0].
  intros w' rx Hrx Hlen _. io_go; try (apply HE0; done); try lia.
  all: try (apply HE; [done|right; eexists; split; [|done]; lia]).
  all: apply HQ; [by apply is_bytes_sub|rewrite len_sub_bytes; lia|].
  - right; eexists; split; [|done]; lia.
  - by left.
Qed.

Lemma SendReceive_wp tx cap c (w : W) (Q : bytes -> WOLFSPDM_CTX * W -> Prop)
    (E : Z -> WOLFSPDM_CTX * W -> Prop) :
  len tx < 2 ^ 32 - WOLFSPDM_TCG_HEADER_SIZE ->
  (forall rx c' w', is_bytes rx -> len rx <= cap -> fips_step c c' -> Q rx (c', w')) ->
  (forall rc c' w', rc < 0 -> fips_step c c' -> E rc (c', w')) ->
  wp (wolfSPDM_SendReceive tx cap) Q E (c, w).
Proof.
  intros Htx HQ HE. unfold wolfSPDM_SendReceive. do 2 io_step. io_step; io_step.
  - apply HE; [done|by left].
  - io_step; [by apply TcgSendReceive_wp|].
    apply call_io_wp; intros; [apply HQ|apply HE]; try done; by left.
Qed.
End IOLemmas.

(** ** Properties *)

Lemma sub_bytes_skip p q off n : off = len p -> sub_bytes (p ++ q) off n = sub_bytes q 0 n.
Proof.
  intros ->. unfold sub_bytes, len. rewrite Nat2Z.id, drop_app_length. by rewrite drop_0.
Qed.

(** A vendor-defined message: [cmd] is the SPDM code of a request or a response. *)
Definition vendor_msg (ver cmd : Z) (code data : bytes) : bytes :=
  [ver; cmd; 0; 0] ++ SPDM_Set16LE 1 ++ [0] ++ SPDM_Set16LE (WOLFSPDM_VDCODE_LEN + len data) ++
  code ++ data.

Lemma len_vendor_msg ver cmd code data : len code = WOLFSPDM_VDCODE_LEN ->
  len (vendor_msg ver cmd code data) = 17 + len data.
Proof.
  intros Hc. unfold vendor_msg. rewrite !len_app, Hc. unfold SPDM_Set16LE.
  autorewrite with blen. lia.
Qed.

Lemma BuildVendorDefined_run {S} ver code payload cap (s : S) :
  len code = WOLFSPDM_VDCODE_LEN -> Forall (fun b => b <> 0) code ->
  len (opt_bytes payload) <= 0xFFFF - WOLFSPDM_VDCODE_LEN -> 17 + len (opt_bytes payload) <= cap ->
  wolfSPDM_BuildVendorDefined ver code payload (len (opt_bytes payload)) cap s =
  Ok (vendor_msg ver SPDM_VENDOR_DEFINED_REQUEST code (opt_bytes payload)) s.
Proof.
  intros Hc Hnz Hp Hcap. pose proof (len_nonneg (opt_bytes payload)).
  unfold wolfSPDM_BuildVendorDefined. rewrite sub_bytes_app_l by lia.
  replace (existsb (fun b => b =? 0) code) with false.
  2: { symmetry. apply not_true_iff_false. intros (x & Hx & H0)%existsb_exists.
       rewrite List.Forall_forall in Hnz. apply (Hnz x Hx). lia. }
  replace (match payload with None => _ | Some _ => false end) with false by (by destruct payload).
  run. replace (len (opt_bytes payload) >? 65535 - WOLFSPDM_VDCODE_LEN) with false by lia.
  replace (cap <? 1 + 1 + 1 + 1 + 2 + 1 + 2 + WOLFSPDM_VDCODE_LEN + len (opt_bytes payload))
    with false by lia.
  run. rewrite !rd_sub_run by lia. run.
  rewrite sub_bytes_all by lia. rewrite sub_bytes_all by done. by rewrite w16_id by lia.
Qed.

Lemma ParseVendorDefined_run {S} ver cmd code data cap (s : S) :
  len code = WOLFSPDM_VDCODE_LEN -> len data <= 0xFFFF - WOLFSPDM_VDCODE_LEN ->
  wolfSPDM_ParseVendorDefined (vendor_msg ver cmd code data) cap s =
  if cap <? len data then Err WOLFSPDM_E_BUFFER_SMALL s else Ok (code, data) s.
Proof.
  intros Hc Hp. pose proof (len_nonneg data). pose proof (len_vendor_msg ver cmd code data Hc) as Hl.
  unfold wolfSPDM_ParseVendorDefined. run. rewrite Hl.
  replace (17 + len data <? 17) with false by lia. run.
  unfold rd. rewrite Hl. replace ((0 <=? 6) && (6 <? 17 + len data)) with true by lia. run.
  change (nth (Z.to_nat 6) _ 0) with 0.
  change (6 + (1 + 0)) with 7.
  replace (7 + 2 >? 17 + len data) with false by lia. run.
  unfold rd16le. run. rewrite rd_sub_run by (rewrite ?Hl; lia). run.
  change (sub_bytes _ 7 2) with (SPDM_Set16LE (WOLFSPDM_VDCODE_LEN + len data)).
  rewrite Get16LE_Set16LE by lia.
  replace (WOLFSPDM_VDCODE_LEN + len data <? WOLFSPDM_VDCODE_LEN) with false by lia.
  replace (7 + 2 + (WOLFSPDM_VDCODE_LEN + len data) >? 17 + len data) with false by lia.
  run. rewrite rd_sub_run by (rewrite ?Hl; lia).
  replace (WOLFSPDM_VDCODE_LEN + len data - WOLFSPDM_VDCODE_LEN) with (len data) by lia.
  destruct (cap <? len data); run; [done|].
  rewrite rd_sub_run by (rewrite ?Hl; lia). unfold vendor_msg.
  rewrite !app_assoc, <- (app_assoc _ code).
  rewrite sub_bytes_skip by done. rewrite sub_bytes_app_l by lia.
  rewrite app_assoc, sub_bytes_app_r; [done| |done]. rewrite !len_app, Hc. done.
Qed.

(** A vendor-defined request carries any eight-character code and any
    payload up to the 16-bit length field: the built message is exactly the
    payload plus 17 bytes, and parsing it gives the code and the payload back
    when the caller's payload buffer is large enough, an error otherwise. *)
Lemma vendor_defined_round_trip {S} (spdmVersion : Z) (vdCode payload : bytes)
    (outBufSz payloadSz : Z) (s : S) :
  len vdCode = WOLFSPDM_VDCODE_LEN -> Forall (fun b => b <> 0) vdCode ->
  len payload <= 0xFFFF - WOLFSPDM_VDCODE_LEN -> 17 + len payload <= outBufSz ->
  exists buf,
    wolfSPDM_BuildVendorDefined spdmVersion vdCode (Some payload) (len payload) outBufSz s
      = Ok buf s /\
    len buf = 17 + len payload /\
    wolfSPDM_ParseVendorDefined buf payloadSz s =
      if payloadSz <? len payload then Err WOLFSPDM_E_BUFFER_SMALL s
      else Ok (vdCode, payload) s.
Proof.
  intros Hc Hnz Hp Hcap. eexists. split; [by apply (BuildVendorDefined_run _ _ (Some payload))|].
  split; [by apply len_vendor_msg|by apply ParseVendorDefined_run].
Qed.

(** The fields of a TCG header in front of a message. *)
Section Header.
Variables (tag sz conn fips : Z) (p : bytes).
Hypotheses (Ht : 0 <= tag < 2 ^ 16) (Hs : 0 <= sz < 2 ^ 32) (Hc : 0 <= conn < 2 ^ 32)
  (Hf : 0 <= fips < 2 ^ 16).
Let m := wolfSPDM_WriteTcgHeader tag sz conn fips ++ p.

Lemma len_frame : len m = WOLFSPDM_TCG_HEADER_SIZE + len p.
Proof. unfold m. by rewrite len_app, len_WriteTcgHeader. Qed.

Lemma header_fields :
  SPDM_Get16BE (sub_bytes m 0 2) = tag /\ SPDM_Get32BE (sub_bytes m 2 4) = sz /\
  SPDM_Get32BE (sub_bytes m 6 4) = conn /\ SPDM_Get16BE (sub_bytes m 10 2) = fips /\
  SPDM_Get32BE (sub_bytes m 12 4) = 0 /\
  sub_bytes m WOLFSPDM_TCG_HEADER_SIZE (len p) = p.
Proof.
  change (sub_bytes m 0 2) with (SPDM_Set16BE tag).
  change (sub_bytes m 2 4) with (SPDM_Set32BE sz).
  change (sub_bytes m 6 4) with (SPDM_Set32BE conn).
  change (sub_bytes m 10 2) with (SPDM_Set16BE fips).
  rewrite !Get16BE_Set16BE, !Get32BE_Set32BE by done.
  split_and!; try done. by apply sub_bytes_app_r.
Qed.

Lemma read_header {S} (s : S) :
  rd16be m 0 s = Ok tag s /\ rd32be m 2 s = Ok sz s /\ rd32be m 6 s = Ok conn s /\
  rd16be m 10 s = Ok fips s /\ rd32be m 12 s = Ok 0 s /\
  rd_sub m WOLFSPDM_TCG_HEADER_SIZE (len p) s = Ok p s.
Proof.
  pose proof (len_nonneg p). pose proof len_frame.
  destruct header_fields as (F1 & F2 & F3 & F4 & F5 & F6). unfold rd16be, rd32be. run.
  rewrite !rd_sub_run by lia. by rewrite F1, F2, F3, F4, F5, F6.
Qed.
End Header.

(** A clear TCG frame carries any message below 4 GiB: parsing what
    [wolfSPDM_BuildTcgClearMessage] built gives the message and the context's
    connection handle and FIPS indicator back. *)
Lemma tcg_clear_round_trip `{WolfCrypt} (c : WOLFSPDM_CTX) (payload : bytes)
    (outBufSz payloadSz : Z) :
  0 <= c.(connectionHandle) < 2 ^ 32 -> 0 <= c.(fipsIndicator) < 2 ^ 16 ->
  WOLFSPDM_TCG_HEADER_SIZE + len payload < 2 ^ 32 ->
  WOLFSPDM_TCG_HEADER_SIZE + len payload <= outBufSz -> len payload <= payloadSz ->
  exists buf,
    wolfSPDM_BuildTcgClearMessage payload outBufSz c = Ok buf c /\
    len buf = WOLFSPDM_TCG_HEADER_SIZE + len payload /\
    wolfSPDM_ParseTcgClearMessage buf payloadSz c =
      Ok (payload, {| hdr_tag := WOLFSPDM_TCG_TAG_CLEAR; hdr_size := len buf;
                      hdr_connectionHandle := c.(connectionHandle);
                      hdr_fipsIndicator := c.(fipsIndicator); hdr_reserved := 0 |}) c.
Proof.
  intros Hc Hf Hp Ho Hr. pose proof (len_nonneg payload).
  pose proof (read_header WOLFSPDM_TCG_TAG_CLEAR (WOLFSPDM_TCG_HEADER_SIZE + len payload)
    _ _ payload ltac:(done) ltac:(lia) Hc Hf c) as (R1 & R2 & R3 & R4 & R5 & R6).
  pose proof (len_frame WOLFSPDM_TCG_TAG_CLEAR (WOLFSPDM_TCG_HEADER_SIZE + len payload)
    (connectionHandle c) (fipsIndicator c) payload) as Hl.
  eexists. split; [|split; [exact Hl|]].
  - unfold wolfSPDM_BuildTcgClearMessage, fits. run. rewrite w32_id by lia.
    replace (outBufSz <? _) with false by lia.
    by replace (WOLFSPDM_TCG_HEADER_SIZE + len payload <=? outBufSz) with true by lia.
  - unfold wolfSPDM_ParseTcgClearMessage. run. rewrite Hl.
    replace (_ <? _) with false by lia. run. rewrite R1. rewrite Z.eqb_refl. run. rewrite R2.
    replace (_ || _) with false by lia.
    replace (WOLFSPDM_TCG_HEADER_SIZE + len payload - WOLFSPDM_TCG_HEADER_SIZE)
      with (len payload) by lia.
    replace (payloadSz <? len payload) with false by lia. run.
    by rewrite R3, R4, R5, R6.
Qed.

(** The size check of [wolfSPDM_BuildTcgClearMessage] is on a word32 sum:
    for the sixteen message sizes at the top of the range the sum wraps, a
    small output buffer passes the check and the copy overruns it. *)
Lemma tcg_clear_size_wraps `{WolfCrypt} (c : WOLFSPDM_CTX) (payload : bytes) (outBufSz : Z) :
  2 ^ 32 - WOLFSPDM_TCG_HEADER_SIZE <= len payload < 2 ^ 32 ->
  WOLFSPDM_TCG_HEADER_SIZE <= outBufSz < 2 ^ 32 ->
  wolfSPDM_BuildTcgClearMessage payload outBufSz c = Ub.
Proof.
  intros Hp Ho. unfold wolfSPDM_BuildTcgClearMessage, fits. run.
  replace (w32 (WOLFSPDM_TCG_HEADER_SIZE + len payload))
    with (WOLFSPDM_TCG_HEADER_SIZE + len payload - 2 ^ 32) by (unfold w32; mlia).
  replace (outBufSz <? _) with false by lia. run.
  by replace (_ <=? _) with false by lia.
Qed.
