(* ===== verification/Secured.v ===== *)
(** * Secured records: src/spdm_secured.c (record layer)

    A record is a header, which is also the AAD, the AES-GCM ciphertext and the
    tag.  The plaintext is assembled in the fixed buffer [plainBuf], as the
    code does; its sizes are word16 values. *)
From Stdlib Require Import ZArith Lia.
From stdpp Require Import base tactics list numbers.
From S2P Require Import Prelude Types Bytes Crypt Context CryptoOps Transport.

Section Secured.
Context `{WolfCrypt} `{Config}.
Notation CM := (M WOLFSPDM_CTX).

(** [wc_AesInit], [wc_AesGcmSetKey] *)
Definition aes_key (key : bytes) : option Aes := a ← wc_AesInit; wc_AesGcmSetKey a key.

Definition plainBuf_size : Z := WOLFSPDM_XFER_MSG_SIZE + 2 + 16.

(** The plaintext and header of a TCG record. *)
Definition tcg_plain (plain : bytes) (encSz : Z) : CM (bytes * bytes) :=
  let* ctx := @get WOLFSPDM_CTX in
  let appDataLen := w16 (len plain) in
  let unpadded := w16 (2 + appDataLen) in
  let padLen := w16 ((16 - unpadded mod 16) mod 16) in
  let encPayloadSz := w16 (unpadded + padLen) in
  let recordLen := w16 (encPayloadSz + WOLFSPDM_AEAD_TAG_SIZE) in
  check (encSz <? 14 + encPayloadSz + WOLFSPDM_AEAD_TAG_SIZE) WOLFSPDM_E_BUFFER_SMALL ;;;
  let* b := wr (zeros plainBuf_size) 0 (SPDM_Set16LE appDataLen) in
  let* b := wr b 2 plain in
  let* b :=
    (if padLen >? 0 then
       let* rnd := wolfSPDM_GetRandom padLen in wr b unpadded rnd
     else ret b) in
  let* p := rd_sub b 0 encPayloadSz in
  ret (SPDM_Set32LE ctx.(sessionId) ++ SPDM_Set64LE ctx.(reqSeqNum) ++
         SPDM_Set16LE recordLen, p).

(** The plaintext and header of an MCTP record; [appMsg]: [plain] carries its
    own message type. *)
Definition mctp_plain (appMsg : bool) (plain : bytes) (encSz : Z) : CM (bytes * bytes) :=
  let* ctx := @get WOLFSPDM_CTX in
  let appDataLen := w16 (if appMsg then len plain else 1 + len plain) in
  let encDataLen := w16 (2 + appDataLen) in
  check (ctx.(reqSeqNum) >? 0xFFFF) WOLFSPDM_E_SEQUENCE ;;;
  let recordLen := w16 (encDataLen + WOLFSPDM_AEAD_TAG_SIZE) in
  check (encSz <? 8 + recordLen) WOLFSPDM_E_BUFFER_SMALL ;;;
  let* b := wr (zeros plainBuf_size) 0 (SPDM_Set16LE appDataLen) in
  let* b := (if appMsg then wr b 2 plain else wr b 2 (MCTP_MESSAGE_TYPE_SPDM :: plain)) in
  let* p := rd_sub b 0 encDataLen in
  fits (8 + encDataLen + WOLFSPDM_AEAD_TAG_SIZE) encSz ;;;
  ret (SPDM_Set32LE ctx.(sessionId) ++ SPDM_Set16LE (w16 ctx.(reqSeqNum)) ++
         SPDM_Set16LE recordLen, p).

Definition wolfSPDM_EncryptRecord (appMsg : bool) (plain : bytes) (encSz : Z) : CM bytes :=
  check (len plain >? WOLFSPDM_XFER_MSG_SIZE) WOLFSPDM_E_BUFFER_SMALL ;;;
  let* ctx := @get WOLFSPDM_CTX in
  let* (hdr, plainBuf) :=
    (if wolfSPDM_IsTcgMode ctx then tcg_plain plain encSz else mctp_plain appMsg plain encSz) in
  let iv := wolfSPDM_BuildIV ctx.(reqDataIv) ctx.(reqSeqNum) in
  let* (cipher, tag) := lift_opt WOLFSPDM_E_CRYPTO_FAIL
    (aes ← aes_key ctx.(reqDataKey); wc_AesGcmEncrypt aes plainBuf iv hdr) in
  upd (fun c => c <| reqSeqNum := w64 (c.(reqSeqNum) + 1) |>) ;;;
  ret (hdr ++ cipher ++ tag).

Definition wolfSPDM_EncryptInternal (plain : bytes) (encSz : Z) : CM bytes :=
  wolfSPDM_EncryptRecord false plain encSz.

Definition decrypted_size : Z := WOLFSPDM_XFER_MSG_SIZE + WOLFSPDM_SECURED_PAD.

(** Header checks of both bindings: the header size, the ciphertext length
    and the sequence number the IV is built from. *)
Definition tcg_header (enc : bytes) : CM (Z * Z * Z) :=
  let* ctx := @get WOLFSPDM_CTX in
  let hdrSz := 14 in
  check (len enc <? hdrSz + WOLFSPDM_AEAD_TAG_SIZE) WOLFSPDM_E_BUFFER_SMALL ;;;
  let* rspSessionId := rd32le enc 0 in
  let* rspSeqNum64 := rd64le enc 4 in
  let* rspLen := rd16le enc 12 in
  check (negb (rspSessionId =? ctx.(sessionId))) WOLFSPDM_E_SESSION_INVALID ;;;
  check (negb (rspSeqNum64 =? ctx.(rspSeqNum))) WOLFSPDM_E_SEQUENCE ;;;
  check ((rspLen <? WOLFSPDM_AEAD_TAG_SIZE) || (len enc <? hdrSz + rspLen))
    WOLFSPDM_E_BUFFER_SMALL ;;;
  let cipherLen := rspLen - WOLFSPDM_AEAD_TAG_SIZE in
  check (cipherLen >? decrypted_size) WOLFSPDM_E_BUFFER_SMALL ;;;
  ret (hdrSz, cipherLen, rspSeqNum64).

Definition mctp_header (enc : bytes) : CM (Z * Z * Z) :=
  let* ctx := @get WOLFSPDM_CTX in
  let hdrSz := 8 in
  check (len enc <? hdrSz + WOLFSPDM_AEAD_TAG_SIZE) WOLFSPDM_E_BUFFER_SMALL ;;;
  let* rspSessionId := rd32le enc 0 in
  let* rspSeqNum := rd16le enc 4 in
  let* rspLen := rd16le enc 6 in
  check (negb (rspSessionId =? ctx.(sessionId))) WOLFSPDM_E_SESSION_INVALID ;;;
  check (negb (rspSeqNum =? ctx.(Context.rspSeqNum))) WOLFSPDM_E_SEQUENCE ;;;
  check ((rspLen <? WOLFSPDM_AEAD_TAG_SIZE) || negb (len enc =? hdrSz + rspLen))
    WOLFSPDM_E_BUFFER_SMALL ;;;
  let cipherLen := rspLen - WOLFSPDM_AEAD_TAG_SIZE in
  check (cipherLen >? decrypted_size) WOLFSPDM_E_BUFFER_SMALL ;;;
  ret (hdrSz, cipherLen, rspSeqNum).

(** The application message inside an authenticated plaintext. *)
Definition open_payload (tcg appMsg : bool) (decrypted : bytes) (plainSz : Z) : CM bytes :=
  let cipherLen := len decrypted in
  check (cipherLen <? 2) WOLFSPDM_E_BUFFER_SMALL ;;;
  let* appDataLen := rd16le decrypted 0 in
  if tcg then
    check ((cipherLen <? 2 + appDataLen) || (plainSz <? appDataLen)) WOLFSPDM_E_BUFFER_SMALL ;;;
    rd_sub decrypted 2 appDataLen
  else
    let typeSz := if appMsg then 0 else 1 in
    check ((appDataLen <? 1) || (cipherLen <? 2 + appDataLen) ||
           (plainSz <? appDataLen - typeSz)) WOLFSPDM_E_BUFFER_SMALL ;;;
    let* type := rd decrypted 2 in
    check (negb appMsg && negb (type =? MCTP_MESSAGE_TYPE_SPDM)) WOLFSPDM_E_DECRYPT_FAIL ;;;
    rd_sub decrypted (2 + typeSz) (appDataLen - typeSz).

Definition wolfSPDM_DecryptRecord (appMsg : bool) (enc : bytes) (plainSz : Z) : CM bytes :=
  let* ctx := @get WOLFSPDM_CTX in
  let tcg := wolfSPDM_IsTcgMode ctx in
  let* (hdrSz, cipherLen, seqNum) := (if tcg then tcg_header enc else mctp_header enc) in
  let* aad := rd_sub enc 0 hdrSz in
  let* ciphertext := rd_sub enc hdrSz cipherLen in
  let* tag := rd_sub enc (hdrSz + cipherLen) WOLFSPDM_AEAD_TAG_SIZE in
  let iv := wolfSPDM_BuildIV ctx.(rspDataIv) seqNum in
  let* aes := lift_opt WOLFSPDM_E_CRYPTO_FAIL (aes_key ctx.(rspDataKey)) in
  let* decrypted := lift_opt WOLFSPDM_E_DECRYPT_FAIL
                      (wc_AesGcmDecrypt aes ciphertext iv tag aad) in
  upd (fun c => c <| rspSeqNum := w64 (c.(rspSeqNum) + 1) |>) ;;;
  open_payload tcg appMsg decrypted plainSz.

Definition wolfSPDM_DecryptInternal (enc : bytes) (plainSz : Z) : CM bytes :=
  wolfSPDM_DecryptRecord false enc plainSz.

(** Application access to the record layer, for a connected session. *)
Definition wolfSPDM_EncryptMessage (plain : bytes) (encSz : Z) : CM bytes :=
  let* ctx := @get WOLFSPDM_CTX in
  check (negb (ctx.(state) =? WOLFSPDM_STATE_CONNECTED)) WOLFSPDM_E_NOT_CONNECTED ;;;
  wolfSPDM_EncryptRecord false plain encSz.

Definition wolfSPDM_DecryptMessage (enc : bytes) (plainSz : Z) : CM bytes :=
  let* ctx := @get WOLFSPDM_CTX in
  check (negb (ctx.(state) =? WOLFSPDM_STATE_CONNECTED)) WOLFSPDM_E_NOT_CONNECTED ;;;
  wolfSPDM_DecryptRecord false enc plainSz.
End Secured.

(** ** One secured message each way *)

Section SecuredIO.
Context `{WolfCrypt} `{Config} {W : Type} `{!Transport W}.

Definition SECURED_BUF_SZ : Z := WOLFSPDM_XFER_MSG_SIZE + WOLFSPDM_AEAD_OVERHEAD.

Definition wolfSPDM_SecuredXfer (cmdPlain : bytes) (rspSz : Z) : M (WOLFSPDM_CTX * W) bytes :=
  let* enc := on_ctx (wolfSPDM_EncryptInternal cmdPlain SECURED_BUF_SZ) in
  let* rx := wolfSPDM_SendReceive enc SECURED_BUF_SZ in
  on_ctx (wolfSPDM_DecryptInternal rx rspSz).

Definition wolfSPDM_AppDataReady (ctx : WOLFSPDM_CTX) : M (WOLFSPDM_CTX * W) unit :=
  check (negb (ctx.(state) =? WOLFSPDM_STATE_CONNECTED)) WOLFSPDM_E_NOT_CONNECTED ;;;
  check (wolfSPDM_IsTcgMode ctx) WOLFSPDM_E_NOT_AVAILABLE ;;;
  check (ctx.(ioCb) =? 0) WOLFSPDM_E_IO_FAIL.

(** The callback is called with no receive buffer; only its return code
    counts. *)
Definition wolfSPDM_SendData (data : bytes) : M (WOLFSPDM_CTX * W) unit :=
  check (len data =? 0) WOLFSPDM_E_INVALID_ARG ;;;
  let* type := rd data 0 in
  check (type =? MCTP_MESSAGE_TYPE_SPDM) WOLFSPDM_E_INVALID_ARG ;;;
  let* ctx := get_ctx in
  wolfSPDM_AppDataReady ctx ;;;
  let* enc := on_ctx (wolfSPDM_EncryptRecord true data SECURED_BUF_SZ) in
  fun '(c, w) =>
    let '(w', r) := io_call c.(ioCb) c.(ioUserCtx) c enc 0 w in
    match r with
    | None => Err WOLFSPDM_E_IO_FAIL (c, w')
    | Some _ => Ok tt (c, w')
    end.

Definition wolfSPDM_ReceiveData (dataSz : Z) : M (WOLFSPDM_CTX * W) bytes :=
  let* ctx := get_ctx in
  wolfSPDM_AppDataReady ctx ;;;
  let* rx := call_io [] SECURED_BUF_SZ in
  let* data := on_ctx (wolfSPDM_DecryptRecord true rx dataSz) in
  let* type := rd data 0 in
  if type =? MCTP_MESSAGE_TYPE_SPDM then
    (if len data >=? 4 then
       let* code := rd data 2 in
       let* err := rd data 3 in
       when (code =? SPDM_ERROR) (upd_ctx (fun c => c <| lastPeerErrorCode := err |>))
     else ret tt) ;;;
    fail WOLFSPDM_E_PEER_ERROR
  else ret data.
End SecuredIO.

(** ** The record layer's lemmas *)

(** A build whose largest message fits a record's 16-bit length. *)
Class RecordFits `{Config} := record_fits : WOLFSPDM_MAX_MSG_SIZE + 34 < 2 ^ 16.

Lemma splice2 b d1 d2 : len d1 + len d2 <= len b ->
  sub_bytes (splice (splice b 0 d1) (len d1) d2) 0 (len d1 + len d2) = d1 ++ d2.
Proof.
  intros Hl. pose proof (len_nonneg d1). pose proof (len_nonneg d2).
  rewrite sub_bytes_splice; rewrite ?len_splice by lia; try lia.
  rewrite sub_bytes_splice by lia. done.
Qed.

Lemma splice3 b d1 d2 d3 : len d1 + len d2 + len d3 <= len b ->
  sub_bytes (splice (splice (splice b 0 d1) (len d1) d2) (len d1 + len d2) d3)
    0 (len d1 + len d2 + len d3) = d1 ++ d2 ++ d3.
Proof.
  intros Hl. pose proof (len_nonneg d1). pose proof (len_nonneg d2). pose proof (len_nonneg d3).
  rewrite sub_bytes_splice; rewrite ?len_splice by (rewrite ?len_splice by lia; lia); try lia.
  rewrite splice2 by lia. by rewrite <- app_assoc.
Qed.

(** Sizes of overwritten buffers. *)
Ltac splice_len b :=
  lazymatch b with
  | splice ?b' ?o ?d =>
      splice_len b'; assert (len (splice b' o d) = len b') by (apply len_splice; lia)
  | _ => idtac
  end.
Ltac buf_lia :=
  match goal with |- context [len (splice ?b ?o ?d)] => splice_len (splice b o d); lia end.

(** ** Application data *)

Section AppData.
Context `{WolfCrypt} `{Config} {W : Type} `{!Transport W}.
Implicit Types s : WOLFSPDM_CTX * W.

(** [data] went out as one record of the session, and the callback took it. *)
Definition record_sent (data : bytes) s s' : Prop :=
  exists enc rx, wolfSPDM_EncryptRecord true data SECURED_BUF_SZ s.1 = Ok enc s'.1 /\
    io_call s'.1.(ioCb) s'.1.(ioUserCtx) s'.1 enc 0 s.2 = (s'.2, Some rx).

(** [data] is what a record taken from the callback holds. *)
Definition record_received (data : bytes) (cap : Z) s s' : Prop :=
  exists rec, call_io [] SECURED_BUF_SZ s = Ok rec (s.1, s'.2) /\
    wolfSPDM_DecryptRecord true rec cap s.1 = Ok data s'.1.

Lemma AppDataReady_ok c s u s' : wolfSPDM_AppDataReady c s = Ok u s' ->
  c.(state) = WOLFSPDM_STATE_CONNECTED /\ s' = s.
Proof.
  unfold wolfSPDM_AppDataReady.
  intros (? & ? & [Hs ->]%check_ok & (? & ? & [_ ->]%check_ok & [_ ->]%check_ok)%bind_ok)%bind_ok.
  split; [lia|done].
Qed.

Lemma SendData_ok data s u s' : wolfSPDM_SendData data s = Ok u s' ->
  s.1.(state) = WOLFSPDM_STATE_CONNECTED /\ record_sent data s s'.
Proof.
  destruct s as [c0 w]. unfold wolfSPDM_SendData.
  intros (? & ? & [_ ->]%check_ok & (? & ? & (_ & _ & ->)%rd_ok & (? & ? & [_ ->]%check_ok & Hs)%bind_ok)%bind_ok)%bind_ok.
  apply bind_ok in Hs as (c & ? & (c1 & [= <- <-] & ->)%on_ctx_ok & Hs).
  apply bind_ok in Hs as (? & ? & [Hst ->]%AppDataReady_ok & Hs).
  apply bind_ok in Hs as (enc & ? & (c1 & Henc & ->)%on_ctx_ok & Hs). cbn [fst snd] in *.
  destruct (io_call _ _ _ _ _ _) as [w' [rx|]] eqn:Hio; [|done]. injection Hs as _ <-.
  split; [done|]. by exists enc, rx.
Qed.

Lemma ReceiveData_ok cap s data s' : wolfSPDM_ReceiveData cap s = Ok data s' ->
  s.1.(state) = WOLFSPDM_STATE_CONNECTED /\ record_received data cap s s'.
Proof.
  destruct s as [c0 w]. unfold wolfSPDM_ReceiveData. intros Hs.
  apply bind_ok in Hs as (c & ? & (c1 & [= <- <-] & ->)%on_ctx_ok & Hs).
  apply bind_ok in Hs as (? & ? & [Hst ->]%AppDataReady_ok & Hs).
  apply bind_ok in Hs as (rx & s2 & Hrx & Hs).
  apply bind_ok in Hs as (d & s3 & (c1 & Hdec & ->)%on_ctx_ok & Hs).
  apply bind_ok in Hs as (ty & s4 & (_ & _ & ->)%rd_ok & Hs).
  destruct (ty =? MCTP_MESSAGE_TYPE_SPDM).
  - by apply bind_ok in Hs as (? & ? & _ & Hs).
  - injection Hs as -> <-. split; [done|]. unfold call_io in Hrx. cbn [fst snd] in *.
    exists rx. unfold call_io. destruct (io_call _ _ _ _ _ _) as [w' [r|]]; [|done].
    destruct (len r >? _); [done|]. injection Hrx as -> <-. by cbn in *.
Qed.
End AppData.

Section RecordLemmas.
Context `{WolfCrypt} `{Config} `{!CryptSizes} `{!RecordFits}.

Definition rng_step (c c' : WOLFSPDM_CTX) : Prop := c' = c \/ exists r, c' = set_rng r c.

Lemma rng_step_wf c c' : rng_step c c' -> ctx_wf c -> ctx_wf c'.
Proof. intros [->|[r ->]]; auto using set_rng_wf. Qed.

(** Header and plaintext of the record that carries [plain]. *)
Definition rec_hdr (c : WOLFSPDM_CTX) (n : Z) : bytes :=
  if wolfSPDM_IsTcgMode c
  then SPDM_Set32LE c.(sessionId) ++ SPDM_Set64LE c.(reqSeqNum) ++
       SPDM_Set16LE (n + WOLFSPDM_AEAD_TAG_SIZE)
  else SPDM_Set32LE c.(sessionId) ++ SPDM_Set16LE c.(reqSeqNum) ++
       SPDM_Set16LE (n + WOLFSPDM_AEAD_TAG_SIZE).

Definition rec_plain (tcg appMsg : bool) (plain rnd : bytes) : bytes :=
  if tcg then SPDM_Set16LE (len plain) ++ plain ++ rnd
  else let p := if appMsg then plain else MCTP_MESSAGE_TYPE_SPDM :: plain in
       SPDM_Set16LE (len p) ++ p.

Definition seq_sent (c : WOLFSPDM_CTX) : WOLFSPDM_CTX :=
  c <| reqSeqNum := w64 (c.(reqSeqNum) + 1) |>.

Lemma seq_sent_wf c : ctx_wf c -> ctx_wf (seq_sent c).
Proof.
  intros Hwf. pose proof (w64_range (reqSeqNum c + 1)). unfold seq_sent. wf_tac.
Qed.

(** [rec] is the record of [plain] under the keys and sequence number of [c]. *)
Definition is_record (appMsg : bool) (c : WOLFSPDM_CTX) (plain rec : bytes) : Prop :=
  exists rnd aes cipher tag,
    let p := rec_plain (wolfSPDM_IsTcgMode c) appMsg plain rnd in
    let hdr := rec_hdr c (len p) in
    len rnd < 16 /\
    aes_key c.(reqDataKey) = Some aes /\
    wc_AesGcmEncrypt aes p (wolfSPDM_BuildIV c.(reqDataIv) c.(reqSeqNum)) hdr
      = Some (cipher, tag) /\
    rec = hdr ++ cipher ++ tag /\
    (wolfSPDM_IsTcgMode c = false -> c.(reqSeqNum) <= 0xFFFF).

Lemma tcg_plain_wp plain encSz c (Q : bytes * bytes -> WOLFSPDM_CTX -> Prop)
    (E : Z -> WOLFSPDM_CTX -> Prop) :
  ctx_wf c -> wolfSPDM_IsTcgMode c = true -> len plain <= WOLFSPDM_MAX_MSG_SIZE ->
  (forall rnd c', rng_step c c' -> len rnd < 16 ->
     let p := rec_plain true false plain rnd in
     14 + len p + WOLFSPDM_AEAD_TAG_SIZE <= encSz -> Q (rec_hdr c (len p), p) c') ->
  (forall rc c', rc < 0 -> rng_step c c' -> E rc c') ->
  wp (tcg_plain plain encSz) Q E c.
Proof.
  intros Hwf Htcg Hlen HQ HE. pose proof (len_nonneg plain). pose proof record_fits as Hfit.
  assert (rng_step c c) as Hrefl by (by left).
  set (pad := (16 - (2 + len plain) mod 16) mod 16).
  assert (0 <= pad < 16) as Hpad by (unfold pad; mlia).
  assert (len (zeros plainBuf_size) = WOLFSPDM_MAX_MSG_SIZE + 18) as Hz
    by (rewrite len_zeros; unfold plainBuf_size, WOLFSPDM_XFER_MSG_SIZE; lia).
  assert (len (SPDM_Set16LE (len plain)) = 2) as Hh2 by done.
  unfold tcg_plain. rewrite !(w16_id (len plain)) by lia.
  rewrite !(w16_id (2 + len plain)) by lia. fold pad.
  rewrite !(w16_id pad) by lia. rewrite !(w16_id (2 + len plain + pad)) by lia.
  rewrite !(w16_id (2 + len plain + pad + WOLFSPDM_AEAD_TAG_SIZE)) by lia.
  do 2 wp_step. cbv beta. wp_step; wp_step; [by apply HE|].
  wp_step. apply wp_wr; [lia|lia|]. wp_step.
  apply wp_wr; [lia|buf_lia|]. wp_step.
  unfold rec_hdr in HQ. rewrite Htcg in HQ. cbn [rec_plain] in HQ.
  wp_step; [wp_step|].
  - apply GetRandom_wp; [done|lia| |by apply HE|intros r _; apply HE; [done|right; eauto]].
    intros r rnd Hr _ Hwf'. wp_step; [buf_lia|].
    wp_step. wp_step; [buf_lia|].
    wp_step. specialize (HQ rnd (set_rng r c)). revert HQ.
    rewrite !len_app, Hr, Hh2.
    replace (2 + (len plain + pad)) with (2 + len plain + pad) by lia.
    replace (splice _ (2 + len plain) rnd) with
      (splice (splice (splice (zeros plainBuf_size) 0 (SPDM_Set16LE (len plain)))
        (len (SPDM_Set16LE (len plain))) plain)
        (len (SPDM_Set16LE (len plain)) + len plain) rnd) by done.
    replace (sub_bytes _ 0 (2 + len plain + pad)) with (SPDM_Set16LE (len plain) ++ plain ++ rnd).
    2: { rewrite <- (splice3 (zeros plainBuf_size)) by (rewrite Hz, Hh2; lia). by rewrite Hh2, Hr. }
    intros HQ. apply HQ; [right; eauto|lia|lia].
  - wp_step. wp_step. wp_step; [buf_lia|].
    wp_step. assert (pad = 0) as -> by lia. specialize (HQ [] c). revert HQ.
    rewrite !len_app, Hh2, len_nil, app_nil_r.
    replace (2 + (len plain + 0)) with (2 + len plain + 0) by lia.
    replace (sub_bytes _ 0 (2 + len plain + 0)) with (SPDM_Set16LE (len plain) ++ plain).
    2: { rewrite <- (splice2 (zeros plainBuf_size)) by (rewrite Hz, Hh2; lia).
         rewrite Hh2. f_equal. lia. }
    intros HQ. apply HQ; [done|lia|lia].
Qed.

Lemma mctp_plain_wp appMsg plain encSz c (Q : bytes * bytes -> WOLFSPDM_CTX -> Prop)
    (E : Z -> WOLFSPDM_CTX -> Prop) :
  ctx_wf c -> wolfSPDM_IsTcgMode c = false -> len plain <= WOLFSPDM_MAX_MSG_SIZE ->
  (c.(reqSeqNum) <= 0xFFFF ->
     let p := rec_plain false appMsg plain [] in
     8 + len p + WOLFSPDM_AEAD_TAG_SIZE <= encSz -> Q (rec_hdr c (len p), p) c) ->
  (forall rc, rc < 0 -> E rc c) ->
  wp (mctp_plain appMsg plain encSz) Q E c.
Proof.
  intros Hwf Htcg Hlen HQ HE. pose proof (len_nonneg plain). pose proof record_fits as Hfit.
  pose proof (wf_bounds _ Hwf) as Hb. unfold bounds_ok in Hb.
  assert (len (zeros plainBuf_size) = WOLFSPDM_MAX_MSG_SIZE + 18) as Hz
    by (rewrite len_zeros; unfold plainBuf_size, WOLFSPDM_XFER_MSG_SIZE; lia).
  set (p := if appMsg then plain else MCTP_MESSAGE_TYPE_SPDM :: plain).
  assert (len p = if appMsg then len plain else 1 + len plain) as Hp
    by (unfold p; destruct appMsg; rewrite ?len_cons; done).
  assert (0 <= len p <= 1 + WOLFSPDM_MAX_MSG_SIZE) as Hpl by (rewrite Hp; destruct appMsg; lia).
  assert (len (SPDM_Set16LE (len p)) = 2) as Hh2 by done.
  unfold mctp_plain. rewrite <- Hp. rewrite !(w16_id (len p)) by lia.
  rewrite !(w16_id (2 + len p)) by lia.
  rewrite !(w16_id (2 + len p + WOLFSPDM_AEAD_TAG_SIZE)) by lia.
  unfold rec_hdr in HQ. rewrite Htcg in HQ. cbn [rec_plain] in HQ. fold p in HQ.
  revert HQ. rewrite len_app, Hh2. intros HQ.
  do 2 wp_step. cbv beta. wp_step; wp_step; [by apply HE|].
  wp_step; wp_step; [by apply HE|]. rewrite w16_id by lia.
  wp_step. apply wp_wr; [lia|lia|]. wp_step.
  assert (forall K, wp (wr (splice (zeros plainBuf_size) 0 (SPDM_Set16LE (len p))) 2 p) K E c ->
    wp (if appMsg
        then wr (splice (zeros plainBuf_size) 0 (SPDM_Set16LE (len p))) 2 plain
        else wr (splice (zeros plainBuf_size) 0 (SPDM_Set16LE (len p))) 2
               (MCTP_MESSAGE_TYPE_SPDM :: plain)) K E c) as Hw
    by (unfold p; by destruct appMsg).
  apply Hw. apply wp_wr; [lia|buf_lia|].
  wp_step. wp_step; [buf_lia|].
  wp_step. apply wp_fits; [lia|]. wp_step.
  replace (sub_bytes _ 0 (2 + len p)) with (SPDM_Set16LE (len p) ++ p).
  2: { rewrite <- (splice2 (zeros plainBuf_size)) by (rewrite Hz, Hh2; lia). by rewrite Hh2. }
  apply HQ; lia.
Qed.

Lemma rng_step_keys c c' : rng_step c c' ->
  c'.(reqDataKey) = c.(reqDataKey) /\ c'.(reqDataIv) = c.(reqDataIv) /\
  c'.(reqSeqNum) = c.(reqSeqNum).
Proof. by intros [->|[r ->]]. Qed.

Lemma len_rec_hdr c n : len (rec_hdr c n) = if wolfSPDM_IsTcgMode c then 14 else 8.
Proof. unfold rec_hdr. by destruct (wolfSPDM_IsTcgMode c). Qed.

Lemma EncryptRecord_wp appMsg plain encSz c (Q : bytes -> WOLFSPDM_CTX -> Prop)
    (E : Z -> WOLFSPDM_CTX -> Prop) :
  ctx_wf c ->
  (forall rec c', rng_step c c' -> is_record appMsg c plain rec -> len rec <= encSz ->
     len plain <= WOLFSPDM_MAX_MSG_SIZE -> Q rec (seq_sent c')) ->
  (forall rc c', rc < 0 -> rng_step c c' -> E rc c') ->
  wp (wolfSPDM_EncryptRecord appMsg plain encSz) Q E c.
Proof.
  intros Hwf HQ HE. assert (rng_step c c) as Hrefl by (by left).
  unfold wolfSPDM_EncryptRecord, WOLFSPDM_XFER_MSG_SIZE.
  wp_step; wp_step; [by apply HE|]. do 2 wp_step. cbv beta.
  assert (forall c' p, rng_step c c' -> len p + len (rec_hdr c (len p)) + WOLFSPDM_AEAD_TAG_SIZE <= encSz ->
    (exists rnd, p = rec_plain (wolfSPDM_IsTcgMode c) appMsg plain rnd /\ len rnd < 16) ->
    (wolfSPDM_IsTcgMode c = false -> c.(reqSeqNum) <= 0xFFFF) ->
    wp (let* (cipher, tag) := lift_opt WOLFSPDM_E_CRYPTO_FAIL
          (aes ← aes_key c.(reqDataKey);
           wc_AesGcmEncrypt aes p (wolfSPDM_BuildIV c.(reqDataIv) c.(reqSeqNum)) (rec_hdr c (len p))) in
        upd (fun c => c <| reqSeqNum := w64 (c.(reqSeqNum) + 1) |>) ;;;
        ret (rec_hdr c (len p) ++ cipher ++ tag)) Q E c') as Hrest.
  { intros c' p Hs Hl (rnd & Hp & Hr) Hseq. wp_step. wp_step; [|by apply HE].
    destruct a as [cipher tag].
    match goal with Hx : _ ≫= _ = Some _ |- _ => apply bind_Some in Hx as (aes & Hk & He) end.
    destruct (gcm_enc_size _ _ _ _ _ _ He) as (Hc & Ht & _).
    wp_go. apply HQ; [done| | |lia].
    - exists rnd, aes, cipher, tag. rewrite <- Hp. split_and!; done.
    - rewrite !len_app. lia. }
  destruct (wolfSPDM_IsTcgMode c) eqn:Htcg; wp_step.
  - apply tcg_plain_wp; [done|done|lia| |done]. intros rnd c' Hs Hr p Hl.
    apply Hrest; [done| |by exists rnd|done]. rewrite len_rec_hdr, Htcg. lia.
  - apply mctp_plain_wp; [done|done|lia| |by intros; apply HE]. intros Hseq p Hl.
    apply Hrest; [done| |by exists []|done]. rewrite len_rec_hdr, Htcg. lia.
Qed.

Definition seq_rcvd (c : WOLFSPDM_CTX) : WOLFSPDM_CTX :=
  c <| rspSeqNum := w64 (c.(rspSeqNum) + 1) |>.

Lemma seq_rcvd_wf c : ctx_wf c -> ctx_wf (seq_rcvd c).
Proof.
  intros Hwf. pose proof (w64_range (rspSeqNum c + 1)). unfold seq_rcvd. wf_tac.
Qed.

Lemma wp_rd64le {S} b off (Q : Z -> S -> Prop) E s :
  0 <= off -> off + 8 <= len b ->
  (forall v, v = SPDM_Get64LE (sub_bytes b off 8) -> Q v s) -> wp (rd64le b off) Q E s.
Proof. intros ? ? HQ. unfold rd64le. wp_go. by apply HQ. Qed.

Definition hdr_size_of (c : WOLFSPDM_CTX) : Z := if wolfSPDM_IsTcgMode c then 14 else 8.

Lemma header_wp enc c (Q : Z * Z * Z -> WOLFSPDM_CTX -> Prop) (E : Z -> WOLFSPDM_CTX -> Prop) :
  is_bytes enc ->
  (forall n, 0 <= n <= decrypted_size ->
     hdr_size_of c + n + WOLFSPDM_AEAD_TAG_SIZE <= len enc ->
     SPDM_Get32LE (sub_bytes enc 0 4) = c.(sessionId) ->
     Q (hdr_size_of c, n, c.(rspSeqNum)) c) ->
  (forall rc, rc < 0 -> E rc c) ->
  wp (if wolfSPDM_IsTcgMode c then tcg_header enc else mctp_header enc) Q E c.
Proof.
  intros Hb HQ HE. unfold hdr_size_of in HQ.
  destruct (wolfSPDM_IsTcgMode c); unfold tcg_header, mctp_header;
    repeat first [ io_step | by apply HE
                 | apply wp_rd64le; [lia|lia|intros ? ?] ];
    try lia; cbv beta.
  - match goal with |- Q (_, _, ?s) _ => replace s with (rspSeqNum c) by lia end.
    apply HQ; [lia|lia|]. subst. lia.
  - match goal with |- Q (_, _, ?s) _ => replace s with (rspSeqNum c) by lia end.
    apply HQ; [lia|lia|]. subst. lia.
Qed.

Lemma open_payload_wp tcg appMsg d plainSz c (Q : bytes -> WOLFSPDM_CTX -> Prop)
    (E : Z -> WOLFSPDM_CTX -> Prop) :
  is_bytes d ->
  (forall p, is_bytes p -> len p <= plainSz -> (tcg = false -> appMsg = true -> 0 < len p) ->
     Q p c) ->
  (forall rc, rc = WOLFSPDM_E_BUFFER_SMALL \/ rc = WOLFSPDM_E_DECRYPT_FAIL -> E rc c) ->
  wp (open_payload tcg appMsg d plainSz) Q E c.
Proof.
  intros Hd HQ HE. unfold open_payload. io_step. io_step; [apply HE; by left|].
  io_step. io_step. destruct tcg.
  - io_go; [apply HE; by left|lia..|].
    apply HQ; [by apply is_bytes_sub|rewrite len_sub_bytes; lia|done].
  - io_go; try (apply HE; by (left + right)); destruct appMsg; try lia;
      (apply HQ; [by apply is_bytes_sub|rewrite len_sub_bytes; lia|]);
      intros; rewrite len_sub_bytes; lia || done.
Qed.

(** A record is accepted only under the session's identifier and the expected
    sequence number; the number advances exactly when the tag verified. *)
Lemma DecryptRecord_wp appMsg enc plainSz c (Q : bytes -> WOLFSPDM_CTX -> Prop)
    (E : Z -> WOLFSPDM_CTX -> Prop) :
  ctx_wf c -> is_bytes enc ->
  (forall p, is_bytes p -> len p <= plainSz ->
     (wolfSPDM_IsTcgMode c = false -> appMsg = true -> 0 < len p) -> Q p (seq_rcvd c)) ->
  (forall rc c', rc < 0 -> c' = c \/ c' = seq_rcvd c -> E rc c') ->
  wp (wolfSPDM_DecryptRecord appMsg enc plainSz) Q E c.
Proof.
  intros Hwf Hb HQ HE. unfold wolfSPDM_DecryptRecord. do 2 io_step.
  io_step. apply header_wp; [done| |intros; apply HE; auto].
  intros n Hn Hlen _. assert (8 <= hdr_size_of c) by (unfold hdr_size_of; case_match; lia).
  io_step; io_step. io_step; io_step. io_step; io_step.
  io_step; io_step; [|apply HE; auto; done].
  io_step; io_step; [|apply HE; auto; done]. io_step; io_step.
  match goal with Hd : wc_AesGcmDecrypt _ _ _ _ _ = Some _ |- _ =>
    destruct (gcm_dec_size _ _ _ _ _ _ Hd) as [_ Hbd] end.
  apply open_payload_wp; [done|done|].
  intros rc [-> | ->]; apply HE; auto; done.
Qed.

(** [c'] is the other end of the direction [c] sends on. *)
Record receives_from (c c' : WOLFSPDM_CTX) : Prop := {
  rf_mode : wolfSPDM_IsTcgMode c' = wolfSPDM_IsTcgMode c;
  rf_id : c'.(sessionId) = c.(sessionId);
  rf_key : c'.(rspDataKey) = c.(reqDataKey);
  rf_iv : c'.(rspDataIv) = c.(reqDataIv);
  rf_seq : c'.(rspSeqNum) = c.(reqSeqNum)
}.

Lemma len_rec_plain tcg appMsg plain rnd :
  len rnd < 16 ->
  2 + len plain <= len (rec_plain tcg appMsg plain rnd) <= 18 + len plain.
Proof.
  intros. pose proof (len_nonneg rnd). unfold rec_plain.
  destruct tcg, appMsg; rewrite !len_app; change (len (SPDM_Set16LE _)) with 2;
    rewrite ?len_cons; lia.
Qed.

(** Reading the payload of a record's plaintext gives the message back. *)
Lemma open_rec_plain {appMsg} tcg plain rnd n c :
  len plain <= WOLFSPDM_MAX_MSG_SIZE -> len plain <= n ->
  (tcg = false -> appMsg = true -> 0 < len plain) ->
  open_payload tcg appMsg (rec_plain tcg appMsg plain rnd) n c = Ok plain c.
Proof.
  intros Hm Hn Happ. pose proof record_fits. pose proof (len_nonneg plain).
  pose proof (len_nonneg rnd).
  unfold open_payload, rd16le. run.
  assert (forall p q, 0 <= len p < 2 ^ 16 ->
    (len (SPDM_Set16LE (len p) ++ p ++ q) <? 2) = false /\
    rd_sub (SPDM_Set16LE (len p) ++ p ++ q) 0 2 c = Ok (SPDM_Set16LE (len p)) c /\
    rd_sub (SPDM_Set16LE (len p) ++ p ++ q) 2 (len p) c = Ok p c /\
    len (SPDM_Set16LE (len p) ++ p ++ q) = 2 + len p + len q) as Hrd.
  { intros p q Hp. pose proof (len_nonneg q).
    assert (len (SPDM_Set16LE (len p) ++ p ++ q) = 2 + len p + len q) as Hl
      by (rewrite !len_app; change (len (SPDM_Set16LE _)) with 2; lia).
    split_and!; [lia| | |done].
    - rewrite rd_sub_run by lia. done.
    - rewrite rd_sub_run by lia. by rewrite sub_bytes_skip, sub_bytes_app_l. }
  unfold rec_plain. destruct tcg.
  - destruct (Hrd plain rnd ltac:(lia)) as (R1 & R2 & R3 & R4). rewrite R1. run. rewrite R2. run.
    rewrite Get16LE_Set16LE by lia. rewrite R4.
    replace (_ || _) with false by lia. apply R3.
  - destruct appMsg.
    + destruct (Hrd plain [] ltac:(lia)) as (R1 & R2 & R3 & R4). rewrite !app_nil_r in *.
      rewrite len_nil in R4.
      rewrite R1. run. rewrite R2. run. rewrite Get16LE_Set16LE by lia. rewrite R4.
      specialize (Happ eq_refl eq_refl).
      replace (_ || _ || _) with false by lia. run. unfold rd. rewrite R4.
      replace (_ && _) with true by lia. run. rewrite Z.sub_0_r. apply R3.
    + set (p := MCTP_MESSAGE_TYPE_SPDM :: plain).
      assert (len p = 1 + len plain) as Hp by (unfold p; by rewrite len_cons).
      destruct (Hrd p [] ltac:(lia)) as (R1 & R2 & R3 & R4). rewrite !app_nil_r in *.
      rewrite len_nil in R4.
      rewrite R1. run. rewrite R2. run. rewrite Get16LE_Set16LE by lia. rewrite R4.
      replace (_ || _ || _) with false by lia. run. unfold rd. rewrite R4.
      replace (_ && _) with true by lia. run.
      change (nth (Z.to_nat 2) (SPDM_Set16LE (len p) ++ p) 0) with MCTP_MESSAGE_TYPE_SPDM.
      rewrite Z.eqb_refl. run. rewrite rd_sub_run by lia. f_equal. rewrite Hp.
      replace (1 + len plain - 1) with (len plain) by lia.
      change (sub_bytes (SPDM_Set16LE (1 + len plain) ++ p) (2 + 1) (len plain))
        with (sub_bytes plain 0 (len plain)). by apply sub_bytes_all.
Qed.

(** The header checks pass on a record of the peer. *)
Lemma header_of_record c c' n body :
  ctx_wf c -> receives_from c c' ->
  (wolfSPDM_IsTcgMode c = false -> c.(reqSeqNum) <= 0xFFFF) ->
  0 <= n <= 18 + WOLFSPDM_MAX_MSG_SIZE -> len body = n + WOLFSPDM_AEAD_TAG_SIZE ->
  (if wolfSPDM_IsTcgMode c' then tcg_header (rec_hdr c n ++ body)
   else mctp_header (rec_hdr c n ++ body)) c' = Ok (hdr_size_of c, n, c.(reqSeqNum)) c'.
Proof.
  intros Hwf [Hm Hid Hk Hiv Hseq] Hs Hn Hb. pose proof record_fits.
  pose proof (wf_bounds _ Hwf) as Hbd. unfold bounds_ok in Hbd.
  assert (len (rec_hdr c n ++ body) = hdr_size_of c + n + WOLFSPDM_AEAD_TAG_SIZE) as Hl
    by (rewrite len_app, len_rec_hdr; unfold hdr_size_of; lia).
  unfold hdr_size_of in *. rewrite Hm. destruct (wolfSPDM_IsTcgMode c) eqn:Ht.
  - unfold tcg_header, rd32le, rd64le, rd16le. run. rewrite Hl.
    replace (_ <? _) with false by lia. rewrite !rd_sub_run by (rewrite ?Hl; lia). run.
    revert Hl. unfold rec_hdr. rewrite Ht. intros Hl.
    match goal with |- context [sub_bytes ?b 0 4] =>
      change (sub_bytes b 0 4) with (SPDM_Set32LE (sessionId c));
      change (sub_bytes b 4 8) with (SPDM_Set64LE (reqSeqNum c));
      change (sub_bytes b 12 2) with (SPDM_Set16LE (n + WOLFSPDM_AEAD_TAG_SIZE)) end.
    rewrite Get32LE_Set32LE, Get64LE_Set64LE, Get16LE_Set16LE by lia.
    rewrite Hid, Hseq, !Z.eqb_refl. run.
    replace (_ || _) with false by lia. run.
    replace (n + WOLFSPDM_AEAD_TAG_SIZE - WOLFSPDM_AEAD_TAG_SIZE) with n by lia.
    replace (n >? decrypted_size) with false; [done|].
    unfold decrypted_size, WOLFSPDM_XFER_MSG_SIZE, WOLFSPDM_SECURED_PAD. lia.
  - unfold mctp_header, rd32le, rd16le. run. rewrite Hl.
    replace (_ <? _) with false by lia. rewrite !rd_sub_run by (rewrite ?Hl; lia). run.
    revert Hl. unfold rec_hdr. rewrite Ht. intros Hl. specialize (Hs eq_refl).
    match goal with |- context [sub_bytes ?b 0 4] =>
      change (sub_bytes b 0 4) with (SPDM_Set32LE (sessionId c));
      change (sub_bytes b 4 2) with (SPDM_Set16LE (reqSeqNum c));
      change (sub_bytes b 6 2) with (SPDM_Set16LE (n + WOLFSPDM_AEAD_TAG_SIZE)) end.
    rewrite Get32LE_Set32LE, !Get16LE_Set16LE by lia.
    rewrite Hid, Hseq, !Z.eqb_refl. run.
    replace (_ || _) with false by lia. run.
    replace (n + WOLFSPDM_AEAD_TAG_SIZE - WOLFSPDM_AEAD_TAG_SIZE) with n by lia.
    replace (n >? decrypted_size) with false; [done|].
    unfold decrypted_size, WOLFSPDM_XFER_MSG_SIZE, WOLFSPDM_SECURED_PAD. lia.
Qed.

Lemma decrypt_record `{!GcmRoundTrip} appMsg plain rec n c c' :
  ctx_wf c -> receives_from c c' -> is_record appMsg c plain rec ->
  len plain <= WOLFSPDM_MAX_MSG_SIZE -> len plain <= n ->
  (wolfSPDM_IsTcgMode c = false -> appMsg = true -> 0 < len plain) ->
  wolfSPDM_DecryptRecord appMsg rec n c' = Ok plain (seq_rcvd c').
Proof.
  intros Hwf Hrf (rnd & aes & cipher & tag & Hrec) Hm Hn Happ. cbv zeta in Hrec.
  set (p := rec_plain (wolfSPDM_IsTcgMode c) appMsg plain rnd) in *.
  destruct Hrec as (Hrnd & Hkey & Henc & -> & Hs).
  pose proof (len_rec_plain (wolfSPDM_IsTcgMode c) appMsg plain rnd Hrnd) as Hlp. fold p in Hlp.
  pose proof (len_nonneg plain).
  destruct (gcm_enc_size _ _ _ _ _ _ Henc) as (Hc & Ht & _). pose proof Hrf as [Hmode Hid Hk Hiv Hseq].
  assert (len (cipher ++ tag) = len p + WOLFSPDM_AEAD_TAG_SIZE) as Hb by (rewrite len_app; lia).
  assert (len (rec_hdr c (len p)) = hdr_size_of c) as Hh by apply len_rec_hdr.
  assert (8 <= hdr_size_of c) by (unfold hdr_size_of; case_match; lia).
  unfold wolfSPDM_DecryptRecord. run.
  rewrite (header_of_record c c') by (done || lia). run.
  rewrite !rd_sub_run by (rewrite ?len_app; lia). run.
  rewrite sub_bytes_app_l by done. rewrite sub_bytes_app_mid by (done || lia).
  rewrite app_assoc, sub_bytes_app_r by (rewrite ?len_app; lia).
  rewrite Hk, Hiv, Hkey. run. rewrite (gcm_dec_enc _ _ _ _ _ _ Henc). run.
  fold (seq_rcvd c'). rewrite Hmode. apply open_rec_plain; done.
Qed.

(** C5: a message sent through the record layer arrives unchanged: whatever
    record [wolfSPDM_EncryptRecord] produces for it, the peer with the mirrored
    keys, identifier and sequence number decrypts it to exactly that message,
    in both bindings, and both ends advance to the same next number. *)
Theorem record_round_trip `{!GcmRoundTrip} appMsg plain encSz n rec c c1 c' :
  ctx_wf c -> receives_from c c' -> len plain <= n ->
  (wolfSPDM_IsTcgMode c = false -> appMsg = true -> 0 < len plain) ->
  wolfSPDM_EncryptRecord appMsg plain encSz c = Ok rec c1 ->
  wolfSPDM_DecryptRecord appMsg rec n c' = Ok plain (seq_rcvd c') /\
  receives_from c1 (seq_rcvd c').
Proof.
  intros Hwf Hrf Hn Happ Henc.
  eapply wp_ok in Henc; [|apply (EncryptRecord_wp _ _ _ _ (fun rec c1 =>
    len plain <= WOLFSPDM_MAX_MSG_SIZE /\ is_record appMsg c plain rec /\
    exists c2, rng_step c c2 /\ c1 = seq_sent c2) (fun _ _ => True)); eauto].
  destruct Henc as (Hm & Hrec & c2 & Hs & ->). split; [by eapply decrypt_record|].
  destruct Hrf as [? ? ? ? Hseq].
  destruct Hs as [-> | [r ->]]; split; try done; unfold seq_rcvd, seq_sent, set_rng; ctx_simpl;
    by rewrite Hseq.
Qed.


Lemma header_seq enc c c2 hdr : c2.(sessionId) = c.(sessionId) ->
  c2.(rspSeqNum) <> c.(rspSeqNum) ->
  (tcg_header enc c = Ok hdr c -> tcg_header enc c2 = Err WOLFSPDM_E_SEQUENCE c2) /\
  (mctp_header enc c = Ok hdr c -> mctp_header enc c2 = Err WOLFSPDM_E_SEQUENCE c2).
Proof.
  intros Hid Hseq. split; unfold tcg_header, mctp_header, rd32le, rd64le, rd16le, rd_sub; run;
    rewrite Hid;
    repeat (match goal with
            | |- context [if ?b then _ else _] => destruct b eqn:?; run; try done end);
    exfalso; lia.
Qed.

Lemma header_state enc c hdr c1 :
  (if wolfSPDM_IsTcgMode c then tcg_header enc else mctp_header enc) c = Ok hdr c1 -> c1 = c.
Proof.
  destruct (wolfSPDM_IsTcgMode c); unfold tcg_header, mctp_header, rd32le, rd64le, rd16le, rd_sub;
    run; repeat (match goal with
            | |- context [if ?b then _ else _] => destruct b eqn:?; run; try done end);
    by intros [= _ ->].
Qed.

(** A header that was accepted is refused under any other sequence number. *)
Lemma replay_refused appMsg enc n p c c1 appMsg' m c2 :
  wolfSPDM_DecryptRecord appMsg enc n c = Ok p c1 ->
  wolfSPDM_IsTcgMode c2 = wolfSPDM_IsTcgMode c -> c2.(sessionId) = c.(sessionId) ->
  c2.(rspSeqNum) <> c.(rspSeqNum) ->
  wolfSPDM_DecryptRecord appMsg' enc m c2 = Err WOLFSPDM_E_SEQUENCE c2.
Proof.
  intros Hd Hm Hid Hseq. unfold wolfSPDM_DecryptRecord in *.
  apply bind_ok in Hd as (? & ? & [= <- <-] & Hd). cbv beta zeta in Hd.
  apply bind_ok in Hd as ([[h k] s] & c' & Hh & _). pose proof (header_state _ _ _ _ Hh) as ->.
  destruct (header_seq enc c c2 (h, k, s) Hid Hseq) as [Ht Hp].
  run. rewrite Hm. destruct (wolfSPDM_IsTcgMode c); [by rewrite (Ht Hh)|by rewrite (Hp Hh)].
Qed.

(** *** Histories *)

(** A record operation on a context. *)
Inductive rec_op :=
| op_encrypt (appMsg : bool) (plain : bytes) (encSz : Z)
| op_decrypt (appMsg : bool) (enc : bytes) (plainSz : Z).

Definition op_ok (o : rec_op) : Prop :=
  match o with op_encrypt _ _ _ => True | op_decrypt _ enc _ => is_bytes enc end.

(** The records that an operation emits, and the context after it, whether it
    succeeds or fails. *)
Definition op_run (o : rec_op) (c : WOLFSPDM_CTX) : option (list bytes * WOLFSPDM_CTX) :=
  match o with
  | op_encrypt a p n =>
      match wolfSPDM_EncryptRecord a p n c with
      | Ok rec c' => Some ([rec], c') | Err _ c' => Some ([], c') | Ub => None
      end
  | op_decrypt a e n =>
      match wolfSPDM_DecryptRecord a e n c with
      | Ok _ c' => Some ([], c') | Err _ c' => Some ([], c') | Ub => None
      end
  end.

Fixpoint history (ops : list rec_op) (c : WOLFSPDM_CTX) : option (list bytes * WOLFSPDM_CTX) :=
  match ops with
  | [] => Some ([], c)
  | o :: ops' =>
      '(recs, c1) ← op_run o c; '(recs', c2) ← history ops' c1; Some (recs ++ recs', c2)
  end.

(** [rec] is the AES-GCM encryption, under the send key of [c] and [iv], of some
    plaintext with the header as the AAD. *)
Definition sealed_under (c : WOLFSPDM_CTX) (iv rec : bytes) : Prop :=
  exists aes hdr p cipher tag, aes_key c.(reqDataKey) = Some aes /\
    wc_AesGcmEncrypt aes p iv hdr = Some (cipher, tag) /\
    rec = hdr ++ cipher ++ tag /\ len hdr = hdr_size_of c.

(** What an operation does: a record is sealed under the counter of its moment,
    which it uses up; the receive counter moves by a decryption alone. *)
Definition op_effect (c : WOLFSPDM_CTX) (recs : list bytes) (c' : WOLFSPDM_CTX) : Prop :=
  ctx_wf c' /\ (wolfSPDM_IsTcgMode c', c'.(sessionId), c'.(reqDataKey), c'.(reqDataIv)) =
    (wolfSPDM_IsTcgMode c, c.(sessionId), c.(reqDataKey), c.(reqDataIv)) /\
  (c'.(rspSeqNum) = c.(rspSeqNum) \/ c'.(rspSeqNum) = w64 (c.(rspSeqNum) + 1)) /\
  (recs = [] /\ c'.(reqSeqNum) = c.(reqSeqNum) \/
   c'.(reqSeqNum) = w64 (c.(reqSeqNum) + 1) /\
   exists rec, recs = [rec] /\ sealed_under c (wolfSPDM_BuildIV c.(reqDataIv) c.(reqSeqNum)) rec).

Lemma op_run_effect o c : ctx_wf c -> op_ok o ->
  exists recs c', op_run o c = Some (recs, c') /\ op_effect c recs c'.
Proof.
  intros Hwf Ho. destruct o as [a p n|a e n]; cbn [op_run].
  - assert (wp (wolfSPDM_EncryptRecord a p n) (fun rec c' => op_effect c [rec] c')
      (fun _ c' => op_effect c [] c') c) as He.
    { apply EncryptRecord_wp; [done| |].
      - intros rec c' Hs (rnd & aes & cipher & tag & Hrec) _ _. cbv zeta in Hrec.
        destruct Hrec as (_ & Hk & Henc & -> & _). split; [by eapply seq_sent_wf, rng_step_wf|].
        split; [by destruct Hs as [-> | [r ->]]|]. split; [left; by destruct Hs as [-> | [r ->]]|].
        right. split; [by destruct Hs as [-> | [r ->]]|]. eexists. split; [done|].
        do 5 eexists. split_and!; [done|done|done|by rewrite len_rec_hdr].
      - intros rc c' _ Hs. split; [by eapply rng_step_wf|].
        destruct Hs as [-> | [r ->]]; (split; [done|]); (split; [by left|]); by left. }
    unfold wp in He. destruct (wolfSPDM_EncryptRecord a p n c); [by eauto..|done].
  - assert (wp (wolfSPDM_DecryptRecord a e n) (fun _ c' => op_effect c [] c')
      (fun _ c' => op_effect c [] c') c) as Hd.
    { assert (op_effect c [] c /\ op_effect c [] (seq_rcvd c)) as [? ?].
      { split; (split; [by auto using seq_rcvd_wf|]); (split; [done|]); split; by (left + right). }
      apply DecryptRecord_wp; [done|done|done|]. by intros ? ? _ [-> | ->]. }
    unfold wp in Hd. destruct (wolfSPDM_DecryptRecord a e n c); [by eauto..|done].
Qed.

Lemma op_effect_sealed c recs c' iv rec : op_effect c recs c' -> sealed_under c' iv rec -> sealed_under c iv rec.
Proof.
  intros (_ & [= Hm _ Hk _] & _) (aes & hdr & p & ci & tag & ? & ? & ? & Hh). exists aes, hdr, p, ci, tag.
  unfold hdr_size_of in *. rewrite <- Hm, <- Hk. done.
Qed.

(** The receive counter over a history. *)
Lemma history_received ops c : ctx_wf c -> Forall op_ok ops ->
  c.(rspSeqNum) + Z.of_nat (length ops) < 2 ^ 64 ->
  exists recs c', history ops c = Some (recs, c') /\
    (wolfSPDM_IsTcgMode c', c'.(sessionId)) = (wolfSPDM_IsTcgMode c, c.(sessionId)) /\
    c.(rspSeqNum) <= c'.(rspSeqNum) <= c.(rspSeqNum) + Z.of_nat (length ops).
Proof.
  revert c. induction ops as [|o ops IH]; intros c Hwf Hops Hb.
  { exists [], c. split_and!; [done|done|cbn; lia..]. }
  inversion Hops as [|? ? Ho Hops']; subst. cbn [length history] in *.
  destruct (op_run_effect o c Hwf Ho) as (r1 & c1 & -> & Hwf1 & [= Hm Hid _ _] & Hr & _). cbn.
  pose proof (wf_bounds _ Hwf) as Hbd. unfold bounds_ok in Hbd. rewrite w64_id in Hr by lia.
  destruct (IH c1 Hwf1 Hops' ltac:(lia)) as (r2 & c2 & -> & [= Hm2 Hid2] & Hr2). cbn.
  exists (r1 ++ r2), c2. split_and!; [done|congruence|lia..].
Qed.

(** The records of a history are sealed under the send counters in order. *)
Lemma history_sealed ops c : ctx_wf c -> Forall op_ok ops ->
  c.(reqSeqNum) + Z.of_nat (length ops) < 2 ^ 64 ->
  exists recs c', history ops c = Some (recs, c') /\
    c'.(reqSeqNum) = c.(reqSeqNum) + Z.of_nat (length recs) /\ (length recs <= length ops)%nat /\
    Forall2 (sealed_under c) (wolfSPDM_BuildIV c.(reqDataIv) <$> seqZ c.(reqSeqNum) (Z.of_nat (length recs))) recs.
Proof.
  revert c. induction ops as [|o ops IH]; intros c Hwf Hops Hb.
  { exists [], c. split_and!; [done|cbn; lia|done|constructor]. }
  inversion Hops as [|? ? Ho Hops']; subst. cbn [length history] in *.
  destruct (op_run_effect o c Hwf Ho) as (r1 & c1 & -> & Hef). cbn.
  pose proof Hef as (Hwf1 & [= _ _ _ Hiv] & _ & Hq).
  pose proof (wf_bounds _ Hwf) as Hbd. unfold bounds_ok in Hbd. rewrite w64_id in Hq by lia.
  destruct (IH c1 Hwf1 Hops') as (r2 & c2 & -> & Hq2 & Hl2 & Hs2); [destruct Hq as [[_ ?]|[? _]]; lia|]. cbn.
  exists (r1 ++ r2), c2. split; [done|]. rewrite Hiv in Hs2.
  assert (Forall2 (sealed_under c) (wolfSPDM_BuildIV (reqDataIv c) <$> seqZ (reqSeqNum c1) (Z.of_nat (length r2))) r2) as Hs3
    by (eapply Forall2_impl; [|exact Hs2]; intros; by eapply op_effect_sealed).
  destruct Hq as [[-> Hq]|(Hq & rec & -> & Hs)]; rewrite Hq in *.
  - split_and!; [done|cbn; lia|done].
  - rewrite length_app. change (length [rec]) with 1%nat. replace (Z.of_nat (1 + length r2)) with (1 + Z.of_nat (length r2)) by lia. split_and!; [lia|cbn; lia|].
    rewrite seqZ_cons by lia.
    replace (Z.pred (1 + Z.of_nat (length r2))) with (Z.of_nat (length r2)) by lia. by constructor.
Qed.

(** C35: a record that was accepted once is never accepted again: after any
    history of encryptions and decryptions that follows on the same context,
    whatever they return, it is rejected with a sequence error before any
    decryption and the context does not change, as long as the 64-bit counter
    does not run out. *)
Theorem replay_rejected appMsg enc n p c c1 ops recs c2 appMsg' m :
  ctx_wf c -> is_bytes enc -> Forall op_ok ops ->
  c.(rspSeqNum) + 1 + Z.of_nat (length ops) < 2 ^ 64 ->
  wolfSPDM_DecryptRecord appMsg enc n c = Ok p c1 -> history ops c1 = Some (recs, c2) ->
  wolfSPDM_DecryptRecord appMsg' enc m c2 = Err WOLFSPDM_E_SEQUENCE c2.
Proof.
  intros Hwf Hb Hops Hmax Hd Hh. pose proof Hd as Hc1.
  eapply wp_ok in Hc1; [|apply (DecryptRecord_wp _ _ _ _ (fun _ c1 => c1 = seq_rcvd c) (fun _ _ => True)); auto].
  cbv beta in Hc1.
  pose proof (wf_bounds _ Hwf) as Hbd. unfold bounds_ok in Hbd.
  assert (c1.(rspSeqNum) = c.(rspSeqNum) + 1) as Hs
    by (rewrite Hc1; unfold seq_rcvd; ctx_simpl; apply w64_id; lia).
  destruct (history_received ops c1) as (r & c' & Hh' & [= Hm Hid] & Hr);
    [subst; by apply seq_rcvd_wf|done|lia|].
  rewrite Hh in Hh'. injection Hh' as <- <-.
  apply (replay_refused appMsg enc n p c c1); [done|by rewrite Hm; subst|by rewrite Hid; subst|lia].
Qed.

(** C36: no AES-GCM nonce is used twice under a key: any history of encryptions
    and decryptions on one context, in any order and with any failures, is
    defined, and its records are the AES-GCM encryptions under pairwise
    distinct IVs, the base IV with the consecutive values of the send counter,
    as long as the 64-bit counter does not run out. *)
Theorem nonces_never_repeat ops c : ctx_wf c -> Forall op_ok ops ->
  c.(reqSeqNum) + Z.of_nat (length ops) < 2 ^ 64 ->
  exists recs c', history ops c = Some (recs, c') /\ c'.(reqSeqNum) = c.(reqSeqNum) + Z.of_nat (length recs) /\
    let ivs := wolfSPDM_BuildIV c.(reqDataIv) <$> seqZ c.(reqSeqNum) (Z.of_nat (length recs)) in
    NoDup ivs /\ Forall2 (sealed_under c) ivs recs.
Proof.
  intros Hwf Ho Hb. destruct (history_sealed ops c Hwf Ho Hb) as (recs & c' & Hh & Hq & Hl & Hs).
  exists recs, c'. split; [done|]. split; [done|]. cbv zeta. split; [|done].
  pose proof (wf_bounds _ Hwf) as Hbd. unfold bounds_ok in Hbd.
  pose proof (wf_sizes _ Hwf) as Hsz. unfold sizes_ok in Hsz.
  apply NoDup_fmap_2_strong; [|apply NoDup_seqZ].
  intros i j Hi%elem_of_seqZ Hj%elem_of_seqZ Heq.
  apply wolfSPDM_BuildIV_inj in Heq; [done|lia..].
Qed.

(** C37: the MCTP binding's 16-bit sequence number never wraps: past 0xFFFF
    every encryption fails with a sequence error and changes nothing, and no
    record is accepted any more. *)
Theorem mctp_sequence_exhausted appMsg plain encSz enc n c :
  wolfSPDM_IsTcgMode c = false -> 0xFFFF < c.(reqSeqNum) -> 0xFFFF < c.(rspSeqNum) ->
  len plain <= WOLFSPDM_MAX_MSG_SIZE ->
  wolfSPDM_EncryptRecord appMsg plain encSz c = Err WOLFSPDM_E_SEQUENCE c /\
  (forall p c', wolfSPDM_DecryptRecord appMsg enc n c <> Ok p c').
Proof.
  intros Hm Hs Hr Hl. split.
  - unfold wolfSPDM_EncryptRecord, WOLFSPDM_XFER_MSG_SIZE. run.
    replace (len plain >? WOLFSPDM_MAX_MSG_SIZE) with false by lia. run. rewrite Hm.
    unfold mctp_plain. run. by replace (reqSeqNum c >? 65535) with true by lia.
  - intros p c' Hd. unfold wolfSPDM_DecryptRecord in Hd.
    apply bind_ok in Hd as (? & ? & [= <- <-] & Hd). cbv beta zeta in Hd. rewrite Hm in Hd.
    apply bind_ok in Hd as (? & ? & Hh & _). revert Hh.
    unfold mctp_header, rd32le, rd16le, rd_sub. run.
    repeat (match goal with
            | |- context [if ?b then _ else _] => destruct b eqn:?; run; try done end).
    match goal with Hx : negb (SPDM_Get16LE ?q =? rspSeqNum c) = false |- _ =>
      assert (0 <= SPDM_Get16LE q < 2 ^ 16) by apply w16_range end. lia.
Qed.
End RecordLemmas.
