(* ===== verification/Msg.v ===== *)
(** * SPDM messages of the requester: src/spdm_msg.c *)
From Stdlib Require Import ZArith Lia String.
From stdpp Require Import base tactics list numbers.
From S2P Require Import Prelude Types Bytes Crypt Context Transcript Kdf CryptoOps Transport.

(** ** Error responses *)

Definition wolfSPDM_CheckError (buf : bytes) : option Z :=
  if len buf <? 4 then None
  else if at_ buf 1 =? SPDM_ERROR then Some (at_ buf 2) else None.

Section Msg.
Context `{WolfCrypt} `{Config}.
Notation CM := (M WOLFSPDM_CTX).

(** The macro of spdm_internal.h. *)
Definition SPDM_CHECK_RESPONSE (buf : bytes) (expected fallbackErr : Z) : CM unit :=
  let* code := rd buf 1 in
  if negb (code =? expected) then
    match wolfSPDM_CheckError buf with
    | Some ec => upd (fun c => c <| lastPeerErrorCode := w8 ec |>) ;;;
                 fail WOLFSPDM_E_PEER_ERROR
    | None => fail fallbackErr
    end
  else ret tt.

(** ** GET_VERSION and the four-byte messages *)

Definition wolfSPDM_BuildGetVersion {S} (bufSz : Z) : M S bytes :=
  check (bufSz <? 4) WOLFSPDM_E_BUFFER_SMALL ;;;
  ret [SPDM_VERSION_10; SPDM_GET_VERSION; 0x00; 0x00].

Definition wolfSPDM_BuildSimpleMsg (msgCode bufSz : Z) : CM bytes :=
  SPDM_CHECK_BUILD_ARGS bufSz 4 ;;;
  let* ctx := @get WOLFSPDM_CTX in
  ret [ctx.(spdmVersion); msgCode; 0x00; 0x00].

(** One entry per step; [i] is the entry index. *)
Fixpoint version_scan {St} (buf : bytes) (maxVer : Z) (entries : nat) (i highestVersion : Z)
    : M St Z :=
  match entries with
  | O => ret highestVersion
  | S entries' =>
      let* ver := rd buf (6 + i * 2 + 1) in
      version_scan buf maxVer entries' (i + 1)
        (if (ver >=? WOLFSPDM_MIN_SPDM_VERSION) && (ver <=? maxVer) && (ver >? highestVersion)
         then ver else highestVersion)
  end.

Definition wolfSPDM_ParseVersion (buf : bytes) : CM unit :=
  SPDM_CHECK_PARSE_OR_ERROR_ARGS buf 6 ;;;
  SPDM_CHECK_RESPONSE buf SPDM_VERSION WOLFSPDM_E_VERSION_MISMATCH ;;;
  let* n5 := rd buf 5 in
  let* entryCount := (if n5 =? 0 then rd buf 4 else ret n5) in
  check (6 + entryCount * 2 >? len buf) WOLFSPDM_E_VERSION_MISMATCH ;;;
  let* ctx := @get WOLFSPDM_CTX in
  let maxVer := if negb (ctx.(maxVersion) =? 0) then ctx.(maxVersion)
                else WOLFSPDM_MAX_SPDM_VERSION in
  let* highestVersion := version_scan buf maxVer (Z.to_nat entryCount) 0 0 in
  check (highestVersion =? 0) WOLFSPDM_E_VERSION_MISMATCH ;;;
  upd (fun c => c <| spdmVersion := highestVersion |> <| state := WOLFSPDM_STATE_VERSION |>).

(** ** KEY_EXCHANGE *)

Definition WOLFSPDM_KEYEX_FIXED_SZ : Z := 40 + 2 * WOLFSPDM_ECC_KEY_SIZE.

Definition kexOpaqueStd : bytes :=
  [0x14; 0x00; 0x01; 0x00; 0x00; 0x00; 0x00; 0x00; 0x09; 0x00; 0x01; 0x01;
   0x03; 0x00; 0x10; 0x00; 0x11; 0x00; 0x12; 0x00; 0x00; 0x00].
Definition kexOpaqueNuvoton : bytes :=
  [0x0c; 0x00; 0x00; 0x00; 0x05; 0x00; 0x01; 0x01; 0x01; 0x00; 0x10; 0x00; 0x00; 0x00].
Definition kexOpaqueNations : bytes := [0x00; 0x00].
Definition kexOpaqueTcg : bytes :=
  [0x10; 0x00; 0x01; 0x00; 0x00; 0x00; 0x00; 0x00; 0x05; 0x00; 0x01; 0x01; 0x01; 0x00; 0x10;
   0x00; 0x00; 0x00].

Definition wolfSPDM_KeyExOpaque (ctx : WOLFSPDM_CTX) : bytes :=
  if ctx.(mode) =? WOLFSPDM_MODE_NATIONS then kexOpaqueNations
  else if ctx.(mode) =? WOLFSPDM_MODE_NUVOTON then kexOpaqueNuvoton
  else if ctx.(mode) =? WOLFSPDM_MODE_TCG then kexOpaqueTcg
  else kexOpaqueStd.

Definition wolfSPDM_BuildKeyExchange (bufSz : Z) : CM bytes :=
  let* ctx := @get WOLFSPDM_CTX in
  let opaque := wolfSPDM_KeyExOpaque ctx in
  let useKem := negb (ctx.(kemAlgSel) =? 0) && negb (wolfSPDM_IsTcgMode ctx) in
  SPDM_CHECK_BUILD_ARGS bufSz (WOLFSPDM_KEYEX_FIXED_SZ + len opaque -
    (if useKem then WOLFSPDM_ECC_POINT_SIZE else 0)) ;;;
  let hdr := [ctx.(spdmVersion); SPDM_KEY_EXCHANGE; 0x00;
              if wolfSPDM_IsTcgMode ctx then 0xFF else ctx.(currentSlotId);
              w8 (Z.land ctx.(reqSessionId) 0xFF);
              w8 (Z.land (Z.shiftr ctx.(reqSessionId) 8) 0xFF); 0x00; 0x00] in
  let* rnd := wolfSPDM_GetRandom WOLFSPDM_RANDOM_SIZE in
  let offset := 8 + WOLFSPDM_RANDOM_SIZE in
  let* ex :=
    (if useKem then wolfSPDM_GenerateMlKemKey (bufSz - offset - len opaque)
     else
       wolfSPDM_GenerateEphemeralKey ;;;
       let* (x, y) := wolfSPDM_ExportEphemeralPubKey WOLFSPDM_ECC_KEY_SIZE WOLFSPDM_ECC_KEY_SIZE in
       ret (x ++ y)) in
  ret (hdr ++ rnd ++ ex ++ opaque).

(** ** Signing input *)

(** "dmtf-spdm-v1.2.*" with the version's digits *)
Definition spdm_prefix (spdmVersion : Z) : bytes :=
  let majorVer := w8 (0x30 + Z.land (Z.shiftr spdmVersion 4) 0xF) in
  let minorVer := w8 (0x30 + Z.land spdmVersion 0xF) in
  str "dmtf-spdm-v" ++ [majorVer] ++ str "." ++ [minorVer] ++ str ".*".

Definition wolfSPDM_BuildSignedMsg {S} (spdmVersion : Z) (contextStr inputDigest : bytes)
    : M S bytes :=
  check (len contextStr >? 36) WOLFSPDM_E_INVALID_ARG ;;;
  let* digest := rd_sub inputDigest 0 WOLFSPDM_HASH_SIZE in
  ret (spdm_prefix spdmVersion ++ spdm_prefix spdmVersion ++ spdm_prefix spdmVersion ++
       spdm_prefix spdmVersion ++ zeros (36 - len contextStr) ++ contextStr ++ digest).

Definition wolfSPDM_BuildSignedHash {S} (spdmVersion : Z) (contextStr inputDigest : bytes)
    : M S bytes :=
  let* signMsg := wolfSPDM_BuildSignedMsg spdmVersion contextStr inputDigest in
  wolfSPDM_Sha384Hash signMsg [] [].

Definition wolfSPDM_VerifyRspSig (contextStr messageHash sig : bytes) : CM unit :=
  let* ctx := @get WOLFSPDM_CTX in
  check (negb ctx.(flags).(hasRspPubKey)) WOLFSPDM_E_BAD_STATE ;;;
  check (negb (len sig =? wolfSPDM_SigSize ctx)) WOLFSPDM_E_BAD_SIGNATURE ;;;
  if negb (wolfSPDM_RspMlDsaLevel ctx =? 0) then
    let* signMsg := wolfSPDM_BuildSignedMsg ctx.(spdmVersion) contextStr messageHash in
    let* pub := rd_sub ctx.(rspPubKey) 0 ctx.(rspPubKeyLen) in
    wolfSPDM_MlDsaVerify (wolfSPDM_RspMlDsaLevel ctx) pub contextStr signMsg sig
  else
    let* signHash := wolfSPDM_BuildSignedHash ctx.(spdmVersion) contextStr messageHash in
    wolfSPDM_VerifySignature signHash sig.

(** ** KEY_EXCHANGE_RSP *)

Definition kex_context : bytes := str "responder-key_exchange_rsp signing".

(** Size of the responder's exchange data. *)
Definition kex_data_size : CM Z :=
  let* ctx := @get WOLFSPDM_CTX in
  if ctx.(flags).(ephemeralKeyInit) && ctx.(flags).(ephemeralIsKem) then
    let* k := eph_kem_key in
    lift_opt WOLFSPDM_E_CRYPTO_FAIL (wc_MlKemKey_CipherTextSize k)
  else ret WOLFSPDM_ECC_POINT_SIZE.

Definition wolfSPDM_ParseKeyExchangeRsp (buf : bytes) : CM unit :=
  SPDM_CHECK_PARSE_OR_ERROR_ARGS buf 140 ;;;
  SPDM_CHECK_RESPONSE buf SPDM_KEY_EXCHANGE_RSP WOLFSPDM_E_KEY_EXCHANGE ;;;
  let* mutAuth := rd buf 6 in
  let* reqSlot := rd buf 7 in
  let* ctx := @get WOLFSPDM_CTX in
  check (negb (wolfSPDM_IsTcgMode ctx) && negb (mutAuth =? 0)) WOLFSPDM_E_KEY_EXCHANGE ;;;
  let* exSz := kex_data_size in
  let sigSz := wolfSPDM_SigSize ctx in
  let opaqueOff := 40 + exSz in
  check (len buf <? opaqueOff + 2) WOLFSPDM_E_BUFFER_SMALL ;;;
  let* opaqueLen := rd16le buf opaqueOff in
  let sigOffset := opaqueOff + 2 + opaqueLen in
  check (len buf <? sigOffset + sigSz + WOLFSPDM_HASH_SIZE) WOLFSPDM_E_BUFFER_SMALL ;;;
  let* partial := rd_sub buf 0 sigOffset in
  let* signature := rd_sub buf sigOffset sigSz in
  let* rspVerifyData := rd_sub buf (sigOffset + sigSz) WOLFSPDM_HASH_SIZE in
  wolfSPDM_TranscriptAdd partial ;;;
  let* th1SigHash := wolfSPDM_TranscriptHash in
  wolfSPDM_VerifyRspSig kex_context th1SigHash signature ;;;
  wolfSPDM_TranscriptAdd signature ;;;
  (if ctx.(flags).(ephemeralIsKem) then
     let* ct := rd_sub buf 40 exSz in wolfSPDM_MlKemDecapsulate ct
   else
     let* x := rd_sub buf 40 WOLFSPDM_ECC_KEY_SIZE in
     let* y := rd_sub buf (40 + WOLFSPDM_ECC_KEY_SIZE) WOLFSPDM_ECC_KEY_SIZE in
     wolfSPDM_ComputeSharedSecret x y) ;;;
  let* h := wolfSPDM_TranscriptHash in
  upd (fun c => c <| th1 := h |>) ;;;
  wolfSPDM_DeriveHandshakeKeys h ;;;
  let* c := @get WOLFSPDM_CTX in
  let* expectedHmac := wolfSPDM_ComputeVerifyData c.(rspFinishedKey) c.(th1) in
  check (negb (wolfSPDM_ConstCompare expectedHmac rspVerifyData WOLFSPDM_HASH_SIZE =? 0))
    WOLFSPDM_E_BAD_HMAC ;;;
  wolfSPDM_TranscriptAdd rspVerifyData ;;;
  let* rspId := rd16le buf 4 in
  upd (fun c => c <| rspSessionId := rspId |>
    <| sessionId := Z.lor c.(reqSessionId) (w32 (Z.shiftl rspId 16)) |>
    <| mutAuthRequested := mutAuth |> <| reqSlotIdParam := reqSlot |>
    <| state := WOLFSPDM_STATE_KEY_EX |>).

(** ** FINISH *)

Definition finish_context : bytes := str "requester-finish signing".

Definition wolfSPDM_BuildFinish (bufSz : Z) : CM bytes :=
  let* ctx := @get WOLFSPDM_CTX in
  let mutualAuth := negb (Z.land ctx.(mutAuthRequested) 0x01 =? 0) in
  check (mutualAuth && negb ctx.(flags).(hasReqKeyPair)) WOLFSPDM_E_BAD_STATE ;;;
  let minSz := 4 + WOLFSPDM_HASH_SIZE +
    (if ctx.(spdmVersion) >=? SPDM_VERSION_14 then 2 else 0) +
    (if mutualAuth then WOLFSPDM_ECC_POINT_SIZE else 0) in
  check (bufSz <? minSz) WOLFSPDM_E_BUFFER_SMALL ;;;
  let hdr := [ctx.(spdmVersion); SPDM_FINISH; if mutualAuth then 0x01 else 0x00;
              if mutualAuth then 0xFF else 0x00] ++
             (if ctx.(spdmVersion) >=? SPDM_VERSION_14 then [0x00; 0x00] else []) in
  when (mutualAuth && (ctx.(reqPubKeyTPMTLen) >? 0))
    (let* pub := rd_sub ctx.(reqPubKeyTPMT) 0 ctx.(reqPubKeyTPMTLen) in
     let* cmHash := wolfSPDM_Sha384Hash pub [] [] in
     wolfSPDM_TranscriptAdd cmHash) ;;;
  wolfSPDM_TranscriptAdd hdr ;;;
  let* th2Hash := wolfSPDM_TranscriptHash in
  upd (fun c => c <| th2 := th2Hash |>) ;;;
  let* (sig, thHash) :=
    (if mutualAuth then
       let* signMsgHash := wolfSPDM_BuildSignedHash ctx.(spdmVersion) finish_context th2Hash in
       let* signature := wolfSPDM_SignHash signMsgHash WOLFSPDM_ECC_POINT_SIZE in
       wolfSPDM_TranscriptAdd signature ;;;
       let* h := wolfSPDM_TranscriptHash in
       ret (signature, h)
     else ret ([], th2Hash)) in
  let* verifyData := wolfSPDM_ComputeVerifyData ctx.(reqFinishedKey) thHash in
  wolfSPDM_TranscriptAdd verifyData ;;;
  ret (hdr ++ sig ++ verifyData).

Definition wolfSPDM_ParseFinishRsp (buf : bytes) : CM unit :=
  SPDM_CHECK_PARSE_ARGS buf 4 ;;;
  let* code := rd buf 1 in
  if code =? SPDM_FINISH_RSP then
    let* ctx := @get WOLFSPDM_CTX in
    let* rspMsgLen :=
      (if ctx.(spdmVersion) >=? SPDM_VERSION_14 then
         check (len buf <? 6) WOLFSPDM_E_BUFFER_SMALL ;;;
         let* opaqueLen := rd16le buf 4 in
         check (opaqueLen >? WOLFSPDM_FINISH_OPAQUE_MAX) WOLFSPDM_E_INVALID_ARG ;;;
         check (len buf <? 4 + 2 + opaqueLen) WOLFSPDM_E_BUFFER_SMALL ;;;
         ret (4 + 2 + opaqueLen)
       else ret 4) in
    let* msg := rd_sub buf 0 rspMsgLen in
    wolfSPDM_TranscriptAdd msg ;;;
    upd (fun c => c <| state := WOLFSPDM_STATE_FINISH |>)
  else if code =? SPDM_ERROR then fail WOLFSPDM_E_PEER_ERROR
  else fail WOLFSPDM_E_BAD_STATE.

(** ** Session control messages *)

Definition wolfSPDM_BuildEndSession (bufSz : Z) : CM bytes :=
  wolfSPDM_BuildSimpleMsg SPDM_END_SESSION bufSz.

Definition wolfSPDM_BuildHeartbeat (bufSz : Z) : CM bytes :=
  wolfSPDM_BuildSimpleMsg SPDM_HEARTBEAT bufSz.

Definition wolfSPDM_ParseHeartbeatAck (buf : bytes) : CM unit :=
  SPDM_CHECK_PARSE_ARGS buf 4 ;;;
  SPDM_CHECK_RESPONSE buf SPDM_HEARTBEAT_ACK WOLFSPDM_E_PEER_ERROR ;;;
  let* ctx := @get WOLFSPDM_CTX in
  let* v := rd buf 0 in
  check (negb (len buf =? 4) || negb (v =? ctx.(spdmVersion))) WOLFSPDM_E_PEER_ERROR.

(** The message and its tag. *)
Definition wolfSPDM_BuildKeyUpdate (bufSz operation : Z) : CM (bytes * Z) :=
  SPDM_CHECK_BUILD_ARGS bufSz 4 ;;;
  let* t := wolfSPDM_GetRandom 1 in
  let* tag := rd t 0 in
  let* ctx := @get WOLFSPDM_CTX in
  ret ([ctx.(spdmVersion); SPDM_KEY_UPDATE; operation; tag], tag).

Definition wolfSPDM_ParseKeyUpdateAck (buf : bytes) (operation tag : Z) : CM unit :=
  SPDM_CHECK_PARSE_ARGS buf 4 ;;;
  SPDM_CHECK_RESPONSE buf SPDM_KEY_UPDATE_ACK WOLFSPDM_E_KEY_UPDATE ;;;
  let* ctx := @get WOLFSPDM_CTX in
  let* v := rd buf 0 in
  let* op := rd buf 2 in
  let* tg := rd buf 3 in
  check (negb (len buf =? 4) || negb (v =? ctx.(spdmVersion)) || negb (op =? operation) ||
         negb (tg =? tag)) WOLFSPDM_E_KEY_UPDATE.

(** ** Lemmas: message checks *)

Lemma CHECK_PARSE_OR_ERROR_wp buf minSz c (Q : unit -> WOLFSPDM_CTX -> Prop)
    (E : Z -> WOLFSPDM_CTX -> Prop) :
  (4 <= len buf -> minSz <= len buf \/ (len buf < minSz /\ at_ buf 1 = SPDM_ERROR) -> Q tt c) ->
  (len buf < minSz \/ len buf < 4 -> E WOLFSPDM_E_INVALID_ARG c) ->
  wp (SPDM_CHECK_PARSE_OR_ERROR_ARGS buf minSz) Q E c.
Proof.
  intros HQ HE. unfold SPDM_CHECK_PARSE_OR_ERROR_ARGS, at_ in *. wp_go; try (apply HE; lia).
  - apply HQ; [lia|]. right. subst. change (Z.to_nat 1) with 1%nat in *. lia.
  - apply HQ; lia.
Qed.

(** The response is the expected one, or nothing but the peer error code has
    changed. *)
Definition err_step (c c' : WOLFSPDM_CTX) : Prop :=
  c' = c \/ exists e, c' = c <| lastPeerErrorCode := e |>.

Lemma err_step_wf c c' : err_step c c' -> ctx_wf c -> ctx_wf c'.
Proof. intros [->|[e ->]] Hwf; [done|]. wf_tac. Qed.

Lemma CHECK_RESPONSE_wp buf expected fallback c (Q : unit -> WOLFSPDM_CTX -> Prop)
    (E : Z -> WOLFSPDM_CTX -> Prop) :
  4 <= len buf ->
  (at_ buf 1 = expected -> Q tt c) ->
  (forall e, at_ buf 1 = SPDM_ERROR -> E WOLFSPDM_E_PEER_ERROR (c <| lastPeerErrorCode := e |>)) ->
  (at_ buf 1 <> expected -> at_ buf 1 <> SPDM_ERROR -> E fallback c) ->
  wp (SPDM_CHECK_RESPONSE buf expected fallback) Q E c.
Proof.
  intros Hl HQ HE1 HE2. unfold SPDM_CHECK_RESPONSE, wolfSPDM_CheckError, at_ in *.
  wp_step. wp_step. subst. cbv beta. change (Z.to_nat 1) with 1%nat.
  replace (len buf <? 4) with false by lia.
  destruct (Z.eqb_spec (nth 1 buf 0) expected) as [He|He]; cbn [negb].
  - wp_go. by apply HQ.
  - destruct (Z.eqb_spec (nth 1 buf 0) SPDM_ERROR) as [Hr|Hr]; wp_go; [by apply HE1|by apply HE2].
Qed.

(** ** Version selection *)

(** The versions a VERSION response offers. *)
Definition version_count (buf : bytes) : Z :=
  if at_ buf 5 =? 0 then at_ buf 4 else at_ buf 5.

Definition offered (buf : bytes) : list Z :=
  map (fun i => at_ buf (Z.to_nat (6 + Z.of_nat i * 2 + 1)))
    (seq 0 (Z.to_nat (version_count buf))).

Lemma offered_byte buf v : is_bytes buf -> In v (offered buf) -> is_byte v.
Proof. intros Hb (i & <- & _)%in_map_iff. by apply is_byte_at. Qed.

Definition max_version (c : WOLFSPDM_CTX) : Z :=
  if c.(maxVersion) =? 0 then WOLFSPDM_MAX_SPDM_VERSION else c.(maxVersion).

Definition mutual (maxVer v : Z) : Prop := WOLFSPDM_MIN_SPDM_VERSION <= v <= maxVer.

(** [v] is the highest mutual version of a list, or 0 when there is none. *)
Definition highest (maxVer : Z) (vs : list Z) (v : Z) : Prop :=
  (v = 0 \/ In v vs /\ mutual maxVer v) /\ (forall w, In w vs -> mutual maxVer w -> w <= v).

Lemma version_scan_wp {St} buf maxVer n i h (Q : Z -> St -> Prop) E s :
  0 <= i -> 6 + (i + Z.of_nat n) * 2 <= len buf -> 0 <= h ->
  (forall v, h <= v ->
     (v = h \/ exists j, (j < n)%nat /\ v = at_ buf (Z.to_nat (6 + (i + Z.of_nat j) * 2 + 1)) /\
        mutual maxVer v) ->
     (forall j, (j < n)%nat -> let w := at_ buf (Z.to_nat (6 + (i + Z.of_nat j) * 2 + 1)) in
        mutual maxVer w -> w <= v) -> Q v s) ->
  wp (version_scan buf maxVer n i h) Q E s.
Proof.
  revert i h. induction n as [|n IH]; intros i h Hi Hl Hh HQ; cbn [version_scan].
  - wp_step. apply HQ; [lia|by left|]. intros j Hj. lia.
  - wp_step. wp_step. cbv beta. subst.
    set (w := nth (Z.to_nat (6 + i * 2 + 1)) buf 0).
    assert (w = at_ buf (Z.to_nat (6 + (i + Z.of_nat 0) * 2 + 1))) as Hw
      by (unfold w, at_; do 2 f_equal; lia).
    set (h' := if _ : bool then w else h).
    assert (h <= h' /\ (h' = h \/ h' = w /\ mutual maxVer w) /\ (mutual maxVer w -> w <= h'))
      as (Hle & Hor & Hmx)
      by (unfold h', mutual; destruct (_ && _) eqn:Hc; split_and!; try lia; intros; lia).
    apply IH; [lia|lia|lia|]. intros v Hv Ho Hm. apply HQ; [lia| |].
    + destruct Ho as [-> | (j & Hj & -> & Hmu)].
      * destruct Hor as [-> | [-> Hmu]]; [by left|]. right. exists 0%nat. split; [lia|]. done.
      * right. exists (S j). split; [lia|]. split; [|done]. do 2 f_equal. lia.
    + intros [|j] Hj; cbv zeta.
      * rewrite <- Hw. intros Hmu. specialize (Hmx Hmu). lia.
      * intros Hmu. specialize (Hm j ltac:(lia)). cbv zeta in Hm.
        replace (i + Z.of_nat (S j)) with (i + 1 + Z.of_nat j) in * by lia. by apply Hm.
Qed.

Lemma ParseVersion_wp buf c (Q : unit -> WOLFSPDM_CTX -> Prop) (E : Z -> WOLFSPDM_CTX -> Prop) :
  is_bytes buf ->
  (forall v, v <> 0 -> highest (max_version c) (offered buf) v ->
     Q tt (c <| spdmVersion := v |> <| state := WOLFSPDM_STATE_VERSION |>)) ->
  (forall rc c', rc < 0 -> err_step c c' ->
     len buf < 6 + 2 * version_count buf \/ at_ buf 1 <> SPDM_VERSION \/
     (forall v, In v (offered buf) -> ~ mutual (max_version c) v) -> E rc c') ->
  wp (wolfSPDM_ParseVersion buf) Q E c.
Proof.
  intros Hb HQ HE. assert (err_step c c) as Hrefl by (by left).
  assert (0 <= version_count buf < 256) as Hn.
  { pose proof (is_byte_at _ 4 Hb). pose proof (is_byte_at _ 5 Hb). unfold version_count, is_byte in *.
    case_match; lia. }
  unfold wolfSPDM_ParseVersion. wp_step. apply CHECK_PARSE_OR_ERROR_wp.
  2: { intros ?. apply HE; [done|done|]. lia. }
  intros Hl Hor. wp_step. apply CHECK_RESPONSE_wp; [lia| | |].
  2: { intros e He. apply HE; [done|right; eauto|]. right; left. rewrite He. done. }
  2: { intros ? ?. apply HE; [done|done|]. by right; left. }
  intros Hcode.
  assert (6 <= len buf) as H6 by (destruct Hor as [?|[_ Hr]]; [done|by rewrite Hcode in Hr]).
  wp_step. wp_step. cbv beta. wp_step.
  assert (forall K, K (version_count buf) c -> wp (if x =? 0 then rd buf 4 else ret x) K E c) as Hcnt.
  { intros K HK. unfold version_count, at_ in HK. subst. change (Z.to_nat 5) with 5%nat.
    destruct (nth 5 buf 0 =? 0); [|by apply wp_ret].
    apply wp_rd; [lia|]. intros y ->. done. }
  apply Hcnt. cbv beta. wp_step; wp_step; [apply HE; [done|done|lia]|].
  wp_step. wp_step. cbv beta. wp_step.
  replace (if negb (maxVersion c =? 0) then maxVersion c else WOLFSPDM_MAX_SPDM_VERSION)
    with (max_version c) by (unfold max_version; by destruct (maxVersion c =? 0)).
  apply version_scan_wp; [lia|lia|lia|]. intros v Hv Ho Hm.
  assert (highest (max_version c) (offered buf) v) as Hhi.
  { unfold highest, offered. split.
    - destruct Ho as [-> | (j & Hj & -> & Hmu)]; [by left|]. right. split; [|done].
      apply in_map_iff. exists j. split; [done|]. apply in_seq. lia.
    - intros w (j & <- & Hj%in_seq)%in_map_iff Hmu. apply (Hm j); [lia|done]. }
  wp_step; wp_step; [|wp_step; apply HQ; [lia|done]].
  apply HE; [done|done|]. right; right. intros w Hw Hmu. destruct Hhi as [_ Hhi].
  specialize (Hhi w Hw Hmu). unfold mutual in Hmu. lia.
Qed.

(** ** The signing input *)

Definition signed_msg (spdmVersion : Z) (contextStr digest : bytes) : bytes :=
  spdm_prefix spdmVersion ++ spdm_prefix spdmVersion ++ spdm_prefix spdmVersion ++
  spdm_prefix spdmVersion ++ zeros (36 - len contextStr) ++ contextStr ++ digest.

Lemma BuildSignedMsg_run {S} v ctxStr digest (s : S) :
  len ctxStr <= 36 -> len digest = WOLFSPDM_HASH_SIZE ->
  wolfSPDM_BuildSignedMsg v ctxStr digest s = Ok (signed_msg v ctxStr digest) s.
Proof.
  intros Hc Hd. unfold wolfSPDM_BuildSignedMsg. run.
  replace (len ctxStr >? 36) with false by lia. run.
  rewrite rd_sub_run by lia. run. by rewrite sub_bytes_all by lia.
Qed.

Lemma BuildSignedHash_run {S} v ctxStr digest (s : S) :
  len ctxStr <= 36 -> len digest = WOLFSPDM_HASH_SIZE ->
  wolfSPDM_BuildSignedHash v ctxStr digest s =
  lift_opt WOLFSPDM_E_CRYPTO_FAIL (sha384 (signed_msg v ctxStr digest) [] []) s.
Proof.
  intros. unfold wolfSPDM_BuildSignedHash. unfold bind. rewrite BuildSignedMsg_run by done.
  apply Sha384Hash_run.
Qed.

(** The responder's key accepts [sig] for the digest in this context: the
    ML-DSA check on the signing input itself, or the P-384 check on its hash. *)
Definition rsp_sig_ok (c : WOLFSPDM_CTX) (ctxStr digest sig : bytes) : Prop :=
  c.(flags).(hasRspPubKey) = true /\ len sig = wolfSPDM_SigSize c /\
  let pub := sub_bytes c.(rspPubKey) 0 c.(rspPubKeyLen) in
  let msg := signed_msg c.(spdmVersion) ctxStr digest in
  if wolfSPDM_RspMlDsaLevel c =? 0 then
    exists x y h, wolfSPDM_ExtractEccPoint pub tt = Ok (x, y) tt /\
      sha384 msg [] [] = Some h /\ ecdsa_ok x y h sig
  else mldsa_ok (wolfSPDM_RspMlDsaLevel c) pub ctxStr msg sig.

Lemma VerifyRspSig_wp `{!CryptSizes} ctxStr digest sig c (Q : unit -> WOLFSPDM_CTX -> Prop)
    (E : Z -> WOLFSPDM_CTX -> Prop) :
  ctx_wf c -> len ctxStr <= 36 -> len digest = WOLFSPDM_HASH_SIZE ->
  (rsp_sig_ok c ctxStr digest sig -> Q tt c) -> (forall rc, rc < 0 -> E rc c) ->
  wp (wolfSPDM_VerifyRspSig ctxStr digest sig) Q E c.
Proof.
  intros Hwf Hc Hd HQ HE. wf_facts Hwf. unfold wolfSPDM_VerifyRspSig.
  do 2 (wp_step; cbv beta). wp_step; wp_step; [by apply HE|].
  wp_step; wp_step; [by apply HE|].
  assert (hasRspPubKey (flags c) = true) as Hk by (by destruct (hasRspPubKey _)).
  assert (len sig = wolfSPDM_SigSize c) as Hs by lia.
  unfold rsp_sig_ok in HQ. destruct (wolfSPDM_RspMlDsaLevel c =? 0) eqn:Hl; cbn [negb].
  - unfold wp, bind. rewrite BuildSignedHash_run by done.
    destruct (sha384 _ [] []) as [h|] eqn:Hh; [|by apply HE].
    apply VerifySignature_wp; [done| |done]. intros x y _ Hx Hv. apply HQ. split_and!; eauto 10.
  - unfold wp at 1, bind at 1. rewrite BuildSignedMsg_run by done.
    change (wp (let* pub := rd_sub c.(rspPubKey) 0 c.(rspPubKeyLen) in
      wolfSPDM_MlDsaVerify (wolfSPDM_RspMlDsaLevel c) pub ctxStr
        (signed_msg c.(spdmVersion) ctxStr digest) sig) Q E c).
    wp_step. wp_step. cbv beta. apply MlDsaVerify_wp; [auto|by apply HE..].
Qed.

(** ** KEY_EXCHANGE_RSP *)

(** What a key exchange leaves alone until it succeeds. *)
Definition session_view (c : WOLFSPDM_CTX) :=
  (c.(state), c.(sessionId), c.(rspSessionId), c.(reqSessionId), c.(mutAuthRequested),
   c.(reqSlotIdParam), (c.(reqSeqNum), c.(rspSeqNum)), c.(spdmVersion), c.(mode), c.(rspCaps),
   (c.(rspPubKey), c.(rspPubKeyLen), c.(flags).(hasRspPubKey), c.(pqcAsymSel))).

(** [view c] proves that an update of [c] keeps a view, by cases on [c]. *)
Ltac view c := destruct c; reflexivity.

Lemma view_tr_add c d : session_view (tr_add c d) = session_view c.
Proof. view c. Qed.
Lemma view_shared a n c : session_view (set_shared a n c) = session_view c.
Proof. view c. Qed.
Lemma view_clear_shared c : session_view (clear_shared c) = session_view c.
Proof. view c. Qed.
Lemma view_rng r c : session_view (set_rng r c) = session_view c.
Proof. view c. Qed.
Lemma view_install_hs k c : session_view (install_hs k c) = session_view c.
Proof. view c. Qed.
Lemma view_wipe_hs c : session_view (wipe_handshake_keys c) = session_view c.
Proof. view c. Qed.
Lemma view_hs h c : session_view (c <| handshakeSecret := h |>) = session_view c.
Proof. view c. Qed.
Lemma view_th1 h c : session_view (c <| th1 := h |>) = session_view c.
Proof. view c. Qed.
Lemma view_error e c : session_view (c <| lastPeerErrorCode := e |>) = session_view c.
Proof. view c. Qed.
Lemma tr_shared a n c : tr (set_shared a n c) = tr c.
Proof. view c. Qed.
Lemma tr_rng r c : tr (set_rng r c) = tr c.
Proof. view c. Qed.
Lemma tr_install_hs k c : tr (install_hs k c) = tr c.
Proof. view c. Qed.
Lemma tr_hs h c : tr (c <| handshakeSecret := h |>) = tr c.
Proof. view c. Qed.
Lemma tr_th1 h c : tr (c <| th1 := h |>) = tr c.
Proof. view c. Qed.
Lemma th1_install_hs k c : th1 (install_hs k c) = th1 c.
Proof. view c. Qed.
Lemma th1_hs h c : th1 (c <| handshakeSecret := h |>) = th1 c.
Proof. view c. Qed.
Lemma th1_set h c : th1 (c <| th1 := h |>) = h.
Proof. view c. Qed.
Lemma th1_tr_add c d : th1 (tr_add c d) = th1 c.
Proof. view c. Qed.
Lemma rspFin_tr_add c d : rspFinishedKey (tr_add c d) = rspFinishedKey c.
Proof. view c. Qed.
Hint Rewrite view_tr_add view_shared view_clear_shared view_rng view_install_hs view_wipe_hs
  view_hs view_th1 view_error tr_shared tr_rng tr_install_hs tr_hs tr_th1 th1_install_hs
  th1_hs th1_set th1_tr_add rspFin_tr_add : view.
Ltac views := autorewrite with view; try done.

Lemma kex_data_size_wp `{!CryptSizes} c (Q : Z -> WOLFSPDM_CTX -> Prop)
    (E : Z -> WOLFSPDM_CTX -> Prop) : ctx_wf c ->
  (forall n, 0 < n <= WOLFSPDM_MAX_KEX_DATA ->
     (c.(flags).(ephemeralIsKem) = false -> n = WOLFSPDM_ECC_POINT_SIZE) -> Q n c) ->
  (forall rc, rc < 0 -> E rc c) -> wp kex_data_size Q E c.
Proof.
  intros Hwf HQ HE. pose proof (wf_union _ Hwf) as Hu. unfold union_ok in Hu.
  unfold kex_data_size. do 2 (wp_step; cbv beta). wp_step.
  - apply andb_true_iff in Heqb as [Hi Hk]. wp_step. apply eph_kem_key_wp; [done..|].
    intros k Hkk. wp_step; [|by apply HE]. apply HQ; [by eapply kem_ct_size|by rewrite Hk].
  - wp_step. apply HQ; [vm_compute; split; congruence|done].
Qed.

(** The peer's exchange data yields a shared secret, or the context keeps
    everything but key material. *)
Definition kex_secret (c : WOLFSPDM_CTX) (buf : bytes) (exSz : Z) : CM unit :=
  if c.(flags).(ephemeralIsKem) then
    let* ct := rd_sub buf 40 exSz in wolfSPDM_MlKemDecapsulate ct
  else
    let* x := rd_sub buf 40 WOLFSPDM_ECC_KEY_SIZE in
    let* y := rd_sub buf (40 + WOLFSPDM_ECC_KEY_SIZE) WOLFSPDM_ECC_KEY_SIZE in
    wolfSPDM_ComputeSharedSecret x y.

Lemma kex_secret_wp `{!CryptSizes} c c0 buf exSz (Q : unit -> WOLFSPDM_CTX -> Prop)
    (E : Z -> WOLFSPDM_CTX -> Prop) : ctx_wf c ->
  0 <= exSz -> 40 + exSz <= len buf -> 40 + WOLFSPDM_ECC_POINT_SIZE <= len buf ->
  (forall c', ctx_wf c' -> session_view c' = session_view c -> tr c' = tr c -> Q tt c') ->
  (forall rc c', rc < 0 -> ctx_wf c' -> session_view c' = session_view c -> E rc c') ->
  wp (kex_secret c0 buf exSz) Q E c.
Proof.
  intros Hwf Hx0 Hx1 Hx2 HQ HE. unfold WOLFSPDM_ECC_POINT_SIZE in *.
  unfold kex_secret. wp_step.
  - wp_step. wp_step. apply MlKemDecapsulate_wp; [done| |].
    + intros a n Hw. apply HQ; [done|views..].
    + intros rc c' Hrc Hw [-> | ->]; apply HE; views.
  - wp_step. wp_step. cbv beta. wp_step. wp_step. apply ComputeSharedSecret_wp; [done| |].
    + intros r r' k pk ss _ _ _ a Hw. apply HQ; [done|views..].
    + intros rc c' Hrc Hw [-> | [-> | [r ->]]]; apply HE; views.
Qed.

(** The part after the signature: the secrets, the responder's verify data and
    the commit. *)
Definition kex_finish (c : WOLFSPDM_CTX) (buf : bytes) (exSz mutAuth reqSlot : Z)
    (rspVerifyData : bytes) : CM unit :=
  kex_secret c buf exSz ;;;
  let* h := wolfSPDM_TranscriptHash in
  upd (fun c => c <| th1 := h |>) ;;;
  wolfSPDM_DeriveHandshakeKeys h ;;;
  let* c := @get WOLFSPDM_CTX in
  let* expectedHmac := wolfSPDM_ComputeVerifyData c.(rspFinishedKey) c.(th1) in
  check (negb (wolfSPDM_ConstCompare expectedHmac rspVerifyData WOLFSPDM_HASH_SIZE =? 0))
    WOLFSPDM_E_BAD_HMAC ;;;
  wolfSPDM_TranscriptAdd rspVerifyData ;;;
  let* rspId := rd16le buf 4 in
  upd (fun c => c <| rspSessionId := rspId |>
    <| sessionId := Z.lor c.(reqSessionId) (w32 (Z.shiftl rspId 16)) |>
    <| mutAuthRequested := mutAuth |> <| reqSlotIdParam := reqSlot |>
    <| state := WOLFSPDM_STATE_KEY_EX |>).

(** The commit of a key exchange. *)
Definition kex_commit (mutAuth reqSlot rspId : Z) (c : WOLFSPDM_CTX) : WOLFSPDM_CTX :=
  c <| rspSessionId := rspId |>
    <| sessionId := Z.lor c.(reqSessionId) (w32 (Z.shiftl rspId 16)) |>
    <| mutAuthRequested := mutAuth |> <| reqSlotIdParam := reqSlot |>
    <| state := WOLFSPDM_STATE_KEY_EX |>.

Lemma session_id_range a b : 0 <= a < 2 ^ 16 -> 0 <= b < 2 ^ 16 ->
  0 <= Z.lor a (w32 (Z.shiftl b 16)) < 2 ^ 32 /\
  Z.lor a (w32 (Z.shiftl b 16)) = a + b * 2 ^ 16.
Proof.
  intros Ha Hb.
  assert (w32 (Z.shiftl b 16) = Z.shiftl b 16) as ->
    by (apply w32_id; rewrite Z.shiftl_mul_pow2; lia).
  rewrite lor_shiftl_add; lia.
Qed.

Lemma kex_commit_wf m q i c : 0 <= i < 2 ^ 16 -> ctx_wf c -> ctx_wf (kex_commit m q i c).
Proof.
  intros Hi Hwf. unfold kex_commit. wf_facts Hwf.
  destruct (session_id_range (reqSessionId c) i) as [? _]; [lia|done|]. wf_tac.
Qed.


(** What the responder has proved when its response is accepted. *)
Definition kex_accepted (c : WOLFSPDM_CTX) (buf : bytes) (c' : WOLFSPDM_CTX) : Prop :=
  exists off, let sigSz := wolfSPDM_SigSize c in
    let partial := sub_bytes buf 0 off in
    let sig := sub_bytes buf off sigSz in
    let vd := sub_bytes buf (off + sigSz) WOLFSPDM_HASH_SIZE in
    42 <= off /\ off + sigSz + WOLFSPDM_HASH_SIZE <= len buf /\
    (exists d, sha384 (tr c ++ partial) [] [] = Some d /\ rsp_sig_ok c kex_context d sig) /\
    sha384 (tr c ++ partial ++ sig) [] [] = Some c'.(th1) /\
    verify_data c'.(rspFinishedKey) c'.(th1) = Some vd /\
    tr c' = tr c ++ partial ++ sig ++ vd /\
    c'.(state) = WOLFSPDM_STATE_KEY_EX /\
    c'.(rspSessionId) = SPDM_Get16LE (sub_bytes buf 4 2) /\
    c'.(sessionId) = c.(reqSessionId) + c'.(rspSessionId) * 2 ^ 16 /\
    (wolfSPDM_IsTcgMode c = false -> c'.(mutAuthRequested) = 0) /\
    (c'.(reqSeqNum), c'.(rspSeqNum)) = (c.(reqSeqNum), c.(rspSeqNum)).

Lemma tr_ext c c' : c'.(transcript) = c.(transcript) -> c'.(transcriptLen) = c.(transcriptLen) ->
  tr c' = tr c.
Proof. unfold tr. by intros -> ->. Qed.

Context `{!CryptSizes} `{!TranscriptFits}.

Lemma kex_finish_wp c c0 buf exSz m q vd (Q : unit -> WOLFSPDM_CTX -> Prop)
    (E : Z -> WOLFSPDM_CTX -> Prop) : ctx_wf c -> is_bytes buf -> is_bytes vd ->
  0 <= exSz -> 40 + exSz <= len buf -> 40 + WOLFSPDM_ECC_POINT_SIZE <= len buf ->
  len vd = WOLFSPDM_HASH_SIZE ->
  (forall c1, ctx_wf c1 -> session_view c1 = session_view c -> tr c1 = tr c ++ vd ->
     sha384 (tr c) [] [] = Some c1.(th1) ->
     verify_data c1.(rspFinishedKey) c1.(th1) = Some vd ->
     let i := SPDM_Get16LE (sub_bytes buf 4 2) in
     ctx_wf (kex_commit m q i c1) -> Q tt (kex_commit m q i c1)) ->
  (forall rc c', rc < 0 -> ctx_wf c' -> session_view c' = session_view c -> E rc c') ->
  wp (kex_finish c0 buf exSz m q vd) Q E c.
Proof.
  intros Hwf Hb Hvb Hx0 Hx1 Hx2 Hvl HQ HE. unfold kex_finish, WOLFSPDM_ECC_POINT_SIZE in *.
  wp_step. apply kex_secret_wp; [done..| |done]. intros c1 Hwf1 Hv1 Ht1.
  wp_step. apply TranscriptHash_wp; [done| |by apply HE]. intros h Hh Hlen _.
  do 2 wp_step. cbv beta.
  wp_step. apply DeriveHandshakeKeys_wp; [wf_tac|done| |].
  2: { intros c' Hw [-> | [hs ->]]; apply HE; views. }
  intros hs k _ _ Hwf2. rewrite Ht1 in Hh.
  set (c2 := install_hs _ _) in *.
  assert (session_view c2 = session_view c /\ tr c2 = tr c /\ c2.(th1) = h) as (Hv2 & Ht2 & Hth)
    by (unfold c2; autorewrite with view; done).
  clearbody c2. do 2 (wp_step; cbv beta). wf_facts Hwf2.
  wp_step. apply ComputeVerifyData_wp; [lia|lia| |by apply HE]. intros d Hd Hdl Hdb.
  wp_step. wp_step; [by apply HE|]. wp_step.
  assert (d = vd) as ->.
  { assert (wolfSPDM_ConstCompare d vd WOLFSPDM_HASH_SIZE = 0) as Hcc by lia.
    apply wolfSPDM_ConstCompare_eq in Hcc; [|done|done|lia|lia|lia].
    by rewrite !sub_bytes_all in Hcc by done. }
  apply TranscriptAdd_wp; [done| |intros; by apply HE]. intros Hfit Hwf3.
  wp_step. apply wp_rd16le; [lia|lia|]. intros i -> Hi. wp_step.
  pose proof (kex_commit_wf m q (SPDM_Get16LE (sub_bytes buf 4 2)) _ Hi Hwf3) as Hwf4.
  apply (HQ (tr_add c2 vd)); [done|by views|by rewrite tr_tr_add, Ht2|by views; rewrite Hth| |done].
  by views.
Qed.

Lemma SigSize_pos c : 0 < wolfSPDM_SigSize c.
Proof. unfold wolfSPDM_SigSize. repeat case_match; reflexivity. Qed.

Lemma ParseKeyExchangeRsp_wp buf c (Q : unit -> WOLFSPDM_CTX -> Prop)
    (E : Z -> WOLFSPDM_CTX -> Prop) : ctx_wf c -> is_bytes buf ->
  (forall c', ctx_wf c' -> kex_accepted c buf c' -> Q tt c') ->
  (forall rc c', rc < 0 -> ctx_wf c' -> session_view c' = session_view c -> E rc c') ->
  wp (wolfSPDM_ParseKeyExchangeRsp buf) Q E c.
Proof.
  intros Hwf Hb HQ HE. unfold wolfSPDM_ParseKeyExchangeRsp.
  wp_step. apply CHECK_PARSE_OR_ERROR_wp; [|by intros; apply HE].
  intros Hl Hor. wp_step. apply CHECK_RESPONSE_wp; [lia| | |].
  2: { intros e _. apply HE; [done|by eapply err_step_wf; [right; eauto|]|done]. }
  2: { intros. by apply HE. }
  intros Hcode. assert (140 <= len buf) by (destruct Hor as [|[_ Hr]]; [done|by rewrite Hcode in Hr]).
  wp_step. apply wp_rd; [lia|]. intros m _. wp_step. apply wp_rd; [lia|]. intros q _.
  do 2 wp_step. cbv beta. wp_step; wp_step; [by apply HE|].
  assert (wolfSPDM_IsTcgMode c = false -> m = 0) as Hm
    by (intros Ht; match goal with Hx : negb _ && _ = false |- _ => rewrite Ht in Hx; cbn in Hx; lia end).
  wp_step. apply kex_data_size_wp; [done| |auto]. intros exSz Hex _.
  unfold WOLFSPDM_MAX_KEX_DATA in Hex. cbv zeta.
  wp_step; wp_step; [by apply HE|]. pose proof (SigSize_pos c).
  wp_step. apply wp_rd16le; [lia|lia|]. intros opq _ Hopq.
  set (off := 40 + exSz + 2 + opq). wp_step. wp_step; [by apply HE|].
  do 3 (wp_step; wp_step; cbv beta).
  set (partial := sub_bytes buf 0 off). set (sig := sub_bytes buf off _).
  set (vd := sub_bytes buf _ WOLFSPDM_HASH_SIZE).
  wp_step. apply TranscriptAdd_wp; [done| |intros; by apply HE]. intros Hf1 Hwf1.
  pose proof (tr_tr_add _ _ Hwf Hf1) as Ht1.
  wp_step. apply TranscriptHash_wp; [done| |by apply HE]. rewrite Ht1. intros d Hd Hdl _.
  wp_step. apply VerifyRspSig_wp; [done|done|done| |by intros; apply HE]. intros Hsig.
  wp_step. apply TranscriptAdd_wp; [done| |intros; by apply HE]. intros Hf2 Hwf2.
  pose proof (tr_tr_add _ _ Hwf1 Hf2) as Ht2. rewrite Ht1, <- app_assoc in Ht2.
  set (c2 := tr_add (tr_add c partial) sig) in *.
  assert (session_view c2 = session_view c) as Hv2 by (unfold c2; by views).
  assert (rsp_sig_ok c kex_context d sig) as Hsig'
    by (revert Hsig; unfold rsp_sig_ok, tr_add, wolfSPDM_SigSize, wolfSPDM_RspMlDsaLevel, wolfSPDM_IsTcgMode; ctx_simpl; done).
  clearbody c2. assert (len vd = WOLFSPDM_HASH_SIZE) as Hvl by (apply len_sub_bytes; lia).
  assert (sub_bytes buf 0 off ++ sig = partial ++ sig) as Hps by done.
  match goal with |- wp ?p Q E c2 => change p with (kex_finish c buf exSz m q vd) end.
  apply kex_finish_wp; [done|done|by apply is_bytes_sub|lia|lia|unfold WOLFSPDM_ECC_POINT_SIZE; lia
    |done| |].
  2: { intros rc c' Hrc Hw Hv. apply HE; [done|done|by rewrite Hv]. }
  intros c3 Hwf3 Hv3 Ht3 Hth Hvd i Hw. apply HQ; [done|]. exists off. cbv zeta.
  rewrite Hv2 in Hv3. rewrite Ht2 in Ht3, Hth.
  assert (0 <= i < 2 ^ 16) as Hi by apply w16_range.
  assert (reqSessionId c3 = reqSessionId c /\
    (reqSeqNum c3, rspSeqNum c3) = (reqSeqNum c, rspSeqNum c)) as [Hr Hs]
    by (unfold session_view in Hv3; injection Hv3; intros; split; congruence).
  wf_facts Hwf. destruct (session_id_range (reqSessionId c) i) as [_ Hid]; [lia|done|].
  assert (tr (kex_commit m q i c3) = tr c3) as -> by (destruct c3; reflexivity).
  unfold kex_commit; ctx_simpl. rewrite Hr, Hs, Ht3, <- !app_assoc.
  split_and!; try done; [lia|lia|eauto].
Qed.

(** ** Builders and the FINISH response *)

Lemma view_eph_step c c' : eph_step c c' -> session_view c' = session_view c.
Proof. intros (r & e & i & k & ->). view c. Qed.

Lemma tr_eph_step c c' : eph_step c c' -> tr c' = tr c.
Proof. intros (r & e & i & k & ->). view c. Qed.

Lemma eph_step_trans c1 c2 c3 : eph_step c1 c2 -> eph_step c2 c3 -> eph_step c1 c3.
Proof.
  intros (r & e & i & k & ->) (r' & e' & i' & k' & ->). exists r', e', i', k'. ctx_eq c1.
Qed.

Lemma len_KeyExOpaque c : 2 <= len (wolfSPDM_KeyExOpaque c) <= 22.
Proof. unfold wolfSPDM_KeyExOpaque. repeat case_match; vm_compute; split; discriminate. Qed.

(** [ex] is the public half of the ephemeral key that the context holds: the
    P-384 point, or the ML-KEM encapsulation key. *)
Definition kex_share (c : WOLFSPDM_CTX) (ex : bytes) : Prop :=
  match c.(ephemeral) with
  | eph_ecc k => exists x y, wc_ecc_export_public_raw k = Some (x, y) /\
      ex = wolfSPDM_LeftPadToSize x WOLFSPDM_ECC_KEY_SIZE ++ wolfSPDM_LeftPadToSize y WOLFSPDM_ECC_KEY_SIZE
  | eph_mlkem k => exists n, wc_MlKemKey_PublicKeySize k = Some n /\
      wc_MlKemKey_EncodePublicKey k n = Some ex
  | eph_none => False
  end.

(** [m] is a KEY_EXCHANGE request of the session of [c], with a fresh random and
    the public half of the ephemeral key made for it, which [c'] holds. *)
Definition kex_request (c : WOLFSPDM_CTX) (m : bytes) (c' : WOLFSPDM_CTX) : Prop :=
  exists rnd ex, len rnd = WOLFSPDM_RANDOM_SIZE /\ kex_share c' ex /\
    m = [c.(spdmVersion); SPDM_KEY_EXCHANGE; 0x00;
         if wolfSPDM_IsTcgMode c then 0xFF else c.(currentSlotId);
         w8 (Z.land c.(reqSessionId) 0xFF); w8 (Z.land (Z.shiftr c.(reqSessionId) 8) 0xFF);
         0x00; 0x00] ++ rnd ++ ex ++ wolfSPDM_KeyExOpaque c.

(** A KEY_EXCHANGE request fits its buffer and only renews the ephemeral key. *)
Lemma BuildKeyExchange_wp bufSz c (Q : bytes -> WOLFSPDM_CTX -> Prop)
    (E : Z -> WOLFSPDM_CTX -> Prop) : ctx_wf c ->
  (forall m c', len m <= bufSz -> kex_request c m c' -> ctx_wf c' -> eph_step c c' -> Q m c') ->
  (forall rc c', rc < 0 -> ctx_wf c' -> eph_step c c' -> E rc c') ->
  wp (wolfSPDM_BuildKeyExchange bufSz) Q E c.
Proof.
  intros Hwf HQ HE. pose proof (eph_step_refl c) as Hs0. pose proof (len_KeyExOpaque c).
  unfold wolfSPDM_BuildKeyExchange, SPDM_CHECK_BUILD_ARGS, WOLFSPDM_KEYEX_FIXED_SZ,
    WOLFSPDM_ECC_POINT_SIZE.
  do 2 wp_step. cbv beta zeta. wp_step; wp_step; [by apply HE|].
  wp_step. apply GetRandom_wp; [done|done| |by apply HE|].
  2: { intros r Hw. apply HE; [done|done|by apply eph_step_rng]. }
  intros r rnd Hl Hb Hwf1. pose proof (eph_step_rng _ _ r Hs0) as Hs1.
  revert Hwf1 Hs1. generalize (set_rng r c). intros c1 Hwf1 Hs1. wp_step. wp_step.
  - apply GenerateMlKemKey_wp; [done| |intros; apply HE; eauto using eph_step_trans].
    intros k sz ek c2 Hek Hsz Henc He Hwf2 Hs2. wp_step.
    apply HQ; [| |done|by eapply eph_step_trans].
    2: { exists rnd, ek. split_and!; [done|unfold kex_share; rewrite Hek; by exists sz|done]. }
    rewrite !len_app, Hl. autorewrite with blen. unfold WOLFSPDM_RANDOM_SIZE in *. lia.
  - wp_step. apply GenerateEphemeralKey_wp; [done| |].
    2: { intros rc c' [-> | ->] ? ?; apply HE; eauto using eph_step_trans; done. }
    intros c2 Hwf2 Hs2 _ _. wp_step.
    apply ExportEphemeralPubKey_wp; [done| |intros; apply HE; eauto using eph_step_trans].
    intros k x y Hek Hexp. destruct (ecc_pub_size _ _ _ Hexp) as (Hx & Hy & _). wp_step. wp_step.
    apply HQ; [| |done|by eapply eph_step_trans].
    2: { eexists rnd, _. split_and!; [done|unfold kex_share; rewrite Hek; by exists x, y|done]. }
    rewrite !len_app, Hl, !LeftPad_len by done. autorewrite with blen.
    unfold WOLFSPDM_RANDOM_SIZE in *. lia.
Qed.

(** A context up to what FINISH may change before it is answered: the
    transcript, TH2 and the generator. *)
Definition fin_core (c : WOLFSPDM_CTX) : WOLFSPDM_CTX :=
  c <| transcript := [] |> <| transcriptLen := 0 |> <| th2 := [] |> <| rng := None |>.

Lemma fin_tr_add c d : fin_core (tr_add c d) = fin_core c.
Proof. view c. Qed.
Lemma fin_rng r c : fin_core (set_rng r c) = fin_core c.
Proof. view c. Qed.
Lemma fin_th2 h c : fin_core (c <| th2 := h |>) = fin_core c.
Proof. view c. Qed.
Lemma tr_th2 h c : tr (c <| th2 := h |>) = tr c.
Proof. view c. Qed.
Lemma tr_set_rng r c : tr (set_rng r c) = tr c.
Proof. view c. Qed.
Lemma fin_view c c' : fin_core c' = fin_core c -> session_view c' = session_view c.
Proof.
  intros Hf. assert (forall x, session_view x = session_view (fin_core x)) as Hv by (by intros []).
  by rewrite Hv, Hf, <- Hv.
Qed.

(** FINISH as sent: the verify data is keyed by the requester's finished key
    over the transcript with the message so far; [cm] is the hash of the
    requester's public key, absorbed for mutual authentication only. *)
Definition finish_sent (c : WOLFSPDM_CTX) (m : bytes) (c' : WOLFSPDM_CTX) : Prop :=
  exists cm hdr sig vd th, m = hdr ++ sig ++ vd /\
    tr c' = tr c ++ cm ++ m /\
    sha384 (tr c ++ cm ++ hdr) [] [] = Some c'.(th2) /\
    sha384 (tr c ++ cm ++ hdr ++ sig) [] [] = Some th /\
    verify_data c.(reqFinishedKey) th = Some vd /\
    hdr = [c.(spdmVersion); SPDM_FINISH;
           if Z.land c.(mutAuthRequested) 1 =? 0 then 0x00 else 0x01;
           if Z.land c.(mutAuthRequested) 1 =? 0 then 0x00 else 0xFF] ++
          (if c.(spdmVersion) >=? SPDM_VERSION_14 then [0x00; 0x00] else []) /\
    (Z.land c.(mutAuthRequested) 1 = 0 -> cm = [] /\ sig = []) /\
    (Z.land c.(mutAuthRequested) 1 <> 0 ->
     c.(flags).(hasReqKeyPair) = true /\ len sig = WOLFSPDM_ECC_SIG_SIZE).

Lemma BuildFinish_wp bufSz c (Q : bytes -> WOLFSPDM_CTX -> Prop)
    (E : Z -> WOLFSPDM_CTX -> Prop) : ctx_wf c ->
  (forall m c', len m <= bufSz -> ctx_wf c' -> fin_core c' = fin_core c -> finish_sent c m c' ->
     Q m c') ->
  (forall rc c', rc < 0 -> ctx_wf c' -> fin_core c' = fin_core c -> E rc c') ->
  wp (wolfSPDM_BuildFinish bufSz) Q E c.
Proof.
  intros Hwf HQ HE. unfold wolfSPDM_BuildFinish. do 2 wp_step. cbv beta zeta.
  unfold finish_sent in HQ.
  set (mut := Z.land (mutAuthRequested c) 1 =? 0) in *.
  set (hdr := _ ++ (if spdmVersion c >=? SPDM_VERSION_14 then _ else _)).
  assert (len hdr = 4 + if spdmVersion c >=? SPDM_VERSION_14 then 2 else 0) as Hhdr
    by (unfold hdr; rewrite len_app, !len_cons, len_nil; by destruct (spdmVersion c >=? SPDM_VERSION_14)).
  assert (hdr = [c.(spdmVersion); SPDM_FINISH; if mut then 0x00 else 0x01; if mut then 0x00 else 0xFF] ++
    (if c.(spdmVersion) >=? SPDM_VERSION_14 then [0x00; 0x00] else [])) as Hhe
    by (unfold hdr; by destruct mut).
  clearbody hdr. wp_step; wp_step; [by apply HE|].
  match goal with Hx : negb mut && _ = false |- _ => rename Hx into Hkp end.
  wp_step; wp_step; [by apply HE|].
  wf_facts Hwf. wp_step.
  eapply (wp_mono _ (fun _ c1 => ctx_wf c1 /\ fin_core c1 = fin_core c /\
      exists cm, tr c1 = tr c ++ cm /\ (mut = true -> cm = [])) _
    (fun rc c1 => rc < 0 /\ ctx_wf c1 /\ fin_core c1 = fin_core c)).
  { apply wp_when; intros Hm.
    2: { split_and!; [done|done|]. exists []. by rewrite app_nil_r. }
    wp_step. wp_step. wp_step.
    apply Sha384Hash_wp; [|done]. intros h _ _ _.
    apply TranscriptAdd_wp; [done| |done]. intros Hf ?. split_and!; [done|by rewrite fin_tr_add|].
    exists h. split; [by apply tr_tr_add|]. intros Hmu. by rewrite Hmu in Hm. }
  2: { intros rc c' (? & ? & ?). by apply HE. }
  intros _ c1 (Hwf1 & Hv1 & cm & Ht1 & Hcm). wp_step.
  apply TranscriptAdd_wp; [done| |intros; by apply HE]. intros Hf2 Hwf2.
  assert (fin_core (tr_add c1 hdr) = fin_core c) as Hv2 by (by rewrite fin_tr_add).
  pose proof (tr_tr_add _ _ Hwf1 Hf2) as Ht2. rewrite Ht1 in Ht2.
  revert Hwf2 Hv2 Ht2. generalize (tr_add c1 hdr). intros c2 Hwf2 Hv2 Ht2. wp_step.
  apply TranscriptHash_wp; [done| |by apply HE]. intros h2 Hsh2 Hh2 _. do 2 wp_step. cbv beta.
  assert (fin_core (c2 <| th2 := h2 |>) = fin_core c) as Hv3 by (by rewrite fin_th2).
  assert (ctx_wf (c2 <| th2 := h2 |>)) as Hwf3 by wf_tac.
  pose proof (tr_th2 h2 c2) as Ht3. rewrite Ht2 in *.
  assert (th2 (c2 <| th2 := h2 |>) = h2) as Hth3 by done.
  revert Hwf3 Hv3 Ht3 Hth3. generalize (c2 <| th2 := h2 |>). intros c3 Hwf3 Hv3 Ht3 Hth3. wp_step.
  eapply (wp_mono _ (fun '(sig, h) c1 => (len sig = if mut then 0 else WOLFSPDM_ECC_SIG_SIZE) /\
      (mut = true -> sig = []) /\ tr c1 = ((tr c ++ cm) ++ hdr) ++ sig /\ th2 c1 = h2 /\
      sha384 (((tr c ++ cm) ++ hdr) ++ sig) [] [] = Some h /\
      len h = WOLFSPDM_HASH_SIZE /\ ctx_wf c1 /\ fin_core c1 = fin_core c) _
    (fun rc c1 => rc < 0 /\ ctx_wf c1 /\ fin_core c1 = fin_core c)).
  { destruct mut; cbn [negb]; [wp_step; rewrite app_nil_r; split_and!; done|]. wp_step. unfold wp at 1.
    rewrite BuildSignedHash_run by done. destruct (sha384 (signed_msg _ _ _) [] []) as [sh|]; [|done]. cbn.
    wp_step. apply SignHash_wp; [done| |].
    2: { intros rc c' Hrc Hw [-> | [r ->]]; [done|]. split_and!; [done|done|by rewrite fin_rng]. }
    intros sig r Hsl _ Hwf4.
    assert (fin_core (set_rng r c3) = fin_core c) as Hv4 by (by rewrite fin_rng).
    pose proof (tr_set_rng r c3) as Ht4. rewrite Ht3 in Ht4.
    assert (th2 (set_rng r c3) = h2) as Hth4 by done.
    revert Hwf4 Hv4 Ht4 Hth4. generalize (set_rng r c3). intros c4 Hwf4 Hv4 Ht4 Hth4. wp_step.
    apply TranscriptAdd_wp; [done| |done]. intros Hf5 Hwf5.
    pose proof (tr_tr_add _ _ Hwf4 Hf5) as Ht5. rewrite Ht4 in Ht5. wp_step.
    apply TranscriptHash_wp; [done| |]; [|split_and!; [done|done|by rewrite fin_tr_add]].
    intros h Hsh Hhl _. wp_step. rewrite Ht5 in Hsh.
    split_and!; done. }
  2: { intros rc c' (? & ? & ?). by apply HE. }
  intros [sig th] c4 (Hsl & Hse & Ht4 & Hth4 & Hsh & Hhl & Hwf4 & Hv4). wp_step.
  apply ComputeVerifyData_wp; [lia|lia| |by apply HE]. intros vd Hvd Hvl _. wp_step.
  apply TranscriptAdd_wp; [done| |intros; by apply HE]. intros Hf5 Hwf5. wp_step.
  apply HQ; [|done|by rewrite fin_tr_add|].
  - rewrite !len_app, Hsl, Hvl, Hhdr.
    unfold WOLFSPDM_ECC_POINT_SIZE, WOLFSPDM_ECC_SIG_SIZE in *. 
    destruct mut; cbn [negb] in *; destruct (spdmVersion c >=? SPDM_VERSION_14); lia.
  - exists cm, hdr, sig, vd, th. rewrite <- !app_assoc in *.
    rewrite (tr_tr_add _ _ Hwf4 Hf5), Ht4. rewrite <- !app_assoc.
    assert (th2 (tr_add c4 vd) = h2) as -> by done.
    split_and!; try done.
    + intros Hz. split; [apply Hcm|apply Hse]; unfold mut; lia.
    + intros Hz. assert (mut = false) as Hm by (unfold mut; lia). rewrite Hm in *.
      split; [|done]. cbn in Hkp. by destruct (hasReqKeyPair _).
Qed.

Lemma at_sub_0 b n i : Z.of_nat i < n -> at_ (sub_bytes b 0 n) i = at_ b i.
Proof.
  intros Hi. unfold at_, sub_bytes. rewrite drop_0.
  change (@take Z) with (@firstn Z). rewrite nth_firstn.
  by replace (i <? Z.to_nat n)%nat with true by lia.
Qed.

Lemma ParseFinishRsp_wp buf c (Q : unit -> WOLFSPDM_CTX -> Prop)
    (E : Z -> WOLFSPDM_CTX -> Prop) : ctx_wf c -> is_bytes buf ->
  (forall msg, at_ msg 1 = SPDM_FINISH_RSP -> tr (tr_add c msg) = tr c ++ msg ->
     ctx_wf ((tr_add c msg) <| state := WOLFSPDM_STATE_FINISH |>) ->
     Q tt ((tr_add c msg) <| state := WOLFSPDM_STATE_FINISH |>)) ->
  (forall rc, rc < 0 -> E rc c) ->
  wp (wolfSPDM_ParseFinishRsp buf) Q E c.
Proof.
  intros Hwf Hb HQ HE. unfold wolfSPDM_ParseFinishRsp, SPDM_CHECK_PARSE_ARGS.
  wp_step; wp_step; [by apply HE|]. wp_step. apply wp_rd; [lia|]. intros code ->.
  change (nth (Z.to_nat 1) buf 0) with (at_ buf 1).
  wp_step; [|wp_step; wp_step; by apply HE]. do 2 wp_step. cbv beta. wp_step.
  apply (wp_mono _ (fun n c1 => 4 <= n <= len buf /\ c1 = c) _ (fun rc c1 => rc < 0 /\ c1 = c)).
  { wp_go; try done; [apply wp_rd16le; [lia|lia|]|split; [lia|done]].
    intros v _ Hv. wp_go; try done. split; [lia|done]. }
  2: { intros rc c' [? ->]. by apply HE. }
  intros n c1 [Hn ->]. wp_step. wp_step. wp_step.
  apply TranscriptAdd_wp; [done| |intros; by apply HE]. intros Hf1 Hwf1. wp_step.
  apply HQ; [rewrite at_sub_0; lia|by apply tr_tr_add|]. wf_tac.
Qed.

(** ** Properties *)

(** C34: version negotiation picks the highest mutual version.  A VERSION
    response that is accepted sets [spdmVersion] to a version that the response
    offers, that lies between 1.2 and the configured maximum, and that no other
    such offered version exceeds; nothing else changes but the state.  It is
    rejected, with version and state unchanged, exactly when it is malformed or
    offers no mutual version. *)
Theorem parse_version_highest buf c :
  is_bytes buf ->
  match wolfSPDM_ParseVersion buf c with
  | Ok _ c' => exists v, mutual (max_version c) v /\ In v (offered buf) /\
      (forall w, In w (offered buf) -> mutual (max_version c) w -> w <= v) /\
      c' = c <| spdmVersion := v |> <| state := WOLFSPDM_STATE_VERSION |>
  | Err rc c' => rc < 0 /\ session_view c' = session_view c /\
      (len buf < 6 + 2 * version_count buf \/ at_ buf 1 <> SPDM_VERSION \/
       (forall v, In v (offered buf) -> ~ mutual (max_version c) v))
  | Ub => False
  end.
Proof.
  intros Hb. apply (ParseVersion_wp buf c
    (fun _ c' => exists v, mutual (max_version c) v /\ In v (offered buf) /\
      (forall w, In w (offered buf) -> mutual (max_version c) w -> w <= v) /\
      c' = c <| spdmVersion := v |> <| state := WOLFSPDM_STATE_VERSION |>)
    (fun rc c' => rc < 0 /\ session_view c' = session_view c /\
      (len buf < 6 + 2 * version_count buf \/ at_ buf 1 <> SPDM_VERSION \/
       (forall v, In v (offered buf) -> ~ mutual (max_version c) v)))); [done..| |].
  - intros v Hv [[?|[Hin Hmu]] Hhi]; [done|]. by exists v.
  - intros rc c' Hrc [-> | [e ->]] Hwhy; split_and!; views.
Qed.

(** C4: no key exchange is accepted unauthenticated.  If
    [wolfSPDM_ParseKeyExchangeRsp] succeeds, the configured responder key
    accepts the signature over the transcript up to it, the trailing verify
    data is the HMAC, under the derived responder finished key, of TH1 (the
    transcript with the signature), the transcript grows by exactly the three
    parts, and the session identifier is the requester's half and the half in
    the message.  On any failure the state, identifiers, sequence numbers,
    version and trusted key are those before the call, and no input makes the
    parser read outside the message. *)
Theorem kex_rsp_authenticated buf c :
  ctx_wf c -> is_bytes buf ->
  match wolfSPDM_ParseKeyExchangeRsp buf c with
  | Ok _ c' => ctx_wf c' /\ kex_accepted c buf c'
  | Err rc c' => rc < 0 /\ ctx_wf c' /\ session_view c' = session_view c
  | Ub => False
  end.
Proof. intros Hwf Hb. apply ParseKeyExchangeRsp_wp; auto. Qed.

(** Context strings are text: no zero byte. *)
Definition is_text (s : bytes) : Prop := Forall (fun b => b <> 0) s.

Lemma zeros_text_inj a b s t : 0 <= a -> 0 <= b -> is_text s -> is_text t ->
  zeros a ++ s = zeros b ++ t -> s = t.
Proof.
  intros Ha Hb. unfold zeros. rewrite <- (Z2Nat.id a), <- (Z2Nat.id b) by done.
  rewrite !Nat2Z.id. revert s t. generalize (Z.to_nat b). clear.
  induction (Z.to_nat a) as [|n IH]; intros [|m] s t Hs Ht; cbn [replicate app]; intros Heq; subst.
  - done.
  - inversion Hs; congruence.
  - inversion Ht; congruence.
  - injection Heq as Heq. eauto.
Qed.

Lemma len_spdm_prefix v : len (spdm_prefix v) = 16.
Proof. reflexivity. Qed.

(** What is signed determines what was meant.  The signing input is 148
    bytes (four 16-byte version prefixes, the right-aligned context string in a
    36-byte field, the digest), and two inputs that are equal have the same
    context string and the same digest: a signature made in one role or for one
    message cannot be presented for another. *)
Lemma signing_input_separates v v' ctxStr ctxStr' d d' (c : WOLFSPDM_CTX) :
  len ctxStr <= 36 -> len ctxStr' <= 36 -> is_text ctxStr -> is_text ctxStr' ->
  len d = WOLFSPDM_HASH_SIZE -> len d' = WOLFSPDM_HASH_SIZE ->
  exists m m', wolfSPDM_BuildSignedMsg v ctxStr d c = Ok m c /\
    wolfSPDM_BuildSignedMsg v' ctxStr' d' c = Ok m' c /\ len m = 148 /\ len m' = 148 /\
    (m = m' -> ctxStr = ctxStr' /\ d = d').
Proof.
  intros Hc Hc' Ht Ht' Hd Hd'. pose proof (len_nonneg ctxStr). pose proof (len_nonneg ctxStr').
  rewrite !BuildSignedMsg_run by done. exists (signed_msg v ctxStr d), (signed_msg v' ctxStr' d').
  assert (forall u s x, len s <= 36 -> len x = WOLFSPDM_HASH_SIZE -> len (signed_msg u s x) = 148)
    as Hl by (intros; unfold signed_msg; rewrite !len_app, !len_spdm_prefix, len_zeros; lia).
  split_and!; [done|done|by apply Hl|by apply Hl|]. unfold signed_msg. intros Heq.
  do 4 (apply app_len_inj in Heq as [_ Heq]; [|done]).
  rewrite !app_assoc in Heq. apply app_len_inj in Heq as [Hz ->].
  - split; [|done]. eapply zeros_text_inj; [| | | |exact Hz]; (done || lia).
  - rewrite !len_app, !len_zeros. lia.
Qed.
End Msg.
