(* ===== verification/Chunk.v ===== *)
(** * Chunked transfer and exchanges: src/spdm_chunk.c and
    wolfSPDM_SecuredExchange of src/spdm_secured.c

    The two transfer loops carry fuel; a loop that ran out of fuel would be
    [Ub], so the lemmas that exclude [Ub] prove that both loops end. *)
From Stdlib Require Import ZArith Lia.
From stdpp Require Import base tactics list numbers.
From S2P Require Import Prelude Types Bytes Crypt Context CryptoOps Transport Secured.

Section Chunk.
Context `{WolfCrypt} `{Config} {W : Type} `{!Transport W}.
Notation IOM := (M (WOLFSPDM_CTX * W)).

Definition wolfSPDM_ChunkSeqSz (ctx : WOLFSPDM_CTX) : Z :=
  if ctx.(spdmVersion) >=? SPDM_VERSION_14 then 4 else 2.

Definition wolfSPDM_ChunkSetSeq (ctx : WOLFSPDM_CTX) (seq : Z) : bytes :=
  if ctx.(spdmVersion) >=? SPDM_VERSION_14 then SPDM_Set32LE seq else SPDM_Set16LE (w16 seq).

Definition wolfSPDM_ChunkGetSeq (ctx : WOLFSPDM_CTX) (p : bytes) : Z :=
  if ctx.(spdmVersion) >=? SPDM_VERSION_14 then SPDM_Get32LE p else SPDM_Get16LE p.

Definition wolfSPDM_ChunkSeqOk (ctx : WOLFSPDM_CTX) (seq : Z) : bool :=
  (ctx.(spdmVersion) >=? SPDM_VERSION_14) || (seq <=? 0xFFFF).

(** Whether a response is an ERROR; its code is recorded. *)
Definition wolfSPDM_ChunkPeerError (msg : bytes) : IOM bool :=
  if (len msg >=? 4) && (at_ msg 1 =? SPDM_ERROR) then
    upd_ctx (fun c => c <| lastPeerErrorCode := at_ msg 2 |>) ;;; ret true
  else ret false.

Definition wolfSPDM_ChunkXfer (secured : bool) (req : bytes) (rspSz : Z) : IOM bytes :=
  if secured then wolfSPDM_SecuredXfer req rspSz else wolfSPDM_SendReceive req rspSz.

Definition wolfSPDM_ChunkCopyOut {S} (src : bytes) (cap : Z) : M S bytes :=
  check (len src >? cap) WOLFSPDM_E_BUFFER_SMALL ;;; ret src.

(** The CHUNK_SEND that carries the next [take] bytes. *)
Definition chunk_send_msg (ctx : WOLFSPDM_CTX) (handle seq reqSz sent take : Z) (req : bytes)
    : bytes :=
  [ctx.(spdmVersion); SPDM_CHUNK_SEND;
   if sent + take =? reqSz then SPDM_CHUNK_LAST_CHUNK else 0x00; handle] ++
  (wolfSPDM_ChunkSetSeq ctx seq ++ zeros (4 - wolfSPDM_ChunkSeqSz ctx)) ++
  SPDM_Set32LE take ++ (if seq =? 0 then SPDM_Set32LE reqSz else []) ++
  sub_bytes req sent take.

Fixpoint chunk_send_loop (fuel : nat) (secured : bool) (limit : Z) (req : bytes) (cap : Z)
    (handle sent seq : Z) : IOM bytes :=
  match fuel with
  | O => ub
  | S fuel' =>
      let* ctx := get_ctx in
      let reqSz := len req in
      let ackHdr := 4 + wolfSPDM_ChunkSeqSz ctx in
      check (negb (wolfSPDM_ChunkSeqOk ctx seq)) WOLFSPDM_E_CHUNK ;;;
      let hdr := if seq =? 0 then SPDM_CHUNK_FIRST_HDR_SZ else SPDM_CHUNK_HDR_SZ in
      let take0 := w32 (limit - hdr) in
      let take := if take0 >? reqSz - sent then reqSz - sent else take0 in
      fits (hdr + take) WOLFSPDM_DATA_TRANSFER_SIZE ;;;
      let msg := chunk_send_msg ctx handle seq reqSz sent take req in
      let sent := sent + take in
      let* ack := wolfSPDM_ChunkXfer secured msg WOLFSPDM_DATA_TRANSFER_SIZE in
      let ackSz := len ack in
      if (ackSz >=? 5) && (at_ ack 0 =? ctx.(spdmVersion)) && (at_ ack 1 =? SPDM_ERROR) &&
         (at_ ack 2 =? SPDM_ERROR_LARGE_RESPONSE) && (sent =? reqSz)
      then wolfSPDM_ChunkCopyOut ack cap
      else
        let* peerErr := wolfSPDM_ChunkPeerError ack in
        if peerErr : bool then fail WOLFSPDM_E_PEER_ERROR
        else if (ackSz <? ackHdr) || negb (at_ ack 0 =? ctx.(spdmVersion)) ||
                negb (at_ ack 1 =? SPDM_CHUNK_SEND_ACK) || negb (at_ ack 3 =? handle) ||
                negb (wolfSPDM_ChunkGetSeq ctx (drop 4 ack) =? seq)
        then fail WOLFSPDM_E_CHUNK
        else if negb (Z.land (at_ ack 2) SPDM_CHUNK_EARLY_ERROR =? 0) then
          let* body := rd_sub ack ackHdr (ackSz - ackHdr) in
          let* e := wolfSPDM_ChunkPeerError body in
          if e : bool then fail WOLFSPDM_E_PEER_ERROR else fail WOLFSPDM_E_CHUNK
        else if sent <? reqSz then
          check (negb (ackSz =? ackHdr)) WOLFSPDM_E_CHUNK ;;;
          chunk_send_loop fuel' secured limit req cap handle sent (w32 (seq + 1))
        else
          let* body := rd_sub ack ackHdr (ackSz - ackHdr) in
          wolfSPDM_ChunkCopyOut body cap
  end.

Definition wolfSPDM_ChunkSend (secured : bool) (limit : Z) (req : bytes) (cap : Z) : IOM bytes :=
  let* ctx := get_ctx in
  let handle := ctx.(chunkHandle) in
  upd_ctx (fun c => c <| chunkHandle := w8 (c.(chunkHandle) + 1) |>) ;;;
  chunk_send_loop (length req + 1) secured limit req cap handle 0 0.

(** [rsp] is what has been reassembled; [rspSz] is the size of its buffer. *)
Fixpoint chunk_get_loop (fuel : nat) (secured : bool) (handle cap rspSz total seq : Z)
    (rsp : bytes) : IOM bytes :=
  match fuel with
  | O => ub
  | S fuel' =>
      let* ctx := get_ctx in
      let hdr := if seq =? 0 then SPDM_CHUNK_FIRST_HDR_SZ else SPDM_CHUNK_HDR_SZ in
      check (negb (wolfSPDM_ChunkSeqOk ctx seq)) WOLFSPDM_E_CHUNK ;;;
      let req := [ctx.(spdmVersion); SPDM_CHUNK_GET; 0x00; handle] ++
                 wolfSPDM_ChunkSetSeq ctx seq in
      let* msg := wolfSPDM_ChunkXfer secured req WOLFSPDM_DATA_TRANSFER_SIZE in
      let msgSz := len msg in
      let* peerErr := wolfSPDM_ChunkPeerError msg in
      check peerErr WOLFSPDM_E_PEER_ERROR ;;;
      check ((msgSz <? hdr) || negb (at_ msg 0 =? ctx.(spdmVersion)) ||
             negb (at_ msg 1 =? SPDM_CHUNK_RESPONSE) || negb (at_ msg 3 =? handle) ||
             negb (wolfSPDM_ChunkGetSeq ctx (drop 4 msg) =? seq)) WOLFSPDM_E_CHUNK ;;;
      let* total :=
        (if seq =? 0 then
           let* t := rd32le msg SPDM_CHUNK_HDR_SZ in
           check (t =? 0) WOLFSPDM_E_CHUNK ;;;
           check (t >? cap) WOLFSPDM_E_BUFFER_SMALL ;;;
           ret t
         else ret total) in
      let* size := rd32le msg 8 in
      let last := negb (Z.land (at_ msg 2) SPDM_CHUNK_LAST_CHUNK =? 0) in
      check ((size =? 0) || negb (size =? msgSz - hdr) || (size >? w32 (total - len rsp)))
        WOLFSPDM_E_CHUNK ;;;
      let* chunk := rd_sub msg hdr size in
      fits (len rsp + size) rspSz ;;;
      let rsp := rsp ++ chunk in
      check (negb (Bool.eqb last (len rsp =? total))) WOLFSPDM_E_CHUNK ;;;
      if last then ret rsp
      else chunk_get_loop fuel' secured handle cap rspSz total (w32 (seq + 1)) rsp
  end.

Definition wolfSPDM_ChunkGet (secured : bool) (handle rspSz : Z) : IOM bytes :=
  let cap := if rspSz >? WOLFSPDM_MAX_MSG_SIZE then WOLFSPDM_MAX_MSG_SIZE else rspSz in
  chunk_get_loop (Z.to_nat cap + 1) secured handle cap rspSz 0 0 [].

Definition wolfSPDM_ChunkExchange (secured : bool) (req : bytes) (rspSz : Z) : IOM bytes :=
  let* ctx := get_ctx in
  let limit := if (ctx.(dataTransferSize) =? 0) ||
                  (ctx.(dataTransferSize) >? WOLFSPDM_DATA_TRANSFER_SIZE)
               then WOLFSPDM_DATA_TRANSFER_SIZE else ctx.(dataTransferSize) in
  let* rsp :=
    (if len req <=? limit then wolfSPDM_ChunkXfer secured req rspSz
     else if negb (ctx.(maxSpdmMsgSize) =? 0) && (len req >? ctx.(maxSpdmMsgSize))
     then fail WOLFSPDM_E_BUFFER_SMALL
     else wolfSPDM_ChunkSend secured limit req rspSz) in
  if (len rsp >=? 5) && (at_ rsp 0 =? ctx.(spdmVersion)) && (at_ rsp 1 =? SPDM_ERROR) &&
     (at_ rsp 2 =? SPDM_ERROR_LARGE_RESPONSE)
  then wolfSPDM_ChunkGet secured (at_ rsp 4) rspSz
  else ret rsp.

Definition wolfSPDM_ClearExchange (req : bytes) (rspSz : Z) : IOM bytes :=
  let* ctx := get_ctx in
  if wolfSPDM_ChunkOn ctx then wolfSPDM_ChunkExchange false req rspSz
  else
    check (negb (wolfSPDM_IsTcgMode ctx) && negb (ctx.(dataTransferSize) =? 0) &&
           (len req >? ctx.(dataTransferSize))) WOLFSPDM_E_BUFFER_SMALL ;;;
    wolfSPDM_SendReceive req rspSz.

Definition wolfSPDM_SecuredExchange (cmdPlain : bytes) (rspSz : Z) : IOM bytes :=
  let* ctx := get_ctx in
  check ((ctx.(state) <? WOLFSPDM_STATE_KEY_EX) || (ctx.(state) =? WOLFSPDM_STATE_ERROR) ||
         (ctx.(sessionId) =? 0) ||
         ((ctx.(state) =? WOLFSPDM_STATE_KEY_EX) && negb (wolfSPDM_IsTcgMode ctx)))
    WOLFSPDM_E_NOT_CONNECTED ;;;
  when (ctx.(l1l2State) =? WOLFSPDM_RUN_OPEN)
    (upd_ctx (fun c => c <| l1l2State := WOLFSPDM_RUN_LIVE |>)) ;;;
  if wolfSPDM_ChunkOn ctx then wolfSPDM_ChunkExchange true cmdPlain rspSz
  else wolfSPDM_SecuredXfer cmdPlain rspSz.
End Chunk.

(** ** What an exchange may change

    [xfer secured c c']: the FIPS indicator, the generator, the peer's error
    code and the chunk handle; the sequence numbers too when the exchange is
    secured; and the L1/L2 run may be closed. *)

Section ChunkLemmas.
Context `{WolfCrypt} `{Config} `{!CryptSizes} `{!RecordFits}
  {W : Type} `{!Transport W} `{!TransportBytes}.
Implicit Types c : WOLFSPDM_CTX.

Definition xfer (secured : bool) (c c' : WOLFSPDM_CTX) : Prop :=
  exists f r q p e h l, c' = c <| fipsIndicator := f |> <| rng := r |> <| reqSeqNum := q |>
      <| rspSeqNum := p |> <| lastPeerErrorCode := e |> <| chunkHandle := h |>
      <| l1l2State := l |> /\
    (secured = false -> q = c.(reqSeqNum) /\ p = c.(rspSeqNum) /\ l = c.(l1l2State)) /\
    (l = c.(l1l2State) \/ c.(l1l2State) = WOLFSPDM_RUN_OPEN /\ l = WOLFSPDM_RUN_LIVE).

Lemma xfer_refl b c : xfer b c c.
Proof.
  exists c.(fipsIndicator), c.(rng), c.(reqSeqNum), c.(rspSeqNum), c.(lastPeerErrorCode),
    c.(chunkHandle), c.(l1l2State).
  split; [ctx_eq c|split; [done|by left]].
Qed.

Lemma xfer_trans b c1 c2 c3 : xfer b c1 c2 -> xfer b c2 c3 -> xfer b c1 c3.
Proof.
  intros (f & r & q & p & e & h & l & -> & Hs & Hl) (f' & r' & q' & p' & e' & h' & l' & -> & Hs' & Hl').
  exists f', r', q', p', e', h', l'. split; [ctx_eq c1|]. split.
  - intros Hb. destruct (Hs Hb) as (-> & -> & ->). exact (Hs' Hb).
  - change (l1l2State _) with l in Hl'. destruct Hl as [-> | [? ->]]; [done|].
    right. destruct Hl' as [-> | [? ->]]; done.
Qed.

Lemma xfer_weaken b c c' : xfer false c c' -> xfer b c c'.
Proof. intros (f & r & q & p & e & h & l & -> & Hs & Hl). exists f, r, q, p, e, h, l; auto. Qed.

Lemma xfer_fips c c' : fips_step c c' -> xfer false c c'.
Proof.
  intros [-> | (f & _ & ->)]; [apply xfer_refl|].
  exists f, c.(rng), c.(reqSeqNum), c.(rspSeqNum), c.(lastPeerErrorCode), c.(chunkHandle),
    c.(l1l2State). split; [ctx_eq c|split; [done|by left]].
Qed.

Lemma xfer_rng c c' : rng_step c c' -> xfer false c c'.
Proof.
  intros [-> | [r ->]]; [apply xfer_refl|].
  exists c.(fipsIndicator), (Some r), c.(reqSeqNum), c.(rspSeqNum), c.(lastPeerErrorCode),
    c.(chunkHandle), c.(l1l2State). split; [ctx_eq c|split; [done|by left]].
Qed.

Lemma xfer_error e c : xfer false c (c <| lastPeerErrorCode := e |>).
Proof.
  exists c.(fipsIndicator), c.(rng), c.(reqSeqNum), c.(rspSeqNum), e, c.(chunkHandle),
    c.(l1l2State). split; [ctx_eq c|split; [done|by left]].
Qed.

Lemma xfer_handle h c : xfer false c (c <| chunkHandle := h |>).
Proof.
  exists c.(fipsIndicator), c.(rng), c.(reqSeqNum), c.(rspSeqNum), c.(lastPeerErrorCode), h,
    c.(l1l2State). split; [ctx_eq c|split; [done|by left]].
Qed.

Lemma xfer_l1l2 c : c.(l1l2State) = WOLFSPDM_RUN_OPEN ->
  xfer true c (c <| l1l2State := WOLFSPDM_RUN_LIVE |>).
Proof.
  intros Ho.
  exists c.(fipsIndicator), c.(rng), c.(reqSeqNum), c.(rspSeqNum), c.(lastPeerErrorCode),
    c.(chunkHandle), WOLFSPDM_RUN_LIVE. split; [ctx_eq c|]. split; [done|by right].
Qed.

Lemma xfer_sent c : xfer true c (seq_sent c).
Proof.
  exists c.(fipsIndicator), c.(rng), (w64 (c.(reqSeqNum) + 1)), c.(rspSeqNum),
    c.(lastPeerErrorCode), c.(chunkHandle), c.(l1l2State). split; [ctx_eq c|split; [done|by left]].
Qed.

Lemma xfer_rcvd c : xfer true c (seq_rcvd c).
Proof.
  exists c.(fipsIndicator), c.(rng), c.(reqSeqNum), (w64 (c.(rspSeqNum) + 1)),
    c.(lastPeerErrorCode), c.(chunkHandle), c.(l1l2State). split; [ctx_eq c|split; [done|by left]].
Qed.

(** The fields no exchange touches. *)
Lemma xfer_fields b c c' : xfer b c c' ->
  c'.(spdmVersion) = c.(spdmVersion) /\ c'.(mode) = c.(mode) /\ c'.(state) = c.(state) /\
  c'.(dataTransferSize) = c.(dataTransferSize) /\ c'.(transcript) = c.(transcript) /\
  c'.(transcriptLen) = c.(transcriptLen) /\ c'.(sessionId) = c.(sessionId) /\
  c'.(rspCaps) = c.(rspCaps) /\ c'.(flags) = c.(flags).
Proof. intros (f & r & q & p & e & h & l & -> & _). by destruct c. Qed.

(** Postconditions of the exchanges in one shape. *)
Definition xfer_post (secured : bool) (cap : Z) (c : WOLFSPDM_CTX) (rx : bytes)
    (s : WOLFSPDM_CTX * W) : Prop :=
  is_bytes rx /\ len rx <= cap /\ ctx_wf s.1 /\ xfer secured c s.1.
Definition xfer_err (secured : bool) (c : WOLFSPDM_CTX) (rc : Z) (s : WOLFSPDM_CTX * W) : Prop :=
  rc < 0 /\ ctx_wf s.1 /\ xfer secured c s.1.

Lemma xfer_post_weaken b cap c c1 rx s : xfer b c c1 -> xfer_post b cap c1 rx s ->
  xfer_post b cap c rx s.
Proof. intros Hx (? & ? & ? & ?). split_and!; eauto using xfer_trans. Qed.
Lemma xfer_err_weaken b c c1 rc s : xfer b c c1 -> xfer_err b c1 rc s -> xfer_err b c rc s.
Proof. intros Hx (? & ? & ?). split_and!; eauto using xfer_trans. Qed.

Lemma SendReceive_xfer tx cap c w : ctx_wf c -> len tx < 2 ^ 32 - WOLFSPDM_TCG_HEADER_SIZE ->
  wp (wolfSPDM_SendReceive tx cap) (xfer_post false cap c) (xfer_err false c) (c, w).
Proof.
  intros Hwf Htx. apply SendReceive_wp; [done| |].
  - intros rx c' w' ? ? Hs. split_and!; eauto using fips_step_wf, xfer_fips.
  - intros rc c' w' ? Hs. split_and!; eauto using fips_step_wf, xfer_fips.
Qed.

Lemma SECURED_BUF_small : 0 <= SECURED_BUF_SZ < 2 ^ 32 - WOLFSPDM_TCG_HEADER_SIZE.
Proof.
  pose proof record_fits. pose proof cfg_dts.
  unfold SECURED_BUF_SZ, WOLFSPDM_XFER_MSG_SIZE, WOLFSPDM_AEAD_OVERHEAD. lia.
Qed.

Lemma SecuredXfer_wp cmd cap c w : ctx_wf c ->
  wp (wolfSPDM_SecuredXfer cmd cap) (xfer_post true cap c) (xfer_err true c) (c, w).
Proof.
  intros Hwf. pose proof SECURED_BUF_small. unfold wolfSPDM_SecuredXfer. io_step. io_step.
  apply EncryptRecord_wp; [done| |].
  2: { intros rc c' ? Hs. split_and!; [done|by eapply rng_step_wf|by apply xfer_weaken, xfer_rng]. }
  intros rec c1 Hs _ Hl _.
  assert (xfer true c (seq_sent c1)) as Hx1
    by (eapply xfer_trans; [by apply xfer_weaken, xfer_rng|apply xfer_sent]).
  assert (ctx_wf (seq_sent c1)) as Hwf1 by (by eapply seq_sent_wf, rng_step_wf).
  revert Hx1 Hwf1. generalize (seq_sent c1). intros c2 Hx2 Hwf2. io_step.
  eapply wp_mono; [apply SendReceive_xfer; [done|lia]| |].
  2: { intros rc s (? & ? & ?). split_and!; eauto using xfer_trans, xfer_weaken. }
  intros rx [c3 w3] (Hb & _ & Hwf3 & Hx3). cbn [fst] in *. io_step.
  assert (xfer true c c3) as Hx by (eauto using xfer_trans, xfer_weaken).
  apply DecryptRecord_wp; [done|done| |].
  - intros p ? ? _. split_and!; [done|done|by apply seq_rcvd_wf|].
    eapply xfer_trans; [done|apply xfer_rcvd].
  - intros rc c' ? [-> | ->]; split_and!; try done; [by apply seq_rcvd_wf|].
    eapply xfer_trans; [done|apply xfer_rcvd].
Qed.

Lemma ChunkXfer_wp b req cap c w : ctx_wf c -> len req < 2 ^ 32 - WOLFSPDM_TCG_HEADER_SIZE ->
  wp (wolfSPDM_ChunkXfer b req cap) (xfer_post b cap c) (xfer_err b c) (c, w).
Proof.
  intros Hwf Hl. destruct b; [by apply SecuredXfer_wp|by apply SendReceive_xfer].
Qed.

Lemma ChunkPeerError_wp msg c w (Q : bool -> WOLFSPDM_CTX * W -> Prop) E :
  (forall e, 4 <= len msg -> at_ msg 1 = SPDM_ERROR ->
     Q true (c <| lastPeerErrorCode := e |>, w)) ->
  Q false (c, w) -> wp (wolfSPDM_ChunkPeerError msg) Q E (c, w).
Proof. intros HQ1 HQ2. unfold wolfSPDM_ChunkPeerError. io_go; [apply HQ1; lia|done]. Qed.

Lemma error_wf e c : ctx_wf c -> ctx_wf (c <| lastPeerErrorCode := e |>).
Proof. intros. wf_tac. Qed.

(** The error exits of the loops. *)
Lemma xfer_err_fail b c c' rc (w : W) : rc < 0 -> ctx_wf c' -> xfer b c c' ->
  xfer_err b c rc (c', w).
Proof. unfold xfer_err. cbn. tauto. Qed.
Lemma xfer_err_peer b c c' e rc (w : W) : rc < 0 -> ctx_wf c' -> xfer b c c' ->
  xfer_err b c rc (c' <| lastPeerErrorCode := e |>, w).
Proof.
  intros. unfold xfer_err. cbn [fst]. split_and!; [done|by apply error_wf|].
  eapply xfer_trans; [done|apply xfer_weaken, xfer_error].
Qed.

Lemma xfer_post_ok b cap c c' rx (w : W) : is_bytes rx -> len rx <= cap -> ctx_wf c' ->
  xfer b c c' -> xfer_post b cap c rx (c', w).
Proof. unfold xfer_post. cbn. tauto. Qed.

Lemma len_ChunkSetSeq c seq : len (wolfSPDM_ChunkSetSeq c seq) = wolfSPDM_ChunkSeqSz c.
Proof. unfold wolfSPDM_ChunkSetSeq, wolfSPDM_ChunkSeqSz. by case_match. Qed.

Lemma ChunkSeqSz_cases c : wolfSPDM_ChunkSeqSz c = 2 \/ wolfSPDM_ChunkSeqSz c = 4.
Proof. unfold wolfSPDM_ChunkSeqSz. case_match; auto. Qed.

Lemma len_chunk_send_msg c handle seq reqSz sent take req :
  0 <= sent -> 0 <= take -> sent + take <= len req ->
  len (chunk_send_msg c handle seq reqSz sent take req) =
    (if seq =? 0 then SPDM_CHUNK_FIRST_HDR_SZ else SPDM_CHUNK_HDR_SZ) + take.
Proof.
  intros. unfold chunk_send_msg. rewrite !len_app, len_zeros, len_ChunkSetSeq.
  rewrite len_sub_bytes by lia. change (len (SPDM_Set32LE take)) with 4.
  rewrite !len_cons, len_nil. destruct (ChunkSeqSz_cases c) as [-> | ->]; case_match;
    change (len (SPDM_Set32LE reqSz)) with 4; rewrite ?len_nil; lia.
Qed.

Lemma ChunkCopyOut_wp {S} src cap (Q : bytes -> S -> Prop) (E : Z -> S -> Prop) s :
  (len src <= cap -> Q src s) -> E WOLFSPDM_E_BUFFER_SMALL s ->
  wp (wolfSPDM_ChunkCopyOut src cap) Q E s.
Proof. intros HQ HE. unfold wolfSPDM_ChunkCopyOut. wp_go; [done|]. apply HQ. lia. Qed.

Lemma chunk_send_loop_wp fuel b limit req cap handle sent seq c w :
  ctx_wf c -> SPDM_MIN_DATA_TRANSFER_SIZE <= limit <= WOLFSPDM_DATA_TRANSFER_SIZE ->
  0 <= sent < len req -> len req - sent < Z.of_nat fuel ->
  wp (chunk_send_loop fuel b limit req cap handle sent seq)
    (xfer_post b cap c) (xfer_err b c) (c, w).
Proof.
  pose proof cfg_dts. pose proof record_fits.
  revert sent seq c w. induction fuel as [|fuel IH]; intros sent seq c w Hwf Hlim Hs Hf; [lia|].
  pose proof (xfer_refl b c) as Hx0.
  cbn [chunk_send_loop]. do 2 io_step. cbv zeta. io_step; io_step; [by apply xfer_err_fail|].
  set (hdr := if seq =? 0 then _ else _).
  assert (hdr = 12 \/ hdr = 16) as Hhdr by (unfold hdr; destruct (seq =? 0); auto).
  rewrite (w32_id (limit - hdr)) by lia.
  set (take := if limit - hdr >? len req - sent then _ else _).
  assert (0 < take /\ take <= limit - hdr /\ sent + take <= len req) as (Ht1 & Ht2 & Ht3)
    by (unfold take; destruct (Z.gtb_spec (limit - hdr) (len req - sent)); lia).
  clearbody take. io_step. io_step. io_step.
  eapply wp_mono; [apply ChunkXfer_wp; [done|]|..].
  { rewrite len_chunk_send_msg by lia. fold hdr. lia. }
  2: { by intros rc s Hs'. }
  intros ack [c1 w1] (Hb & Hl & Hwf1 & Hx1). cbn [fst] in *.
  pose proof (ChunkSeqSz_cases c) as Hsz.
  io_step.
  { apply ChunkCopyOut_wp; [|by apply xfer_err_fail]. intros. by apply xfer_post_ok. }
  io_step. apply ChunkPeerError_wp; [intros e _ _; by apply xfer_err_peer|].
  cbv iota. io_step; [io_step; by apply xfer_err_fail|].
  assert (4 + wolfSPDM_ChunkSeqSz c <= len ack) by lia.
  io_step.
  { io_step. io_step. io_step.
    apply ChunkPeerError_wp; [intros e _ _; by apply xfer_err_peer|by apply xfer_err_fail]. }
  io_step.
  - io_step; io_step; [by apply xfer_err_fail|].
    eapply wp_mono; [apply IH; [done|done|lia|lia]|..].
    + intros r s. by apply xfer_post_weaken.
    + intros rc s. by apply xfer_err_weaken.
  - io_step. io_step. apply ChunkCopyOut_wp; [|by apply xfer_err_fail].
    intros. apply xfer_post_ok; [by apply is_bytes_sub|done..].
Qed.

Lemma ChunkSend_wp b limit req cap c w :
  ctx_wf c -> SPDM_MIN_DATA_TRANSFER_SIZE <= limit <= WOLFSPDM_DATA_TRANSFER_SIZE ->
  0 < len req ->
  wp (wolfSPDM_ChunkSend b limit req cap) (xfer_post b cap c) (xfer_err b c) (c, w).
Proof.
  intros Hwf Hlim Hl. unfold wolfSPDM_ChunkSend. do 2 io_step. io_step. io_step.
  assert (0 <= w8 (chunkHandle c + 1) <= 255) as Hh by (unfold w8; mlia).
  assert (ctx_wf (c <| chunkHandle := w8 (chunkHandle c + 1) |>)) as Hwf1 by wf_tac.
  pose proof (xfer_weaken b _ _ (xfer_handle (w8 (chunkHandle c + 1)) c)) as Hx1.
  eapply wp_mono; [apply chunk_send_loop_wp; [done|done|lia|unfold len in *; lia]|..].
  - intros r s. by apply xfer_post_weaken.
  - intros rc s. by apply xfer_err_weaken.
Qed.

Lemma chunk_get_loop_wp fuel b handle cap rspSz total seq rsp c w :
  ctx_wf c -> is_bytes rsp -> 0 <= cap <= rspSz -> cap <= WOLFSPDM_MAX_MSG_SIZE ->
  0 <= seq <= len rsp ->
  (if seq =? 0 then rsp = [] /\ cap < Z.of_nat fuel
   else len rsp < total <= cap /\ total - len rsp < Z.of_nat fuel) ->
  wp (chunk_get_loop fuel b handle cap rspSz total seq rsp)
    (xfer_post b cap c) (xfer_err b c) (c, w).
Proof.
  pose proof cfg_dts. pose proof record_fits.
  revert total seq rsp c w.
  induction fuel as [|fuel IH]; intros total seq rsp c w Hwf Hrb Hcap Hmax Hseq Hinv.
  { destruct (seq =? 0); lia. }
  pose proof (xfer_refl b c) as Hx0.
  cbn [chunk_get_loop]. do 2 io_step. cbv zeta. io_step; io_step; [by apply xfer_err_fail|].
  set (hdr := if seq =? 0 then _ else _).
  assert (hdr = if seq =? 0 then 16 else 12) as Hhdr by (unfold hdr; by destruct (seq =? 0)).
  clearbody hdr. io_step. pose proof (ChunkSeqSz_cases c) as Hsz.
  eapply wp_mono; [apply ChunkXfer_wp; [done|]|..].
  { rewrite len_app, len_ChunkSetSeq, !len_cons, len_nil. lia. }
  2: { by intros rc s Hs'. }
  intros msg [c1 w1] (Hb & Hl & Hwf1 & Hx1). cbn [fst] in *.
  io_step. apply ChunkPeerError_wp.
  { intros e _ _. io_step. io_step; [by apply xfer_err_peer|done]. }
  cbv iota. io_step. io_step; [done|]. io_step; io_step; [by apply xfer_err_fail|].
  assert (hdr <= len msg) as Hlm by lia. io_step.
  apply (wp_mono _ (fun t s => s = (c1, w1) /\ len rsp < t <= cap /\
      (if seq =? 0 then rsp = [] /\ cap < Z.of_nat (S fuel) else total = t /\ total - len rsp < Z.of_nat (S fuel))) _
    (fun rc s => rc < 0 /\ s = (c1, w1))).
  { destruct (seq =? 0) eqn:Hs0; [|io_step; split_and!; (done || lia)].
    destruct Hinv as [-> Hfu]. rewrite len_nil in *. subst hdr. io_go; try done.
    split_and!; (done || lia). }
  2: { intros rc s [? ->]. by apply xfer_err_fail. }
  intros t s (-> & Ht & Hfu). io_step. apply wp_rd32le; [done|lia|destruct (seq =? 0); lia|].
  intros size _ Hsize. cbv zeta. pose proof (len_nonneg rsp).
  rewrite (w32_id (t - len rsp)) by lia.
  io_step; io_step; [by apply xfer_err_fail|].
  assert (0 < size /\ size = len msg - hdr /\ len rsp + size <= t) as (Hs1 & Hs2 & Hs3) by lia.
  io_step. apply wp_rd_sub; [destruct (seq =? 0); lia|lia|lia|]. io_step. io_step.
  assert (len (rsp ++ sub_bytes msg hdr size) = len rsp + size) as Hlr
    by (rewrite len_app, len_sub_bytes; [done|destruct (seq =? 0); lia|lia|lia]).
  assert (is_bytes (rsp ++ sub_bytes msg hdr size)) as Hrb'
    by (apply Forall_app; split; [done|by apply is_bytes_sub]).
  rewrite Hlr. io_step; io_step; [by apply xfer_err_fail|]. io_step.
  - io_step. apply xfer_post_ok; [done|lia|done|done].
  - assert (len rsp + size <> t) as Hne.
    { intros Heq. match goal with Hx : negb (Bool.eqb false ?r) = false |- _ =>
        replace r with true in Hx by lia; done end. }
    assert (seq < 2 ^ 16) by lia. rewrite (w32_id (seq + 1)) by lia.
    eapply wp_mono; [apply IH; [done|done|done|done|lia|]|..].
    { replace (seq + 1 =? 0) with false by lia. rewrite Hlr. split; [lia|].
      destruct (seq =? 0); [|lia]. destruct Hfu as [-> ?]. rewrite len_nil in *. lia. }
    + intros r s. by apply xfer_post_weaken.
    + intros rc s. by apply xfer_err_weaken.
Qed.

Lemma ChunkExchange_wp b req cap c w : ctx_wf c -> 0 <= cap ->
  wp (wolfSPDM_ChunkExchange b req cap) (xfer_post b cap c) (xfer_err b c) (c, w).
Proof.
  intros Hwf Hcap. pose proof cfg_dts. pose proof record_fits. wf_facts Hwf.
  unfold wolfSPDM_ChunkExchange. do 2 io_step. cbv zeta.
  set (limit := if _ : bool then WOLFSPDM_DATA_TRANSFER_SIZE else _).
  assert (SPDM_MIN_DATA_TRANSFER_SIZE <= limit <= WOLFSPDM_DATA_TRANSFER_SIZE) as Hlim.
  { unfold limit. destruct (_ || _) eqn:?; [lia|].
    match goal with Hd : _ \/ _ |- _ => destruct Hd; lia end. }
  clearbody limit. io_step.
  apply (wp_mono _ (xfer_post b cap c) _ (xfer_err b c)); [|intros rx s Hs|done].
  - io_step; [apply ChunkXfer_wp; [done|lia]|]. io_step.
    + io_step. apply xfer_err_fail; [done|done|apply xfer_refl].
    + apply ChunkSend_wp; [done|done|lia].
  - destruct s as [c1 w1]. destruct Hs as (Hb & Hl & Hwf1 & Hx). cbn [fst] in *.
    io_step; [|io_step; by apply xfer_post_ok].
    unfold wolfSPDM_ChunkGet. eapply wp_mono.
    + apply chunk_get_loop_wp; [done|constructor| | |rewrite len_nil; lia|].
      * destruct (Z.gtb_spec cap WOLFSPDM_MAX_MSG_SIZE); lia.
      * destruct (Z.gtb_spec cap WOLFSPDM_MAX_MSG_SIZE); lia.
      * cbn [Z.eqb]. split; [done|]. destruct (Z.gtb_spec cap WOLFSPDM_MAX_MSG_SIZE); lia.
    + intros r s (? & Hl' & ? & ?). split_and!; [done| |done|by eapply xfer_trans].
      destruct (Z.gtb_spec cap WOLFSPDM_MAX_MSG_SIZE); lia.
    + intros rc s. by apply xfer_err_weaken.
Qed.

Lemma ClearExchange_wp req cap c w : ctx_wf c -> 0 <= cap ->
  len req < 2 ^ 32 - WOLFSPDM_TCG_HEADER_SIZE ->
  wp (wolfSPDM_ClearExchange req cap) (xfer_post false cap c) (xfer_err false c) (c, w).
Proof.
  intros Hwf Hcap Hl. unfold wolfSPDM_ClearExchange. do 2 io_step. io_step.
  - by apply ChunkExchange_wp.
  - io_step; io_step; [apply xfer_err_fail; [done|done|apply xfer_refl]|].
    by apply SendReceive_xfer.
Qed.

Lemma l1l2_live_wf c : c.(l1l2State) = WOLFSPDM_RUN_OPEN -> ctx_wf c ->
  ctx_wf (c <| l1l2State := WOLFSPDM_RUN_LIVE |>).
Proof.
  intros Ho [? ? ? (Hr & Hl & Hm)]. split; try done. unfold objects_ok; ctx_simpl.
  split_and!; try done. intros _. apply Hl. rewrite Ho. done.
Qed.

(** A secured exchange needs session keys; without them nothing is sent. *)
Definition secured_ready c : bool :=
  negb ((c.(state) <? WOLFSPDM_STATE_KEY_EX) || (c.(state) =? WOLFSPDM_STATE_ERROR) ||
        (c.(sessionId) =? 0) ||
        ((c.(state) =? WOLFSPDM_STATE_KEY_EX) && negb (wolfSPDM_IsTcgMode c))).

Lemma SecuredExchange_wp cmd cap c w : ctx_wf c -> 0 <= cap ->
  wp (wolfSPDM_SecuredExchange cmd cap)
    (fun r s => secured_ready c = true /\ xfer_post true cap c r s)
    (fun rc s => (secured_ready c = false /\ rc = WOLFSPDM_E_NOT_CONNECTED /\ s = (c, w)) \/
                 (secured_ready c = true /\ xfer_err true c rc s)) (c, w).
Proof.
  intros Hwf Hcap. unfold wolfSPDM_SecuredExchange, secured_ready. do 2 io_step. io_step; io_step.
  { left. match goal with Hx : _ = true |- _ => rewrite Hx end. done. }
  match goal with Hx : _ = false |- _ => rewrite Hx end. cbn [negb].
  assert (forall c1 w1, ctx_wf c1 -> xfer true c c1 ->
    wp (if wolfSPDM_ChunkOn c then wolfSPDM_ChunkExchange true cmd cap
        else wolfSPDM_SecuredXfer cmd cap)
     (fun r s => true = true /\ xfer_post true cap c r s)
     (fun rc s => (true = false /\ rc = WOLFSPDM_E_NOT_CONNECTED /\ s = (c, w)) \/
                 (true = true /\ xfer_err true c rc s)) (c1, w1)) as Hgo.
  { intros c1 w1 Hwf1 Hx.
    eapply (wp_mono _ (xfer_post true cap c1) _ (xfer_err true c1)).
    - case_match; [by apply ChunkExchange_wp|by apply SecuredXfer_wp].
    - intros r s Hs. split; [done|]. by eapply xfer_post_weaken.
    - intros rc s Hs. right; split; [done|]. by eapply xfer_err_weaken. }
  io_step. io_step; [io_step|].
  - apply Hgo; [apply l1l2_live_wf; [lia|done]|apply xfer_l1l2; lia].
  - apply Hgo; [done|apply xfer_refl].
Qed.
End ChunkLemmas.

(** ** Properties *)

Section Reassembly.
Context `{WolfCrypt} `{Config} `{!RecordFits}.
#[local] Existing Instance Script.transport.
Implicit Types c : WOLFSPDM_CTX.

(** The messages of a responder that hands a response over in pieces. *)
Definition chunk_rsp c (handle total seq : Z) (last : bool) (chunk : bytes) : bytes :=
  [c.(spdmVersion); SPDM_CHUNK_RESPONSE; if last then SPDM_CHUNK_LAST_CHUNK else 0; handle] ++
  (wolfSPDM_ChunkSetSeq c seq ++ zeros (4 - wolfSPDM_ChunkSeqSz c)) ++
  SPDM_Set32LE (len chunk) ++ (if seq =? 0 then SPDM_Set32LE total else []) ++ chunk.

Fixpoint chunk_rsps c (handle total seq : Z) (chunks : list bytes) : list bytes :=
  match chunks with
  | [] => []
  | ch :: rest =>
      chunk_rsp c handle total seq (match rest with [] => true | _ => false end) ch ::
      chunk_rsps c handle total (seq + 1) rest
  end.

Definition chunk_fits (ch : bytes) : Prop :=
  is_bytes ch /\ 0 < len ch <= WOLFSPDM_DATA_TRANSFER_SIZE - SPDM_CHUNK_FIRST_HDR_SZ.

Lemma SendReceive_script c tx cap rx (w : list bytes) :
  wolfSPDM_IsTcgMode c = false -> c.(ioCb) <> 0 -> is_bytes rx -> len rx <= cap ->
  wolfSPDM_SendReceive tx cap (c, rx :: w) = Ok rx (c, w).
Proof.
  intros Ht Hcb Hb Hl. unfold wolfSPDM_SendReceive, get_ctx, on_ctx. run. cbn [fst snd].
  replace (ioCb c =? 0) with false by lia. rewrite Ht. unfold call_io, io_call, Script.transport.
  rewrite Script.map_w8 by done. by replace (len rx >? cap) with false by lia.
Qed.

Lemma len_chunk_rsp c handle total seq last ch :
  len (chunk_rsp c handle total seq last ch) =
  (if seq =? 0 then SPDM_CHUNK_FIRST_HDR_SZ else SPDM_CHUNK_HDR_SZ) + len ch.
Proof.
  unfold chunk_rsp. rewrite !len_app, len_zeros, len_ChunkSetSeq.
  change (len (SPDM_Set32LE (len ch))) with 4. rewrite !len_cons, len_nil.
  destruct (ChunkSeqSz_cases c) as [-> | ->]; case_match;
    change (len (SPDM_Set32LE total)) with 4; rewrite ?len_nil; lia.
Qed.

(** The fields of a chunk response. *)
Lemma chunk_rsp_fields c handle total seq last ch :
  0 <= seq < 2 ^ 16 -> len ch < 2 ^ 32 -> 0 <= total < 2 ^ 32 ->
  let m := chunk_rsp c handle total seq last ch in
  let hdr := if seq =? 0 then SPDM_CHUNK_FIRST_HDR_SZ else SPDM_CHUNK_HDR_SZ in
  at_ m 0 = c.(spdmVersion) /\ at_ m 1 = SPDM_CHUNK_RESPONSE /\
  at_ m 2 = (if last then SPDM_CHUNK_LAST_CHUNK else 0) /\ at_ m 3 = handle /\
  wolfSPDM_ChunkGetSeq c (drop 4 m) = seq /\ SPDM_Get32LE (sub_bytes m 8 4) = len ch /\
  (seq = 0 -> SPDM_Get32LE (sub_bytes m 12 4) = total) /\ sub_bytes m hdr (len ch) = ch.
Proof.
  intros Hs Hl Ht. pose proof (len_nonneg ch). cbv zeta.
  unfold chunk_rsp, wolfSPDM_ChunkGetSeq, wolfSPDM_ChunkSetSeq, wolfSPDM_ChunkSeqSz.
  destruct (spdmVersion c >=? SPDM_VERSION_14) eqn:Hv.
  - change (zeros (4 - 4)) with (@nil Z). rewrite app_nil_r.
    split_and!; try done.
    + etransitivity; [|apply (Get32LE_Set32LE seq); lia]. done.
    + etransitivity; [|apply (Get32LE_Set32LE (len ch)); lia]. done.
    + intros ->. etransitivity; [|apply (Get32LE_Set32LE total); lia]. done.
    + destruct (Z.eqb_spec seq 0).
      * rewrite !app_assoc. by apply sub_bytes_app_r.
      * rewrite app_nil_l, !app_assoc. by apply sub_bytes_app_r.
  - rewrite (w16_id seq) by lia. split_and!; try done.
    + etransitivity; [|apply (Get16LE_Set16LE seq); lia]. done.
    + etransitivity; [|apply (Get32LE_Set32LE (len ch)); lia]. done.
    + intros ->. etransitivity; [|apply (Get32LE_Set32LE total); lia]. done.
    + destruct (Z.eqb_spec seq 0).
      * rewrite !app_assoc. by apply sub_bytes_app_r.
      * rewrite app_nil_l, !app_assoc. by apply sub_bytes_app_r.
Qed.

Lemma is_bytes_chunk_rsp c handle total seq last ch :
  is_byte c.(spdmVersion) -> is_byte handle -> is_bytes ch ->
  is_bytes (chunk_rsp c handle total seq last ch).
Proof.
  intros Hv Hh Hb. unfold chunk_rsp, wolfSPDM_ChunkSetSeq.
  assert (is_byte SPDM_CHUNK_RESPONSE /\ is_byte SPDM_CHUNK_LAST_CHUNK /\ is_byte 0) as (? & ? & ?)
    by (unfold is_byte; vm_compute; intuition discriminate).
  apply Forall_app; split.
  { apply List.Forall_cons; [done|]. apply List.Forall_cons; [done|].
    apply List.Forall_cons; [by destruct last|]. by apply List.Forall_cons. }
  apply Forall_app; split; [apply Forall_app; split; [case_match|by apply Forall_replicate]|].
  - apply is_bytes_Set32LE.
  - apply is_bytes_Set16LE.
  - apply Forall_app; split; [apply is_bytes_Set32LE|].
    apply Forall_app; split; [case_match; [apply is_bytes_Set32LE|constructor]|done].
Qed.

(** One step of the loop on the expected chunk. *)
Lemma chunk_get_step fuel c handle cap rspSz total seq rsp last ch w :
  wolfSPDM_IsTcgMode c = false -> c.(ioCb) <> 0 -> is_byte c.(spdmVersion) -> is_byte handle ->
  chunk_fits ch -> 0 <= seq < 2 ^ 16 -> 0 < total <= cap -> cap <= rspSz -> total < 2 ^ 16 ->
  len rsp + len ch <= total -> last = (len (rsp ++ ch) =? total) ->
  (seq = 0 -> rsp = []) ->
  chunk_get_loop (S fuel) false handle cap rspSz (if seq =? 0 then 0 else total) seq rsp
    (c, chunk_rsp c handle total seq last ch :: w) =
  (if last then Ok (rsp ++ ch) (c, w)
   else chunk_get_loop fuel false handle cap rspSz total (seq + 1) (rsp ++ ch) (c, w)).
Proof.
  intros Ht Hcb Hv Hh [Hb [Hl1 Hl2]] Hs Htot Hcap Hmax Hle Hlast H00. pose proof cfg_dts.
  pose proof record_fits. pose proof (len_nonneg rsp).
  pose proof (len_chunk_rsp c handle total seq last ch) as Hlen.
  destruct (chunk_rsp_fields c handle total seq last ch) as
    (F0 & F1 & F2 & F3 & F4 & F5 & F6 & F7); [lia|lia|lia|].
  pose proof (is_bytes_chunk_rsp c handle total seq last ch Hv Hh Hb) as Hmb.
  set (m := chunk_rsp c handle total seq last ch) in *. clearbody m.
  set (hdr := if seq =? 0 then SPDM_CHUNK_FIRST_HDR_SZ else SPDM_CHUNK_HDR_SZ) in *.
  assert (hdr = 12 \/ hdr = 16) as Hhdr by (unfold hdr; destruct (seq =? 0); auto).
  cbn [chunk_get_loop]. unfold bind at 1, get_ctx, on_ctx, zoom, get. cbn [fst snd]. cbv zeta.
  fold hdr.
  assert (wolfSPDM_ChunkSeqOk c seq = true) as -> by (unfold wolfSPDM_ChunkSeqOk; lia).
  unfold bind at 1. cbn [negb check ret]. unfold bind at 1, wolfSPDM_ChunkXfer.
  rewrite SendReceive_script by (done || lia). cbv beta iota.
  unfold bind at 1, wolfSPDM_ChunkPeerError. rewrite F1, andb_false_r. cbn [ret check].
  unfold bind at 1. cbn [ret]. unfold bind at 1. rewrite F0, F3, F4, !Z.eqb_refl.
  replace (len m <? hdr) with false by lia. cbn [negb orb check ret].
  unfold bind at 1.
  assert ((if seq =? 0 then
       let* t := rd32le m SPDM_CHUNK_HDR_SZ in
       check (t =? 0) WOLFSPDM_E_CHUNK ;;;
       check (t >? cap) WOLFSPDM_E_BUFFER_SMALL ;;; ret t
     else ret (if seq =? 0 then 0 else total)) (c, w) = Ok total (c, w)) as ->.
  { destruct (Z.eqb_spec seq 0) as [E|E]; [|done]. unfold rd32le, bind.
    rewrite rd_sub_run by (unfold hdr in *; lia). cbn [ret].
    change (sub_bytes m SPDM_CHUNK_HDR_SZ 4) with (sub_bytes m 12 4). rewrite F6 by done.
    replace (total =? 0) with false by lia. by replace (total >? cap) with false by lia. }
  unfold bind at 1, rd32le at 1, bind at 1. rewrite rd_sub_run by lia. cbn [ret]. rewrite F5.
  rewrite w32_id by lia. unfold bind at 1.
  replace ((len ch =? 0) || negb (len ch =? len m - hdr) || (len ch >? total - len rsp))
    with false by lia.
  cbn [check ret]. unfold bind at 1. rewrite rd_sub_run by lia. rewrite F7.
  unfold bind at 1, fits. replace (len rsp + len ch <=? rspSz) with true by lia. cbn [ret].
  rewrite F2. replace (negb (Z.land (if last then SPDM_CHUNK_LAST_CHUNK else 0)
    SPDM_CHUNK_LAST_CHUNK =? 0)) with last by (by destruct last).
  unfold bind at 1. rewrite Hlast, Bool.eqb_reflx. cbn [negb check ret].
  destruct (len (rsp ++ ch) =? total); [done|]. by rewrite w32_id by lia.
Qed.

Lemma chunk_get_loop_run chunks fuel c handle cap rspSz total seq rsp w :
  wolfSPDM_IsTcgMode c = false -> c.(ioCb) <> 0 -> is_byte c.(spdmVersion) -> is_byte handle ->
  chunks <> [] -> Forall chunk_fits chunks -> 0 <= seq -> seq + len (concat chunks) < 2 ^ 16 ->
  len rsp + len (concat chunks) = total -> total <= cap -> cap <= rspSz -> total < 2 ^ 16 ->
  (seq = 0 -> rsp = []) -> (length chunks <= fuel)%nat ->
  chunk_get_loop fuel false handle cap rspSz (if seq =? 0 then 0 else total) seq rsp
    (c, chunk_rsps c handle total seq chunks ++ w) = Ok (rsp ++ concat chunks) (c, w).
Proof.
  intros Ht Hcb Hv Hh. revert fuel seq rsp.
  induction chunks as [|ch chunks IH]; intros fuel seq rsp Hne Hc Hs Hsq Htot Hcap Hr Hmax H00 Hf;
    [done|].
  apply Forall_cons_1 in Hc as [Hch Hc']. pose proof Hch as [_ [Hl _]].
  cbn [concat] in *. rewrite len_app in *. cbn [length] in Hf.
  destruct fuel as [|fuel]; [lia|]. cbn [chunk_rsps app].
  pose proof (len_nonneg rsp). pose proof (len_nonneg (concat chunks)).
  rewrite chunk_get_step; try done; try lia.
  - destruct chunks as [|ch2 chunks]; [cbn [concat app]; by rewrite app_nil_r|].
    specialize (IH fuel (seq + 1) (rsp ++ ch)).
    replace (seq + 1 =? 0) with false in IH by lia.
    rewrite app_assoc. apply IH; try done; rewrite ?len_app; try lia.
  - destruct chunks as [|ch2 chunks]; rewrite len_app; [cbn [concat] in *; rewrite len_nil in *; lia|].
    apply Forall_cons_1 in Hc' as [[_ [Hl2 _]] _].
    cbn [concat] in *. rewrite len_app in *. pose proof (len_nonneg (concat chunks)). lia.
Qed.

(** C27: a response handed over in chunks is reassembled exactly.  When the
    answer to a request is ERROR(LargeResponse) and the responder then serves
    the message in any partition into non-empty chunks that fit a transfer,
    [wolfSPDM_ChunkExchange] returns the message, byte for byte, and leaves the
    context as it was. *)
Theorem chunked_response_reassembled c req cap handle chunks w :
  ctx_wf c -> wolfSPDM_IsTcgMode c = false -> c.(ioCb) <> 0 -> is_byte handle ->
  len req <= SPDM_MIN_DATA_TRANSFER_SIZE -> chunks <> [] -> Forall chunk_fits chunks ->
  5 <= cap -> len (concat chunks) <= cap -> len (concat chunks) <= WOLFSPDM_MAX_MSG_SIZE ->
  wolfSPDM_ChunkExchange false req cap
    (c, [c.(spdmVersion); SPDM_ERROR; SPDM_ERROR_LARGE_RESPONSE; 0; handle] ::
        chunk_rsps c handle (len (concat chunks)) 0 chunks ++ w) = Ok (concat chunks) (c, w).
Proof.
  intros Hwf Ht Hcb Hh Hreq Hne Hc H5 Hcap Hmax. pose proof cfg_dts. pose proof record_fits.
  wf_facts Hwf. assert (is_byte c.(spdmVersion)) as Hv by (unfold is_byte; lia).
  unfold wolfSPDM_ChunkExchange, get_ctx, on_ctx. run. cbn [fst snd].
  set (limit := if _ : bool then WOLFSPDM_DATA_TRANSFER_SIZE else _).
  replace (len req <=? limit) with true.
  2: { unfold limit. destruct (_ || _) eqn:?; [lia|].
       match goal with Hd : _ \/ _ |- _ => destruct Hd; lia end. }
  unfold wolfSPDM_ChunkXfer. rewrite SendReceive_script; [|done|done| |].
  2: { unfold is_bytes, is_byte in *. repeat (apply List.Forall_cons; [done|]). constructor. }
  2: { rewrite !len_cons, len_nil. lia. }
  rewrite !len_cons, len_nil. unfold at_; cbn [nth]. rewrite !Z.eqb_refl. cbn [Z.geb Z.compare].
  replace (1 + (1 + (1 + (1 + (1 + 0)))) >=? 5) with true by lia. cbn [andb].
  unfold wolfSPDM_ChunkGet.
  change (0 : Z) with (if 0 =? 0 then 0 else len (concat chunks)) at 1.
  set (cp := if cap >? WOLFSPDM_MAX_MSG_SIZE then _ else _).
  assert (len (concat chunks) <= cp <= cap) as Hcp by (unfold cp; case_match; lia).
  apply (chunk_get_loop_run chunks _ c handle cp cap (len (concat chunks)) 0 []); try done; try lia.
  assert (length chunks <= length (concat chunks))%nat.
    { clear - Hc. induction Hc as [|ch chunks [_ [Hl _]] _ IH]; [done|]. cbn [concat length].
      rewrite length_app. unfold len in Hl. lia. }
    unfold len in Hcp. lia.
Qed.
End Reassembly.

(** C28: a chunked exchange is safe and ends against any peer: whatever the
    responder answers, both loops stop, no buffer is overrun or over-read, the
    result never exceeds the caller's buffer, and all that changes in the
    context is transfer bookkeeping. *)
Theorem chunk_exchange_safe `{WolfCrypt} `{Config} `{!CryptSizes} `{!RecordFits}
    {W : Type} `{!Transport W} `{!TransportBytes} secured req cap c (w : W) :
  ctx_wf c -> 0 <= cap ->
  match wolfSPDM_ChunkExchange secured req cap (c, w) with
  | Ok rsp (c', _) => is_bytes rsp /\ len rsp <= cap /\ ctx_wf c' /\ xfer secured c c'
  | Err rc (c', _) => rc < 0 /\ ctx_wf c' /\ xfer secured c c'
  | Ub => False
  end.
Proof.
  intros Hwf Hcap. pose proof (ChunkExchange_wp secured req cap c w Hwf Hcap) as Hw.
  unfold wp in Hw. destruct (wolfSPDM_ChunkExchange _ _ _ _) as [r [c' w']|rc [c' w']|]; exact Hw.
Qed.

(** ** A responder that collects a chunked request *)

Section Delivery.
Context `{WolfCrypt} `{Config} `{!RecordFits} (answer : bytes -> bytes).
Implicit Types c : WOLFSPDM_CTX.

Definition seq_size (v : Z) : Z := if v >=? SPDM_VERSION_14 then 4 else 2.

(** It appends the chunk's data, acknowledges, and sends its answer to the
    whole request with the last acknowledgement. *)
#[local] Instance collector : Transport bytes := fun cb user ctx tx cap w =>
  if at_ tx 1 =? SPDM_CHUNK_SEND then
    let sz := seq_size (at_ tx 0) in
    let first := forallb (Z.eqb 0) (sub_bytes tx 4 sz) in
    let hdr := if first then SPDM_CHUNK_FIRST_HDR_SZ else SPDM_CHUNK_HDR_SZ in
    let w' := (if first then [] else w) ++ drop (Z.to_nat hdr) tx in
    let last := Z.testbit (at_ tx 2) 0 in
    (w', Some ([at_ tx 0; SPDM_CHUNK_SEND_ACK; 0; at_ tx 3] ++ sub_bytes tx 4 sz ++
               (if last then answer w' else [])))
  else (w, None).

Lemma forallb_zero l : forallb (Z.eqb 0) l = true -> l = replicate (length l) 0.
Proof.
  induction l as [|x l IH]; [done|]. cbn [forallb length replicate].
  intros [Hx Hl]%andb_true_iff. f_equal; [lia|auto].
Qed.

Lemma ChunkSetSeq_zero c seq : 0 <= seq < 2 ^ 16 ->
  forallb (Z.eqb 0) (wolfSPDM_ChunkSetSeq c seq) = (seq =? 0).
Proof.
  intros Hs. unfold wolfSPDM_ChunkSetSeq. rewrite (w16_id seq) by lia.
  destruct (Z.eqb_spec seq 0) as [->|Hne]; [by case_match|].
  apply not_true_iff_false. case_match; intros Hz%forallb_zero; apply Hne.
  - by rewrite <- (Get32LE_Set32LE seq), Hz by lia.
  - by rewrite <- (Get16LE_Set16LE seq), Hz by lia.
Qed.

(** What the collector reads in a chunk. *)
Lemma send_msg_fields c handle seq reqSz sent take req :
  0 <= sent -> 0 <= take -> sent + take <= len req ->
  let m := chunk_send_msg c handle seq reqSz sent take req in
  let hdr := if seq =? 0 then SPDM_CHUNK_FIRST_HDR_SZ else SPDM_CHUNK_HDR_SZ in
  at_ m 0 = c.(spdmVersion) /\ at_ m 1 = SPDM_CHUNK_SEND /\
  Z.testbit (at_ m 2) 0 = (sent + take =? reqSz) /\ at_ m 3 = handle /\
  sub_bytes m 4 (seq_size c.(spdmVersion)) = wolfSPDM_ChunkSetSeq c seq /\
  drop (Z.to_nat hdr) m = sub_bytes req sent take.
Proof.
  intros Hs Ht Hl. cbv zeta. unfold chunk_send_msg, seq_size, wolfSPDM_ChunkSetSeq, wolfSPDM_ChunkSeqSz.
  destruct (spdmVersion c >=? SPDM_VERSION_14); destruct (seq =? 0);
    (split_and!; try done; by destruct (sent + take =? reqSz)).
Qed.

Lemma SendReceive_collector c tx cap w : wolfSPDM_IsTcgMode c = false -> c.(ioCb) <> 0 ->
  wolfSPDM_SendReceive tx cap (c, w) =
  match collector c.(ioCb) c.(ioUserCtx) c tx cap w with
  | (w', None) => Err WOLFSPDM_E_IO_FAIL (c, w')
  | (w', Some rx) => if len rx >? cap then Err WOLFSPDM_E_IO_FAIL (c, w') else Ok rx (c, w')
  end.
Proof.
  intros Ht Hcb. unfold wolfSPDM_SendReceive, get_ctx, on_ctx. run. cbn [fst snd].
  replace (ioCb c =? 0) with false by lia. by rewrite Ht.
Qed.

Lemma sub_bytes_snoc req i n : 0 <= i -> 0 <= n ->
  sub_bytes req 0 i ++ sub_bytes req i n = sub_bytes req 0 (i + n).
Proof.
  intros Hi Hn. unfold sub_bytes. rewrite !drop_0, Z2Nat.inj_add by done.
  apply take_take_drop.
Qed.

Variables (c : WOLFSPDM_CTX) (req : bytes) (limit cap handle : Z).
Hypotheses (Ht : wolfSPDM_IsTcgMode c = false) (Hcb : c.(ioCb) <> 0)
  (Hlim : SPDM_MIN_DATA_TRANSFER_SIZE <= limit <= WOLFSPDM_DATA_TRANSFER_SIZE)
  (Hreq : len req <= WOLFSPDM_MAX_MSG_SIZE)
  (Hans : 8 + len (answer req) <= WOLFSPDM_DATA_TRANSFER_SIZE) (Hcap : len (answer req) <= cap).

Lemma chunk_send_loop_run fuel sent seq w :
  0 <= sent < len req -> 0 <= seq <= sent -> (seq = 0 -> sent = 0) ->
  (seq <> 0 -> w = sub_bytes req 0 sent) -> len req - sent < Z.of_nat fuel ->
  chunk_send_loop fuel false limit req cap handle sent seq (c, w) =
  Ok (answer req) (c, req).
Proof.
  pose proof cfg_dts as Hdts. pose proof record_fits as Hrf.
  revert sent seq w. induction fuel as [|fuel IH]; intros sent seq w Hs Hq Hz Hw Hf; [lia|].
  cbn [chunk_send_loop]. unfold bind at 1, get_ctx, on_ctx, zoom, get. cbn [fst snd]. cbv zeta.
  assert (wolfSPDM_ChunkSeqOk c seq = true) as -> by (unfold wolfSPDM_ChunkSeqOk; lia).
  unfold bind at 1. cbn [negb check ret].
  set (hdr := if seq =? 0 then SPDM_CHUNK_FIRST_HDR_SZ else SPDM_CHUNK_HDR_SZ).
  assert (hdr = 12 \/ hdr = 16) as Hhdr by (unfold hdr; destruct (seq =? 0); auto).
  rewrite (w32_id (limit - hdr)) by lia.
  set (take := if limit - hdr >? len req - sent then _ else _).
  assert (0 < take /\ take <= limit - hdr /\ sent + take <= len req) as (Ht1 & Ht2 & Ht3)
    by (unfold take; destruct (Z.gtb_spec (limit - hdr) (len req - sent)); lia).
  clearbody take. unfold bind at 1, fits.
  replace (hdr + take <=? WOLFSPDM_DATA_TRANSFER_SIZE) with true by lia. cbn [ret].
  unfold bind at 1, wolfSPDM_ChunkXfer. rewrite SendReceive_collector by done.
  destruct (send_msg_fields c handle seq (len req) sent take req) as
    (F0 & F1 & F2 & F3 & F4 & F5); [lia|lia|lia|]. fold hdr in F5.
  set (m := chunk_send_msg c handle seq (len req) sent take req) in *. clearbody m.
  unfold collector. rewrite F0, F1, F2, F3, F4, ChunkSetSeq_zero, Z.eqb_refl by lia.
  fold hdr. rewrite F5.
  replace ((if seq =? 0 then [] else w) ++ sub_bytes req sent take)
    with (sub_bytes req 0 (sent + take)).
  2: { rewrite <- sub_bytes_snoc by lia. destruct (Z.eqb_spec seq 0) as [E|E].
       - by rewrite Hz.
       - by rewrite Hw. }
  set (body := if sent + take =? len req then answer (sub_bytes req 0 (sent + take)) else []).
  assert (body = if sent + take =? len req then answer req else []) as Hbody.
  { unfold body. destruct (Z.eqb_spec (sent + take) (len req)) as [->|]; [|done].
    by rewrite sub_bytes_all. }
  clearbody body.
  assert (0 <= len body <= len (answer req)) as Hbl.
  { pose proof (len_nonneg (answer req)). rewrite Hbody. case_match; rewrite ?len_nil; lia. }
  set (ack := [_; _; _; _] ++ wolfSPDM_ChunkSetSeq c seq ++ body).
  pose proof (ChunkSeqSz_cases c) as Hsz.
  assert (len ack = 4 + wolfSPDM_ChunkSeqSz c + len body) as Hla.
  { unfold ack. rewrite !len_app, len_ChunkSetSeq, !len_cons, len_nil. lia. }
  replace (len ack >? WOLFSPDM_DATA_TRANSFER_SIZE) with false by lia.
  assert (at_ ack 0 = spdmVersion c /\ at_ ack 1 = SPDM_CHUNK_SEND_ACK /\ at_ ack 2 = 0 /\
    at_ ack 3 = handle /\ wolfSPDM_ChunkGetSeq c (drop 4 ack) = seq /\
    sub_bytes ack (4 + wolfSPDM_ChunkSeqSz c) (len body) = body) as (G0 & G1 & G2 & G3 & G4 & G5).
  { split_and!; try done.
    - assert (drop 4 ack = wolfSPDM_ChunkSetSeq c seq ++ body) as -> by done.
      unfold wolfSPDM_ChunkGetSeq, wolfSPDM_ChunkSetSeq. destruct (spdmVersion c >=? SPDM_VERSION_14).
      + rewrite Get32LE_app by reflexivity. apply Get32LE_Set32LE. lia.
      + rewrite Get16LE_app by reflexivity. rewrite w16_id by lia. apply Get16LE_Set16LE. lia.
    - unfold ack. rewrite app_assoc. apply sub_bytes_app_r; [|done].
      by rewrite len_app, len_ChunkSetSeq. }
  clearbody ack. rewrite G0, G1, G2, G3, G4, !Z.eqb_refl.
  change (SPDM_CHUNK_SEND_ACK =? SPDM_ERROR) with false. rewrite !andb_false_r. cbn [andb].
  unfold bind at 1, wolfSPDM_ChunkPeerError. rewrite G1.
  change (SPDM_CHUNK_SEND_ACK =? SPDM_ERROR) with false. rewrite !andb_false_r. cbn [ret].
  replace (len ack <? 4 + wolfSPDM_ChunkSeqSz c) with false by lia. cbn [negb orb Z.land Z.eqb].
  destruct (Z.eqb_spec (sent + take) (len req)) as [Hlast|Hlast].
  - replace (sent + take <? len req) with false by lia. unfold bind at 1.
    replace (len ack - (4 + wolfSPDM_ChunkSeqSz c)) with (len body) by lia.
    rewrite rd_sub_run, G5 by lia. unfold wolfSPDM_ChunkCopyOut, bind. rewrite Hbody.
    replace (len (answer req) >? cap) with false by lia. cbn [check ret].
    by rewrite Hlast, sub_bytes_all.
  - replace (sent + take <? len req) with true by lia. unfold bind at 1.
    rewrite Hbody, len_nil in Hla. replace (len ack =? 4 + wolfSPDM_ChunkSeqSz c) with true by lia.
    cbn [negb check ret]. rewrite (w32_id (seq + 1)) by lia. by apply IH; try lia.
Qed.
End Delivery.

(** C26: a request too large for one transfer arrives whole.  Against any
    responder that collects the chunks and answers the last one, the chunks
    [wolfSPDM_ChunkSend] cuts, whatever the transfer limit, reassemble to
    exactly the request, and the call returns the responder's answer to it. *)
Theorem chunked_request_delivered `{WolfCrypt} `{Config} `{!RecordFits}
    (answer : bytes -> bytes) c req limit cap w :
  wolfSPDM_IsTcgMode c = false -> c.(ioCb) <> 0 ->
  SPDM_MIN_DATA_TRANSFER_SIZE <= limit <= WOLFSPDM_DATA_TRANSFER_SIZE ->
  0 < len req <= WOLFSPDM_MAX_MSG_SIZE ->
  8 + len (answer req) <= WOLFSPDM_DATA_TRANSFER_SIZE -> len (answer req) <= cap ->
  wolfSPDM_ChunkSend (Transport0 := collector answer) false limit req cap (c, w) =
  Ok (answer req) (c <| chunkHandle := w8 (c.(chunkHandle) + 1) |>, req).
Proof.
  intros Ht Hcb Hlim Hreq Ha Hcap.
  unfold wolfSPDM_ChunkSend, get_ctx, upd_ctx, on_ctx. run. cbn [fst snd].
  apply chunk_send_loop_run; try done; try lia. unfold len in *. lia.
Qed.
