(* ===== verification/Cert.v ===== *)
(** * Certificate chains: the chain verification of src/spdm_standard.c

    Certificates are parsed by wolfCrypt ([wc_ParseCert]); the walk over the
    chain, the signature checks and the trust decision are the library's. *)
From Stdlib Require Import ZArith Lia.
From stdpp Require Import base tactics list numbers.
From S2P Require Import Prelude Types Bytes Crypt Context Transcript CryptoOps Transport Msg.

(** ** DER lengths *)

Fixpoint der_len_bytes (n : nat) (p : bytes) (acc : Z) : Z :=
  match n with
  | O => acc
  | S n' => der_len_bytes n' (drop 1 p) (Z.lor (Z.shiftl acc 8) (at_ p 0))
  end.

(** The length of the DER SEQUENCE at [der], or 0 if malformed. *)
Definition wolfSPDM_DerSeqLen (der : bytes) : Z :=
  let derSz := len der in
  if (derSz <? 2) || negb (at_ der 0 =? 0x30) then 0
  else
    let n := Z.land (at_ der 1) 0x7F in
    let long := negb (at_ der 1 <? 0x80) in
    if long && ((n =? 0) || (n >? 3) || (derSz <? 2 + n)) then 0
    else
      let l := if long then der_len_bytes (Z.to_nat n) (drop 2 der) 0 else at_ der 1 in
      let hdr := if long then 2 + n else 2 in
      if l >? derSz - hdr then 0 else hdr + l.

(** ** Certificate keys *)

Definition WOLFSPDM_CERT_KEY_SZ : Z := Z.max WOLFSPDM_RSP_PUBKEY_SZ 256.

(** [der] holds the first [len] bytes of the array. *)
Record WOLFSPDM_CERT_KEY := { ck_oid : Z; ck_der : bytes }.

(** Any failure of [m] is reported as [e]. *)
Definition as_err {S A} (e : Z) (m : M S A) : M S A := on_err m (fun _ => fail e).

Section Cert.
Context `{WolfCrypt} `{Config}.
Notation CM := (M WOLFSPDM_CTX).

Definition wolfSPDM_KeyOidMlDsaLevel (oid : Z) : Z :=
  if oid =? ML_DSA_44k then wolfSPDM_MlDsaLevel SPDM_PQC_ASYM_ALGO_ML_DSA_44
  else if oid =? ML_DSA_65k then wolfSPDM_MlDsaLevel SPDM_PQC_ASYM_ALGO_ML_DSA_65
  else if oid =? ML_DSA_87k then wolfSPDM_MlDsaLevel SPDM_PQC_ASYM_ALGO_ML_DSA_87
  else 0.

Definition wolfSPDM_SigOidMlDsaLevel (oid : Z) : Z :=
  if oid =? CTC_ML_DSA_44 then wolfSPDM_MlDsaLevel SPDM_PQC_ASYM_ALGO_ML_DSA_44
  else if oid =? CTC_ML_DSA_65 then wolfSPDM_MlDsaLevel SPDM_PQC_ASYM_ALGO_ML_DSA_65
  else if oid =? CTC_ML_DSA_87 then wolfSPDM_MlDsaLevel SPDM_PQC_ASYM_ALGO_ML_DSA_87
  else 0.

(** The subject key and CA flag of a certificate. *)
Definition wolfSPDM_CertKey {S} (der : bytes) : M S (WOLFSPDM_CERT_KEY * bool) :=
  let* cert := lift_opt WOLFSPDM_E_CERT_PARSE (wc_ParseCert der) in
  check (negb (cert.(keyOID) =? ECDSAk) &&
         (wolfSPDM_KeyOidMlDsaLevel cert.(keyOID) =? 0)) WOLFSPDM_E_CERT_PARSE ;;;
  let* pub := lift_opt WOLFSPDM_E_CERT_PARSE cert.(publicKey) in
  check (len pub >? WOLFSPDM_CERT_KEY_SZ) WOLFSPDM_E_CERT_PARSE ;;;
  ret ({| ck_oid := cert.(keyOID); ck_der := pub |}, cert.(isCA)).

Definition wolfSPDM_EccSpkiVerify {S} (spki sig hash : bytes) : M S unit :=
  match k0 ← wc_ecc_init; k ← wc_EccPublicKeyDecode spki k0; wc_ecc_verify_hash sig hash k with
  | Some true => ret tt
  | _ => fail WOLFSPDM_E_CERT_FAIL
  end.

Definition wolfSPDM_CertSignedBy {S} (der : bytes) (issuer : WOLFSPDM_CERT_KEY) : M S unit :=
  as_err WOLFSPDM_E_CERT_FAIL
    (let* cert := lift_opt WOLFSPDM_E_CERT_FAIL (wc_ParseCert der) in
     check (cert.(sigIndex) <=? cert.(certBegin)) WOLFSPDM_E_CERT_FAIL ;;;
     let* tbs := rd_sub der cert.(certBegin) (cert.(sigIndex) - cert.(certBegin)) in
     if issuer.(ck_oid) =? ECDSAk then
       check (negb (cert.(signatureOID) =? CTC_SHA384wECDSA)) WOLFSPDM_E_CERT_FAIL ;;;
       let* hash := wolfSPDM_Sha384Hash tbs [] [] in
       wolfSPDM_EccSpkiVerify issuer.(ck_der) cert.(signature) hash
     else if negb (wolfSPDM_KeyOidMlDsaLevel issuer.(ck_oid) =? 0) then
       check (negb (wolfSPDM_SigOidMlDsaLevel cert.(signatureOID) =?
                    wolfSPDM_KeyOidMlDsaLevel issuer.(ck_oid))) WOLFSPDM_E_CERT_FAIL ;;;
       wolfSPDM_MlDsaVerify (wolfSPDM_KeyOidMlDsaLevel issuer.(ck_oid)) issuer.(ck_der) [] tbs
         cert.(signature)
     else fail WOLFSPDM_E_CERT_FAIL).

(** [leafSz] is the size of the output buffer. *)
Definition wolfSPDM_LeafKey {S} (ctx : WOLFSPDM_CTX) (key : WOLFSPDM_CERT_KEY) (leafSz : Z)
    : M S bytes :=
  if negb (wolfSPDM_RspMlDsaLevel ctx =? 0) then
    check (negb (wolfSPDM_KeyOidMlDsaLevel key.(ck_oid) =? wolfSPDM_RspMlDsaLevel ctx) ||
           (len key.(ck_der) >? leafSz)) WOLFSPDM_E_CERT_PARSE ;;;
    ret key.(ck_der)
  else
    check (negb (key.(ck_oid) =? ECDSAk) || (leafSz <? WOLFSPDM_ECC_POINT_SIZE))
      WOLFSPDM_E_CERT_PARSE ;;;
    let* k := lift_opt WOLFSPDM_E_CERT_PARSE
                (k0 ← wc_ecc_init; wc_EccPublicKeyDecode key.(ck_der) k0) in
    check (negb (wc_ecc_get_curve_id k =? ECC_SECP384R1)) WOLFSPDM_E_CERT_PARSE ;;;
    let* (x, y) := lift_opt WOLFSPDM_E_CERT_PARSE (wc_ecc_export_public_raw k) in
    check (negb (len x =? WOLFSPDM_ECC_KEY_SIZE) || negb (len y =? WOLFSPDM_ECC_KEY_SIZE))
      WOLFSPDM_E_CERT_PARSE ;;;
    ret (x ++ y).

(** The walk over the chain; [k] is the last certificate's key and CA flag,
    [None] before the first. *)
Fixpoint chain_walk {St} (fuel : nat) (chain : bytes) (pos : Z)
    (k : option (WOLFSPDM_CERT_KEY * bool)) : M St (option (WOLFSPDM_CERT_KEY * bool)) :=
  if pos <? len chain then
    match fuel with
    | O => ub
    | S fuel' =>
        let certSz := wolfSPDM_DerSeqLen (drop (Z.to_nat pos) chain) in
        check (certSz =? 0) WOLFSPDM_E_CERT_PARSE ;;;
        let* cert := rd_sub chain pos certSz in
        match k with
        | Some (key, isCA) =>
            if isCA : bool then wolfSPDM_CertSignedBy cert key else fail WOLFSPDM_E_CERT_FAIL
        | None => ret tt
        end ;;;
        let* kk := wolfSPDM_CertKey cert in
        chain_walk fuel' chain (pos + certSz) (Some kk)
    end
  else ret k.

(** A key taken from a chain is dropped. *)
Definition drop_cert_key (c : WOLFSPDM_CTX) : WOLFSPDM_CTX :=
  c <| flags := c.(flags) <| hasRspPubKey := false |> <| rspKeyFromCert := false |> |>
    <| rspPubKeyLen := 0 |>.

Definition wolfSPDM_ValidateCertChain : CM unit :=
  let* ctx := @get WOLFSPDM_CTX in
  when ctx.(flags).(rspKeyFromCert) (upd drop_cert_key) ;;;
  check (ctx.(certChainLen) <=? WOLFSPDM_CERT_CHAIN_HDR_SZ) WOLFSPDM_E_CERT_FAIL ;;;
  let* k0 :=
    (if ctx.(trustedCASz) >? 0 then
       let* ca := rd_sub ctx.(trustedCA) 0 ctx.(trustedCASz) in
       let* hash := wolfSPDM_Sha384Hash ca [] [] in
       let* rootHash := rd_sub ctx.(certChain) 4 WOLFSPDM_HASH_SIZE in
       check (negb (bytes_eqb hash rootHash)) WOLFSPDM_E_CERT_FAIL ;;;
       let* kk := wolfSPDM_CertKey ca in
       ret (Some kk)
     else ret None) in
  let anchored := ctx.(trustedCASz) >? 0 in
  let* chain := rd_sub ctx.(certChain) 0 ctx.(certChainLen) in
  let* k := chain_walk (length chain) chain WOLFSPDM_CERT_CHAIN_HDR_SZ k0 in
  let* (key, _) := lift_opt WOLFSPDM_E_CERT_PARSE k in
  let* ctx := @get WOLFSPDM_CTX in
  if ctx.(flags).(hasRspPubKey) && negb ctx.(flags).(rspKeyFromCert) then
    let* leaf := wolfSPDM_LeafKey ctx key WOLFSPDM_ECC_POINT_SIZE in
    check (negb (ctx.(rspPubKeyLen) =? len leaf) ||
           negb (bytes_eqb (sub_bytes ctx.(rspPubKey) 0 (len leaf)) leaf)) WOLFSPDM_E_CERT_FAIL
  else if negb anchored && negb ctx.(flags).(allowUntrustedCert) then
    fail WOLFSPDM_E_CERT_FAIL
  else
    let* leaf := wolfSPDM_LeafKey ctx key WOLFSPDM_RSP_PUBKEY_SZ in
    let* a := wr ctx.(rspPubKey) 0 leaf in
    upd (fun c => c <| rspPubKey := a |> <| rspPubKeyLen := len leaf |>
      <| flags := c.(flags) <| hasRspPubKey := true |> <| rspKeyFromCert := true |> |>).

(** ** Configuration of trust *)

Definition wolfSPDM_SetTrustedCAs (derCerts : bytes) : CM unit :=
  check (len derCerts =? 0) WOLFSPDM_E_INVALID_ARG ;;;
  let* ctx := @get WOLFSPDM_CTX in
  check (len derCerts >? len ctx.(trustedCA)) WOLFSPDM_E_BUFFER_SMALL ;;;
  let* a := wr ctx.(trustedCA) 0 derCerts in
  upd (fun c => c <| trustedCA := a |> <| trustedCASz := len derCerts |>).

Definition wolfSPDM_AllowUntrustedCerts (allow : Z) : CM unit :=
  upd (fun c => c <| flags := c.(flags) <| allowUntrustedCert := negb (allow =? 0) |> |>).
End Cert.

(** ** Lemmas *)

Lemma DerSeqLen_bounds der : is_bytes der ->
  wolfSPDM_DerSeqLen der = 0 \/ 2 <= wolfSPDM_DerSeqLen der <= len der.
Proof.
  intros Hb. unfold wolfSPDM_DerSeqLen. destruct (_ || _) eqn:H1; [by left|].
  assert (0 <= Z.land (at_ der 1) 0x7F) as Hn by (apply Z.land_nonneg; lia).
  set (n := Z.land (at_ der 1) 0x7F) in *. destruct (_ && _) eqn:H2; [by left|].
  assert (forall m p acc, is_bytes p -> 0 <= acc -> 0 <= der_len_bytes m p acc) as Hnn.
  { induction m as [|m IH]; intros p acc Hp Ha; [done|]. cbn [der_len_bytes].
    apply IH; [by apply Forall_drop|]. apply Z.lor_nonneg. split; [by apply Z.shiftl_nonneg|].
    pose proof (is_byte_at p 0 Hp). unfold is_byte in *. lia. }
  pose proof (is_byte_at der 1 Hb) as Hb1. unfold is_byte in Hb1.
  pose proof (Hnn (Z.to_nat n) (drop 2 der) 0 ltac:(by apply Forall_drop) ltac:(lia)).
  destruct (at_ der 1 <? 0x80) eqn:H3; cbn [negb andb] in *;
    match goal with |- context [if ?b then 0 else _] => destruct b eqn:? end;
    try (by left); right; lia.
Qed.

Section CertLemmas.
Context `{WolfCrypt} `{Config} `{!CryptSizes}.
Implicit Types c : WOLFSPDM_CTX.

(** What a certificate and a key are, in terms of wolfCrypt's answers and apart
    from the code that asks for them. *)

(** [cert] parses, and its subject key and CA flag are [k]. *)
Definition has_key (cert : bytes) (k : WOLFSPDM_CERT_KEY * bool) : Prop :=
  exists d pub, wc_ParseCert cert = Some d /\ d.(publicKey) = Some pub /\
    (d.(keyOID) = ECDSAk \/ wolfSPDM_KeyOidMlDsaLevel d.(keyOID) <> 0) /\
    len pub <= WOLFSPDM_CERT_KEY_SZ /\
    k = ({| ck_oid := d.(keyOID); ck_der := pub |}, d.(isCA)).

(** The ECDSA check of [hash] under a SubjectPublicKeyInfo has succeeded. *)
Definition spki_ok (spki sig hash : bytes) : Prop :=
  exists k0 k, wc_ecc_init = Some k0 /\ wc_EccPublicKeyDecode spki k0 = Some k /\
    wc_ecc_verify_hash sig hash k = Some true.

(** [cert] carries a good signature of [issuer] over its body: ECDSA on its
    SHA-384 hash, or pure ML-DSA of the issuer's parameter set. *)
Definition signed_by (cert : bytes) (issuer : WOLFSPDM_CERT_KEY) : Prop :=
  exists d, wc_ParseCert cert = Some d /\ d.(certBegin) < d.(sigIndex) /\
    let tbs := sub_bytes cert d.(certBegin) (d.(sigIndex) - d.(certBegin)) in
    let level := wolfSPDM_KeyOidMlDsaLevel issuer.(ck_oid) in
    (issuer.(ck_oid) = ECDSAk /\ d.(signatureOID) = CTC_SHA384wECDSA /\
     exists hash, sha384 tbs [] [] = Some hash /\ spki_ok issuer.(ck_der) d.(signature) hash) \/
    (issuer.(ck_oid) <> ECDSAk /\ level <> 0 /\
     wolfSPDM_SigOidMlDsaLevel d.(signatureOID) = level /\
     mldsa_ok level issuer.(ck_der) [] tbs d.(signature)).

(** [leaf] is [key] in the form of the negotiated signature algorithm: the raw
    ML-DSA key of that parameter set, or the P-384 point. *)
Definition leaf_of c (key : WOLFSPDM_CERT_KEY) (leaf : bytes) : Prop :=
  if wolfSPDM_RspMlDsaLevel c =? 0 then
    key.(ck_oid) = ECDSAk /\
    exists k0 k x y, wc_ecc_init = Some k0 /\ wc_EccPublicKeyDecode key.(ck_der) k0 = Some k /\
      wc_ecc_get_curve_id k = ECC_SECP384R1 /\ wc_ecc_export_public_raw k = Some (x, y) /\
      len x = WOLFSPDM_ECC_KEY_SIZE /\ len y = WOLFSPDM_ECC_KEY_SIZE /\ leaf = x ++ y
  else wolfSPDM_KeyOidMlDsaLevel key.(ck_oid) = wolfSPDM_RspMlDsaLevel c /\ leaf = key.(ck_der).

Lemma EccSpkiVerify_wp {St} spki sg h (Q : unit -> St -> Prop) (E : Z -> St -> Prop) s :
  (spki_ok spki sg h -> Q tt s) -> E WOLFSPDM_E_CERT_FAIL s ->
  wp (wolfSPDM_EccSpkiVerify spki sg h) Q E s.
Proof.
  intros HQ HE. unfold wolfSPDM_EccSpkiVerify.
  destruct wc_ecc_init as [k0|] eqn:H0'; [|by wp_step]. cbn.
  destruct (wc_EccPublicKeyDecode spki k0) as [k|] eqn:H1'; [|by wp_step]. cbn.
  destruct (wc_ecc_verify_hash sg h k) as [[]|] eqn:Hv; [wp_step|by wp_step..].
  apply HQ. by exists k0, k.
Qed.

Lemma CertSignedBy_wp {St} cert k (Q : unit -> St -> Prop) (E : Z -> St -> Prop) s :
  (signed_by cert k -> Q tt s) -> E WOLFSPDM_E_CERT_FAIL s ->
  wp (wolfSPDM_CertSignedBy cert k) Q E s.
Proof.
  intros HQ HE. unfold wolfSPDM_CertSignedBy, as_err.
  apply wp_on_err, (wp_mono _ Q _ (fun _ s' => s' = s)); [|done|intros ? ? ->; by wp_step].
  wp_step. wp_step; [|done]. pose proof (cert_bounds _ _ ltac:(eassumption)) as [? ?].
  wp_step. wp_step; [done|]. wp_step. wp_step. wp_step.
  - wp_step; wp_step; [done|]. wp_step. apply Sha384Hash_wp; [|done].
    intros h Hh _ _. apply EccSpkiVerify_wp; [|done]. intros Hv. apply HQ.
    eexists. split; [eassumption|]. split; [lia|]. left. split_and!; [lia|lia|]. by exists h.
  - wp_step; [|by wp_step]. wp_step; wp_step; [done|].
    apply MlDsaVerify_wp; [|done..]. intros Hv. apply HQ.
    eexists. split; [eassumption|]. split; [lia|]. right. split_and!; [lia..|done].
Qed.

Lemma CertKey_wp {St} cert (Q : WOLFSPDM_CERT_KEY * bool -> St -> Prop) (E : Z -> St -> Prop) s :
  (forall k, has_key cert k -> Q k s) -> E WOLFSPDM_E_CERT_PARSE s ->
  wp (wolfSPDM_CertKey cert) Q E s.
Proof.
  intros HQ HE. unfold wolfSPDM_CertKey. wp_go; try done. apply HQ.
  do 2 eexists. split; [eassumption|]. split; [eassumption|]. split_and!; [lia|lia|done].
Qed.

(** A path of certificates from an issuer (or from nowhere) to a last key. *)
Inductive cert_path : option (WOLFSPDM_CERT_KEY * bool) -> list bytes ->
    option (WOLFSPDM_CERT_KEY * bool) -> Prop :=
| path_end k : cert_path k [] k
| path_step prev cert kk rest last :
    (forall key isCA, prev = Some (key, isCA) -> isCA = true /\ signed_by cert key) ->
    has_key cert kk -> cert_path (Some kk) rest last -> cert_path prev (cert :: rest) last.

Lemma drop_drop_Z (b : bytes) i j : 0 <= i -> 0 <= j ->
  drop (Z.to_nat j) (drop (Z.to_nat i) b) = drop (Z.to_nat (i + j)) b.
Proof. intros. rewrite drop_drop. f_equal. lia. Qed.

Lemma chain_walk_wp {St} fuel chain pos k (Q : option (WOLFSPDM_CERT_KEY * bool) -> St -> Prop)
    (E : Z -> St -> Prop) s : is_bytes chain ->
  0 <= pos -> len chain - pos <= Z.of_nat fuel ->
  (forall certs k', concat certs = drop (Z.to_nat pos) chain -> cert_path k certs k' -> Q k' s) ->
  (forall rc, rc < 0 -> E rc s) ->
  wp (chain_walk fuel chain pos k) Q E s.
Proof.
  intros Hb. revert pos k. induction fuel as [|fuel IH]; intros pos k Hp Hf HQ HE.
  - cbn [chain_walk]. wp_step; [lia|]. wp_step. apply (HQ []); [|constructor].
    rewrite drop_ge by (unfold len in *; lia). done.
  - cbn [chain_walk]. wp_step.
    2: { wp_step. apply (HQ []); [|constructor]. rewrite drop_ge by (unfold len in *; lia). done. }
    set (rest := drop (Z.to_nat pos) chain) in *.
    assert (is_bytes rest) as Hrb by (by apply Forall_drop).
    assert (len rest = len chain - pos) as Hrl by (unfold rest, len in *; rewrite length_drop; lia).
    pose proof (DerSeqLen_bounds rest Hrb) as Hd. wp_step; wp_step; [by apply HE|].
    set (n := wolfSPDM_DerSeqLen rest) in *. clearbody n.
    wp_step. wp_step. set (cert := sub_bytes chain pos n).
    wp_step. apply (wp_mono _ (fun _ s' => s' = s /\
      (forall key isCA, k = Some (key, isCA) -> isCA = true /\ signed_by cert key)) _
      (fun rc s' => rc < 0 /\ s' = s)).
    { destruct k as [[key isCA]|]; [|by wp_step]. destruct isCA; [|by wp_step].
      apply CertSignedBy_wp; [|done]. intros Hsg. split; [done|]. by intros ? ? [= <- <-]. }
    2: { intros rc s' [? ->]. by apply HE. }
    intros _ s' [-> Hk]. wp_step. apply CertKey_wp; [|by apply HE]. intros kk Hkk.
    apply IH; [lia|lia| |done]. intros certs k' Hc Hpath.
    apply (HQ (cert :: certs)); [|by econstructor].
    cbn [concat]. rewrite Hc. unfold cert, sub_bytes. fold rest.
    rewrite <- drop_drop_Z by lia. fold rest. by rewrite take_drop.
Qed.

Lemma drop_cert_key_wf c : ctx_wf c -> ctx_wf (drop_cert_key c).
Proof. intros Hwf. unfold drop_cert_key. wf_tac. Qed.

(** The context the trust decision starts from. *)
Definition unpinned c : WOLFSPDM_CTX :=
  if c.(flags).(rspKeyFromCert) then drop_cert_key c else c.

Lemma unpinned_wf c : ctx_wf c -> ctx_wf (unpinned c).
Proof. intros. unfold unpinned. case_match; [by apply drop_cert_key_wf|done]. Qed.

Definition install_leaf (leaf : bytes) c : WOLFSPDM_CTX :=
  c <| rspPubKey := splice c.(rspPubKey) 0 leaf |> <| rspPubKeyLen := len leaf |>
    <| flags := c.(flags) <| hasRspPubKey := true |> <| rspKeyFromCert := true |> |>.

(** Where trust in the chain's first certificate comes from. *)
Definition root_trusted c (k0 : option (WOLFSPDM_CERT_KEY * bool)) : Prop :=
  if c.(trustedCASz) >? 0 then
    let ca := sub_bytes c.(trustedCA) 0 c.(trustedCASz) in
    exists kk, k0 = Some kk /\ has_key ca kk /\
      sha384 ca [] [] = Some (sub_bytes c.(certChain) 4 WOLFSPDM_HASH_SIZE)
  else k0 = None.

(** What a validated chain amounts to: its certificates, each signed by a CA
    before it, from the trusted root when one is set, to a leaf whose key is the
    pinned key, or becomes the responder key. *)
Definition chain_trusted c c' : Prop :=
  exists k0 certs key isCA leaf,
    concat certs = drop (Z.to_nat WOLFSPDM_CERT_CHAIN_HDR_SZ)
                     (sub_bytes c.(certChain) 0 c.(certChainLen)) /\
    root_trusted c k0 /\ cert_path k0 certs (Some (key, isCA)) /\
    ((c.(flags).(hasRspPubKey) = true /\ c.(flags).(rspKeyFromCert) = false /\ c' = c /\
      leaf_of c key leaf /\ sub_bytes c.(rspPubKey) 0 c.(rspPubKeyLen) = leaf) \/
     ((0 < c.(trustedCASz) \/ c.(flags).(allowUntrustedCert) = true) /\
      leaf_of c key leaf /\ c' = install_leaf leaf (unpinned c))).

Lemma LeafKey_wp {St} c key n (Q : bytes -> St -> Prop) (E : Z -> St -> Prop) s :
  (forall leaf, leaf_of c key leaf -> len leaf <= n -> Q leaf s) ->
  E WOLFSPDM_E_CERT_PARSE s -> wp (wolfSPDM_LeafKey c key n) Q E s.
Proof.
  unfold leaf_of. intros HQ HE. unfold wolfSPDM_LeafKey. wp_step.
  - wp_step; wp_step; [done|]. wp_step. replace (wolfSPDM_RspMlDsaLevel c =? 0) with false in HQ by lia.
    apply HQ; [|lia]. split; [lia|done].
  - replace (wolfSPDM_RspMlDsaLevel c =? 0) with true in HQ by lia.
    wp_step; wp_step; [done|].
    destruct wc_ecc_init as [k0|] eqn:H0'; [cbn|by wp_go].
    destruct (wc_EccPublicKeyDecode (ck_der key) k0) as [k|] eqn:H1'; [|by wp_go].
    wp_go; try done. match goal with Hs : Some _ = Some _ |- _ => injection Hs as ?; subst end. apply HQ.
    + split; [lia|]. exists k0. do 3 eexists. split; [done|]. split; [eassumption|]. split; [lia|].
      split; [eassumption|]. split_and!; [lia|lia|done].
    + rewrite len_app. unfold WOLFSPDM_ECC_POINT_SIZE in *. lia.
Qed.

Lemma leaf_of_unpinned c key leaf : leaf_of (unpinned c) key leaf -> leaf_of c key leaf.
Proof.
  assert (wolfSPDM_RspMlDsaLevel (unpinned c) = wolfSPDM_RspMlDsaLevel c) as He.
  { unfold unpinned. case_match; [|done]. by destruct c. }
  unfold leaf_of. by rewrite He.
Qed.

Lemma install_leaf_wf leaf c : len leaf <= WOLFSPDM_RSP_PUBKEY_SZ -> ctx_wf c ->
  ctx_wf (install_leaf leaf c).
Proof. intros Hl Hwf. pose proof (len_nonneg leaf). unfold install_leaf. wf_tac. Qed.

Lemma ValidateCertChain_wp c (Q : unit -> WOLFSPDM_CTX -> Prop) (E : Z -> WOLFSPDM_CTX -> Prop) :
  ctx_wf c -> (forall c', ctx_wf c' -> chain_trusted c c' -> Q tt c') ->
  (forall rc, rc < 0 -> ctx_wf (unpinned c) -> E rc (unpinned c)) ->
  wp wolfSPDM_ValidateCertChain Q E c.
Proof.
  intros Hwf HQ HE. wf_facts Hwf. pose proof (unpinned_wf _ Hwf) as Hwfu.
  assert (forall rc, rc < 0 -> E rc (unpinned c)) as HE0 by auto.
  unfold wolfSPDM_ValidateCertChain. do 2 (wp_step; cbv beta). wp_step.
  apply (wp_mono _ (fun _ c1 => c1 = unpinned c) _ (fun _ _ => False)); [|intros _ c1 ->|done].
  { unfold unpinned. apply wp_when; intros ->; [by wp_step|done]. }
  wp_step. wp_step; [by apply HE0|]. unfold WOLFSPDM_CERT_CHAIN_HDR_SZ in *.
  wp_step. apply (wp_mono _ (fun k0 c1 => c1 = unpinned c /\ root_trusted c k0) _
    (fun rc c1 => rc < 0 /\ c1 = unpinned c)).
  { unfold root_trusted. wp_step; [|by wp_step].
    wp_step. wp_step. wp_step. apply Sha384Hash_wp; [|done]. intros h Hh _ _.
    wp_step. wp_step. wp_step; wp_step; [done|]. wp_step. apply CertKey_wp; [|done].
    intros kk Hkk. wp_step. split; [done|]. exists kk. split_and!; try done.
    rewrite Hh. f_equal. apply bytes_eqb_eq. by destruct (bytes_eqb _ _). }
  2: { intros rc c1 [? ->]. by apply HE0. }
  intros k0 c1 [-> Hroot]. wp_step. wp_step. set (chain := sub_bytes (certChain c) 0 (certChainLen c)).
  assert (is_bytes chain) as Hcb by (by apply is_bytes_sub).
  wp_step. apply chain_walk_wp; [done|lia|unfold len; lia| |by auto].
  intros certs k Hcerts Hpath. wp_step. wp_step; [|by apply HE0]. subst k.
  match goal with kp : WOLFSPDM_CERT_KEY * bool |- _ => destruct kp as [key isCA] end.
  do 2 (wp_step; cbv beta).
  match goal with |- wp (if ?b then _ else _) _ _ _ => destruct b eqn:Hpin end.
  - assert (flags c = flags (unpinned c) /\ unpinned c = c) as [Hfl Hun].
    { unfold unpinned in *. destruct (rspKeyFromCert (flags c)) eqn:Hr; [|done].
      unfold drop_cert_key in *. ctx_simpl_in Hpin. done. }
    rewrite Hun in *. apply andb_true_iff in Hpin as [Hh Hr].
    wp_step. apply LeafKey_wp; [|by apply HE0]. intros leaf Hleaf Hll.
    apply wp_check; intros Hck; [by apply HE0|]. apply HQ; [done|]. exists k0, certs, key, isCA, leaf.
    split_and!; [exact Hcerts|done|done|]. left. split_and!; try done.
    + by destruct (rspKeyFromCert _).
    + apply orb_false_iff in Hck as [Hn He]. replace (rspPubKeyLen c) with (len leaf) by lia.
      apply bytes_eqb_eq. by destruct (bytes_eqb _ _).
  - wp_step; [wp_step; by apply HE0|].
    wp_step. apply LeafKey_wp; [|by apply HE0]. intros leaf Hleaf Hll.
    apply leaf_of_unpinned in Hleaf. pose proof (len_nonneg leaf). wf_facts Hwfu.
    wp_step. wp_step. wp_step.
    change (Q tt (install_leaf leaf (unpinned c))). apply HQ; [by apply install_leaf_wf|].
    exists k0, certs, key, isCA, leaf. split_and!; [exact Hcerts|done|done|]. right.
    split_and!; [|done|done].
    assert (allowUntrustedCert (flags (unpinned c)) = allowUntrustedCert (flags c)) as Ha
      by (unfold unpinned; case_match; [by destruct c|done]).
    rewrite Ha in *. destruct (allowUntrustedCert (flags c)); [by right|].
    left. lia.
Qed.

(** All a validation changes is the responder key and its flags. *)
Definition trust_step c c' : Prop :=
  exists h r k n, c' = c <| flags := c.(flags) <| hasRspPubKey := h |> <| rspKeyFromCert := r |> |>
    <| rspPubKey := k |> <| rspPubKeyLen := n |>.

Lemma trust_step_refl c : trust_step c c.
Proof.
  exists c.(flags).(hasRspPubKey), c.(flags).(rspKeyFromCert), c.(rspPubKey), c.(rspPubKeyLen).
  ctx_eq c.
Qed.

Lemma unpinned_step c : trust_step c (unpinned c).
Proof.
  unfold unpinned. case_match; [|apply trust_step_refl].
  exists false, false, c.(rspPubKey), 0. ctx_eq c.
Qed.

Lemma chain_trusted_step c c' : chain_trusted c c' -> trust_step c c'.
Proof.
  intros (k0 & certs & key & isCA & leaf & _ & _ & _ & [(_ & _ & -> & _) | (_ & _ & ->)]).
  - apply trust_step_refl.
  - destruct (unpinned_step c) as (h & r & k & n & ->).
    exists true, true, (splice k 0 leaf), (len leaf). ctx_eq c.
Qed.

(** ** Properties *)

(** C16: the responder key comes out of a chain that wolfCrypt found signed link
    by link and that the configured trust admits.  When
    [wolfSPDM_ValidateCertChain] succeeds, the retrieved chain splits into
    certificates, each with a signature that verified under the key of the CA
    certificate before it; when roots are configured, the chain header holds the
    hash of the root and the root signed the first certificate.  The leaf key
    then either equals the pinned key, which is kept, or is installed, and that
    only with a root configured or - the caller's explicit choice - with
    untrusted certificates allowed, in which case the first certificate has no
    anchor.  On any failure the only change is that a key taken from an earlier
    chain is forgotten, and no certificate bytes make it read out of bounds. *)
Theorem validated_chain_is_trusted c :
  ctx_wf c ->
  match wolfSPDM_ValidateCertChain c with
  | Ok _ c' => ctx_wf c' /\ chain_trusted c c'
  | Err rc c' => rc < 0 /\ c' = unpinned c
  | Ub => False
  end.
Proof.
  intros Hwf. apply (ValidateCertChain_wp c (fun _ c' => ctx_wf c' /\ chain_trusted c c')
    (fun rc c' => rc < 0 /\ c' = unpinned c)); auto.
Qed.
End CertLemmas.
