(* ===== verification/Attest.v ===== *)
(** * Measurements and challenge: src/spdm_attest.c

    A running hash and its state flag are two fields of the context; [run]
    names the pair the C functions receive pointers to. *)
From Stdlib Require Import ZArith Lia String.
From stdpp Require Import base tactics list numbers.
From S2P Require Import Prelude Types Bytes Crypt Context Transcript CryptoOps Transport.
From S2P Require Import Secured Msg Chunk Cert.

Section Attest.
Context `{WolfCrypt} `{Config}.
Notation CM := (M WOLFSPDM_CTX).

Record run := {
  run_hash : WOLFSPDM_CTX -> option wc_Sha384;
  run_set_hash : option wc_Sha384 -> WOLFSPDM_CTX -> WOLFSPDM_CTX;
  run_state : WOLFSPDM_CTX -> Z;
  run_set_state : Z -> WOLFSPDM_CTX -> WOLFSPDM_CTX
}.

Definition L1L2 : run := {|
  run_hash := l1l2Hash; run_set_hash := fun h c => c <| l1l2Hash := h |>;
  run_state := l1l2State; run_set_state := fun s c => c <| l1l2State := s |> |}.

Definition M1 : run := {|
  run_hash := m1Hash; run_set_hash := fun h c => c <| m1Hash := h |>;
  run_state := m1State; run_set_state := fun s c => c <| m1State := s |> |}.

Definition wolfSPDM_ReqContextSz (ctx : WOLFSPDM_CTX) : Z :=
  if ctx.(spdmVersion) >=? SPDM_VERSION_13 then SPDM_REQ_CONTEXT_SZ else 0.

(** The live hash object of a run. *)
Definition run_obj (r : run) : CM wc_Sha384 :=
  let* ctx := @get WOLFSPDM_CTX in
  match run_hash r ctx with Some sha => ret sha | None => ub end.

(** [wc_Sha384Free] and the flag *)
Definition run_free (r : run) : CM unit :=
  run_obj r ;;; upd (run_set_hash r None) ;;; upd (run_set_state r WOLFSPDM_RUN_NONE).

(** [wc_Sha384Update] on the object in the context. *)
Definition run_update (r : run) (data : bytes) : CM unit :=
  let* sha := run_obj r in
  let '(rc, sha') := wc_Sha384Update sha data in
  upd (run_set_hash r (Some sha')) ;;;
  check (negb (rc =? 0)) WOLFSPDM_E_CRYPTO_FAIL.

Definition wolfSPDM_RunStart (r : run) : CM unit :=
  let* ctx := @get WOLFSPDM_CTX in
  when (negb (run_state r ctx =? WOLFSPDM_RUN_NONE)) (run_free r) ;;;
  let* sha := lift_opt WOLFSPDM_E_CRYPTO_FAIL wc_InitSha384 in
  upd (run_set_hash r (Some sha)) ;;;
  upd (run_set_state r WOLFSPDM_RUN_LIVE) ;;;
  let* vca := rd_sub ctx.(transcript) 0 ctx.(vcaLen) in
  run_update r vca.

Definition wolfSPDM_RunAdd (r : run) (req rsp : bytes) : CM unit :=
  run_update r req ;;; run_update r rsp.

Definition wolfSPDM_RunVerify (r : run) (label req rsp : bytes) (sigOff : Z) : CM unit :=
  let* res := try
    (let* body := rd_sub rsp 0 sigOff in
     wolfSPDM_RunAdd r req body ;;;
     let* sha := run_obj r in
     lift_opt WOLFSPDM_E_CRYPTO_FAIL (wc_Sha384Final sha)) in
  run_free r ;;;
  match res with
  | inr rc => fail rc
  | inl digest =>
      let* ctx := @get WOLFSPDM_CTX in
      let* sig := rd_sub rsp sigOff (wolfSPDM_SigSize ctx) in
      wolfSPDM_VerifyRspSig label digest sig
  end.

(** The offset of the signature, or [None] when the tail is malformed. *)
Definition wolfSPDM_ParseTail {S} (ctx : WOLFSPDM_CTX) (req buf : bytes) (off sigSz : Z)
    : M S (option Z) :=
  let ctxSz := wolfSPDM_ReqContextSz ctx in
  if off + 2 >? len buf then ret None
  else
    let* n := rd16le buf off in
    let off := off + (2 + n) in
    if (off >? len buf) || negb (len buf - off =? ctxSz + sigSz) || (len req <? ctxSz)
    then ret None
    else
      let* echo := rd_sub buf off ctxSz in
      let* sent := rd_sub req (len req - ctxSz) ctxSz in
      if bytes_eqb echo sent then ret (Some (off + ctxSz)) else ret None.

(** ** GET_MEASUREMENTS *)

Definition WOLFSPDM_MEAS_RSP_SZ : Z :=
  8 + WOLFSPDM_MAX_MEAS_RECORD + SPDM_NONCE_SZ + WOLFSPDM_ATTEST_TAIL_SZ.

Definition wolfSPDM_BuildGetMeasurements (bufSz operation : Z) (requestSig : bool) : CM bytes :=
  let* ctx := @get WOLFSPDM_CTX in
  let ctxSz := wolfSPDM_ReqContextSz ctx in
  let sz := 4 + (if requestSig then SPDM_NONCE_SZ + 1 else 0) + ctxSz in
  check (bufSz <? sz) WOLFSPDM_E_BUFFER_SMALL ;;;
  let* nonce :=
    (if requestSig then
       let* n := wolfSPDM_GetRandom SPDM_NONCE_SZ in ret (n ++ [ctx.(currentSlotId)])
     else ret []) in
  let* rctx := (if ctxSz >? 0 then wolfSPDM_GetRandom ctxSz else ret []) in
  ret ([ctx.(spdmVersion); SPDM_GET_MEASUREMENTS;
        if requestSig then SPDM_MEAS_REQUEST_SIG_BIT else 0x00; operation] ++ nonce ++ rctx).

(** The walk over the measurement blocks: blocks left and the end offset. *)
Fixpoint meas_walk {St} (blocks : nat) (buf : bytes) (off recordEnd : Z) : M St (nat * Z) :=
  match blocks with
  | O => ret (O, off)
  | S blocks' =>
      if off + WOLFSPDM_MEAS_BLOCK_HDR_SZ <=? recordEnd then
        let* n := rd16le buf (off + 2) in
        meas_walk blocks' buf (off + (WOLFSPDM_MEAS_BLOCK_HDR_SZ + n)) recordEnd
      else ret (blocks, off)
  end.

(** MeasurementRecordLength *)
Definition meas_record_len (rsp : bytes) : Z :=
  Z.lor (Z.lor (at_ rsp 5) (Z.shiftl (at_ rsp 6) 8)) (Z.shiftl (at_ rsp 7) 16).

Definition wolfSPDM_ParseMeasurements (req buf : bytes) : CM Z :=
  SPDM_CHECK_PARSE_OR_ERROR_ARGS buf 8 ;;;
  check (len req <? 4) WOLFSPDM_E_INVALID_ARG ;;;
  SPDM_CHECK_RESPONSE buf SPDM_MEASUREMENTS WOLFSPDM_E_MEASUREMENT ;;;
  let* ctx := @get WOLFSPDM_CTX in
  let* p := rd req 2 in
  let signedReq := negb (Z.land p SPDM_MEAS_REQUEST_SIG_BIT =? 0) in
  let* hdr := rd_sub buf 0 8 in
  let recordEnd := 8 + meas_record_len hdr in
  check (negb (at_ hdr 0 =? ctx.(spdmVersion)) || (recordEnd >? len buf) ||
         (signedReq && negb (Z.land (at_ hdr 3) 0x0F =? ctx.(currentSlotId))))
    WOLFSPDM_E_MEASUREMENT ;;;
  let* (remaining, off) := meas_walk (Z.to_nat (at_ hdr 4)) buf 8 recordEnd in
  check (negb (Nat.eqb remaining 0) || negb (off =? recordEnd)) WOLFSPDM_E_MEASUREMENT ;;;
  let* tail := wolfSPDM_ParseTail ctx req buf (recordEnd + SPDM_NONCE_SZ)
                 (if signedReq then wolfSPDM_SigSize ctx else 0) in
  lift_opt WOLFSPDM_E_MEASUREMENT tail.

(** The measurement stored in a context: DMTF blocks are unwrapped.  The
    result is the return code, the index, the type, the value's size and the
    value when the buffer takes it; [value] is the caller's buffer size, [None]
    for a NULL buffer. *)
Fixpoint meas_block_off {St} (blocks : nat) (measRecord : bytes) (off : Z) : M St Z :=
  match blocks with
  | O => ret off
  | S blocks' =>
      let* n := rd16le measRecord (off + 2) in
      meas_block_off blocks' measRecord (off + (WOLFSPDM_MEAS_BLOCK_HDR_SZ + n))
  end.

Definition wolfSPDM_GetMeasurementCount (ctx : WOLFSPDM_CTX) : Z := ctx.(measBlockCount).

Definition wolfSPDM_GetMeasurementBlock (blockIdx : Z) (value : option Z)
    : CM (Z * Z * Z * Z * bytes) :=
  let* ctx := @get WOLFSPDM_CTX in
  check ((blockIdx <? 0) || (blockIdx >=? ctx.(measBlockCount))) WOLFSPDM_E_INVALID_ARG ;;;
  let* off := meas_block_off (Z.to_nat blockIdx) ctx.(measRecord) 0 in
  let* measIndex := rd ctx.(measRecord) off in
  let* n := rd16le ctx.(measRecord) (off + 2) in
  let* spec := rd ctx.(measRecord) (off + 1) in
  let* (type, n, blk) :=
    (if (spec =? SPDM_MEAS_SPEC_DMTF) && (n >=? 3) then
       let* v := rd16le ctx.(measRecord) (off + WOLFSPDM_MEAS_BLOCK_HDR_SZ + 1) in
       if v <=? n - 3 then
         let* t := rd ctx.(measRecord) (off + WOLFSPDM_MEAS_BLOCK_HDR_SZ) in
         ret (t, v, off + 3)
       else ret (0, n, off)
     else ret (0, n, off)) in
  let blk := blk + WOLFSPDM_MEAS_BLOCK_HDR_SZ in
  if match value with None => true | Some cap => n >? cap end
  then ret (WOLFSPDM_E_BUFFER_SMALL, measIndex, type, n, [])
  else
    let* v := rd_sub ctx.(measRecord) blk n in
    ret (WOLFSPDM_SUCCESS, measIndex, type, n, v).

(** ** CHALLENGE *)

Definition WOLFSPDM_CHAL_RSP_SZ : Z :=
  4 + 2 * WOLFSPDM_HASH_SIZE + SPDM_NONCE_SZ + WOLFSPDM_ATTEST_TAIL_SZ.

Definition wolfSPDM_M1Start : CM unit := wolfSPDM_RunStart M1.

Definition wolfSPDM_M1Add (req rsp : bytes) : CM unit :=
  let* ctx := @get WOLFSPDM_CTX in
  if ctx.(m1State) =? WOLFSPDM_RUN_NONE then ret tt else wolfSPDM_RunAdd M1 req rsp.

Definition wolfSPDM_BuildChallenge (bufSz slotId measHashType : Z) : CM bytes :=
  check ((slotId <? 0) || (slotId >? 7)) WOLFSPDM_E_INVALID_ARG ;;;
  let* ctx := @get WOLFSPDM_CTX in
  let sz := 4 + SPDM_NONCE_SZ + wolfSPDM_ReqContextSz ctx in
  check (bufSz <? sz) WOLFSPDM_E_BUFFER_SMALL ;;;
  let* rnd := wolfSPDM_GetRandom (sz - 4) in
  ret ([ctx.(spdmVersion); SPDM_CHALLENGE; w8 slotId; measHashType] ++ rnd).

Definition wolfSPDM_ParseChallengeAuth (req buf : bytes) : CM Z :=
  SPDM_CHECK_PARSE_ARGS buf 4 ;;;
  check (len req <? 4) WOLFSPDM_E_INVALID_ARG ;;;
  SPDM_CHECK_RESPONSE buf SPDM_CHALLENGE_AUTH WOLFSPDM_E_CHALLENGE ;;;
  let* ctx := @get WOLFSPDM_CTX in
  let* hdr := rd_sub buf 0 4 in
  let* rq := rd_sub req 0 4 in
  let off := 4 + WOLFSPDM_HASH_SIZE + SPDM_NONCE_SZ +
    (if negb (at_ rq 3 =? SPDM_MEAS_SUMMARY_HASH_NONE) then WOLFSPDM_HASH_SIZE else 0) in
  check (negb (at_ hdr 0 =? ctx.(spdmVersion)) ||
         negb (Z.land (at_ hdr 2) 0x0F =? at_ rq 2) || (len buf <? off)) WOLFSPDM_E_CHALLENGE ;;;
  let* certHash := rd_sub buf 4 WOLFSPDM_HASH_SIZE in
  check (negb (bytes_eqb certHash ctx.(certChainHash))) WOLFSPDM_E_CHALLENGE ;;;
  let* tail := wolfSPDM_ParseTail ctx req buf off (wolfSPDM_SigSize ctx) in
  lift_opt WOLFSPDM_E_CHALLENGE tail.
End Attest.

Definition meas_label : bytes := str "responder-measurements signing".
Definition chal_label : bytes := str "responder-challenge_auth signing".

Section AttestIO.
Context `{WolfCrypt} `{Config} {W : Type} `{!Transport W}.
Notation IOM := (M (WOLFSPDM_CTX * W)).

Definition wolfSPDM_GetMeasurements (measOperation : Z) (requestSignature : bool) : IOM unit :=
  let* ctx := get_ctx in
  check (negb (ctx.(state) =? WOLFSPDM_STATE_CONNECTED)) WOLFSPDM_E_NOT_CONNECTED ;;;
  let cap := if requestSignature then SPDM_CAP_MEAS_CAP_SIG
             else Z.lor SPDM_CAP_MEAS_CAP_SIG SPDM_CAP_MEAS_CAP_NO_SIG in
  check (Z.land ctx.(rspCaps) cap =? 0) WOLFSPDM_E_CAPS_MISMATCH ;;;
  upd_ctx (fun c => c <| measBlockCount := 0 |> <| measRecordLen := 0 |>) ;;;
  when (negb (ctx.(l1l2State) =? WOLFSPDM_RUN_OPEN)) (on_ctx (wolfSPDM_RunStart L1L2)) ;;;
  let* req := on_ctx (wolfSPDM_BuildGetMeasurements (4 + SPDM_NONCE_SZ + 1 + SPDM_REQ_CONTEXT_SZ)
                        measOperation requestSignature) in
  let* rsp := wolfSPDM_SecuredExchange req WOLFSPDM_MEAS_RSP_SZ in
  let* sigOff := on_ctx (wolfSPDM_ParseMeasurements req rsp) in
  (if requestSignature then
     on_ctx (wolfSPDM_RunVerify L1L2 meas_label req rsp sigOff)
   else
     on_ctx (wolfSPDM_RunAdd L1L2 req rsp) ;;;
     upd_ctx (fun c => c <| l1l2State := WOLFSPDM_RUN_OPEN |>)) ;;;
  let recLen := meas_record_len rsp in
  check (recLen >? len ctx.(measRecord)) WOLFSPDM_E_BUFFER_SMALL ;;;
  let* rec := rd_sub rsp 8 recLen in
  let* ctx := get_ctx in
  let* a := wr ctx.(measRecord) 0 rec in
  upd_ctx (fun c => c <| measRecord := a |> <| measRecordLen := recLen |>
                      <| measBlockCount := at_ rsp 4 |>).

Definition wolfSPDM_Challenge (slotId measHashType : Z) : IOM unit :=
  let* ctx := get_ctx in
  check ((ctx.(state) <? WOLFSPDM_STATE_CERT) || (ctx.(state) =? WOLFSPDM_STATE_ERROR) ||
         (ctx.(m1State) =? WOLFSPDM_RUN_NONE) || negb (slotId =? ctx.(currentSlotId)))
    WOLFSPDM_E_BAD_STATE ;;;
  check (Z.land ctx.(rspCaps) SPDM_CAP_CHAL_CAP =? 0) WOLFSPDM_E_CAPS_MISMATCH ;;;
  on_ctx wolfSPDM_ValidateCertChain ;;;
  let* req := on_ctx (wolfSPDM_BuildChallenge (4 + SPDM_NONCE_SZ + SPDM_REQ_CONTEXT_SZ)
                        slotId measHashType) in
  let* rsp := wolfSPDM_ClearExchange req WOLFSPDM_CHAL_RSP_SZ in
  let* sigOff := on_ctx (wolfSPDM_ParseChallengeAuth req rsp) in
  on_ctx (wolfSPDM_RunVerify M1 chal_label req rsp sigOff) ;;;
  on_ctx wolfSPDM_M1Start.
End AttestIO.

(** ** Lemmas on running hashes *)

Section RunLemmas.
Context `{WolfCrypt} `{Config} `{!CryptSizes}.
Implicit Types c : WOLFSPDM_CTX.

(** The hash object that has absorbed the messages [ds] since [o], and its digest. *)
Definition sha_absorb (o : option wc_Sha384) (d : bytes) : option wc_Sha384 :=
  sha ← o; let '(rc, sha') := wc_Sha384Update sha d in if rc =? 0 then Some sha' else None.
Definition sha_run (o : option wc_Sha384) (ds : list bytes) : option wc_Sha384 :=
  fold_left sha_absorb ds o.
Definition run_digest (o : option wc_Sha384) (ds : list bytes) : option bytes :=
  sha ← sha_run o ds; wc_Sha384Final sha.

(** The run [r] of [c] is live and has absorbed [ds] since the object [o]. *)
Definition run_has (r : run) c (o : option wc_Sha384) (ds : list bytes) : Prop :=
  run_state r c <> WOLFSPDM_RUN_NONE /\ is_Some (run_hash r c) /\ run_hash r c = sha_run o ds.

Lemma sha_run_snoc o ds d : sha_run o (ds ++ [d]) = sha_absorb (sha_run o ds) d.
Proof. unfold sha_run. by rewrite fold_left_app. Qed.

(** What the attestation code changes: the two runs. *)
Definition runs_step c c' : Prop :=
  exists h s h' s', c' = c <| l1l2Hash := h |> <| l1l2State := s |>
                           <| m1Hash := h' |> <| m1State := s' |>.

Lemma runs_step_refl c : runs_step c c.
Proof. exists c.(l1l2Hash), c.(l1l2State), c.(m1Hash), c.(m1State). ctx_eq c. Qed.

Lemma runs_step_trans c1 c2 c3 : runs_step c1 c2 -> runs_step c2 c3 -> runs_step c1 c3.
Proof.
  intros (h & s & h' & s' & ->) (i & t & i' & t' & ->). exists i, t, i', t'. ctx_eq c1.
Qed.

Definition is_run (r : run) : Prop := r = L1L2 \/ r = M1.

(** Installing, replacing and freeing the object of a run. *)
Definition run_put (r : run) (sha : wc_Sha384) (s : Z) c : WOLFSPDM_CTX :=
  run_set_state r s (run_set_hash r (Some sha) c).
Definition run_clear (r : run) c : WOLFSPDM_CTX :=
  run_set_state r WOLFSPDM_RUN_NONE (run_set_hash r None c).

Lemma run_put_wf r sha s c : is_run r -> ctx_wf c -> ctx_wf (run_put r sha s c).
Proof.
  intros [-> | ->] [? ? ? (Hr & Hl & Hm)]; (split; [done..|]); unfold objects_ok, run_put;
    cbn [run_set_state run_set_hash L1L2 M1]; ctx_simpl; split_and!; done.
Qed.
Lemma run_clear_wf r c : is_run r -> ctx_wf c -> ctx_wf (run_clear r c).
Proof.
  intros [-> | ->] [? ? ? (Hr & Hl & Hm)]; (split; [done..|]); unfold objects_ok, run_clear;
    cbn [run_set_state run_set_hash L1L2 M1]; ctx_simpl; split_and!; done.
Qed.
Lemma run_put_step r sha s c : is_run r -> runs_step c (run_put r sha s c).
Proof.
  intros [-> | ->].
  - exists (Some sha), s, c.(m1Hash), c.(m1State). ctx_eq c.
  - exists c.(l1l2Hash), c.(l1l2State), (Some sha), s. ctx_eq c.
Qed.
Lemma run_clear_step r c : is_run r -> runs_step c (run_clear r c).
Proof.
  intros [-> | ->].
  - exists None, WOLFSPDM_RUN_NONE, c.(m1Hash), c.(m1State). ctx_eq c.
  - exists c.(l1l2Hash), c.(l1l2State), None, WOLFSPDM_RUN_NONE. ctx_eq c.
Qed.
Lemma run_put_get r sha s c : is_run r ->
  run_hash r (run_put r sha s c) = Some sha /\ run_state r (run_put r sha s c) = s.
Proof. by intros [-> | ->]; destruct c. Qed.
Lemma run_clear_get r c : is_run r -> run_state r (run_clear r c) = WOLFSPDM_RUN_NONE.
Proof. by intros [-> | ->]; destruct c. Qed.
Lemma run_put_same r sha c : is_run r ->
  run_set_hash r (Some sha) c = run_put r sha (run_state r c) c.
Proof. intros [-> | ->]; destruct c; reflexivity. Qed.

Lemma run_live r c : is_run r -> ctx_wf c -> run_state r c <> WOLFSPDM_RUN_NONE ->
  is_Some (run_hash r c).
Proof. intros [-> | ->] Hwf Hs; destruct (wf_objects _ Hwf) as (_ & Hl & Hm); auto. Qed.

Lemma run_free_wp r c (Q : unit -> WOLFSPDM_CTX -> Prop) E : is_run r ->
  is_Some (run_hash r c) -> Q tt (run_clear r c) -> wp (run_free r) Q E c.
Proof.
  intros Hr [sha Hs] HQ. unfold run_free, run_obj. do 3 wp_step. cbv beta. rewrite Hs.
  do 4 wp_step. exact HQ.
Qed.

Lemma run_update_wp r d c o ds (Q : unit -> WOLFSPDM_CTX -> Prop) (E : Z -> WOLFSPDM_CTX -> Prop) :
  is_run r -> ctx_wf c -> run_has r c o ds ->
  (forall c', ctx_wf c' -> runs_step c c' -> run_has r c' o (ds ++ [d]) ->
     run_state r c' = run_state r c -> Q tt c') ->
  (forall c', ctx_wf c' -> runs_step c c' -> run_state r c' = run_state r c ->
     E WOLFSPDM_E_CRYPTO_FAIL c') ->
  wp (run_update r d) Q E c.
Proof.
  intros Hr Hwf (Hst & [sha Hs] & Hds) HQ HE. unfold run_update, run_obj.
  do 3 wp_step. cbv beta. rewrite Hs. wp_step. destruct (wc_Sha384Update sha d) as [rc sha'] eqn:Hu.
  do 2 wp_step. cbv beta. rewrite run_put_same by done.
  pose proof (run_put_wf r sha' (run_state r c) c Hr Hwf) as Hwf1.
  pose proof (run_put_step r sha' (run_state r c) c Hr) as Hs1.
  destruct (run_put_get r sha' (run_state r c) c Hr) as [Hg1 Hg2].
  wp_step; [by apply HE|]. apply HQ; try done. split_and!; [by rewrite Hg2|by rewrite Hg1|].
  rewrite Hg1, sha_run_snoc, <- Hds, Hs. unfold sha_absorb; cbn. rewrite Hu.
  by replace (rc =? 0) with true by lia.
Qed.

Lemma RunAdd_wp r req rsp c o ds (Q : unit -> WOLFSPDM_CTX -> Prop) (E : Z -> WOLFSPDM_CTX -> Prop) :
  is_run r -> ctx_wf c -> run_has r c o ds ->
  (forall c', ctx_wf c' -> runs_step c c' -> run_has r c' o (ds ++ [req; rsp]) ->
     run_state r c' = run_state r c -> Q tt c') ->
  (forall c', ctx_wf c' -> runs_step c c' -> run_state r c' = run_state r c ->
     E WOLFSPDM_E_CRYPTO_FAIL c') ->
  wp (wolfSPDM_RunAdd r req rsp) Q E c.
Proof.
  intros Hr Hwf Hds HQ HE. unfold wolfSPDM_RunAdd. wp_step.
  eapply run_update_wp; [done|done|done| |by auto]. intros c1 Hwf1 Hs1 Hd1 Hst1.
  eapply run_update_wp; [done|done|done| |].
  - intros c2 Hwf2 Hs2 Hd2 Hst2. apply HQ; [done|by eapply runs_step_trans| |by rewrite Hst2].
    by rewrite <- app_assoc in Hd2.
  - intros c2 Hwf2 Hs2 Hst2. apply HE; [done|by eapply runs_step_trans|by rewrite Hst2].
Qed.

Lemma RunStart_wp r c (Q : unit -> WOLFSPDM_CTX -> Prop) (E : Z -> WOLFSPDM_CTX -> Prop) :
  is_run r -> ctx_wf c ->
  (forall c', ctx_wf c' -> runs_step c c' ->
     run_has r c' wc_InitSha384 [sub_bytes c.(transcript) 0 c.(vcaLen)] ->
     run_state r c' = WOLFSPDM_RUN_LIVE -> Q tt c') ->
  (forall c', ctx_wf c' -> runs_step c c' -> E WOLFSPDM_E_CRYPTO_FAIL c') ->
  wp (wolfSPDM_RunStart r) Q E c.
Proof.
  intros Hr Hwf HQ HE. wf_facts Hwf. unfold wolfSPDM_RunStart. do 2 wp_step. cbv beta. wp_step.
  apply (wp_mono _ (fun _ c1 => ctx_wf c1 /\ runs_step c c1) _ (fun _ _ => False)); [| |done].
  { apply wp_when; intros Hn; [|split; [done|apply runs_step_refl]].
    apply run_free_wp; [done|apply run_live; [done|done|lia]|].
    split; [by apply run_clear_wf|by apply run_clear_step]. }
  intros _ c1 [Hwf1 Hs1]. wp_step. wp_step; [|by apply HE]. do 4 (wp_step; cbv beta).
  match goal with |- wp _ _ _ (run_set_state _ _ (run_set_hash _ (Some ?o) _)) =>
    fold (run_put r o WOLFSPDM_RUN_LIVE c1); rename o into sha end.
  pose proof (run_put_wf r sha WOLFSPDM_RUN_LIVE c1 Hr Hwf1) as Hwf2.
  pose proof (runs_step_trans _ _ _ Hs1 (run_put_step r sha WOLFSPDM_RUN_LIVE c1 Hr)) as Hs2.
  destruct (run_put_get r sha WOLFSPDM_RUN_LIVE c1 Hr) as [Hg1 Hg2].
  wp_step. wp_step. eapply (run_update_wp r _ _ wc_InitSha384 []); [done|done| | |].
  - split_and!; [by rewrite Hg2|by rewrite Hg1|]. rewrite Hg1. symmetry. done.
  - intros c2 Hwf3 Hs3 Hd3 Hst3. apply HQ; [done|by eapply runs_step_trans|done|].
    by rewrite Hst3.
  - intros c2 Hwf3 Hs3 Hst3. apply HE; [done|by eapply runs_step_trans].
Qed.

(** The views a run step leaves alone. *)
Lemma runs_step_fields c c' : runs_step c c' ->
  session_view c' = session_view c /\ tr c' = tr c /\ identity c' = identity c /\
  c'.(vcaLen) = c.(vcaLen) /\ c'.(transcript) = c.(transcript) /\
  c'.(transcriptLen) = c.(transcriptLen).
Proof. intros (h & s & h' & s' & ->). by destruct c. Qed.

Lemma rsp_sig_ok_runs c c' l d sg : runs_step c c' -> rsp_sig_ok c l d sg <-> rsp_sig_ok c' l d sg.
Proof.
  intros (h & s & h' & s' & ->). unfold rsp_sig_ok, wolfSPDM_SigSize, wolfSPDM_RspMlDsaLevel,
    wolfSPDM_IsTcgMode. ctx_simpl. done.
Qed.

(** Closing a run: the responder's key accepts the signature over everything
    the run absorbed, this request and the response up to its signature. *)
Lemma RunVerify_wp r label req rsp sigOff c o ds (Q : unit -> WOLFSPDM_CTX -> Prop)
    (E : Z -> WOLFSPDM_CTX -> Prop) :
  is_run r -> ctx_wf c -> run_has r c o ds -> len label <= 36 ->
  0 <= sigOff -> sigOff + wolfSPDM_SigSize c <= len rsp ->
  (forall c' digest, ctx_wf c' -> runs_step c c' -> run_state r c' = WOLFSPDM_RUN_NONE ->
     run_digest o (ds ++ [req; sub_bytes rsp 0 sigOff]) = Some digest ->
     rsp_sig_ok c label digest (sub_bytes rsp sigOff (wolfSPDM_SigSize c)) -> Q tt c') ->
  (forall rc c', rc < 0 -> ctx_wf c' -> runs_step c c' ->
     run_state r c' = WOLFSPDM_RUN_NONE -> E rc c') ->
  wp (wolfSPDM_RunVerify r label req rsp sigOff) Q E c.
Proof.
  intros Hr Hwf Hds Hll Ho Hl HQ HE. pose proof (SigSize_pos c). unfold wolfSPDM_RunVerify.
  wp_step. wp_step.
  set (post := fun (res : bytes + Z) c1 => ctx_wf c1 /\ runs_step c c1 /\
    run_state r c1 <> WOLFSPDM_RUN_NONE /\
    match res with
    | inl d => run_digest o (ds ++ [req; sub_bytes rsp 0 sigOff]) = Some d /\
               len d = WOLFSPDM_HASH_SIZE
    | inr rc => rc < 0 end).
  apply (wp_mono _ (fun d => post (inl d)) _ (fun rc => post (inr rc))).
  { wp_step. wp_step. wp_step. destruct Hds as [Hst Hds].
    eapply RunAdd_wp; [done|done|by split| |].
    2: { intros c1 Hwf1 Hs1 Hst1. split_and!; try done. by rewrite Hst1. }
    intros c1 Hwf1 Hs1 (Hst1 & [sha Hsha] & Hd1) Hst1'. unfold run_obj. do 3 wp_step. cbv beta.
    rewrite Hsha. wp_step. wp_step.
    - destruct (sha_size _ _ ltac:(eassumption)) as [? _]. split_and!; try done.
      unfold run_digest. rewrite <- Hd1, Hsha. done.
    - by split_and!. }
  - intros d c1 (Hwf1 & Hs1 & Hst1 & Hd & Hdl). wp_step.
    apply run_free_wp; [done|by apply run_live|].
    pose proof (run_clear_wf r c1 Hr Hwf1) as Hwf2.
    pose proof (runs_step_trans _ _ _ Hs1 (run_clear_step r c1 Hr)) as Hs2.
    pose proof (run_clear_get r c1 Hr) as Hst2.
    revert Hwf2 Hs2 Hst2. generalize (run_clear r c1). intros c2 Hwf2 Hs2 Hst2.
    do 2 wp_step. cbv beta.
    assert (wolfSPDM_SigSize c2 = wolfSPDM_SigSize c) as Hsz.
    { destruct Hs2 as (h & s & h' & s' & ->). unfold wolfSPDM_SigSize, wolfSPDM_RspMlDsaLevel,
        wolfSPDM_IsTcgMode. by ctx_simpl. }
    rewrite Hsz. wp_step. wp_step.
    apply VerifyRspSig_wp; [done|done|done| |intros; by apply HE].
    intros Hok. eapply HQ; try done. by eapply rsp_sig_ok_runs.
  - intros rc c1 (Hwf1 & Hs1 & Hst1 & Hrc). wp_step.
    apply run_free_wp; [done|by apply run_live|]. wp_step.
    apply HE; [done|by apply run_clear_wf| |by apply run_clear_get].
    eapply runs_step_trans; [done|by apply run_clear_step].
Qed.
End RunLemmas.

(** ** Lemmas on the messages *)

Lemma meas_record_len_range b : is_bytes b -> 0 <= meas_record_len b < 2 ^ 24.
Proof.
  intros Hb. pose proof (is_byte_at b 5 Hb). pose proof (is_byte_at b 6 Hb).
  pose proof (is_byte_at b 7 Hb). unfold is_byte in *. unfold meas_record_len.
  rewrite (lor_shiftl_add (at_ b 5)) by lia. rewrite lor_shiftl_add by lia. lia.
Qed.

(** [n] measurement blocks exactly fill [buf] from [off] to [rend]. *)
Fixpoint blocks_ok (n : nat) (buf : bytes) (off rend : Z) : Prop :=
  match n with
  | O => off = rend
  | S n' => off + WOLFSPDM_MEAS_BLOCK_HDR_SZ <= rend /\
      blocks_ok n' buf (off + (WOLFSPDM_MEAS_BLOCK_HDR_SZ +
        SPDM_Get16LE (sub_bytes buf (off + 2) 2))) rend
  end.

Lemma blocks_ok_le n buf off rend : blocks_ok n buf off rend -> off <= rend.
Proof.
  revert off. induction n as [|n IH]; intros off; cbn [blocks_ok]; [lia|].
  intros [Hl _]. unfold WOLFSPDM_MEAS_BLOCK_HDR_SZ in *. lia.
Qed.

Lemma meas_walk_wp {St} n buf off rend (Q : nat * Z -> St -> Prop) (E : Z -> St -> Prop) s :
  0 <= off -> rend <= len buf ->
  (forall m o, (m = 0%nat -> o = rend -> blocks_ok n buf off rend) -> Q (m, o) s) ->
  wp (meas_walk n buf off rend) Q E s.
Proof.
  revert off. induction n as [|n IH]; intros off Ho Hr HQ; cbn [meas_walk].
  - wp_step. apply HQ. intros _ ->. done.
  - unfold WOLFSPDM_MEAS_BLOCK_HDR_SZ in *. wp_step.
    + io_step. io_step. apply IH; [lia|done|]. intros m o Hm. apply HQ. intros Hz Ho'.
      cbn [blocks_ok]. unfold WOLFSPDM_MEAS_BLOCK_HDR_SZ. split; [lia|]. subst. auto.
    + wp_step. apply HQ. done.
Qed.

Section MessageLemmas.
Context `{WolfCrypt} `{Config} `{!CryptSizes}.
Implicit Types c : WOLFSPDM_CTX.

Lemma ReqContextSz_cases c : wolfSPDM_ReqContextSz c = 0 \/ wolfSPDM_ReqContextSz c = 8.
Proof. unfold wolfSPDM_ReqContextSz. case_match; auto. Qed.

Lemma ParseTail_wp {St} c req buf off sigSz (Q : option Z -> St -> Prop) (E : Z -> St -> Prop) s :
  0 <= off -> 0 <= sigSz ->
  (forall sigOff, off + 2 <= sigOff -> sigOff + sigSz = len buf ->
     sub_bytes buf (sigOff - wolfSPDM_ReqContextSz c) (wolfSPDM_ReqContextSz c) =
     sub_bytes req (len req - wolfSPDM_ReqContextSz c) (wolfSPDM_ReqContextSz c) ->
     Q (Some sigOff) s) -> Q None s ->
  wp (wolfSPDM_ParseTail c req buf off sigSz) Q E s.
Proof.
  intros Ho Hs HQ HN. pose proof (ReqContextSz_cases c). unfold wolfSPDM_ParseTail.
  io_step; [by io_step|]. io_step. io_step. io_step; [by io_step|].
  io_step. io_step. io_step. io_step. io_step; [|by io_step]. io_step.
  apply HQ; [lia|lia|]. apply bytes_eqb_eq in Heqb1. rewrite <- Heqb1. f_equal. lia.
Qed.

Lemma BuildGetMeasurements_wp bufSz op (sg : bool) c (Q : bytes -> WOLFSPDM_CTX -> Prop)
    (E : Z -> WOLFSPDM_CTX -> Prop) : ctx_wf c ->
  (forall m c', ctx_wf c' -> rng_step c c' -> 4 <= len m -> len m <= bufSz ->
     at_ m 2 = (if sg then SPDM_MEAS_REQUEST_SIG_BIT else 0) -> Q m c') ->
  (forall rc c', rc < 0 -> ctx_wf c' -> rng_step c c' -> E rc c') ->
  wp (wolfSPDM_BuildGetMeasurements bufSz op sg) Q E c.
Proof.
  intros Hwf HQ HE. pose proof (ReqContextSz_cases c) as Hsz.
  assert (rng_step c c) as Hs0 by (by left). unfold wolfSPDM_BuildGetMeasurements.
  do 2 wp_step. cbv beta zeta. wp_step; wp_step; [by apply HE|]. wp_step.
  apply (wp_mono _ (fun n c1 => ctx_wf c1 /\ rng_step c c1 /\
      len n = if sg then SPDM_NONCE_SZ + 1 else 0) _
    (fun rc (c1 : WOLFSPDM_CTX) => rc < 0 /\ ctx_wf c1 /\ rng_step c c1)).
  { destruct sg; [|by wp_step]. wp_step. apply GetRandom_wp; [done|done| |done|].
    - intros r b Hl _ Hw. wp_step. split_and!; [done|right; eauto|].
      rewrite len_app, Hl. reflexivity.
    - intros r Hw. split_and!; [done|done|right; eauto]. }
  2: { intros rc c1 (? & ? & ?). by apply HE. }
  intros n c1 (Hwf1 & Hs1 & Hn). wp_step.
  apply (wp_mono _ (fun n c2 => ctx_wf c2 /\ rng_step c c2 /\ len n = wolfSPDM_ReqContextSz c) _
    (fun rc (c1 : WOLFSPDM_CTX) => rc < 0 /\ ctx_wf c1 /\ rng_step c c1)).
  { assert (forall r, rng_step c (set_rng r c1)) as Hr.
    { intros r. right. destruct Hs1 as [-> | [r' ->]]; exists r; [done|ctx_eq c]. }
    wp_step; [|wp_step; split_and!; [done|done|rewrite len_nil; lia]].
    apply GetRandom_wp; [done|lia|by auto|done|]. intros r Hw. by split_and!. }
  2: { intros rc c2 (? & ? & ?). by apply HE. }
  intros x c2 (Hwf2 & Hs2 & Hx). pose proof (len_nonneg n). wp_step.
  apply HQ; [done|done| | |by destruct sg]; rewrite !len_app, Hn, Hx, !len_cons, len_nil;
    destruct sg; unfold SPDM_NONCE_SZ in *; lia.
Qed.

(** A MEASUREMENTS response that is accepted. *)
Definition meas_rsp_ok c (req buf : bytes) (sigOff : Z) : Prop :=
  at_ buf 1 = SPDM_MEASUREMENTS /\ at_ buf 0 = c.(spdmVersion) /\
  8 + meas_record_len buf <= len buf /\
  blocks_ok (Z.to_nat (at_ buf 4)) buf 8 (8 + meas_record_len buf) /\
  8 + meas_record_len buf + SPDM_NONCE_SZ + 2 <= sigOff /\
  sigOff + (if Z.land (at_ req 2) SPDM_MEAS_REQUEST_SIG_BIT =? 0 then 0
            else wolfSPDM_SigSize c) = len buf /\
  sub_bytes buf (sigOff - wolfSPDM_ReqContextSz c) (wolfSPDM_ReqContextSz c) =
  sub_bytes req (len req - wolfSPDM_ReqContextSz c) (wolfSPDM_ReqContextSz c).

Lemma ParseMeasurements_wp req buf c (Q : Z -> WOLFSPDM_CTX -> Prop)
    (E : Z -> WOLFSPDM_CTX -> Prop) : is_bytes buf -> 4 <= len req ->
  (forall sigOff, meas_rsp_ok c req buf sigOff -> Q sigOff c) ->
  (forall rc c', rc < 0 -> err_step c c' -> E rc c') ->
  wp (wolfSPDM_ParseMeasurements req buf) Q E c.
Proof.
  intros Hb Hreq HQ HE. assert (err_step c c) as Hs0 by (by left).
  pose proof (SigSize_pos c) as Hsp. pose proof (meas_record_len_range buf Hb) as Hml.
  unfold wolfSPDM_ParseMeasurements.
  wp_step. apply CHECK_PARSE_OR_ERROR_wp; [|intros; by apply HE]. intros Hl Hor.
  wp_step; wp_step; [by apply HE|].
  wp_step. apply CHECK_RESPONSE_wp; [done| |intros; apply HE; [done|right; eauto]|intros; by apply HE].
  intros Hcode. assert (8 <= len buf) by (destruct Hor as [|[_ Hr]]; [done|by rewrite Hcode in Hr]).
  do 2 wp_step. cbv beta. wp_step. apply wp_rd; [lia|]. intros p ->.
  change (nth (Z.to_nat 2) req 0) with (at_ req 2).
  set (sg := negb (Z.land (at_ req 2) SPDM_MEAS_REQUEST_SIG_BIT =? 0)).
  wp_step. wp_step. set (hdr := sub_bytes buf 0 8).
  assert (meas_record_len hdr = meas_record_len buf) as ->
    by (unfold meas_record_len, hdr; by rewrite !at_sub_0 by lia).
  assert (at_ hdr 0 = at_ buf 0 /\ at_ hdr 3 = at_ buf 3 /\ at_ hdr 4 = at_ buf 4) as (-> & -> & ->)
    by (unfold hdr; by rewrite !at_sub_0 by lia).
  wp_step; wp_step; [by apply HE|].
  wp_step. apply meas_walk_wp; [lia|lia|]. intros m o Hm. wp_step.
  wp_step; [by apply HE|]. wp_step. unfold SPDM_NONCE_SZ in *.
  apply ParseTail_wp; [lia|destruct sg; lia| |by apply HE].
  intros sigOff Ho Hsz Hecho. apply HQ. unfold meas_rsp_ok, SPDM_NONCE_SZ.
  split_and!; [done|lia|lia|apply Hm|lia| |done].
  - destruct m; [done|]. match goal with Hx : negb (Nat.eqb _ _) || _ = false |- _ => done end.
  - lia.
  - unfold sg in Hsz. by destruct (Z.land (at_ req 2) SPDM_MEAS_REQUEST_SIG_BIT =? 0).
Qed.
End MessageLemmas.

(** ** The exchanges *)

Section ExchangeLemmas.
Context `{WolfCrypt} `{Config} `{!CryptSizes} `{!RecordFits}
  {W : Type} `{!Transport W} `{!TransportBytes}.
Implicit Types c : WOLFSPDM_CTX.

(** A context up to what exchanges and attestation may change: two contexts
    with the same core have the same session, keys, transcript and trust. *)
Definition core c : WOLFSPDM_CTX :=
  c <| fipsIndicator := 0 |> <| rng := None |> <| reqSeqNum := 0 |> <| rspSeqNum := 0 |>
    <| lastPeerErrorCode := 0 |> <| chunkHandle := 0 |> <| l1l2Hash := None |>
    <| l1l2State := 0 |> <| m1Hash := None |> <| m1State := 0 |> <| measRecordLen := 0 |>
    <| measBlockCount := 0 |> <| measRecord := [] |>.

Lemma core_xfer b c c' : xfer b c c' -> core c' = core c.
Proof. intros (f & r & q & p & e & h & l & -> & _). by destruct c. Qed.
Lemma core_runs c c' : runs_step c c' -> core c' = core c.
Proof. intros (h & s & h' & s' & ->). by destruct c. Qed.
Lemma core_rng c c' : rng_step c c' -> core c' = core c.
Proof. intros [-> | [r ->]]; by destruct c. Qed.
Lemma core_err c c' : err_step c c' -> core c' = core c.
Proof. intros [-> | [e ->]]; by destruct c. Qed.

(** What equal cores share. *)
Lemma core_fields c c' : core c' = core c ->
  c'.(state) = c.(state) /\ c'.(spdmVersion) = c.(spdmVersion) /\ c'.(mode) = c.(mode) /\
  c'.(vcaLen) = c.(vcaLen) /\ c'.(transcript) = c.(transcript) /\
  c'.(transcriptLen) = c.(transcriptLen) /\ c'.(rspCaps) = c.(rspCaps) /\
  c'.(pqcAsymSel) = c.(pqcAsymSel) /\ c'.(flags) = c.(flags) /\
  c'.(rspPubKey) = c.(rspPubKey) /\ c'.(rspPubKeyLen) = c.(rspPubKeyLen) /\
  c'.(currentSlotId) = c.(currentSlotId) /\ c'.(certChainHash) = c.(certChainHash).
Proof.
  intros Hc. split_and!;
    match goal with |- ?p _ = _ => exact (f_equal p Hc) end.
Qed.

Lemma core_SigSize c c' : core c' = core c -> wolfSPDM_SigSize c' = wolfSPDM_SigSize c.
Proof.
  intros (_ & _ & Hm & _ & _ & _ & _ & Hp & _)%core_fields.
  unfold wolfSPDM_SigSize, wolfSPDM_RspMlDsaLevel, wolfSPDM_IsTcgMode. by rewrite Hm, Hp.
Qed.

Lemma core_rsp_sig_ok c c' l d sg : core c' = core c -> rsp_sig_ok c' l d sg -> rsp_sig_ok c l d sg.
Proof.
  intros Hc. pose proof (core_SigSize _ _ Hc) as Hs.
  apply core_fields in Hc as (_ & Hv & Hm & _ & _ & _ & _ & Hp & Hf & Hk & Hl & _).
  assert (wolfSPDM_RspMlDsaLevel c' = wolfSPDM_RspMlDsaLevel c) as Hr
    by (unfold wolfSPDM_RspMlDsaLevel, wolfSPDM_IsTcgMode; by rewrite Hm, Hp).
  unfold rsp_sig_ok. by rewrite Hs, Hr, Hv, Hf, Hk, Hl.
Qed.

(** A run survives the steps between its messages. *)
Lemma run_has_same r c c' o ds : run_state r c' <> WOLFSPDM_RUN_NONE ->
  run_hash r c' = run_hash r c -> run_has r c o ds -> run_has r c' o ds.
Proof. unfold run_has. intros Hs -> (? & ? & ?). done. Qed.

Lemma run_has_xfer b r c c' o ds : is_run r -> xfer b c c' -> run_has r c o ds -> run_has r c' o ds.
Proof.
  intros Hr (f & g & q & p & e & h & l & -> & _ & Hl) Hh. apply (run_has_same r c); [|by destruct Hr as [-> | ->], c|done].
  destruct Hh as [Hst _]. destruct Hr as [-> | ->]; cbn [run_state L1L2 M1] in *.
  - change (l <> WOLFSPDM_RUN_NONE). destruct Hl as [-> | [? ->]]; done.
  - by destruct c.
Qed.

Lemma run_has_rng r c c' o ds : is_run r -> rng_step c c' -> run_has r c o ds -> run_has r c' o ds.
Proof. intros Hr Hs. apply (run_has_xfer false); [done|by apply xfer_rng]. Qed.

(** The stored measurements: whole blocks that fill the stored record. *)
Definition meas_ok c : Prop :=
  blocks_ok (Z.to_nat c.(measBlockCount)) c.(measRecord) 0 c.(measRecordLen).

Definition no_meas c : WOLFSPDM_CTX := c <| measBlockCount := 0 |> <| measRecordLen := 0 |>.

Lemma no_meas_ok c : meas_ok (no_meas c).
Proof. destruct c. done. Qed.

Lemma no_meas_wf c : ctx_wf c -> ctx_wf (no_meas c).
Proof. intros. unfold no_meas. wf_tac. Qed.

(** Blocks of a message are blocks of its record. *)
Lemma blocks_ok_shift n buf k off rend rec : 0 <= off -> 0 <= k ->
  (forall o, off <= o -> o + 2 <= rend -> sub_bytes rec o 2 = sub_bytes buf (k + o) 2) ->
  blocks_ok n buf (k + off) (k + rend) -> blocks_ok n rec off rend.
Proof.
  revert off. induction n as [|n IH]; intros off Ho Hk Hs; cbn [blocks_ok]; [lia|].
  unfold WOLFSPDM_MEAS_BLOCK_HDR_SZ. intros [Hl Hb]. split; [lia|].
  rewrite (Hs (off + 2)) by lia.
  pose proof (w16_range (Z.lor (at_ (sub_bytes buf (k + (off + 2)) 2) 0)
    (Z.shiftl (at_ (sub_bytes buf (k + (off + 2)) 2) 1) 8))) as Hr.
  change (w16 _) with (SPDM_Get16LE (sub_bytes buf (k + (off + 2)) 2)) in Hr.
  apply IH; [lia|done|intros; apply Hs; lia|].
  replace (k + (off + 2)) with (k + off + 2) by lia.
  replace (k + (off + (4 + SPDM_Get16LE (sub_bytes buf (k + off + 2) 2))))
    with (k + off + (4 + SPDM_Get16LE (sub_bytes buf (k + off + 2) 2))) by lia. done.
Qed.

Lemma sub_bytes_sub b i n o m : 0 <= i -> 0 <= o -> 0 <= m -> o + m <= n ->
  sub_bytes (sub_bytes b i n) o m = sub_bytes b (i + o) m.
Proof.
  intros. unfold sub_bytes. change (@take Z) with (@firstn Z). change (@drop Z) with (@skipn Z).
  rewrite skipn_firstn_comm, firstn_firstn.
  replace (Nat.min (Z.to_nat m) (Z.to_nat n - Z.to_nat o)) with (Z.to_nat m) by lia.
  by rewrite (drop_drop_Z b).
Qed.

Lemma sub_bytes_splice_head b d o m : 0 <= o -> 0 <= m -> o + m <= len d -> len d <= len b ->
  sub_bytes (splice b 0 d) o m = sub_bytes d o m.
Proof.
  intros. replace (sub_bytes (splice b 0 d) o m)
    with (sub_bytes (sub_bytes (splice b 0 d) 0 (len d)) o m) by (by rewrite sub_bytes_sub by lia).
  rewrite (sub_bytes_splice b 0 d (len d)) by lia. done.
Qed.

(** L1/L2 before a request: the open run, or a fresh one at the VCA. *)
Definition l1l2_start c : option wc_Sha384 :=
  if c.(l1l2State) =? WOLFSPDM_RUN_OPEN then c.(l1l2Hash) else wc_InitSha384.
Definition l1l2_before c : list bytes :=
  if c.(l1l2State) =? WOLFSPDM_RUN_OPEN then [] else [sub_bytes c.(transcript) 0 c.(vcaLen)].

(** What a successful request for measurements guarantees. *)
Definition meas_result (sg : bool) c c' : Prop :=
  core c' = core c /\ meas_ok c' /\
  exists req rsp sigOff, meas_rsp_ok c req rsp sigOff /\
    c'.(measRecordLen) = meas_record_len rsp /\ c'.(measBlockCount) = at_ rsp 4 /\
    sub_bytes c'.(measRecord) 0 c'.(measRecordLen) = sub_bytes rsp 8 c'.(measRecordLen) /\
    (sg = true -> exists digest,
       run_digest (l1l2_start c) (l1l2_before c ++ [req; sub_bytes rsp 0 sigOff]) = Some digest /\
       rsp_sig_ok c meas_label digest (sub_bytes rsp sigOff (wolfSPDM_SigSize c))).

Lemma is_run_L : is_run L1L2.
Proof. by left. Qed.
Lemma is_run_M : is_run M1.
Proof. by right. Qed.

(** The capability a request for measurements needs of the responder. *)
Definition meas_capable (sg : bool) c : Prop :=
  Z.land c.(rspCaps) (if sg then SPDM_CAP_MEAS_CAP_SIG
                      else Z.lor SPDM_CAP_MEAS_CAP_SIG SPDM_CAP_MEAS_CAP_NO_SIG) <> 0.

(** On failure the session is untouched.  A call refused outright, outside a
    session or without the responder's capability, changes nothing at all, the
    record of an earlier call included; a call that got further leaves no
    measurement to report. *)
Definition meas_failed (sg : bool) c (rc : Z) (s : WOLFSPDM_CTX * W) : Prop :=
  rc < 0 /\ ctx_wf s.1 /\ core s.1 = core c /\
  ((c.(state) <> WOLFSPDM_STATE_CONNECTED /\ rc = WOLFSPDM_E_NOT_CONNECTED /\ s.1 = c) \/
   (c.(state) = WOLFSPDM_STATE_CONNECTED /\ ~ meas_capable sg c /\
      rc = WOLFSPDM_E_CAPS_MISMATCH /\ s.1 = c) \/
   (c.(state) = WOLFSPDM_STATE_CONNECTED /\ meas_capable sg c /\
      s.1.(measBlockCount) = 0 /\ s.1.(measRecordLen) = 0)).

(** Absorbing the exchange: verified and closed, or left open. *)
Definition absorb (sg : bool) (req rsp : bytes) (sigOff : Z) : M (WOLFSPDM_CTX * W) unit :=
  if sg then on_ctx (wolfSPDM_RunVerify L1L2 meas_label req rsp sigOff)
  else
    on_ctx (wolfSPDM_RunAdd L1L2 req rsp) ;;;
    upd_ctx (fun c => c <| l1l2State := WOLFSPDM_RUN_OPEN |>).

Lemma absorb_wp (sg : bool) req rsp sigOff c o ds (w : W) (Q : unit -> WOLFSPDM_CTX * W -> Prop)
    (E : Z -> WOLFSPDM_CTX * W -> Prop) :
  ctx_wf c -> run_has L1L2 c o ds -> 0 <= sigOff ->
  (sg = true -> sigOff + wolfSPDM_SigSize c <= len rsp) ->
  (forall c', ctx_wf c' -> runs_step c c' ->
     (sg = true -> exists digest, run_digest o (ds ++ [req; sub_bytes rsp 0 sigOff]) = Some digest /\
        rsp_sig_ok c meas_label digest (sub_bytes rsp sigOff (wolfSPDM_SigSize c))) ->
     Q tt (c', w)) ->
  (forall rc c', rc < 0 -> ctx_wf c' -> runs_step c c' -> E rc (c', w)) ->
  wp (absorb sg req rsp sigOff) Q E (c, w).
Proof.
  intros Hwf Hr Ho Hl HQ HE. unfold absorb. destruct sg.
  - io_step. eapply RunVerify_wp; [apply is_run_L|done|done|done|done|by apply Hl| |].
    + intros c' digest Hw Hs _ Hd Hok. apply HQ; [done|done|eauto].
    + intros rc c' Hrc Hw Hs _. by apply HE.
  - io_step. io_step. eapply RunAdd_wp; [apply is_run_L|done|done| |].
    + intros c' Hw Hs (_ & Hh & _) Hst. io_step. apply HQ; [| |done].
      * destruct Hw as [? ? ? (Hg & Hl2 & Hm)]. by split.
      * eapply runs_step_trans; [done|].
        exists c'.(l1l2Hash), WOLFSPDM_RUN_OPEN, c'.(m1Hash), c'.(m1State). ctx_eq c'.
    + intros c' Hw Hs _. by apply HE.
Qed.

(** Storing the record of an accepted response. *)
Lemma store_meas_wp c cc req rsp sigOff (w : W) (Q : unit -> WOLFSPDM_CTX * W -> Prop)
    (E : Z -> WOLFSPDM_CTX * W -> Prop) :
  ctx_wf c -> is_bytes rsp -> meas_rsp_ok cc req rsp sigOff ->
  (forall c', ctx_wf c' -> core c' = core c -> meas_ok c' ->
     c'.(measRecordLen) = meas_record_len rsp -> c'.(measBlockCount) = at_ rsp 4 ->
     sub_bytes c'.(measRecord) 0 c'.(measRecordLen) = sub_bytes rsp 8 c'.(measRecordLen) ->
     Q tt (c', w)) ->
  E WOLFSPDM_E_BUFFER_SMALL (c, w) ->
  wp (check (meas_record_len rsp >? WOLFSPDM_MAX_MEAS_RECORD) WOLFSPDM_E_BUFFER_SMALL ;;;
      let* rec := rd_sub rsp 8 (meas_record_len rsp) in
      let* ctx := get_ctx in
      let* a := wr ctx.(measRecord) 0 rec in
      upd_ctx (fun c => c <| measRecord := a |> <| measRecordLen := meas_record_len rsp |>
                          <| measBlockCount := at_ rsp 4 |>)) Q E (c, w).
Proof.
  intros Hwf Hb (_ & _ & Hle & Hblk & _) HQ HE. wf_facts Hwf.
  pose proof (meas_record_len_range rsp Hb) as Hr. set (n := meas_record_len rsp) in *.
  assert (len (sub_bytes rsp 8 n) = n) as Hl by (apply len_sub_bytes; lia).
  io_step; io_step; [done|]. io_step. io_step. io_step. io_step. io_step. io_step. io_step.
  apply HQ.
  - wf_tac.
  - by destruct c.
  - unfold meas_ok. ctx_simpl. apply (blocks_ok_shift _ rsp 8 0 n); [lia|lia| |done].
    intros o Ho1 Ho2. rewrite sub_bytes_splice_head by lia. by rewrite sub_bytes_sub by lia.
  - by destruct c.
  - by destruct c.
  - ctx_simpl. rewrite sub_bytes_splice_head by lia. by apply sub_bytes_all.
Qed.

Lemma core_step c c1 c2 : core c1 = core c -> core c2 = core c1 -> core c2 = core c.
Proof. congruence. Qed.

Lemma xfer_meas b c c' : xfer b c c' ->
  c'.(measBlockCount) = c.(measBlockCount) /\ c'.(measRecordLen) = c.(measRecordLen).
Proof. intros (f & r & q & p & e & h & l & -> & _). by destruct c. Qed.
Lemma runs_meas c c' : runs_step c c' ->
  c'.(measBlockCount) = c.(measBlockCount) /\ c'.(measRecordLen) = c.(measRecordLen).
Proof. intros (f & r & q & p & ->). by destruct c. Qed.
Lemma err_meas c c' : err_step c c' ->
  c'.(measBlockCount) = c.(measBlockCount) /\ c'.(measRecordLen) = c.(measRecordLen).
Proof. intros [-> | [e ->]]; by destruct c. Qed.
Lemma rng_meas c c' : rng_step c c' ->
  c'.(measBlockCount) = c.(measBlockCount) /\ c'.(measRecordLen) = c.(measRecordLen).
Proof. intros [-> | [e ->]]; by destruct c. Qed.

Lemma cleared c c' : c'.(measBlockCount) = c.(measBlockCount) /\ c'.(measRecordLen) = c.(measRecordLen) ->
  c.(measBlockCount) = 0 /\ c.(measRecordLen) = 0 -> c'.(measBlockCount) = 0 /\ c'.(measRecordLen) = 0.
Proof. intros [-> ->] ?. done. Qed.

Lemma core_no_meas c : core (no_meas c) = core c.
Proof. by destruct c. Qed.

(** Steps before the exchange keep the L1/L2 prefix. *)
Lemma meas_open_wp c (w : W) (Q : unit -> WOLFSPDM_CTX * W -> Prop) (E : Z -> WOLFSPDM_CTX * W -> Prop) :
  ctx_wf c ->
  (forall c', ctx_wf c' -> runs_step c c' -> run_has L1L2 c' (l1l2_start c) (l1l2_before c) ->
     Q tt (c', w)) ->
  (forall rc c', rc < 0 -> ctx_wf c' -> runs_step c c' -> E rc (c', w)) ->
  wp (when (negb (c.(l1l2State) =? WOLFSPDM_RUN_OPEN)) (on_ctx (wolfSPDM_RunStart L1L2))) Q E (c, w).
Proof.
  intros Hwf HQ HE. unfold l1l2_start, l1l2_before in HQ. apply wp_when; intros Ho.
  - io_step. apply RunStart_wp; [apply is_run_L|done| |intros; by apply HE].
    intros c' Hw Hs Hh _. apply HQ; [done|done|].
    by replace (l1l2State c =? WOLFSPDM_RUN_OPEN) with false by lia.
  - apply HQ; [done|apply runs_step_refl|].
    assert (l1l2State c = WOLFSPDM_RUN_OPEN) as Hs by lia. rewrite Hs, Z.eqb_refl.
    split_and!; [|apply run_live; [apply is_run_L|done|]|done]; cbn [run_state L1L2]; by rewrite Hs.
Qed.

Lemma GetMeasurements_wp op (sg : bool) c (w : W) (Q : unit -> WOLFSPDM_CTX * W -> Prop)
    (E : Z -> WOLFSPDM_CTX * W -> Prop) :
  ctx_wf c ->
  (forall c' w', ctx_wf c' -> c.(state) = WOLFSPDM_STATE_CONNECTED ->
     meas_capable sg c -> meas_result sg c c' -> Q tt (c', w')) ->
  (forall rc s, meas_failed sg c rc s -> E rc s) ->
  wp (wolfSPDM_GetMeasurements op sg) Q E (c, w).
Proof.
  intros Hwf HQ HE. wf_facts Hwf.
  assert (len (measRecord c) = WOLFSPDM_MAX_MEAS_RECORD) as Hmr by done.
  unfold wolfSPDM_GetMeasurements. do 2 io_step. io_step; io_step.
  { apply HE. split_and!; [done|done|done|]. left. split_and!; [lia|done..]. }
  assert (state c = WOLFSPDM_STATE_CONNECTED) as Hst by lia.
  cbv zeta. io_step; io_step.
  { apply HE. split_and!; [done|done|done|]. right. left. unfold meas_capable.
    split_and!; [lia|lia|done..]. }
  assert (meas_capable sg c) as Hcap by (unfold meas_capable; lia).
  assert (forall rc c' w', rc < 0 -> ctx_wf c' -> core c' = core c ->
    c'.(measBlockCount) = 0 /\ c'.(measRecordLen) = 0 -> E rc (c', w')) as HE1.
  { intros rc c' w' Hrc Hw Hc Hm. apply HE. split_and!; [done|done|done|]. right. by right. }
  io_step. io_step. fold (no_meas c).
  pose proof (no_meas_wf _ Hwf) as Hwf0. pose proof (core_no_meas c) as Hc0.
  assert (measBlockCount (no_meas c) = 0 /\ measRecordLen (no_meas c) = 0) as Hm0 by (by destruct c).
  assert (l1l2State (no_meas c) = l1l2State c /\ l1l2_start (no_meas c) = l1l2_start c /\
    l1l2_before (no_meas c) = l1l2_before c) as (Hl & Hls & Hlb) by (by destruct c).
  rewrite <- Hl. clear Hl. revert Hwf0 Hc0 Hm0 Hls Hlb.
  generalize (no_meas c). intros c0 Hwf0 Hc0 Hm0 Hls Hlb. io_step.
  apply meas_open_wp; [done| |].
  2: { intros rc c1 Hrc Hw1 Hs1. apply HE1; [done|done| |].
       - eapply core_step; [done|by apply core_runs].
       - eapply cleared; [by apply runs_meas|done]. }
  intros c1 Hwf1 Hs1 Hr1. rewrite Hls, Hlb in Hr1. pose proof (core_step _ _ _ Hc0 (core_runs _ _ Hs1)) as Hc1.
  pose proof (cleared _ _ (runs_meas _ _ Hs1) Hm0) as Hm1.
  io_step. io_step. apply BuildGetMeasurements_wp; [done| |].
  2: { intros rc c2 Hrc Hw2 Hs2. apply HE1; [done|done| |].
       - eapply core_step; [done|by apply core_rng].
       - eapply cleared; [by apply rng_meas|done]. }
  intros req c2 Hwf2 Hs2 Hreq4 Hreq Hreq2.
  pose proof (core_step _ _ _ Hc1 (core_rng _ _ Hs2)) as Hc2.
  pose proof (cleared _ _ (rng_meas _ _ Hs2) Hm1) as Hm2.
  pose proof (run_has_rng L1L2 _ _ _ _ is_run_L Hs2 Hr1) as Hr2.
  io_step. eapply wp_mono; [apply SecuredExchange_wp; [done|]|..].
  { unfold WOLFSPDM_MEAS_RSP_SZ. pose proof cfg_pos. unfold SPDM_NONCE_SZ, WOLFSPDM_ATTEST_TAIL_SZ,
      SPDM_REQ_CONTEXT_SZ, WOLFSPDM_MAX_SIG_SIZE, WOLFSPDM_MLDSA87_SIG_SIZE. lia. }
  2: { intros rc [c3 w3] [(_ & -> & [= -> ->]) | (_ & Hrc & Hw3 & Hx3)]; cbn [fst] in *.
       - by apply HE1.
       - apply HE1; [done|done| |].
         + eapply core_step; [done|by eapply core_xfer].
         + eapply cleared; [by eapply xfer_meas|done]. }
  intros rsp [c3 w3] (_ & Hb & _ & Hwf3 & Hx3). cbn [fst] in *.
  pose proof (core_step _ _ _ Hc2 (core_xfer _ _ _ Hx3)) as Hc3.
  pose proof (cleared _ _ (xfer_meas _ _ _ Hx3) Hm2) as Hm3.
  pose proof (run_has_xfer _ L1L2 _ _ _ _ is_run_L Hx3 Hr2) as Hr3.
  io_step. io_step. apply ParseMeasurements_wp; [done|done| |].
  2: { intros rc c4 Hrc Hs4. apply HE1; [done|by eapply err_step_wf| |].
       - eapply core_step; [done|by apply core_err].
       - eapply cleared; [by apply err_meas|done]. }
  intros sigOff Hok. io_step.
  match goal with |- wp ?m _ _ _ => change m with (absorb sg req rsp sigOff) end.
  pose proof Hok as (_ & _ & Hle & _ & Ho & Hsz & _).
  pose proof (meas_record_len_range rsp Hb). unfold SPDM_NONCE_SZ in Ho.
  eapply absorb_wp; [done|done|lia| | |].
  { intros ->. rewrite Hreq2 in Hsz. change (Z.land _ _ =? 0) with false in Hsz. cbv iota in Hsz. lia. }
  2: { intros rc c4 Hrc Hw4 Hs4. apply HE1; [done|done| |].
       - eapply core_step; [done|by apply core_runs].
       - eapply cleared; [by apply runs_meas|done]. }
  intros c4 Hwf4 Hs4 Hsig. pose proof (core_step _ _ _ Hc3 (core_runs _ _ Hs4)) as Hc4.
  pose proof (cleared _ _ (runs_meas _ _ Hs4) Hm3) as Hm4.
  rewrite Hmr. eapply store_meas_wp; [done|done|done| |by apply HE1].
  intros c5 Hwf5 Hc5 Hmok Hlen Hcnt Hrec. apply HQ; [done|done|done|].
  assert (core c3 = core c) as Hcc by done.
  pose proof (core_SigSize _ _ Hcc) as Hss. split; [by rewrite Hc5|]. split; [done|].
  exists req, rsp, sigOff. split_and!; try done.
  - destruct Hok as (K1 & K2 & K3 & K4 & K5 & K6 & K7).
    apply core_fields in Hcc as (_ & Hv & _). unfold meas_rsp_ok.
    unfold wolfSPDM_ReqContextSz in *. rewrite Hv, Hss in *. done.
  - intros Ht. destruct (Hsig Ht) as (d & Hd & Hok'). rewrite Hss in Hok'. exists d.
    split; [done|]. by eapply core_rsp_sig_ok.
Qed.

(** Reading back a stored block. *)
Lemma meas_block_off_wp {St} k n rec off rend (Q : Z -> St -> Prop) (E : Z -> St -> Prop) s :
  0 <= off -> rend <= len rec -> blocks_ok n rec off rend -> (k <= n)%nat ->
  (forall o, off <= o -> blocks_ok (n - k) rec o rend -> Q o s) ->
  wp (meas_block_off k rec off) Q E s.
Proof.
  revert n off. induction k as [|k IH]; intros n off Ho Hr Hb Hk HQ; cbn [meas_block_off].
  - wp_step. apply HQ; [lia|]. by rewrite Nat.sub_0_r.
  - destruct n as [|n]; [lia|]. cbn [blocks_ok] in Hb. unfold WOLFSPDM_MEAS_BLOCK_HDR_SZ in *.
    destruct Hb as [Hl Hb]. io_step. io_step. subst v.
    eapply IH; [lia|done|exact Hb|lia|]. intros o Hoo. apply HQ. lia.
Qed.

Lemma GetMeasurementBlock_wp idx value c (Q : Z * Z * Z * Z * bytes -> WOLFSPDM_CTX -> Prop)
    (E : Z -> WOLFSPDM_CTX -> Prop) : ctx_wf c -> meas_ok c ->
  (forall rc i t n v, 0 <= idx < c.(measBlockCount) -> 0 <= n <= c.(measRecordLen) ->
     (rc = WOLFSPDM_SUCCESS -> len v = n /\ (forall cap, value = Some cap -> n <= cap) /\
        exists o, 0 <= o /\ o + n <= c.(measRecordLen) /\ v = sub_bytes c.(measRecord) o n) ->
     (rc <> WOLFSPDM_SUCCESS -> rc = WOLFSPDM_E_BUFFER_SMALL) ->
     Q (rc, i, t, n, v) c) ->
  (~ 0 <= idx < c.(measBlockCount) -> E WOLFSPDM_E_INVALID_ARG c) ->
  wp (wolfSPDM_GetMeasurementBlock idx value) Q E c.
Proof.
  intros Hwf Hm HQ HE. wf_facts Hwf. unfold wolfSPDM_GetMeasurementBlock.
  do 2 wp_step. cbv beta. wp_step; wp_step; [apply HE; lia|].
  wp_step. apply (meas_block_off_wp _ (Z.to_nat (measBlockCount c)) _ _ (measRecordLen c));
    [lia|lia|done|lia|].
  intros o Ho Hb.
  destruct (Z.to_nat (measBlockCount c) - Z.to_nat idx)%nat as [|k] eqn:Hk; [lia|].
  cbn [blocks_ok] in Hb. unfold WOLFSPDM_MEAS_BLOCK_HDR_SZ in *. destruct Hb as [Hl Hb].
  apply blocks_ok_le in Hb. io_step. io_step. io_step. io_step. subst v. io_step. io_step.
  set (n := SPDM_Get16LE (sub_bytes (measRecord c) (o + 2) 2)) in *.
  assert (0 <= n < 2 ^ 16) as Hn by done.
  io_step. apply (wp_mono _ (fun '(t, m, blk) s => s = c /\ 0 <= m /\ o <= blk /\
    blk + m <= o + n) _ (fun _ _ => False)); [| |done].
  { io_step; [|io_step; (split_and!; (done || lia))]. io_step. io_step.
    io_step; [|io_step; (split_and!; (done || lia))]. io_step. io_step. io_step.
    split_and!; (done || lia). }
  intros [[t m] blk] s (-> & Hm0 & Hb1 & Hb2). io_step.
  - io_step. apply HQ; [lia|lia|done|done].
  - io_step. io_step. io_step. apply HQ; [lia|lia| |done]. intros _. split_and!.
    + apply len_sub_bytes; lia.
    + intros cap ->. lia.
    + exists (blk + 4). split_and!; [lia|lia|done].
Qed.

(** ** Challenge *)

Lemma BuildChallenge_wp bufSz slot mh c (Q : bytes -> WOLFSPDM_CTX -> Prop)
    (E : Z -> WOLFSPDM_CTX -> Prop) : ctx_wf c ->
  (forall m c', ctx_wf c' -> rng_step c c' -> 4 <= len m -> len m <= bufSz ->
     at_ m 3 = mh -> Q m c') ->
  (forall rc c', rc < 0 -> ctx_wf c' -> rng_step c c' -> E rc c') ->
  wp (wolfSPDM_BuildChallenge bufSz slot mh) Q E c.
Proof.
  intros Hwf HQ HE. pose proof (ReqContextSz_cases c) as Hsz.
  assert (rng_step c c) as Hs0 by (by left). unfold wolfSPDM_BuildChallenge, SPDM_NONCE_SZ.
  wp_step; wp_step; [by apply HE|]. do 2 wp_step. cbv beta zeta. wp_step; wp_step; [by apply HE|].
  wp_step. apply GetRandom_wp; [done|lia| |by apply HE|].
  - intros r b Hl _ Hw. wp_step. apply HQ; [done|right; eauto| | |done];
      rewrite len_app, Hl, !len_cons, len_nil; lia.
  - intros r Hw. apply HE; [done|done|right; eauto].
Qed.

(** A CHALLENGE_AUTH that is accepted names the verified chain. *)
Definition chal_rsp_ok c (req buf : bytes) (sigOff : Z) : Prop :=
  at_ buf 1 = SPDM_CHALLENGE_AUTH /\
  sub_bytes buf 4 WOLFSPDM_HASH_SIZE = c.(certChainHash) /\
  0 <= sigOff /\ sigOff + wolfSPDM_SigSize c = len buf /\
  sub_bytes buf (sigOff - wolfSPDM_ReqContextSz c) (wolfSPDM_ReqContextSz c) =
  sub_bytes req (len req - wolfSPDM_ReqContextSz c) (wolfSPDM_ReqContextSz c).

Lemma ParseChallengeAuth_wp req buf c (Q : Z -> WOLFSPDM_CTX -> Prop)
    (E : Z -> WOLFSPDM_CTX -> Prop) : is_bytes buf -> 4 <= len req ->
  (forall sigOff, chal_rsp_ok c req buf sigOff -> Q sigOff c) ->
  (forall rc c', rc < 0 -> err_step c c' -> E rc c') ->
  wp (wolfSPDM_ParseChallengeAuth req buf) Q E c.
Proof.
  intros Hb Hreq HQ HE. assert (err_step c c) as Hs0 by (by left).
  pose proof (SigSize_pos c) as Hsp. unfold wolfSPDM_ParseChallengeAuth, SPDM_CHECK_PARSE_ARGS.
  wp_step; wp_step; [by apply HE|]. wp_step; wp_step; [by apply HE|].
  wp_step. apply CHECK_RESPONSE_wp; [lia| |intros; apply HE; [done|right; eauto]|intros; by apply HE].
  intros Hcode. do 2 wp_step. cbv beta. wp_step. wp_step. wp_step. wp_step. cbv zeta.
  set (extra := if _ : bool then WOLFSPDM_HASH_SIZE else 0).
  assert (0 <= extra) by (unfold extra; case_match; done). clearbody extra.
  wp_step; wp_step; [by apply HE|]. unfold SPDM_NONCE_SZ in *. wp_step. wp_step.
  wp_step; wp_step; [by apply HE|]. wp_step.
  apply ParseTail_wp; [lia|lia| |by apply HE]. intros sigOff Ho Hsz Hecho. apply HQ.
  split_and!; [done| |lia|lia|done]. apply bytes_eqb_eq. by destruct (bytes_eqb _ _).
Qed.

Definition chal_result c c' : Prop :=
  exists c1 req rsp sigOff digest, chain_trusted c c1 /\ core c' = core c1 /\
    chal_rsp_ok c1 req rsp sigOff /\
    run_digest c.(m1Hash) [req; sub_bytes rsp 0 sigOff] = Some digest /\
    rsp_sig_ok c1 chal_label digest (sub_bytes rsp sigOff (wolfSPDM_SigSize c1)).

(** A failed challenge changes no more than the trusted key and the runs. *)
Definition chal_failed c (rc : Z) (s : WOLFSPDM_CTX * W) : Prop :=
  rc < 0 /\ ctx_wf s.1 /\ exists c1, trust_step c c1 /\ core s.1 = core c1.

Lemma trust_m1 c c1 : trust_step c c1 -> m1Hash c1 = m1Hash c /\ m1State c1 = m1State c.
Proof. intros (h & r & k & n & ->). by destruct c. Qed.

Lemma chal_rsp_core c c1 req rsp o : core c1 = core c -> chal_rsp_ok c1 req rsp o ->
  chal_rsp_ok c req rsp o.
Proof.
  intros Hc. pose proof (core_SigSize _ _ Hc) as Hs. apply core_fields in Hc.
  destruct Hc as (_ & Hv & _ & _ & _ & _ & _ & _ & _ & _ & _ & _ & Hh).
  unfold chal_rsp_ok, wolfSPDM_ReqContextSz. by rewrite Hs, Hv, Hh.
Qed.

Lemma Challenge_wp slot mh c (w : W) (Q : unit -> WOLFSPDM_CTX * W -> Prop)
    (E : Z -> WOLFSPDM_CTX * W -> Prop) : ctx_wf c ->
  (forall c' w', ctx_wf c' -> WOLFSPDM_STATE_CERT <= c.(state) -> chal_result c c' -> Q tt (c', w')) ->
  (forall rc s, chal_failed c rc s -> E rc s) ->
  wp (wolfSPDM_Challenge slot mh) Q E (c, w).
Proof.
  intros Hwf HQ HE.
  assert (forall rc w', rc < 0 -> E rc (c, w')) as HE0.
  { intros rc w' Hrc. apply HE. split_and!; [done|done|]. exists c. split; [apply trust_step_refl|done]. }
  unfold wolfSPDM_Challenge. do 2 io_step. io_step; io_step; [by apply HE0|].
  io_step; io_step; [by apply HE0|]. assert (WOLFSPDM_STATE_CERT <= state c) as Hst by lia.
  io_step. io_step. apply ValidateCertChain_wp; [done| |].
  2: { intros rc Hrc Hw. apply HE. split_and!; [done|done|]. exists (unpinned c).
       split; [apply unpinned_step|done]. }
  intros c1 Hwf1 Htr. pose proof (chain_trusted_step _ _ Htr) as Hts.
  destruct (trust_m1 _ _ Hts) as [Hm1h Hm1s].
  assert (forall rc c' w', rc < 0 -> ctx_wf c' -> core c' = core c1 -> E rc (c', w')) as HE1.
  { intros rc c' w' Hrc Hw Hc. apply HE. split_and!; [done|done|]. eauto. }
  assert (run_has M1 c1 (m1Hash c) []) as Hr1.
  { assert (run_state M1 c1 <> WOLFSPDM_RUN_NONE) as Hn by (cbn [run_state M1]; lia).
    split_and!; [done|by apply (run_live M1); [apply is_run_M|..]|done]. }
  io_step. io_step. apply BuildChallenge_wp; [done| |].
  2: { intros rc c2 Hrc Hw2 Hs2. apply HE1; [done|done|by apply core_rng]. }
  intros req c2 Hwf2 Hs2 Hl4 Hreq _. pose proof (core_rng _ _ Hs2) as Hc2.
  pose proof (run_has_rng M1 _ _ _ _ is_run_M Hs2 Hr1) as Hr2.
  io_step. eapply wp_mono; [apply ClearExchange_wp; [done|done|]|..].
  { unfold SPDM_NONCE_SZ, SPDM_REQ_CONTEXT_SZ in Hreq. lia. }
  2: { intros rc [c3 w3] (Hrc & Hw3 & Hx3). cbn [fst] in *. apply HE1; [done|done|].
       by rewrite (core_xfer _ _ _ Hx3). }
  intros rsp [c3 w3] (Hb & _ & Hwf3 & Hx3). cbn [fst] in *.
  assert (core c3 = core c1) as Hc3 by (by rewrite (core_xfer _ _ _ Hx3)).
  pose proof (run_has_xfer _ M1 _ _ _ _ is_run_M Hx3 Hr2) as Hr3.
  io_step. io_step. apply ParseChallengeAuth_wp; [done|done| |].
  2: { intros rc c4 Hrc Hs4. apply HE1; [done|by eapply err_step_wf|].
       by rewrite (core_err _ _ Hs4). }
  intros sigOff Hok. pose proof Hok as (_ & _ & Ho & Hsz & _). io_step. io_step.
  eapply RunVerify_wp; [apply is_run_M|done|done|done|done|lia| |].
  2: { intros rc c4 Hrc Hw4 Hs4 _. apply HE1; [done|done|by rewrite (core_runs _ _ Hs4)]. }
  intros c4 digest Hwf4 Hs4 _ Hd Hsig. rewrite (core_SigSize _ _ Hc3) in Hsig.
  assert (core c4 = core c1) as Hc4 by (by rewrite (core_runs _ _ Hs4)).
  io_step. apply RunStart_wp; [apply is_run_M|done| |].
  - intros c5 Hwf5 Hs5 _ _. apply HQ; [done|done|]. exists c1, req, rsp, sigOff, digest.
    split_and!; [done|by rewrite (core_runs _ _ Hs5)| |done|].
    + by apply (chal_rsp_core c1 c3).
    + by apply (core_rsp_sig_ok c1 c3).
  - intros c5 Hwf5 Hs5. apply HE1; [done|done|by rewrite (core_runs _ _ Hs5)].
Qed.

Lemma M1Add_wp req rsp c (Q : unit -> WOLFSPDM_CTX -> Prop) (E : Z -> WOLFSPDM_CTX -> Prop) :
  ctx_wf c -> (forall c', ctx_wf c' -> runs_step c c' -> Q tt c') ->
  (forall c', ctx_wf c' -> runs_step c c' -> E WOLFSPDM_E_CRYPTO_FAIL c') ->
  wp (wolfSPDM_M1Add req rsp) Q E c.
Proof.
  intros Hwf HQ HE. unfold wolfSPDM_M1Add. do 2 wp_step. cbv beta. wp_step.
  - wp_step. apply HQ; [done|apply runs_step_refl].
  - eapply (RunAdd_wp M1 _ _ _ (m1Hash c) []); [apply is_run_M|done| |by auto|by auto].
    assert (run_state M1 c <> WOLFSPDM_RUN_NONE) as Hn by (cbn [run_state M1]; lia).
    split_and!; [done|by apply (run_live M1); [apply is_run_M|..]|done].
Qed.

(** ** Properties *)

(** C29: reported measurements are the signed ones.  When
    [wolfSPDM_GetMeasurements] succeeds with a signature requested, the
    responder's key accepts the signature over L1/L2 (the open run of earlier
    unsigned requests, or the VCA, then this request and the response up to the
    signature); the stored record is exactly the response's, its blocks fill it
    exactly, and the session state, keys and transcript are untouched.  A call
    refused outright (not connected, or the responder has no such capability)
    changes nothing, so that an earlier record stays; every later failure leaves
    no measurement to report. *)
Theorem measurements_verified op (sg : bool) c (w : W) :
  ctx_wf c ->
  match wolfSPDM_GetMeasurements op sg (c, w) with
  | Ok _ (c', _) => ctx_wf c' /\ c.(state) = WOLFSPDM_STATE_CONNECTED /\ meas_capable sg c /\
      meas_result sg c c'
  | Err rc s => meas_failed sg c rc s
  | Ub => False
  end.
Proof.
  intros Hwf.
  pose proof (GetMeasurements_wp op sg c w (fun _ s => ctx_wf s.1 /\
    c.(state) = WOLFSPDM_STATE_CONNECTED /\ meas_capable sg c /\ meas_result sg c s.1)
    (meas_failed sg c) Hwf) as Hw.
  unfold wp in Hw. destruct (wolfSPDM_GetMeasurements _ _ _) as [[] [c' w']|rc s|]; apply Hw; auto.
Qed.

(** C31: reading a stored measurement is memory-safe and truthful.  For a
    context whose stored record was accepted by the parser, every block index
    below the count gives a value that lies inside the stored record; a short or
    missing buffer is reported with the size needed, other indices are
    rejected, and nothing is read outside the record's array. *)
Theorem measurement_blocks_in_bounds idx value c :
  ctx_wf c -> meas_ok c ->
  match wolfSPDM_GetMeasurementBlock idx value c with
  | Ok (rc, _, _, n, v) c' => c' = c /\ 0 <= idx < c.(measBlockCount) /\
      0 <= n <= c.(measRecordLen) /\
      (if rc =? WOLFSPDM_SUCCESS then len v = n /\ (forall cap, value = Some cap -> n <= cap) /\
         exists o, 0 <= o /\ o + n <= c.(measRecordLen) /\ v = sub_bytes c.(measRecord) o n
       else rc = WOLFSPDM_E_BUFFER_SMALL)
  | Err rc c' => rc = WOLFSPDM_E_INVALID_ARG /\ c' = c /\ ~ 0 <= idx < c.(measBlockCount)
  | Ub => False
  end.
Proof.
  intros Hwf Hm.
  enough (wp (wolfSPDM_GetMeasurementBlock idx value) (fun '(rc, _, _, n, v) c' =>
    c' = c /\ 0 <= idx < c.(measBlockCount) /\ 0 <= n <= c.(measRecordLen) /\
      (if rc =? WOLFSPDM_SUCCESS then len v = n /\ (forall cap, value = Some cap -> n <= cap) /\
         exists o, 0 <= o /\ o + n <= c.(measRecordLen) /\ v = sub_bytes c.(measRecord) o n
       else rc = WOLFSPDM_E_BUFFER_SMALL))
    (fun rc c' => rc = WOLFSPDM_E_INVALID_ARG /\ c' = c /\ ~ 0 <= idx < c.(measBlockCount)) c)
    as Ho.
  { unfold wp in Ho. by destruct (wolfSPDM_GetMeasurementBlock idx value c)
      as [[[[[? ?] ?] ?] ?] ?|? ?|]. }
  apply GetMeasurementBlock_wp; [done..| |by intros].
  intros rc i t n v Hi Hn Hs Hf. split_and!; try done; try lia.
  destruct (Z.eqb_spec rc WOLFSPDM_SUCCESS); auto.
Qed.

(** C30: a successful challenge authenticates the responder.  The chain was
    validated first, the response names that chain's hash and echoes the
    request's fresh context, and the key the chain yields accepts the signature
    over M1: the running hash, the request with its random nonce and the
    response up to the signature.  A failure changes no session state. *)
Theorem challenge_authenticates slot mh c (w : W) :
  ctx_wf c ->
  match wolfSPDM_Challenge slot mh (c, w) with
  | Ok _ (c', _) => ctx_wf c' /\ WOLFSPDM_STATE_CERT <= c.(state) /\ chal_result c c'
  | Err rc s => chal_failed c rc s
  | Ub => False
  end.
Proof.
  intros Hwf.
  pose proof (Challenge_wp slot mh c w (fun _ s => ctx_wf s.1 /\
    WOLFSPDM_STATE_CERT <= c.(state) /\ chal_result c s.1) (chal_failed c) Hwf) as Hw.
  unfold wp in Hw. destruct (wolfSPDM_Challenge _ _ _) as [[] [c' w']|rc s|]; apply Hw; auto.
Qed.
End ExchangeLemmas.
