(* ===== verification/Session.v ===== *)
(** * Session control: src/spdm_session.c *)
From Stdlib Require Import ZArith Lia.
From stdpp Require Import base tactics list numbers.
From S2P Require Import Prelude Types Bytes Crypt Context Transcript Kdf CryptoOps Transport.
From S2P Require Import Secured Msg Chunk Cert Attest.

Section Session.
Context `{WolfCrypt} `{Config} {W : Type} `{!Transport W}.
Notation CM := (M WOLFSPDM_CTX).
Notation IOM := (M (WOLFSPDM_CTX * W)).

(** ** One transcript-recorded exchange *)

(** A failed exchange leaves no half message in the transcript. *)
Definition drop_half (mark : Z) : IOM unit :=
  upd_ctx (fun c => if c.(transcriptLen) >? mark then c <| transcriptLen := mark |> else c).

Definition wolfSPDM_ExchangeMsg (buildFn : Z -> CM bytes) (parseFn : bytes -> CM unit)
    (txBufSz rxBufSz : Z) : IOM unit :=
  let* ctx := get_ctx in
  let mark := ctx.(transcriptLen) in
  on_err
    (let* tx := on_ctx (buildFn txBufSz) in
     on_ctx (wolfSPDM_TranscriptAdd tx) ;;;
     let* rx := wolfSPDM_ClearExchange tx rxBufSz in
     on_ctx (wolfSPDM_TranscriptAdd rx) ;;;
     on_ctx (parseFn rx))
    (fun _ => drop_half mark).

Definition wolfSPDM_GetVersion : IOM unit :=
  wolfSPDM_ExchangeMsg wolfSPDM_BuildGetVersion wolfSPDM_ParseVersion 8 32.

(** ** KEY_EXCHANGE *)

Definition wolfSPDM_KeyExchange : IOM unit :=
  let* ctx := get_ctx in
  check (negb ctx.(flags).(hasRspPubKey)) WOLFSPDM_E_BAD_STATE ;;;
  when (negb (wolfSPDM_IsTcgMode ctx) && ctx.(flags).(rspKeyFromCert))
    (on_ctx wolfSPDM_ValidateCertChain) ;;;
  let* tx := on_ctx (wolfSPDM_BuildKeyExchange WOLFSPDM_KEY_EX_TX_SZ) in
  let* ctx := get_ctx in
  when (negb (ctx.(m1State) =? WOLFSPDM_RUN_NONE)) (on_ctx wolfSPDM_M1Start) ;;;
  on_ctx (wolfSPDM_TranscriptAdd tx) ;;;
  let* rx := wolfSPDM_ClearExchange tx WOLFSPDM_KEY_EX_RX_SZ in
  on_ctx (wolfSPDM_ParseKeyExchangeRsp rx).

(** ** FINISH *)

Definition wolfSPDM_FinishXfer (finish : bytes) (decSz : Z) : IOM bytes :=
  let* ctx := get_ctx in
  if wolfSPDM_ChunkOn ctx then wolfSPDM_ChunkExchange true finish decSz
  else
    let* enc := on_ctx (wolfSPDM_EncryptInternal finish WOLFSPDM_VENDOR_BUF_SZ) in
    let* rx := wolfSPDM_SendReceive enc (WOLFSPDM_FINISH_RSP_MAX + 128) in
    (* an unencrypted SPDM error response *)
    when ((len rx >=? 2) && (at_ rx 0 >=? 0x10) && (at_ rx 0 <=? 0x1F))
      (when ((len rx >=? 4) && (at_ rx 1 =? SPDM_ERROR))
         (upd_ctx (fun c => c <| lastPeerErrorCode := at_ rx 2 |>)) ;;;
       fail WOLFSPDM_E_PEER_ERROR) ;;;
    on_ctx (wolfSPDM_DecryptInternal rx decSz).

Definition wolfSPDM_Finish : IOM unit :=
  let* ctx := get_ctx in
  check (negb (ctx.(state) =? WOLFSPDM_STATE_KEY_EX)) WOLFSPDM_E_BAD_STATE ;;;
  let* finish := on_ctx (wolfSPDM_BuildFinish WOLFSPDM_FINISH_BUF_SZ) in
  let* dec := wolfSPDM_FinishXfer finish WOLFSPDM_FINISH_RSP_MAX in
  on_ctx (wolfSPDM_ParseFinishRsp dec) ;;;
  on_ctx wolfSPDM_DeriveAppDataKeys.

(** ** HEARTBEAT *)

Definition wolfSPDM_CheckSessionCap (cap : Z) : CM unit :=
  let* ctx := @get WOLFSPDM_CTX in
  check (negb (ctx.(state) =? WOLFSPDM_STATE_CONNECTED)) WOLFSPDM_E_NOT_CONNECTED ;;;
  check (negb (wolfSPDM_IsTcgMode ctx) && (Z.land ctx.(rspCaps) cap =? 0))
    WOLFSPDM_E_CAPS_MISMATCH.

Definition wolfSPDM_Heartbeat : IOM unit :=
  on_ctx (wolfSPDM_CheckSessionCap SPDM_CAP_HBEAT_CAP) ;;;
  let* tx := on_ctx (wolfSPDM_BuildHeartbeat 4) in
  let* rx := wolfSPDM_SecuredExchange tx 32 in
  on_ctx (wolfSPDM_ParseHeartbeatAck rx).

(** ** KEY_UPDATE *)

(** The six parts of [saved], and the two saved sequence numbers. *)
Record traffic_snap := {
  s_reqDataKey : bytes; s_rspDataKey : bytes; s_reqDataIv : bytes; s_rspDataIv : bytes;
  s_reqAppSecret : bytes; s_rspAppSecret : bytes; s_reqSeq : Z; s_rspSeq : Z
}.

(** The new contents of the snapshot and of the key. *)
Definition wolfSPDM_KeySnap {A} (snap key : A) (save : bool) : A * A :=
  if save then (key, key) else (snap, snap).

Definition wolfSPDM_SaveTrafficKeys (snap : traffic_snap) (save : bool) : CM traffic_snap :=
  let* ctx := @get WOLFSPDM_CTX in
  let k1 := wolfSPDM_KeySnap snap.(s_reqDataKey) ctx.(reqDataKey) save in
  let k2 := wolfSPDM_KeySnap snap.(s_rspDataKey) ctx.(rspDataKey) save in
  let i1 := wolfSPDM_KeySnap snap.(s_reqDataIv) ctx.(reqDataIv) save in
  let i2 := wolfSPDM_KeySnap snap.(s_rspDataIv) ctx.(rspDataIv) save in
  let a1 := wolfSPDM_KeySnap snap.(s_reqAppSecret) ctx.(reqAppSecret) save in
  let a2 := wolfSPDM_KeySnap snap.(s_rspAppSecret) ctx.(rspAppSecret) save in
  let q := wolfSPDM_KeySnap snap.(s_reqSeq) ctx.(reqSeqNum) save in
  let p := wolfSPDM_KeySnap snap.(s_rspSeq) ctx.(rspSeqNum) save in
  upd (fun c => c <| reqDataKey := k1.2 |> <| rspDataKey := k2.2 |> <| reqDataIv := i1.2 |>
    <| rspDataIv := i2.2 |> <| reqAppSecret := a1.2 |> <| rspAppSecret := a2.2 |>
    <| reqSeqNum := q.2 |> <| rspSeqNum := p.2 |>) ;;;
  ret {| s_reqDataKey := k1.1; s_rspDataKey := k2.1; s_reqDataIv := i1.1; s_rspDataIv := i2.1;
         s_reqAppSecret := a1.1; s_rspAppSecret := a2.1; s_reqSeq := q.1; s_rspSeq := p.1 |}.

(** [saved], [savedReqSeq] and [savedRspSeq] before they are written. *)
Definition no_snap : traffic_snap := {|
  s_reqDataKey := []; s_rspDataKey := []; s_reqDataIv := []; s_rspDataIv := [];
  s_reqAppSecret := []; s_rspAppSecret := []; s_reqSeq := 0; s_rspSeq := 0 |}.

(** The response under the current keys, else (for all keys) under the next
    ones; the flag tells whether the keys were rotated. *)
Definition key_update_rsp (updateAll : bool) (raw : bytes) : CM (bytes * bool) :=
  let* r := try (wolfSPDM_DecryptInternal raw 32) in
  match r with
  | inl rx => ret (rx, false)
  | inr rc =>
      if updateAll then
        let* saved := wolfSPDM_SaveTrafficKeys no_snap true in
        let* rx := on_err
          (let* d := try (wolfSPDM_DeriveUpdatedKeys true) in
           upd (fun c => c <| reqSeqNum := 0 |> <| rspSeqNum := 0 |>) ;;;
           match d with
           | inl _ => wolfSPDM_DecryptInternal raw 32
           | inr rc => fail rc
           end)
          (fun _ => wolfSPDM_SaveTrafficKeys saved false ;;; ret tt) in
        ret (rx, true)
      else fail rc
  end.

(** The derivation's return code is looked at after the counter is reset. *)
Definition rotate_req : CM unit :=
  let* d := try (wolfSPDM_DeriveUpdatedKeys false) in
  upd (fun c => c <| reqSeqNum := 0 |>) ;;;
  match d with inl _ => ret tt | inr rc => fail rc end.

Definition wolfSPDM_KeyUpdate (updateAll : bool) : IOM unit :=
  let op := if updateAll then SPDM_KEY_UPDATE_OP_UPDATE_ALL_KEYS
            else SPDM_KEY_UPDATE_OP_UPDATE_KEY in
  on_ctx (wolfSPDM_CheckSessionCap SPDM_CAP_KEY_UPD_CAP) ;;;
  let* (tx, tag) := on_ctx (wolfSPDM_BuildKeyUpdate 4 op) in
  let* enc := on_ctx (wolfSPDM_EncryptInternal tx 64) in
  let* raw := wolfSPDM_SendReceive enc 64 in
  let* (rx, rotated) := on_ctx (key_update_rsp updateAll raw) in
  on_ctx (wolfSPDM_ParseKeyUpdateAck rx op tag) ;;;
  check (updateAll && negb rotated) WOLFSPDM_E_KEY_UPDATE ;;;
  when (negb updateAll) (on_ctx rotate_req) ;;;
  let* (tx, tag) := on_ctx (wolfSPDM_BuildKeyUpdate 4 SPDM_KEY_UPDATE_OP_VERIFY_NEW_KEY) in
  let* rx := wolfSPDM_SecuredExchange tx 32 in
  on_ctx (wolfSPDM_ParseKeyUpdateAck rx SPDM_KEY_UPDATE_OP_VERIFY_NEW_KEY tag).
End Session.

(** ** Exchanges and the transcript *)

Section SessionLemmas.
Context `{WolfCrypt} `{Config} `{!CryptSizes} `{!RecordFits} `{!TranscriptFits}
  {W : Type} `{!Transport W} `{!TransportBytes}.
Implicit Types c : WOLFSPDM_CTX.

Definition keeps_tr c c' : Prop :=
  c'.(transcript) = c.(transcript) /\ c'.(transcriptLen) = c.(transcriptLen).

Lemma keeps_tr_refl c : keeps_tr c c.
Proof. done. Qed.
Lemma keeps_tr_trans c1 c2 c3 : keeps_tr c1 c2 -> keeps_tr c2 c3 -> keeps_tr c1 c3.
Proof. intros [? ?] [? ?]. split; congruence. Qed.
Lemma keeps_tr_xfer b c c' : xfer b c c' -> keeps_tr c c'.
Proof. intros Hx. apply xfer_fields in Hx. split; tauto. Qed.
Lemma keeps_tr_err c c' : err_step c c' -> keeps_tr c c'.
Proof. intros [-> | [e ->]]; done. Qed.

(** What [wolfSPDM_ExchangeMsg] needs of its builder and its parser: they stay
    in bounds, keep the context well-formed and do not touch the transcript. *)
Class ExchangeFns (buildFn : Z -> M WOLFSPDM_CTX bytes) (parseFn : bytes -> M WOLFSPDM_CTX unit) := {
  ex_build n c : ctx_wf c ->
    wp (buildFn n) (fun m c' => len m <= n /\ ctx_wf c' /\ keeps_tr c c')
      (fun rc c' => rc < 0 /\ ctx_wf c' /\ keeps_tr c c') c;
  ex_parse buf c : ctx_wf c -> is_bytes buf ->
    wp (parseFn buf) (fun _ c' => ctx_wf c' /\ keeps_tr c c')
      (fun rc c' => rc < 0 /\ ctx_wf c' /\ keeps_tr c c') c
}.

#[global] Instance GetVersion_fns : ExchangeFns wolfSPDM_BuildGetVersion wolfSPDM_ParseVersion.
Proof.
  split.
  - intros n c Hwf. unfold wolfSPDM_BuildGetVersion. wp_go; [done|].
    split_and!; try done. rewrite !len_cons, len_nil. lia.
  - intros buf c Hwf Hb. apply ParseVersion_wp; [done| |].
    + intros v Hv [[?|[Hin Hmu]] _]; [done|]. split; [|done].
      assert (0 <= v <= 255) by (apply offered_byte in Hin; [unfold is_byte in Hin; lia|done]).
      wf_tac.
    + intros rc c' Hrc Hs _. split_and!; [done|by eapply err_step_wf|by apply keeps_tr_err].
Qed.

Lemma drop_half_wp mark c (w : W) (Q : unit -> WOLFSPDM_CTX * W -> Prop) E :
  ctx_wf c -> mark <= c.(transcriptLen) -> 0 <= mark ->
  (forall c', ctx_wf c' -> c' = c <| transcriptLen := mark |> -> Q tt (c', w)) ->
  wp (drop_half mark) Q E (c, w).
Proof.
  intros Hwf Hm H0m HQ. unfold drop_half. io_step. wf_facts Hwf.
  destruct (Z.gtb_spec (transcriptLen c) mark).
  - apply HQ; [|done]. wf_tac.
  - apply HQ; [done|]. replace mark with (transcriptLen c) by lia. by destruct c.
Qed.

(** A context whose transcript extends that of [c]. *)
Definition half c c' : Prop :=
  ctx_wf c' /\ c.(transcriptLen) <= c'.(transcriptLen) /\
  sub_bytes c'.(transcript) 0 c.(transcriptLen) = tr c.

Lemma half_refl c : ctx_wf c -> half c c.
Proof. by intros. Qed.

Lemma half_keeps c c1 c2 : half c c1 -> keeps_tr c1 c2 -> ctx_wf c2 -> half c c2.
Proof. intros (? & ? & ?) [Ht Hl] ?. split_and!; [done|lia|by rewrite Ht]. Qed.

Lemma half_add c c1 d : ctx_wf c -> half c c1 -> c1.(transcriptLen) + len d <= WOLFSPDM_MAX_TRANSCRIPT ->
  ctx_wf (tr_add c1 d) -> half c (tr_add c1 d).
Proof.
  intros Hwf (Hwf1 & Hl & Ht) Hf Hw. wf_facts Hwf. wf_facts Hwf1. pose proof (len_nonneg d).
  split_and!; [done| |]; unfold tr_add; ctx_simpl; [lia|]. by rewrite sub_bytes_splice_lo by lia.
Qed.

(** What a successful exchange did. *)
Definition exchanged (buildFn : Z -> M WOLFSPDM_CTX bytes) (parseFn : bytes -> M WOLFSPDM_CTX unit)
    (n : Z) c c' : Prop :=
  exists tx rx c0 c2, buildFn n c = Ok tx c0 /\ xfer false (tr_add c0 tx) c2 /\
    parseFn rx (tr_add c2 rx) = Ok tt c' /\ is_bytes rx /\ ctx_wf (tr_add c2 rx) /\
    tr c' = tr c ++ tx ++ rx.

Lemma ExchangeMsg_wp b p `{!ExchangeFns b p} n m c (w : W)
    (Q : unit -> WOLFSPDM_CTX * W -> Prop) (E : Z -> WOLFSPDM_CTX * W -> Prop) :
  ctx_wf c -> 0 <= m -> n < 2 ^ 32 - WOLFSPDM_TCG_HEADER_SIZE ->
  (forall c' w', ctx_wf c' -> exchanged b p n c c' -> Q tt (c', w')) ->
  (forall rc c' w', rc < 0 -> ctx_wf c' -> tr c' = tr c -> c'.(transcriptLen) = c.(transcriptLen) ->
     E rc (c', w')) ->
  wp (wolfSPDM_ExchangeMsg b p n m) Q E (c, w).
Proof.
  intros Hwf Hm Hn HQ HE. unfold wolfSPDM_ExchangeMsg. do 2 io_step. io_step.
  apply (wp_mono _ Q _ (fun rc s => rc < 0 /\ half c s.1)); [|done|].
  2: { intros rc [c1 w1] [Hrc (Hw & Hl & Ht)]. cbn [fst] in *. wf_facts Hwf.
       apply drop_half_wp; [done|lia|lia|]. intros c' Hw' ->. apply HE; [done|done| |done].
       unfold tr; ctx_simpl. done. }
  io_step. io_step.
  pose proof (ex_build n c Hwf) as Hb. destruct (b n c) as [tx c0|rc c0|] eqn:Hbr; unfold wp in Hb |- * at 1;
    rewrite ?Hbr in *; [|destruct Hb as (? & ? & ?); split; [done|];
      apply (half_keeps c c); [by apply half_refl|done..]|done].
  destruct Hb as (Hl & Hwf0 & Hk0). assert (half c c0) as Hh0
    by (apply (half_keeps c c); [by apply half_refl|done..]).
  io_step. io_step. apply TranscriptAdd_wp; [done| |done]. intros Hf1 Hwf1.
  pose proof (half_add _ _ _ Hwf Hh0 Hf1 Hwf1) as Hh1.
  assert (tr (tr_add c0 tx) = tr c ++ tx) as Ht1
    by (rewrite tr_tr_add by done; f_equal; destruct Hk0; by apply tr_ext).
  io_step. eapply wp_mono; [apply ClearExchange_wp; [done|lia|lia]| |].
  2: { intros rc [c2 w2] (? & ? & Hx). split; [done|].
       apply (half_keeps c (tr_add c0 tx)); [done|by eapply keeps_tr_xfer|done]. }
  intros rx [c2 w2] (Hrb & _ & Hwf2 & Hx). cbn [fst] in *.
  pose proof (keeps_tr_xfer _ _ _ Hx) as Hk2.
  assert (half c c2) as Hh2 by (by apply (half_keeps c (tr_add c0 tx))).
  io_step. io_step. apply TranscriptAdd_wp; [done| |done]. intros Hf3 Hwf3.
  pose proof (half_add _ _ _ Hwf Hh2 Hf3 Hwf3) as Hh3.
  assert (tr (tr_add c2 rx) = tr c ++ tx ++ rx) as Ht3.
  { rewrite tr_tr_add by done. destruct Hk2 as [Hk2 Hk2']. rewrite (tr_ext _ _ Hk2 Hk2'), Ht1.
    by rewrite <- app_assoc. }
  io_step. pose proof (ex_parse rx (tr_add c2 rx) Hwf3 Hrb) as Hp. unfold wp in Hp |- *.
  destruct (p rx (tr_add c2 rx)) as [[] c4|rc c4|] eqn:Hpr; [| |done].
  - destruct Hp as [Hwf4 Hk4]. apply HQ; [done|]. exists tx, rx, c0, c2. split_and!; try done.
    destruct Hk4. by erewrite tr_ext.
  - destruct Hp as (? & ? & ?). split; [done|]. by apply (half_keeps c (tr_add c2 rx)).
Qed.

(** ** KEY_EXCHANGE *)

Lemma view_xfer c c' : xfer false c c' -> session_view c' = session_view c.
Proof.
  intros (f & r & q & p & e & h & l & -> & Hs & _). destruct (Hs eq_refl) as (-> & -> & ->).
  by destruct c.
Qed.

Lemma view_runs c c' : runs_step c c' -> session_view c' = session_view c.
Proof. intros (h & s & h' & s' & ->). by destruct c. Qed.

Lemma keeps_tr_runs c c' : runs_step c c' -> keeps_tr c c'.
Proof. intros (h & s & h' & s' & ->). by destruct c. Qed.

(** The part of a session that validating a chain leaves alone. *)
Definition link_view c :=
  (c.(state), c.(sessionId), c.(rspSessionId), c.(reqSessionId), c.(mutAuthRequested),
   (c.(reqSeqNum), c.(rspSeqNum)), c.(spdmVersion), c.(mode), c.(rspCaps)).

Lemma link_of_view c c' : session_view c' = session_view c -> link_view c' = link_view c.
Proof. unfold session_view, link_view. intros [=]. congruence. Qed.

Lemma link_trust c c' : trust_step c c' -> link_view c' = link_view c.
Proof. intros (h & r & k & n & ->). by destruct c. Qed.

Lemma keeps_tr_trust c c' : trust_step c c' -> keeps_tr c c'.
Proof. intros (h & r & k & n & ->). by destruct c. Qed.

(** How the responder's key came to be trusted. *)
Definition key_trusted c c1 : Prop :=
  c.(flags).(hasRspPubKey) = true /\
  ((wolfSPDM_IsTcgMode c || negb c.(flags).(rspKeyFromCert) = true /\ c1 = c) \/
   (wolfSPDM_IsTcgMode c = false /\ c.(flags).(rspKeyFromCert) = true /\ chain_trusted c c1)).

(** [c2] has sent [req], a KEY_EXCHANGE request built from the trusted context,
    recorded it after the transcript of [c], still holds the ephemeral key made
    for it, and accepted [rsp] over it. *)
Definition kex_steps c (req : bytes) c2 (rsp : bytes) c' : Prop :=
  exists c1 cb, key_trusted c c1 /\
    wolfSPDM_BuildKeyExchange WOLFSPDM_KEY_EX_TX_SZ c1 = Ok req cb /\ kex_request c1 req cb /\
    c2.(ephemeral) = cb.(ephemeral) /\
    session_view c2 = session_view c1 /\ tr c2 = tr c ++ req /\ is_bytes rsp /\ kex_accepted c2 rsp c'.

Definition key_exchanged c c' : Prop := exists req c2 rsp, kex_steps c req c2 rsp c'.

(** The same with the transport: [req] went out from a context that had
    recorded it, and [rsp] is the peer's answer to it. *)
Definition key_exchange_run c (w : W) c' (w' : W) : Prop :=
  exists req cs c2 rsp, kex_steps c req c2 rsp c' /\ tr cs = tr c ++ req /\
    wolfSPDM_ClearExchange req WOLFSPDM_KEY_EX_RX_SZ (cs, w) = Ok rsp (c2, w').

Lemma key_exchange_run_done c w c' w' : key_exchange_run c w c' w' -> key_exchanged c c'.
Proof. intros (req & cs & c2 & rsp & ? & _). by exists req, c2, rsp. Qed.

Lemma eph_runs c c' : runs_step c c' -> c'.(ephemeral) = c.(ephemeral).
Proof. intros (h & s & h' & s' & ->). by destruct c. Qed.

Lemma eph_xfer b c c' : xfer b c c' -> c'.(ephemeral) = c.(ephemeral).
Proof. intros (f & r & q & p & e & h & l & -> & _). by destruct c. Qed.

(** The exchange proper, from a trusted context. *)
Lemma kex_send_wp c c1 (w : W) (Q : unit -> WOLFSPDM_CTX * W -> Prop) (E : Z -> WOLFSPDM_CTX * W -> Prop) :
  ctx_wf c1 -> key_trusted c c1 -> tr c1 = tr c ->
  (forall c' w', ctx_wf c' -> key_exchange_run c w c' w' -> Q tt (c', w')) ->
  (forall rc c' w', rc < 0 -> ctx_wf c' -> session_view c' = session_view c1 -> E rc (c', w')) ->
  wp (let* tx := on_ctx (wolfSPDM_BuildKeyExchange WOLFSPDM_KEY_EX_TX_SZ) in
      let* ctx := get_ctx in
      when (negb (ctx.(m1State) =? WOLFSPDM_RUN_NONE)) (on_ctx wolfSPDM_M1Start) ;;;
      on_ctx (wolfSPDM_TranscriptAdd tx) ;;;
      let* rx := wolfSPDM_ClearExchange tx WOLFSPDM_KEY_EX_RX_SZ in
      on_ctx (wolfSPDM_ParseKeyExchangeRsp rx)) Q E (c1, w).
Proof.
  intros Hwf1 Hkt Ht1 HQ HE. io_step. io_step. apply wp_remember, BuildKeyExchange_wp; [done| |].
  2: { intros rc c2 ? ? Hs _. apply HE; [done|done|by apply view_eph_step]. }
  intros req c2 Hl Hreq Hwf2 Hs2 Hbuild. pose proof (view_eph_step _ _ Hs2) as Hv2.
  assert (tr c2 = tr c) as Ht2 by (by rewrite (tr_eph_step _ _ Hs2)).
  do 2 io_step. io_step.
  apply (wp_mono _ (fun _ s => ctx_wf s.1 /\ session_view s.1 = session_view c1 /\ tr s.1 = tr c /\
      s.2 = w /\ ephemeral s.1 = ephemeral c2) _
    (fun rc s => rc < 0 /\ ctx_wf s.1 /\ session_view s.1 = session_view c1)).
  { io_step; [|done]. io_step. apply RunStart_wp; [apply is_run_M|done| |].
    - intros c3 Hw3 Hs3 _ _. split_and!; [done|by rewrite (view_runs _ _ Hs3)| |done|by apply eph_runs].
      destruct (keeps_tr_runs _ _ Hs3). by erewrite tr_ext.
    - intros c3 Hw3 Hs3. split_and!; [done|done|by rewrite (view_runs _ _ Hs3)]. }
  2: { intros rc [c3 w3] (? & ? & ?). by apply HE. }
  intros [] [c3 w3] (Hwf3 & Hv3 & Ht3 & Hw3 & He3). cbn [fst snd] in *. subst w3.
  io_step. io_step. apply TranscriptAdd_wp; [done| |intros; by apply HE]. intros Hf4 Hwf4.
  pose proof (tr_tr_add _ _ Hwf3 Hf4) as Ht4. rewrite Ht3 in Ht4.
  assert (session_view (tr_add c3 req) = session_view c1) as Hv4 by (by rewrite view_tr_add).
  io_step. apply wp_remember. eapply wp_mono;
    [apply ClearExchange_wp; [done|done|unfold WOLFSPDM_KEY_EX_TX_SZ in *; lia]| |].
  2: { intros rc [c5 w5] (? & ? & Hx) _. cbn [fst] in *. apply HE; [done|done|by rewrite (view_xfer _ _ Hx)]. }
  intros rsp [c5 w5] (Hb & _ & Hwf5 & Hx5) Hrun. cbn [fst] in *.
  assert (session_view c5 = session_view c1) as Hv5 by (by rewrite (view_xfer _ _ Hx5)).
  assert (tr c5 = tr c ++ req) as Ht5.
  { rewrite <- Ht4. destruct (keeps_tr_xfer _ _ _ Hx5). by apply tr_ext. }
  io_step. apply ParseKeyExchangeRsp_wp; [done|done| |].
  - intros c6 Hwf6 Ha. apply HQ; [done|]. exists req, (tr_add c3 req), c5, rsp.
    split; [|done]. exists c1, c2. split_and!; try done.
    rewrite (eph_xfer _ _ _ Hx5), <- He3. by destruct c3.
  - intros rc c6 ? ? Hv. apply HE; [done|done|by rewrite Hv].
Qed.

Lemma KeyExchange_wp c (w : W) (Q : unit -> WOLFSPDM_CTX * W -> Prop)
    (E : Z -> WOLFSPDM_CTX * W -> Prop) : ctx_wf c ->
  (forall c' w', ctx_wf c' -> key_exchange_run c w c' w' -> Q tt (c', w')) ->
  (forall rc c' w', rc < 0 -> ctx_wf c' -> link_view c' = link_view c -> E rc (c', w')) ->
  wp wolfSPDM_KeyExchange Q E (c, w).
Proof.
  intros Hwf HQ HE. unfold wolfSPDM_KeyExchange. do 2 io_step. io_step; io_step; [by apply HE|].
  assert (hasRspPubKey (flags c) = true) as Hh by (by destruct (hasRspPubKey _)).
  io_step. apply (wp_mono _ (fun _ s => ctx_wf s.1 /\ key_trusted c s.1 /\ trust_step c s.1 /\ s.2 = w) _
    (fun rc s => rc < 0 /\ ctx_wf s.1 /\ trust_step c s.1)).
  { io_step.
    - io_step. match goal with Hx : negb _ && _ = true |- _ => apply andb_true_iff in Hx as [Hm Hr] end.
      apply ValidateCertChain_wp; [done| |intros; split_and!; auto using unpinned_step].
      intros c1 Hw1 Htr. split_and!; [done| |by apply chain_trusted_step|done].
      split; [done|]. right. split_and!; [|done|done]. by destruct (wolfSPDM_IsTcgMode c).
    - split_and!; [done| |apply trust_step_refl|done]. split; [done|]. left. split; [|done].
      match goal with Hx : negb ?a && ?b = false |- _ => by destruct a, b end. }
  2: { intros rc [c1 w1] (? & ? & ?). apply HE; [done|done|by apply link_trust]. }
  intros [] [c1 w1] (Hwf1 & Hkt & Hts & Hw1). cbn [fst snd] in *. subst w1.
  apply (kex_send_wp c); [done|done|destruct (keeps_tr_trust _ _ Hts); by apply tr_ext|done|].
  intros rc c' w' ? ? Hv. apply HE; [done|done|]. rewrite (link_of_view _ _ Hv). by apply link_trust.
Qed.

(** ** FINISH *)

Lemma FinishXfer_wp m cap c (w : W) : ctx_wf c -> 0 <= cap ->
  wp (wolfSPDM_FinishXfer m cap) (xfer_post true cap c) (xfer_err true c) (c, w).
Proof.
  intros Hwf Hcap. unfold wolfSPDM_FinishXfer. do 2 io_step. io_step; [by apply ChunkExchange_wp|].
  io_step. io_step. apply EncryptRecord_wp; [done| |].
  2: { intros rc c1 ? Hs. apply xfer_err_fail; [done|by eapply rng_step_wf|by apply xfer_weaken, xfer_rng]. }
  intros rec c1 Hs _ Hl _.
  assert (xfer true c (seq_sent c1)) as Hx1
    by (eapply xfer_trans; [by apply xfer_weaken, xfer_rng|apply xfer_sent]).
  assert (ctx_wf (seq_sent c1)) as Hwf1 by (by eapply seq_sent_wf, rng_step_wf).
  revert Hx1 Hwf1. generalize (seq_sent c1). intros c2 Hx2 Hwf2. io_step.
  eapply wp_mono; [apply SendReceive_xfer; [done|lia]| |].
  2: { intros rc s (? & ? & ?). split_and!; eauto using xfer_trans, xfer_weaken. }
  intros rx [c3 w3] (Hb & _ & Hwf3 & Hx3). cbn [fst] in *.
  assert (xfer true c c3) as Hx by (eauto using xfer_trans, xfer_weaken).
  io_step. io_step.
  - io_step. io_step.
    + io_step. io_step. by apply xfer_err_peer.
    + io_step. by apply xfer_err_fail.
  - io_step. apply DecryptRecord_wp; [done|done| |].
    + intros p ? ? _. apply xfer_post_ok; [done|done|by apply seq_rcvd_wf|].
      eapply xfer_trans; [done|apply xfer_rcvd].
    + intros rc c' ? [-> | ->]; (apply xfer_err_fail; [done| |]);
        [done|done|by apply seq_rcvd_wf|eapply xfer_trans; [done|apply xfer_rcvd]].
Qed.

(** What a finished handshake leaves: the application keys of the master
    secret over TH2, and fresh sequence numbers. *)
Definition finished c c' : Prop :=
  exists m rsp c1 th2 k, finish_sent c m c1 /\ tr c' = tr c1 ++ rsp /\
    at_ rsp 1 = SPDM_FINISH_RSP /\
    sha384 (tr c') [] [] = Some th2 /\
    app_schedule c.(spdmVersion) c.(handshakeSecret) th2 = Some k /\
    (c'.(reqDataKey), c'.(reqDataIv)) = k_areq k /\
    (c'.(rspDataKey), c'.(rspDataIv)) = k_arsp k /\
    (c'.(reqAppSecret), c'.(rspAppSecret)) = (k_req_app k, k_rsp_app k) /\
    (c'.(reqSeqNum), c'.(rspSeqNum)) = (0, 0) /\ c'.(state) = WOLFSPDM_STATE_FINISH /\
    (c'.(sessionId), c'.(spdmVersion), c'.(mode)) = (c.(sessionId), c.(spdmVersion), c.(mode)).

Definition fin_frame c c' : Prop :=
  (c'.(sessionId), c'.(spdmVersion), c'.(mode), c'.(handshakeSecret)) =
  (c.(sessionId), c.(spdmVersion), c.(mode), c.(handshakeSecret)).

Lemma fin_frame_core c c' : fin_core c' = fin_core c -> fin_frame c c' /\ c'.(state) = c.(state).
Proof.
  intros Hc. unfold fin_frame.
  assert (forall A (p : WOLFSPDM_CTX -> A), (forall x, p (fin_core x) = p x) -> p c' = p c) as Hp
    by (intros A p Hp; by rewrite <- (Hp c'), Hc, Hp).
  split; [|by apply (Hp _ state)].
  by apply (Hp _ (fun x => (x.(sessionId), x.(spdmVersion), x.(mode), x.(handshakeSecret)))).
Qed.

Lemma fin_frame_xfer b c c' : xfer b c c' -> fin_frame c c' /\ c'.(state) = c.(state).
Proof. intros (f & r & q & p & e & h & l & -> & _). by destruct c. Qed.

Lemma Finish_wp c (w : W) (Q : unit -> WOLFSPDM_CTX * W -> Prop)
    (E : Z -> WOLFSPDM_CTX * W -> Prop) : ctx_wf c ->
  (forall c' w', ctx_wf c' -> c.(state) = WOLFSPDM_STATE_KEY_EX -> finished c c' -> Q tt (c', w')) ->
  (c.(state) <> WOLFSPDM_STATE_KEY_EX -> E WOLFSPDM_E_BAD_STATE (c, w)) ->
  (forall rc c' w', rc < 0 -> ctx_wf c' -> c.(state) = WOLFSPDM_STATE_KEY_EX ->
     c'.(state) = WOLFSPDM_STATE_KEY_EX \/ c'.(state) = WOLFSPDM_STATE_FINISH -> E rc (c', w')) ->
  wp wolfSPDM_Finish Q E (c, w).
Proof.
  intros Hwf HQ HE0 HE. unfold wolfSPDM_Finish. do 2 io_step.
  io_step; io_step; [apply HE0; lia|]. assert (state c = WOLFSPDM_STATE_KEY_EX) as Hst by lia.
  assert (forall rc c' w', rc < 0 -> ctx_wf c' -> c'.(state) = c.(state) -> E rc (c', w')) as HE1
    by (intros; apply HE; try done; left; lia).
  io_step. io_step. apply BuildFinish_wp; [done| |].
  2: { intros rc c1 ? ? Hc. apply HE1; [done|done|by apply fin_frame_core]. }
  intros m c1 Hl Hwf1 Hc1 Hsent. destruct (fin_frame_core _ _ Hc1) as [Hf1 Hs1].
  io_step. eapply wp_mono; [by apply FinishXfer_wp| |].
  2: { intros rc [c2 w2] (? & ? & Hx). cbn [fst] in *. apply HE1; [done|done|].
       destruct (fin_frame_xfer _ _ _ Hx) as [_ ->]. done. }
  intros dec [c2 w2] (Hb & _ & Hwf2 & Hx2). cbn [fst] in *.
  destruct (fin_frame_xfer _ _ _ Hx2) as [Hf2 Hs2].
  assert (tr c2 = tr c1) as Ht2 by (destruct (keeps_tr_xfer _ _ _ Hx2); by apply tr_ext).
  io_step. io_step. apply ParseFinishRsp_wp; [done|done| |].
  2: { intros. apply HE1; [done|done|congruence]. }
  intros rsp Hcode Ht3 Hwf3. revert Ht3 Hwf3.
  assert (tr ((tr_add c2 rsp) <| state := WOLFSPDM_STATE_FINISH |>) = tr (tr_add c2 rsp)) as Hte
    by (by destruct c2).
  assert (fin_frame c2 ((tr_add c2 rsp) <| state := WOLFSPDM_STATE_FINISH |>)) as Hf3 by (by destruct c2).
  assert (state ((tr_add c2 rsp) <| state := WOLFSPDM_STATE_FINISH |>) = WOLFSPDM_STATE_FINISH) as Hs3
    by done.
  revert Hte Hf3 Hs3.
  generalize ((tr_add c2 rsp) <| state := WOLFSPDM_STATE_FINISH |>). intros c3 Hte Hf3 Hs3 Ht3 Hwf3.
  assert (fin_frame c c3) as Hf by (unfold fin_frame in *; congruence).
  io_step. apply DeriveAppDataKeys_wp; [done| |].
  - intros th k Hth Hk Hwf4. apply HQ; [done|done|].
    exists m, rsp, c1, th, k.
    assert (tr (install_app k c3) = tr c3) as Ht4 by (by destruct c3).
    rewrite Ht4, Hte, Ht3, Ht2. rewrite Hte, Ht3, Ht2 in Hth.
    unfold fin_frame in Hf. injection Hf as Hi Hv Hm Hsec. rewrite Hv, Hsec in Hk.
    destruct k as [ra pa [rk ri] [pk pi]]. destruct c3; unfold install_app; ctx_simpl_in Hi.
    ctx_simpl_in Hv. ctx_simpl_in Hm. ctx_simpl_in Hs3. subst. split_and!; done.
  - intros c4 Hwf4 (k1 & i1 & k2 & i2 & ->). apply HE; [done|done|done|]. right. by destruct c3.
Qed.

(** ** HEARTBEAT and KEY_UPDATE *)

Lemma CheckSessionCap_wp cap c (Q : unit -> WOLFSPDM_CTX -> Prop) (E : Z -> WOLFSPDM_CTX -> Prop) :
  (c.(state) = WOLFSPDM_STATE_CONNECTED ->
   wolfSPDM_IsTcgMode c = true \/ Z.land c.(rspCaps) cap <> 0 -> Q tt c) ->
  (c.(state) <> WOLFSPDM_STATE_CONNECTED -> E WOLFSPDM_E_NOT_CONNECTED c) ->
  (c.(state) = WOLFSPDM_STATE_CONNECTED -> wolfSPDM_IsTcgMode c = false -> Z.land c.(rspCaps) cap = 0 ->
   E WOLFSPDM_E_CAPS_MISMATCH c) ->
  wp (wolfSPDM_CheckSessionCap cap) Q E c.
Proof.
  intros HQ HE1 HE2. unfold wolfSPDM_CheckSessionCap. do 2 wp_step. cbv beta.
  wp_step; wp_step; [apply HE1; lia|].
  destruct (wolfSPDM_IsTcgMode c) eqn:Ht; cbn [negb andb] in *.
  - wp_step; [done|]. apply HQ; [lia|by left].
  - wp_step; [apply HE2; [lia|done|lia]|]. apply HQ; [lia|right; lia].
Qed.

(** One direction of the traffic: the secret, and the key and IV it gives. *)
Definition req_dir c : bytes * (bytes * bytes) := (c.(reqAppSecret), (c.(reqDataKey), c.(reqDataIv))).
Definition rsp_dir c : bytes * (bytes * bytes) := (c.(rspAppSecret), (c.(rspDataKey), c.(rspDataIv))).

(** The next generation of a direction. *)
Definition next_dir (v : Z) (d : bytes * (bytes * bytes)) : option (bytes * (bytes * bytes)) :=
  n ← expand v d.1 SPDM_LABEL_UPDATE [] WOLFSPDM_HASH_SIZE;
  p ← traffic v n; Some (n, p).

(** The key of the next generation, the first part of it to be written. *)
Definition next_key (v : Z) (secret : bytes) : option bytes :=
  n ← expand v secret SPDM_LABEL_UPDATE [] WOLFSPDM_HASH_SIZE;
  expand v n SPDM_LABEL_KEY [] WOLFSPDM_AEAD_KEY_SIZE.

(** What a failed derivation of the requests' direction leaves: everything as it
    was, but for the key if the IV was what could not be derived. *)
Definition half_rotated c c' : Prop :=
  next_dir c.(spdmVersion) (req_dir c) = None /\ rsp_dir c' = rsp_dir c /\
  c'.(reqAppSecret) = c.(reqAppSecret) /\ c'.(reqDataIv) = c.(reqDataIv) /\
  (c'.(reqDataKey) = c.(reqDataKey) \/
   next_key c.(spdmVersion) c.(reqAppSecret) = Some c'.(reqDataKey)).

(** A context up to its traffic keys and what exchanges may change. *)
Definition ku_core c : WOLFSPDM_CTX :=
  (core c) <| reqDataKey := [] |> <| rspDataKey := [] |> <| reqDataIv := [] |>
    <| rspDataIv := [] |> <| reqAppSecret := [] |> <| rspAppSecret := [] |>.

Definition put_req (d : bytes * (bytes * bytes)) c : WOLFSPDM_CTX :=
  set_req_app d.1 (set_req_iv d.2.2 (set_req_key d.2.1 c)).
Definition put_rsp (d : bytes * (bytes * bytes)) c : WOLFSPDM_CTX :=
  set_rsp_app d.1 (set_rsp_iv d.2.2 (set_rsp_key d.2.1 c)).

Definition dir_sized (d : bytes * (bytes * bytes)) : Prop :=
  len d.1 = WOLFSPDM_HASH_SIZE /\ pair_sized d.2.

Lemma put_req_wf d c : dir_sized d -> ctx_wf c -> ctx_wf (put_req d c).
Proof.
  intros [? [? ?]] Hwf. unfold put_req, set_req_app, set_req_iv, set_req_key. wf_tac.
Qed.
Lemma put_rsp_wf d c : dir_sized d -> ctx_wf c -> ctx_wf (put_rsp d c).
Proof.
  intros [? [? ?]] Hwf. unfold put_rsp, set_rsp_app, set_rsp_iv, set_rsp_key. wf_tac.
Qed.

Lemma next_dir_sized v d d' : next_dir v d = Some d' -> dir_sized d'.
Proof.
  unfold next_dir. intros Hn. simplify_option_eq. split; cbn [fst snd].
  - by eapply expand_len.
  - by eapply traffic_sized.
Qed.

Lemma UpdateDirection_wp v secret fs fk fi c (Q : unit -> WOLFSPDM_CTX -> Prop)
    (E : Z -> WOLFSPDM_CTX -> Prop) :
  (forall n k i, next_dir v (secret, ([], [])) = Some (n, (k, i)) -> Q tt (fs n (fi i (fk k c)))) ->
  (next_dir v (secret, ([], [])) = None -> E WOLFSPDM_E_CRYPTO_FAIL c) ->
  (forall k, next_dir v (secret, ([], [])) = None -> next_key v secret = Some k ->
     len k = WOLFSPDM_AEAD_KEY_SIZE -> E WOLFSPDM_E_CRYPTO_FAIL (fk k c)) ->
  wp (wolfSPDM_UpdateDirection v secret fs fk fi) Q E c.
Proof.
  intros HQ HE1 HE2. unfold next_dir, next_key in *. cbn [fst] in *.
  unfold wolfSPDM_UpdateDirection. wp_step. unfold wp at 1.
  rewrite HkdfExpandLabel_run by (vm_compute; discriminate).
  destruct (expand v secret SPDM_LABEL_UPDATE [] _) as [n|] eqn:Hn; [|by apply HE1].
  cbn [lift_opt]. unfold ret at 1. cbn in HQ, HE1, HE2. wp_step. apply DeriveKeyIvPair_wp.
  - intros k i Ht _. wp_step. apply HQ. by rewrite Ht.
  - intros Ht. apply HE1. by rewrite Ht.
  - intros k Ht Hk Hl. apply HE2; [by rewrite Ht|done|done].
Qed.

Lemma next_dir_secret v d e : d.1 = e.1 -> next_dir v d = next_dir v e.
Proof. unfold next_dir. by intros ->. Qed.

Lemma DeriveUpdatedKeys_wp all c (Q : unit -> WOLFSPDM_CTX -> Prop) (E : Z -> WOLFSPDM_CTX -> Prop) :
  ctx_wf c ->
  (forall d e, next_dir c.(spdmVersion) (req_dir c) = Some d ->
     next_dir c.(spdmVersion) (rsp_dir c) = Some e ->
     all = true -> ctx_wf (put_rsp e (put_req d c)) -> Q tt (put_rsp e (put_req d c))) ->
  (forall d, next_dir c.(spdmVersion) (req_dir c) = Some d -> all = false -> ctx_wf (put_req d c) ->
     Q tt (put_req d c)) ->
  (forall c', ctx_wf c' -> ku_core c' = ku_core c ->
     (all = false -> half_rotated c c') -> E WOLFSPDM_E_CRYPTO_FAIL c') ->
  wp (wolfSPDM_DeriveUpdatedKeys all) Q E c.
Proof.
  intros Hwf HQ1 HQ2 HE. unfold wolfSPDM_DeriveUpdatedKeys. do 2 wp_step. cbv beta. wp_step.
  apply UpdateDirection_wp; rewrite (next_dir_secret _ (reqAppSecret c, ([], [])) (req_dir c)) by done.
  2: { intros Hn. apply HE; [done|done|]. intros _. split_and!; try done. by left. }
  2: { intros k Hn Hk Hkl. apply HE; [unfold set_req_key; wf_tac|by destruct c|].
       intros _. split_and!; try done. by right. }
  intros n k i Hn. pose proof (next_dir_sized _ _ _ Hn) as Hsz.
  change (set_req_app n (set_req_iv i (set_req_key k c))) with (put_req (n, (k, i)) c).
  pose proof (put_req_wf _ _ Hsz Hwf) as Hw. destruct all; cbn [when]; [|wp_step; by apply HQ2].
  assert (ku_core (put_req (n, (k, i)) c) = ku_core c) as Hk by (by destruct c).
  apply UpdateDirection_wp.
  - intros n' k' i' Hn'. rewrite (next_dir_secret _ _ (rsp_dir c)) in Hn' by done.
    apply (HQ1 (n, (k, i)) (n', (k', i'))); try done.
    apply put_rsp_wf; [by eapply next_dir_sized|done].
  - intros _. by apply HE.
  - intros k' _ _ Hk'. apply HE; [|by rewrite <- Hk; destruct c|done].
    revert Hw. generalize (put_req (n, (k, i)) c). intros c1 Hw. unfold set_rsp_key. wf_tac.
Qed.

Definition snap_of c : traffic_snap := {|
  s_reqDataKey := c.(reqDataKey); s_rspDataKey := c.(rspDataKey); s_reqDataIv := c.(reqDataIv);
  s_rspDataIv := c.(rspDataIv); s_reqAppSecret := c.(reqAppSecret);
  s_rspAppSecret := c.(rspAppSecret); s_reqSeq := c.(reqSeqNum); s_rspSeq := c.(rspSeqNum) |}.

Definition restored (s : traffic_snap) c : WOLFSPDM_CTX :=
  c <| reqDataKey := s.(s_reqDataKey) |> <| rspDataKey := s.(s_rspDataKey) |>
    <| reqDataIv := s.(s_reqDataIv) |> <| rspDataIv := s.(s_rspDataIv) |>
    <| reqAppSecret := s.(s_reqAppSecret) |> <| rspAppSecret := s.(s_rspAppSecret) |>
    <| reqSeqNum := s.(s_reqSeq) |> <| rspSeqNum := s.(s_rspSeq) |>.

Lemma restored_self c : restored (snap_of c) c = c.
Proof. by destruct c. Qed.

Lemma SaveTrafficKeys_save_wp snap c (Q : traffic_snap -> WOLFSPDM_CTX -> Prop) E :
  Q (snap_of c) c -> wp (wolfSPDM_SaveTrafficKeys snap true) Q E c.
Proof.
  intros HQ. unfold wolfSPDM_SaveTrafficKeys. do 4 wp_step. cbv beta.
  change (Q (snap_of c) (restored (snap_of c) c)). by rewrite restored_self.
Qed.

Lemma SaveTrafficKeys_restore_wp snap c (Q : traffic_snap -> WOLFSPDM_CTX -> Prop) E :
  Q snap (restored snap c) -> wp (wolfSPDM_SaveTrafficKeys snap false) Q E c.
Proof.
  intros HQ. unfold wolfSPDM_SaveTrafficKeys. do 4 wp_step. cbv beta.
  by destruct snap.
Qed.

Lemma restored_wf c0 c : ctx_wf c0 -> ctx_wf c -> ctx_wf (restored (snap_of c0) c).
Proof.
  intros Hwf0 Hwf. unfold restored, snap_of;
    cbn [s_reqDataKey s_rspDataKey s_reqDataIv s_rspDataIv s_reqAppSecret s_rspAppSecret s_reqSeq s_rspSeq].
  wf_facts Hwf0. wf_tac.
Qed.

Lemma restored_fields c0 c : req_dir (restored (snap_of c0) c) = req_dir c0 /\
  rsp_dir (restored (snap_of c0) c) = rsp_dir c0 /\
  (restored (snap_of c0) c).(reqSeqNum) = c0.(reqSeqNum) /\
  ku_core (restored (snap_of c0) c) = ku_core c.
Proof. split_and!; [done|done|done|by destruct c]. Qed.

(** The keys after an update of the requests', or of both directions. *)
Definition rotated (all : bool) c c' : Prop :=
  next_dir c.(spdmVersion) (req_dir c) = Some (req_dir c') /\
  if all then next_dir c.(spdmVersion) (rsp_dir c) = Some (rsp_dir c')
  else rsp_dir c' = rsp_dir c.

Definition same_keys c c' : Prop := req_dir c' = req_dir c /\ rsp_dir c' = rsp_dir c.

Lemma half_rotated_same c c1 c' : c1.(spdmVersion) = c.(spdmVersion) -> same_keys c c1 ->
  half_rotated c1 c' -> half_rotated c c'.
Proof.
  intros Hv [Hd He] Hh. unfold half_rotated in Hh. rewrite Hv, Hd, He in Hh.
  unfold req_dir in Hd. injection Hd as Hs Hk Hi. unfold half_rotated. by rewrite <- Hs, <- Hk, <- Hi.
Qed.

Lemma ku_of_core c c' : core c' = core c -> ku_core c' = ku_core c /\ same_keys c c'.
Proof.
  intros Hc. assert (forall A (p : WOLFSPDM_CTX -> A), (forall x, p (core x) = p x) -> p c' = p c) as Hp
    by (intros A p Hp; by rewrite <- (Hp c'), Hc, Hp).
  split; [unfold ku_core; rewrite Hc; reflexivity|].
  split; [apply (Hp _ req_dir)|apply (Hp _ rsp_dir)]; reflexivity.
Qed.

Lemma ku_fields c c' : ku_core c' = ku_core c ->
  c'.(spdmVersion) = c.(spdmVersion) /\ c'.(state) = c.(state).
Proof.
  intros Hc. split; [exact (f_equal spdmVersion Hc)|exact (f_equal state Hc)].
Qed.

Definition fresh_seq c : WOLFSPDM_CTX := c <| reqSeqNum := 0 |> <| rspSeqNum := 0 |>.

Lemma fresh_seq_wf c : ctx_wf c -> ctx_wf (fresh_seq c).
Proof. intros. unfold fresh_seq. wf_tac. Qed.

Lemma key_update_rsp_wp all raw c (Q : bytes * bool -> WOLFSPDM_CTX -> Prop)
    (E : Z -> WOLFSPDM_CTX -> Prop) : ctx_wf c -> is_bytes raw ->
  (forall rx c', is_bytes rx -> ctx_wf c' -> ku_core c' = ku_core c -> same_keys c c' ->
     c'.(reqSeqNum) = c.(reqSeqNum) -> Q (rx, false) c') ->
  (forall rx c', is_bytes rx -> ctx_wf c' -> ku_core c' = ku_core c -> all = true ->
     rotated true c c' -> Q (rx, true) c') ->
  (forall rc c', rc < 0 -> ctx_wf c' -> ku_core c' = ku_core c -> same_keys c c' ->
     c'.(reqSeqNum) = c.(reqSeqNum) -> E rc c') ->
  wp (key_update_rsp all raw) Q E c.
Proof.
  intros Hwf Hb HQ1 HQ2 HE. unfold key_update_rsp. wp_step. wp_step.
  apply DecryptRecord_wp; [done|done| |]; cbv beta.
  { intros p Hp _ _. wp_step. apply HQ1; [done|by apply seq_rcvd_wf|by destruct c|done|done]. }
  intros rc c1 Hrc Hc1.
  assert (ctx_wf c1 /\ ku_core c1 = ku_core c /\ same_keys c c1 /\ reqSeqNum c1 = reqSeqNum c) as
    (Hwf1 & Hk1 & Hd1 & Hq1)
    by (destruct Hc1 as [-> | ->]; [done|split_and!; [by apply seq_rcvd_wf|by destruct c|done|done]]).
  clear Hc1. wp_step; [|wp_step; by apply HE]. wp_step. apply SaveTrafficKeys_save_wp. wp_step. wp_step.
  apply (wp_mono _ (fun rx c' => is_bytes rx /\ ctx_wf c' /\ ku_core c' = ku_core c1 /\ rotated true c1 c') _
    (fun rc c' => rc < 0 /\ ctx_wf c' /\ ku_core c' = ku_core c1)).
  - wp_step. wp_step. apply DeriveUpdatedKeys_wp; [done| |done|].
    + intros d e Hd He _ Hw. do 2 wp_step. cbv beta.
      assert (ku_core (fresh_seq (put_rsp e (put_req d c1))) = ku_core c1)
        as Hk2 by (by destruct c1).
      assert (ctx_wf (fresh_seq (put_rsp e (put_req d c1)))) as Hw2
        by (by apply fresh_seq_wf).
      assert (rotated true c1 (fresh_seq (put_rsp e (put_req d c1)))) as Hr
        by (unfold rotated; rewrite Hd, He; by destruct d as [? [? ?]], e as [? [? ?]]).
      match goal with |- wp ?m ?Q ?E _ =>
        change (wp m Q E (fresh_seq (put_rsp e (put_req d c1)))) end.
      revert Hk2 Hw2 Hr. generalize (fresh_seq (put_rsp e (put_req d c1))).
      intros c2 Hk2 Hw2 Hr. apply DecryptRecord_wp; [done|done| |].
      * intros p Hp _ _. split_and!; [done|by apply seq_rcvd_wf| |exact Hr].
        rewrite <- Hk2. by destruct c2.
      * intros rc' c3 ? [-> | ->]; [by split_and!|].
        split_and!; [done|by apply seq_rcvd_wf|]. rewrite <- Hk2. by destruct c2.
    + intros c2 Hw2 Hk2 _. do 2 wp_step. cbv beta. wp_step. fold (fresh_seq c2).
      split_and!; [done|by apply fresh_seq_wf|]. rewrite <- Hk2. by destruct c2.
  - intros rx c2 (Hbx & Hw2 & Hk2 & Hr). wp_step.
    apply HQ2; [done|done|congruence|done|]. destruct (ku_fields _ _ Hk1) as [Hv _].
    destruct Hd1 as [Hd1 He1]. unfold rotated in *. by rewrite Hv, Hd1, He1 in Hr.
  - intros rc' c2 (Hrc' & Hw2 & Hk2). wp_step. apply SaveTrafficKeys_restore_wp. wp_step.
    destruct (restored_fields c1 c2) as (Hrd & Hsd & Hsq & Hku). destruct Hd1 as [Hd1 He1].
    apply HE; [done|by apply restored_wf|congruence|split; congruence|congruence].
Qed.

Lemma ParseKeyUpdateAck_wp buf op tag c (Q : unit -> WOLFSPDM_CTX -> Prop)
    (E : Z -> WOLFSPDM_CTX -> Prop) :
  (buf = [c.(spdmVersion); SPDM_KEY_UPDATE_ACK; op; tag] -> Q tt c) ->
  (forall rc c', rc < 0 -> err_step c c' -> E rc c') ->
  wp (wolfSPDM_ParseKeyUpdateAck buf op tag) Q E c.
Proof.
  intros HQ HE. assert (err_step c c) as Hrefl by (by left).
  unfold wolfSPDM_ParseKeyUpdateAck, SPDM_CHECK_PARSE_ARGS.
  wp_step; wp_step; [by apply HE|]. wp_step. apply CHECK_RESPONSE_wp; [lia| | |].
  2: { intros e _. apply HE; [done|right; eauto]. }
  2: { intros. by apply HE. }
  intros Hcode. do 2 wp_step. cbv beta. wp_step. wp_step. wp_step. wp_step. wp_step. wp_step. cbv beta.
  wp_step; [by apply HE|]. apply HQ. subst.
  assert (len buf = 4 /\ nth (Z.to_nat 0) buf 0 = spdmVersion c /\ nth (Z.to_nat 2) buf 0 = op /\
    nth (Z.to_nat 3) buf 0 = tag) as (Hl & <- & <- & <-) by lia.
  unfold len in Hl. destruct buf as [|b0 [|b1 [|b2 [|b3 [|? ?]]]]]; cbn [length] in Hl; try lia.
  cbv [at_] in Hcode. cbn in Hcode |- *. by rewrite Hcode.
Qed.

Lemma BuildKeyUpdate_wp n op c (Q : bytes * Z -> WOLFSPDM_CTX -> Prop)
    (E : Z -> WOLFSPDM_CTX -> Prop) : ctx_wf c ->
  (forall tag c', is_byte tag -> ctx_wf c' -> rng_step c c' ->
     Q ([c.(spdmVersion); SPDM_KEY_UPDATE; op; tag], tag) c') ->
  (forall rc c', rc < 0 -> ctx_wf c' -> rng_step c c' -> E rc c') ->
  wp (wolfSPDM_BuildKeyUpdate n op) Q E c.
Proof.
  intros Hwf HQ HE. assert (rng_step c c) as Hrefl by (by left).
  unfold wolfSPDM_BuildKeyUpdate, SPDM_CHECK_BUILD_ARGS. wp_step; wp_step; [by apply HE|].
  wp_step. apply GetRandom_wp; [done|done| |by apply HE|intros; apply HE; [done|done|right; eauto]].
  intros r t Hl Hb Hw. wp_step. wp_step. do 2 wp_step. cbv beta. wp_step.
  change (spdmVersion (set_rng r c)) with (spdmVersion c).
  apply HQ; [subst; by apply is_byte_at|done|right; eauto].
Qed.
Lemma rotate_req_wp c (Q : unit -> WOLFSPDM_CTX -> Prop) (E : Z -> WOLFSPDM_CTX -> Prop) :
  ctx_wf c ->
  (forall c', ctx_wf c' -> ku_core c' = ku_core c -> rotated false c c' -> Q tt c') ->
  (forall c', ctx_wf c' -> ku_core c' = ku_core c -> half_rotated c c' -> c'.(reqSeqNum) = 0 ->
     E WOLFSPDM_E_CRYPTO_FAIL c') ->
  wp rotate_req Q E c.
Proof.
  intros Hwf HQ HE. unfold rotate_req. wp_step. wp_step.
  assert (forall c1, ctx_wf c1 -> ctx_wf (c1 <| reqSeqNum := 0 |>)) as Hz by (intros; wf_tac).
  assert (forall c1, ku_core (c1 <| reqSeqNum := 0 |>) = ku_core c1) as Hk by (by intros []).
  apply DeriveUpdatedKeys_wp; [done|done| |]; cbv beta.
  - intros d Hd _ Hw. do 2 wp_step. cbv beta iota. wp_step. apply HQ; [by apply Hz| |].
    + rewrite Hk. by destruct c.
    + unfold rotated. rewrite Hd. by destruct d as [? [? ?]].
  - intros c1 Hw Hk1 Hf. specialize (Hf eq_refl). do 2 wp_step. cbv beta iota. wp_step.
    apply HE; [by apply Hz|by rewrite Hk|done|done].
Qed.

Definition ku_failed (all : bool) c (rc : Z) c' : Prop :=
  rc < 0 /\ ctx_wf c' /\ ku_core c' = ku_core c /\
  ((same_keys c c' /\ (c'.(reqSeqNum) = c.(reqSeqNum) \/ c'.(reqSeqNum) = w64 (c.(reqSeqNum) + 1))) \/
   rotated all c c' \/
   (all = false /\ rc = WOLFSPDM_E_CRYPTO_FAIL /\ half_rotated c c' /\ c'.(reqSeqNum) = 0)).

Lemma rotated_core all c c1 c2 : core c2 = core c1 -> rotated all c c1 -> rotated all c c2.
Proof.
  intros Hc Hr. destruct (ku_of_core _ _ Hc) as [_ [Hd He]]. unfold rotated in *. by rewrite Hd, He.
Qed.

Lemma seq_xfer c c' : xfer false c c' -> c'.(reqSeqNum) = c.(reqSeqNum).
Proof. intros (f & r & q & p & e & h & l & -> & Hs & _). by destruct (Hs eq_refl) as (-> & _). Qed.

Lemma seq_err c c' : err_step c c' -> c'.(reqSeqNum) = c.(reqSeqNum).
Proof. by intros [-> | [e ->]]. Qed.

(** The second half: the new keys are verified. *)
Lemma verify_new_key_wp all c c1 (w : W) (Q : unit -> WOLFSPDM_CTX * W -> Prop)
    (E : Z -> WOLFSPDM_CTX * W -> Prop) :
  ctx_wf c1 -> ku_core c1 = ku_core c -> rotated all c c1 ->
  (forall c' w', ctx_wf c' -> ku_core c' = ku_core c -> rotated all c c' -> Q tt (c', w')) ->
  (forall rc c' w', ku_failed all c rc c' -> E rc (c', w')) ->
  wp (let* (tx, tag) := on_ctx (wolfSPDM_BuildKeyUpdate 4 SPDM_KEY_UPDATE_OP_VERIFY_NEW_KEY) in
      let* rx := wolfSPDM_SecuredExchange tx 32 in
      on_ctx (wolfSPDM_ParseKeyUpdateAck rx SPDM_KEY_UPDATE_OP_VERIFY_NEW_KEY tag)) Q E (c1, w).
Proof.
  intros Hwf1 Hk1 Hr1 HQ HE.
  assert (forall rc c' w', rc < 0 -> ctx_wf c' -> core c' = core c1 -> E rc (c', w')) as HE1.
  { intros rc c' w' ? ? Hc. apply HE. destruct (ku_of_core _ _ Hc) as [Hk _].
    split_and!; [done|done|congruence|right; left; by eapply rotated_core]. }
  io_step. io_step. apply BuildKeyUpdate_wp; [done| |].
  2: { intros rc c2 ? ? Hs. apply HE1; [done|done|by apply core_rng]. }
  intros tag c2 _ Hwf2 Hs2. pose proof (core_rng _ _ Hs2) as Hc2. cbv beta iota.
  io_step. eapply wp_mono; [by apply SecuredExchange_wp| |].
  2: { intros rc [c3 w3] [(_ & -> & [= -> ->])|(_ & ? & ? & Hx)]; [by apply HE1|].
       cbn [fst] in *. apply HE1; [done|done|]. by rewrite (core_xfer _ _ _ Hx). }
  intros rx [c3 w3] (_ & Hb & _ & Hwf3 & Hx). cbn [fst] in *.
  assert (core c3 = core c1) as Hc3 by (by rewrite (core_xfer _ _ _ Hx)).
  io_step. apply ParseKeyUpdateAck_wp.
  - intros _. destruct (ku_of_core _ _ Hc3) as [Hk _].
    apply HQ; [done|congruence|by eapply rotated_core].
  - intros rc c4 ? Hs. apply HE1; [done|by eapply err_step_wf|]. by rewrite (core_err _ _ Hs).
Qed.

Lemma KeyUpdate_wp (all : bool) c (w : W) (Q : unit -> WOLFSPDM_CTX * W -> Prop)
    (E : Z -> WOLFSPDM_CTX * W -> Prop) : ctx_wf c ->
  (forall c' w', ctx_wf c' -> c.(state) = WOLFSPDM_STATE_CONNECTED -> ku_core c' = ku_core c ->
     rotated all c c' -> Q tt (c', w')) ->
  (forall rc c' w', ku_failed all c rc c' -> E rc (c', w')) ->
  wp (wolfSPDM_KeyUpdate all) Q E (c, w).
Proof.
  intros Hwf HQ HE. unfold wolfSPDM_KeyUpdate.
  set (op := if all then SPDM_KEY_UPDATE_OP_UPDATE_ALL_KEYS else SPDM_KEY_UPDATE_OP_UPDATE_KEY).
  assert (forall rc c' w', rc < 0 -> ctx_wf c' -> ku_core c' = ku_core c -> same_keys c c' ->
    (c'.(reqSeqNum) = c.(reqSeqNum) \/ c'.(reqSeqNum) = w64 (c.(reqSeqNum) + 1)) -> E rc (c', w')) as HE0.
  { intros. apply HE. split_and!; try done. left. done. }
  io_step. io_step. apply CheckSessionCap_wp; [|intros; apply HE0; [done..|by left]|
    intros; apply HE0; [done..|by left]].
  intros Hst _. io_step. io_step. apply BuildKeyUpdate_wp; [done| |].
  2: { intros rc c1 ? ? Hs. destruct (ku_of_core _ _ (core_rng _ _ Hs)).
       apply HE0; [done..|]. left. apply rng_step_keys in Hs. tauto. }
  intros tag c1 _ Hwf1 Hs1. pose proof (core_rng _ _ Hs1) as Hc1.
  assert (reqSeqNum c1 = reqSeqNum c) as Hq1 by (apply rng_step_keys in Hs1; tauto).
  cbv beta iota. io_step. io_step. apply EncryptRecord_wp; [done| |].
  2: { intros rc c2 ? Hs. destruct (ku_of_core c c2) as [? ?]; [by rewrite (core_rng _ _ Hs)|].
       apply HE0; [done|by eapply rng_step_wf|done|done|]. left. apply rng_step_keys in Hs. intuition congruence. }
  intros rec c1' Hs1' _ Hl _.
  assert (core (seq_sent c1') = core c) as Hc2
    by (rewrite <- Hc1, <- (core_rng _ _ Hs1'); by destruct c1').
  assert (reqSeqNum (seq_sent c1') = w64 (reqSeqNum c + 1)) as Hq2
    by (apply rng_step_keys in Hs1' as (_ & _ & Hq); unfold seq_sent; ctx_simpl; by rewrite Hq, Hq1).
  assert (ctx_wf (seq_sent c1')) as Hwf2 by (by eapply seq_sent_wf, rng_step_wf).
  revert Hc2 Hq2 Hwf2. generalize (seq_sent c1'). clear dependent c1'. intros c2 Hc2 Hq2 Hwf2.
  io_step. eapply wp_mono; [apply SendReceive_xfer; [done|lia]| |].
  2: { intros rc [c3 w3] (? & ? & Hx). cbn [fst] in *.
       destruct (ku_of_core c c3) as [? ?]; [by rewrite (core_xfer _ _ _ Hx)|].
       apply HE0; [done..|]. right. by rewrite (seq_xfer _ _ Hx). }
  intros raw [c3 w3] (Hb & _ & Hwf3 & Hx3). cbn [fst] in *.
  destruct (ku_of_core c c3) as [Hk3 Hd3]; [by rewrite (core_xfer _ _ _ Hx3)|].
  assert (reqSeqNum c3 = w64 (reqSeqNum c + 1)) as Hq3 by (by rewrite (seq_xfer _ _ Hx3)).
  assert (forall b c', rotated b c3 c' -> rotated b c c') as Hrot.
  { intros b c'. destruct (ku_fields _ _ Hk3) as [Hv _], Hd3 as [Hd3 He3]. unfold rotated.
    by rewrite Hv, Hd3, He3. }
  assert (forall c', same_keys c3 c' -> same_keys c c') as Hsame.
  { intros c' [? ?]. destruct Hd3. split; congruence. }
  io_step. io_step. apply key_update_rsp_wp; [done|done| | |].
  3: { intros rc c4 ? ? ? ? Hq. apply HE0; [done|done|congruence|auto|right; congruence]. }
  - (* the current keys *)
    intros rx c4 Hbx Hwf4 Hk4 Hd4 Hq4. cbv beta iota. io_step. io_step.
    assert (forall rc c', rc < 0 -> err_step c4 c' -> E rc (c', w3)) as HE4.
    { intros rc c' Hrc Hs. destruct (ku_of_core _ _ (core_err _ _ Hs)) as [Hk Hd].
      apply HE0; [done|by eapply err_step_wf|congruence| |right; rewrite (seq_err _ _ Hs); congruence].
      apply Hsame. destruct Hd4, Hd. split; congruence. }
    apply ParseKeyUpdateAck_wp; [|by intros; apply HE4].
    intros _. io_step. io_step; [apply HE4; [done|by left]|].
    destruct all; [done|]. cbn [negb when]. io_step. io_step. apply rotate_req_wp; [done| |].
    + intros c5 Hwf5 Hk5 Hr5. apply (verify_new_key_wp false c).
      * done.
      * congruence.
      * apply Hrot. destruct (ku_fields _ _ Hk4) as [Hv _], Hd4 as [Hd4 He4]. unfold rotated in *.
        by rewrite <- Hd4, <- He4, <- Hv.
      * intros. by apply HQ.
      * done.
    + intros c5 Hwf5 Hk5 Hd5 Ha5. apply HE. split_and!; [done|done|congruence|]. right; right.
      split_and!; [done|done| |done].
      apply (half_rotated_same c c4); [destruct (ku_fields c c4); congruence|by apply Hsame|done].
  - (* the next keys *)
    intros rx c4 Hbx Hwf4 Hk4 -> Hr4. cbv beta iota. apply Hrot in Hr4. io_step. io_step.
    apply ParseKeyUpdateAck_wp.
    2: { intros rc c5 ? Hs. apply HE. destruct (ku_of_core _ _ (core_err _ _ Hs)) as [Hk Hd].
         split_and!; [done|by eapply err_step_wf|congruence|]. right; left.
         eapply rotated_core; [by apply core_err|done]. }
    intros _. io_step. io_step; [done|]. cbn [negb when]. io_step. io_step.
    apply (verify_new_key_wp true c); [done|congruence|done| |done].
    intros. by apply HQ.
Qed.

(** ** Properties *)

(** C17: an exchange is recorded in the transcript whole or not at all.  For
    every builder and parser that meet the interface, a successful
    [wolfSPDM_ExchangeMsg] appends exactly the request sent and the response
    received, and a failed one, wherever it fails, leaves the transcript as it
    was, so that a retry does not build on half a message. *)
Theorem exchange_recorded_atomically b p `{!ExchangeFns b p} n m c (w : W) :
  ctx_wf c -> 0 <= m -> n < 2 ^ 32 - WOLFSPDM_TCG_HEADER_SIZE ->
  match wolfSPDM_ExchangeMsg b p n m (c, w) with
  | Ok _ (c', _) => ctx_wf c' /\ exchanged b p n c c'
  | Err rc (c', _) => rc < 0 /\ ctx_wf c' /\ tr c' = tr c /\ c'.(transcriptLen) = c.(transcriptLen)
  | Ub => False
  end.
Proof.
  intros Hwf Hm Hn.
  pose proof (ExchangeMsg_wp b p n m c w (fun _ s => ctx_wf s.1 /\ exchanged b p n c s.1)
    (fun rc s => rc < 0 /\ ctx_wf s.1 /\ tr s.1 = tr c /\ s.1.(transcriptLen) = c.(transcriptLen))
    Hwf Hm Hn) as Hw.
  unfold wp in Hw. destruct (wolfSPDM_ExchangeMsg _ _ _ _ _) as [[] [c' w']|rc [c' w']|];
    apply Hw; auto.
Qed.

(** C15: a key exchange succeeds only with an authenticated responder.  The
    responder key was set beforehand; unless it was pinned (or the binding is
    TCG), the certificate chain it came from was validated again first.  The one
    message of the run is a KEY_EXCHANGE request built from that context, with
    the public half of the ephemeral key made for it; the peer's answer to it is accepted
    under that key, over the transcript that ends with that request.  A failure
    changes neither the state nor the session identifiers, sequence numbers,
    version or mode. *)
Theorem key_exchange_authenticated c (w : W) :
  ctx_wf c ->
  match wolfSPDM_KeyExchange (c, w) with
  | Ok _ (c', w') => ctx_wf c' /\ key_exchange_run c w c' w'
  | Err rc (c', _) => rc < 0 /\ ctx_wf c' /\ link_view c' = link_view c
  | Ub => False
  end.
Proof.
  intros Hwf. pose proof (KeyExchange_wp c w (fun _ s => ctx_wf s.1 /\ key_exchange_run c w s.1 s.2)
    (fun rc s => rc < 0 /\ ctx_wf s.1 /\ link_view s.1 = link_view c) Hwf) as Hw.
  unfold wp in Hw. destruct (wolfSPDM_KeyExchange _) as [[] [c' w']|rc [c' w']|]; apply Hw; auto.
Qed.

(** C14: application keys come only out of a completed handshake.
    [wolfSPDM_Finish] outside the key-exchanged state is refused with the
    context untouched and nothing sent.  When it succeeds, FINISH carried the
    requester's verify data over the transcript, the answer was FINISH_RSP, and
    the traffic keys are those that the key schedule derives from the handshake
    secret and the hash of the final transcript, with both sequence numbers at
    zero; a failure never reaches the connected state. *)
Theorem finish_installs_app_keys c (w : W) :
  ctx_wf c ->
  match wolfSPDM_Finish (c, w) with
  | Ok _ (c', _) => ctx_wf c' /\ c.(state) = WOLFSPDM_STATE_KEY_EX /\ finished c c'
  | Err rc (c', w') => rc < 0 /\ ctx_wf c' /\
      if c.(state) =? WOLFSPDM_STATE_KEY_EX
      then c'.(state) = WOLFSPDM_STATE_KEY_EX \/ c'.(state) = WOLFSPDM_STATE_FINISH
      else (c', w') = (c, w)
  | Ub => False
  end.
Proof.
  intros Hwf. pose proof (Finish_wp c w
    (fun _ s => ctx_wf s.1 /\ c.(state) = WOLFSPDM_STATE_KEY_EX /\ finished c s.1)
    (fun rc s => rc < 0 /\ ctx_wf s.1 /\ if c.(state) =? WOLFSPDM_STATE_KEY_EX
      then s.1.(state) = WOLFSPDM_STATE_KEY_EX \/ s.1.(state) = WOLFSPDM_STATE_FINISH
      else s = (c, w)) Hwf) as Hw.
  unfold wp in Hw. destruct (wolfSPDM_Finish _) as [[] [c' w']|rc [c' w']|]; apply Hw; auto.
  all: try (intros Hs; split_and!; [done|done|]; by replace (state c =? _) with false by lia).
  all: intros rc' c2 w2 ? ? -> ?; by rewrite Z.eqb_refl.
Qed.

(** C18: a key update is all or nothing, but for one failure.  When it succeeds,
    the session was connected and the requests' direction (for UpdateAllKeys
    both directions) has its next-generation secret, key and IV, derived from
    the secret before; nothing else of the session has changed.  When
    UpdateAllKeys fails, for whatever reason, the keys are all the old ones,
    with a send counter unchanged or advanced by one, or all the next ones.  The
    one-direction update fails in the same way, unless the next generation of
    its direction cannot be derived: then the secret and the IV are the old
    ones, the send counter is zero, and only the key may already be the next. *)
Theorem key_update_all_or_nothing (all : bool) c (w : W) :
  ctx_wf c ->
  match wolfSPDM_KeyUpdate all (c, w) with
  | Ok _ (c', _) => ctx_wf c' /\ c.(state) = WOLFSPDM_STATE_CONNECTED /\
      ku_core c' = ku_core c /\ rotated all c c'
  | Err rc (c', _) => ku_failed all c rc c'
  | Ub => False
  end.
Proof.
  intros Hwf. pose proof (KeyUpdate_wp all c w (fun _ s => ctx_wf s.1 /\
    c.(state) = WOLFSPDM_STATE_CONNECTED /\ ku_core s.1 = ku_core c /\ rotated all c s.1)
    (fun rc s => ku_failed all c rc s.1) Hwf) as Hw.
  unfold wp in Hw. destruct (wolfSPDM_KeyUpdate _ _) as [[] [c' w']|rc [c' w']|]; apply Hw; auto.
Qed.

(** C40: a failed derivation in a one-direction update resets the send counter
    but not the key: when the next secret cannot be derived, [rotate_req]
    reports the failure with the sequence number at zero and every key and IV
    unchanged, so the next record reuses the session's first nonce. *)
Theorem failed_rotation_resets_counter c :
  expand c.(spdmVersion) c.(reqAppSecret) SPDM_LABEL_UPDATE [] WOLFSPDM_HASH_SIZE = None ->
  rotate_req c = Err WOLFSPDM_E_CRYPTO_FAIL (c <| reqSeqNum := 0 |>) /\
  same_keys c (c <| reqSeqNum := 0 |>).
Proof.
  intros Hn. split; [|done]. unfold rotate_req, wolfSPDM_DeriveUpdatedKeys, wolfSPDM_UpdateDirection.
  run. rewrite HkdfExpandLabel_run by (vm_compute; discriminate). by rewrite Hn.
Qed.
End SessionLemmas.
