(* ===== verification/Standard.v ===== *)
(** * The standard profile: src/spdm_standard.c (capabilities, algorithms,
    digests, certificates, the handshake) *)
From Stdlib Require Import ZArith Lia.
From stdpp Require Import base tactics list numbers.
From S2P Require Import Prelude Types Bytes Crypt Context Transcript Kdf CryptoOps Transport.
From S2P Require Import Secured Msg Chunk Cert Attest Session.

Section Standard.
Context `{WolfCrypt} `{Config}.
Notation CM := (M WOLFSPDM_CTX).

(** ** GET_CAPABILITIES *)

Definition wolfSPDM_BuildGetCapabilities (bufSz : Z) : CM bytes :=
  SPDM_CHECK_BUILD_ARGS bufSz 20 ;;;
  let* ctx := @get WOLFSPDM_CTX in
  ret ([ctx.(spdmVersion); SPDM_GET_CAPABILITIES] ++ zeros 6 ++
       SPDM_Set32LE WOLFSPDM_REQ_CAPS ++ SPDM_Set32LE WOLFSPDM_DATA_TRANSFER_SIZE ++
       SPDM_Set32LE WOLFSPDM_MAX_MSG_SIZE).

Definition required_caps : Z :=
  Z.lor (Z.lor (Z.lor SPDM_CAP_CERT_CAP SPDM_CAP_ENCRYPT_CAP) SPDM_CAP_MAC_CAP)
    SPDM_CAP_KEY_EX_CAP.

Definition wolfSPDM_ParseCapabilities (buf : bytes) : CM unit :=
  SPDM_CHECK_PARSE_ARGS buf 4 ;;;
  SPDM_CHECK_RESPONSE buf SPDM_CAPABILITIES WOLFSPDM_E_CAPS_MISMATCH ;;;
  let* ctx := @get WOLFSPDM_CTX in
  let* v := rd buf 0 in
  check ((len buf <? 20) || negb (v =? ctx.(spdmVersion))) WOLFSPDM_E_CAPS_MISMATCH ;;;
  let* caps := rd32le buf 8 in
  let* dts := rd32le buf 12 in
  let* maxMsg := rd32le buf 16 in
  check (negb (Z.land caps required_caps =? required_caps) ||
         (dts <? SPDM_MIN_DATA_TRANSFER_SIZE) || (maxMsg <? dts)) WOLFSPDM_E_CAPS_MISMATCH ;;;
  upd (fun c => c <| rspCaps := caps |> <| dataTransferSize := dts |>
                  <| maxSpdmMsgSize := maxMsg |>).

(** ** NEGOTIATE_ALGORITHMS *)

Definition alg_struct (type sel : Z) : bytes := [type; 0x20] ++ SPDM_Set16LE sel.

Definition wolfSPDM_BuildNegotiateAlgorithms (bufSz : Z) : CM bytes :=
  SPDM_CHECK_BUILD_ARGS bufSz WOLFSPDM_NEG_ALGO_SZ ;;;
  let* ctx := @get WOLFSPDM_CTX in
  let advDhe := negb (ctx.(kexAdvDhe) =? 0) in
  let advKem := (ctx.(spdmVersion) >=? SPDM_VERSION_14) && negb (ctx.(kexAdvKem) =? 0) in
  check (negb advDhe && negb advKem) WOLFSPDM_E_ALGO_MISMATCH ;;;
  let structs :=
    (if advDhe then alg_struct SPDM_ALG_TYPE_DHE SPDM_DHE_ALGO_SECP384R1 else []) ++
    alg_struct SPDM_ALG_TYPE_AEAD SPDM_AEAD_ALGO_AES_256_GCM ++
    alg_struct SPDM_ALG_TYPE_REQ_BASE_ASYM (w16 SPDM_ASYM_ALGO_ECDSA_P384) ++
    alg_struct SPDM_ALG_TYPE_KEY_SCHEDULE SPDM_KEY_SCHEDULE_SPDM ++
    (if advKem then alg_struct SPDM_ALG_TYPE_KEM ctx.(kexAdvKem) else []) in
  let off := 32 + len structs in
  ret ([ctx.(spdmVersion); SPDM_NEGOTIATE_ALGORITHMS; w8 ((off - 32) / 4); 0x00] ++
       SPDM_Set16LE (w16 off) ++ [0x01; 0x02] ++
       SPDM_Set32LE SPDM_ASYM_ALGO_ECDSA_P384 ++ SPDM_Set32LE SPDM_HASH_ALGO_SHA_384 ++
       (if ctx.(spdmVersion) >=? SPDM_VERSION_14 then SPDM_Set32LE WOLFSPDM_MLDSA_SETS
        else zeros 4) ++ zeros 12 ++ structs).

(** [dheOk], [kemOk], [aeadOk], [ksOk] and [kemSel] *)
Record alg_sel := { dheOk : bool; kemOk : bool; aeadOk : bool; ksOk : bool; kemSel : Z }.

Definition no_alg : alg_sel :=
  {| dheOk := false; kemOk := false; aeadOk := false; ksOk := false; kemSel := 0 |}.

(** One AlgStruct of type [type]. *)
Definition alg_select {S} (ctx : WOLFSPDM_CTX) (type algSel : Z) (a : alg_sel) : M S alg_sel :=
  if type =? SPDM_ALG_TYPE_DHE then
    let ok := algSel =? SPDM_DHE_ALGO_SECP384R1 in
    check ((negb (algSel =? 0) && negb ok) || (ok && (ctx.(kexAdvDhe) =? 0)))
      WOLFSPDM_E_ALGO_MISMATCH ;;;
    ret {| dheOk := ok; kemOk := a.(kemOk); aeadOk := a.(aeadOk); ksOk := a.(ksOk);
           kemSel := a.(kemSel) |}
  else if type =? SPDM_ALG_TYPE_KEM then
    check (negb (algSel =? 0) &&
           (negb (Z.land algSel (algSel - 1) =? 0) ||
            (Z.land (Z.land algSel ctx.(kexAdvKem)) WOLFSPDM_MLKEM_SETS =? 0) ||
            (ctx.(spdmVersion) <? SPDM_VERSION_14))) WOLFSPDM_E_ALGO_MISMATCH ;;;
    ret {| dheOk := a.(dheOk); kemOk := negb (algSel =? 0); aeadOk := a.(aeadOk);
           ksOk := a.(ksOk); kemSel := algSel |}
  else if type =? SPDM_ALG_TYPE_AEAD then
    ret {| dheOk := a.(dheOk); kemOk := a.(kemOk);
           aeadOk := algSel =? SPDM_AEAD_ALGO_AES_256_GCM; ksOk := a.(ksOk);
           kemSel := a.(kemSel) |}
  else if type =? SPDM_ALG_TYPE_KEY_SCHEDULE then
    ret {| dheOk := a.(dheOk); kemOk := a.(kemOk); aeadOk := a.(aeadOk);
           ksOk := algSel =? SPDM_KEY_SCHEDULE_SPDM; kemSel := a.(kemSel) |}
  else ret a.

Fixpoint alg_walk {St} (numAlgs : nat) (ctx : WOLFSPDM_CTX) (buf : bytes) (off : Z) (a : alg_sel)
    : M St alg_sel :=
  match numAlgs with
  | O => ret a
  | S n =>
      check ((off >? len buf) || (len buf - off <? 4)) WOLFSPDM_E_ALGO_MISMATCH ;;;
      let* algSel := rd16le buf (off + 2) in
      let* ext := rd buf (off + 1) in
      let extLen := Z.land ext 0x0F * 4 in
      let* type := rd buf off in
      let* a := alg_select ctx type algSel a in
      alg_walk n ctx buf (off + 4 + extLen) a
  end.

Definition wolfSPDM_ParseAlgorithms (buf : bytes) : CM unit :=
  SPDM_CHECK_PARSE_ARGS buf 4 ;;;
  SPDM_CHECK_RESPONSE buf SPDM_ALGORITHMS WOLFSPDM_E_ALGO_MISMATCH ;;;
  let* ctx := @get WOLFSPDM_CTX in
  check (len buf <? 36) WOLFSPDM_E_ALGO_MISMATCH ;;;
  let* v := rd buf 0 in
  let* size := rd16le buf 4 in
  check (negb (v =? ctx.(spdmVersion)) || negb (size =? len buf)) WOLFSPDM_E_ALGO_MISMATCH ;;;
  let* meas := rd buf 6 in
  let* params := rd buf 7 in
  check ((meas >? 0x01) || negb (params =? 0x02)) WOLFSPDM_E_ALGO_MISMATCH ;;;
  let* hash := rd32le buf 16 in
  check (negb (hash =? SPDM_HASH_ALGO_SHA_384)) WOLFSPDM_E_ALGO_MISMATCH ;;;
  upd (fun c => c <| pqcAsymSel := 0 |>) ;;;
  upd (fun c => c <| kemAlgSel := 0 |>) ;;;
  let* base := rd32le buf 12 in
  let* pqc := (if ctx.(spdmVersion) >=? SPDM_VERSION_14 then rd32le buf 20 else ret 0) in
  check (if negb (pqc =? 0) then negb (base =? 0) || (wolfSPDM_MlDsaLevel pqc =? 0)
         else negb (base =? SPDM_ASYM_ALGO_ECDSA_P384)) WOLFSPDM_E_ALGO_MISMATCH ;;;
  let* numAlgs := rd buf 2 in
  let* extAsym := rd buf 32 in
  let* extHash := rd buf 33 in
  let* a := alg_walk (Z.to_nat numAlgs) ctx buf (36 + extAsym * 4 + extHash * 4) no_alg in
  check (negb (Z.b2z a.(dheOk) + Z.b2z a.(kemOk) =? 1) || negb a.(aeadOk) || negb a.(ksOk))
    WOLFSPDM_E_ALGO_MISMATCH ;;;
  upd (fun c => c <| pqcAsymSel := pqc |>) ;;;
  upd (fun c => c <| kemAlgSel := a.(kemSel) |>).

(** ** DIGESTS and CERTIFICATE responses *)

Definition wolfSPDM_ParseDigests (buf : bytes) : CM unit :=
  SPDM_CHECK_PARSE_ARGS buf 4 ;;;
  SPDM_CHECK_RESPONSE buf SPDM_DIGESTS WOLFSPDM_E_CERT_FAIL ;;;
  let* mask := rd buf 3 in
  upd (fun c => c <| slotMask := mask |>).

(** The portion's length and the remainder's. *)
Definition wolfSPDM_ParseCertificate (buf : bytes) : CM (Z * Z) :=
  SPDM_CHECK_PARSE_ARGS buf 4 ;;;
  SPDM_CHECK_RESPONSE buf SPDM_CERTIFICATE WOLFSPDM_E_CERT_FAIL ;;;
  let* ctx := @get WOLFSPDM_CTX in
  let* slot := rd buf 2 in
  check ((len buf <? 8) || negb (Z.land slot 0x0F =? ctx.(currentSlotId))) WOLFSPDM_E_CERT_FAIL ;;;
  let* portionLen := rd16le buf 4 in
  let* remainderLen := rd16le buf 6 in
  check ((len buf - 8 <? portionLen) ||
         (portionLen >? WOLFSPDM_MAX_CERT_CHAIN - ctx.(certChainLen))) WOLFSPDM_E_BUFFER_SMALL ;;;
  let* portion := rd_sub buf 8 portionLen in
  let* chain := wr ctx.(certChain) ctx.(certChainLen) portion in
  upd (fun c => c <| certChain := chain |> <| certChainLen := c.(certChainLen) + portionLen |>) ;;;
  ret (portionLen, remainderLen).

Definition wolfSPDM_SetKeyExchangePref (advDhe kemMask : Z) : CM unit :=
  check ((advDhe =? 0) && (kemMask =? 0)) WOLFSPDM_E_INVALID_ARG ;;;
  check (negb (Z.land kemMask (w16 (Z.lnot WOLFSPDM_MLKEM_SETS)) =? 0)) WOLFSPDM_E_INVALID_ARG ;;;
  upd (fun c => c <| kexAdvDhe := (if advDhe =? 0 then 0 else 1) |> <| kexAdvKem := kemMask |>).
End Standard.

(** Lowest populated slot, slot 0 if the responder reports none. *)
Fixpoint pick_slot (fuel : nat) (slotMask slot : Z) : Z :=
  match fuel with
  | O => slot
  | S n =>
      if (slot <? 7) && negb (slotMask =? 0) && (Z.land slotMask (Z.shiftl 1 slot) =? 0)
      then pick_slot n slotMask (slot + 1) else slot
  end.

Section StandardIO.
Context `{WolfCrypt} `{Config} {W : Type} `{!Transport W}.
Notation IOM := (M (WOLFSPDM_CTX * W)).

Definition wolfSPDM_GetCapabilities : IOM unit :=
  wolfSPDM_ExchangeMsg wolfSPDM_BuildGetCapabilities wolfSPDM_ParseCapabilities 20 64.

Definition wolfSPDM_NegotiateAlgorithms : IOM unit :=
  wolfSPDM_ExchangeMsg wolfSPDM_BuildNegotiateAlgorithms wolfSPDM_ParseAlgorithms
    WOLFSPDM_NEG_ALGO_SZ 128 ;;;
  upd_ctx (fun c => c <| vcaLen := c.(transcriptLen) |>) ;;;
  on_ctx wolfSPDM_M1Start.

Definition wolfSPDM_GetDigests : IOM unit :=
  let* ctx := get_ctx in
  let tx := [ctx.(spdmVersion); SPDM_GET_DIGESTS; 0x00; 0x00] in
  let* rx := wolfSPDM_ClearExchange tx 512 in
  on_ctx (wolfSPDM_ParseDigests rx) ;;;
  on_ctx (wolfSPDM_M1Add tx rx).

(** The portions of the chain; [portionLen] is the offset's last step. *)
Fixpoint cert_loop (fuel : nat) (slotId reqLen offset remainderLen : Z) : IOM unit :=
  match fuel with
  | O => ub
  | S n =>
      if remainderLen >? 0 then
        let* ctx := get_ctx in
        let tx := [ctx.(spdmVersion); SPDM_GET_CERTIFICATE; w8 slotId; 0x00] ++
                  SPDM_Set16LE offset ++ SPDM_Set16LE reqLen in
        let* rx := wolfSPDM_ClearExchange tx (8 + WOLFSPDM_CERT_PORTION_SZ) in
        let* (portionLen, remainderLen) := on_ctx (wolfSPDM_ParseCertificate rx) in
        let* absorbed := rd_sub rx 0 (8 + portionLen) in
        on_ctx (wolfSPDM_M1Add tx absorbed) ;;;
        check ((portionLen =? 0) && (remainderLen >? 0)) WOLFSPDM_E_CERT_FAIL ;;;
        cert_loop n slotId reqLen (w16 (offset + portionLen)) remainderLen
      else ret tt
  end.

Definition wolfSPDM_GetCertificate (slotId : Z) : IOM unit :=
  check ((slotId <? 0) || (slotId >? 7)) WOLFSPDM_E_INVALID_ARG ;;;
  let* ctx := get_ctx in
  let reqLen := w16 WOLFSPDM_CERT_PORTION_SZ in
  let reqLen := if negb (ctx.(dataTransferSize) =? 0) && (ctx.(dataTransferSize) <? reqLen + 8)
                then w16 (ctx.(dataTransferSize) - 8) else reqLen in
  upd_ctx (fun c => c <| currentSlotId := w8 slotId |> <| certChainLen := 0 |>) ;;;
  when ctx.(flags).(rspKeyFromCert)
    (upd_ctx (fun c => (drop_cert_key c) <| rspPubKey := zeros WOLFSPDM_RSP_PUBKEY_SZ |>)) ;;;
  cert_loop (S (S (Z.to_nat WOLFSPDM_MAX_CERT_CHAIN))) slotId reqLen 0 1 ;;;
  let* ctx := get_ctx in
  check (ctx.(certChainLen) <=? WOLFSPDM_CERT_CHAIN_HDR_SZ) WOLFSPDM_E_CERT_FAIL ;;;
  let* sz := rd16le ctx.(certChain) 0 in
  check (negb (sz =? ctx.(certChainLen))) WOLFSPDM_E_CERT_FAIL ;;;
  let* chain := rd_sub ctx.(certChain) 0 ctx.(certChainLen) in
  let* h := wolfSPDM_Sha384Hash chain [] [] in
  upd_ctx (fun c => c <| certChainHash := h |>) ;;;
  on_ctx (wolfSPDM_TranscriptAdd h) ;;;
  upd_ctx (fun c => c <| state := WOLFSPDM_STATE_CERT |>).

(** The macro of spdm_internal.h: a failed step puts the session in the error
    state. *)
Definition SPDM_CONNECT_STEP {A} (func : IOM A) : IOM A :=
  on_err func (fun _ => upd_ctx (fun c => c <| state := WOLFSPDM_STATE_ERROR |>)).

Definition wolfSPDM_ConnectStandard : IOM unit :=
  let* ctx := get_ctx in
  when ctx.(flags).(rspKeyFromCert) (upd_ctx drop_cert_key) ;;;
  upd_ctx (fun c => c <| state := WOLFSPDM_STATE_INIT |> <| lastPeerErrorCode := 0 |>
                      <| rspCaps := 0 |>) ;;;
  on_ctx wolfSPDM_TranscriptReset ;;;
  on_ctx wolfSPDM_AttestFree ;;;
  SPDM_CONNECT_STEP wolfSPDM_GetVersion ;;;
  SPDM_CONNECT_STEP wolfSPDM_GetCapabilities ;;;
  SPDM_CONNECT_STEP wolfSPDM_NegotiateAlgorithms ;;;
  SPDM_CONNECT_STEP wolfSPDM_GetDigests ;;;
  let* ctx := get_ctx in
  let slot := pick_slot 7 ctx.(slotMask) 0 in
  SPDM_CONNECT_STEP (wolfSPDM_GetCertificate slot) ;;;
  SPDM_CONNECT_STEP (on_ctx wolfSPDM_ValidateCertChain) ;;;
  SPDM_CONNECT_STEP wolfSPDM_KeyExchange ;;;
  SPDM_CONNECT_STEP wolfSPDM_Finish ;;;
  upd_ctx (fun c => c <| state := WOLFSPDM_STATE_CONNECTED |>).
End StandardIO.

(** ** Lemmas *)

Section StandardLemmas.
Context `{WolfCrypt} `{Config} `{!CryptSizes} `{!RecordFits} `{!TranscriptFits}
  {W : Type} `{!Transport W} `{!TransportBytes}.
Implicit Types c : WOLFSPDM_CTX.

Lemma ParseCapabilities_wp buf c (Q : unit -> WOLFSPDM_CTX -> Prop)
    (E : Z -> WOLFSPDM_CTX -> Prop) : ctx_wf c -> is_bytes buf ->
  (forall caps dts max, Z.land caps required_caps = required_caps ->
     SPDM_MIN_DATA_TRANSFER_SIZE <= dts <= max -> dts < 2 ^ 32 ->
     Q tt (c <| rspCaps := caps |> <| dataTransferSize := dts |> <| maxSpdmMsgSize := max |>)) ->
  (forall rc c', rc < 0 -> err_step c c' -> E rc c') ->
  wp (wolfSPDM_ParseCapabilities buf) Q E c.
Proof.
  intros Hwf Hb HQ HE. assert (err_step c c) as Hrefl by (by left).
  unfold wolfSPDM_ParseCapabilities, SPDM_CHECK_PARSE_ARGS.
  wp_step; wp_step; [by apply HE|]. wp_step. apply CHECK_RESPONSE_wp; [lia| | |].
  2: { intros e _. apply HE; [done|right; eauto]. }
  2: { intros. by apply HE. }
  intros _. do 2 wp_step. cbv beta. wp_step. wp_step. wp_step; wp_step; [by apply HE|].
  wp_step. apply wp_rd32le; [done|lia|lia|]. intros caps _ _.
  wp_step. apply wp_rd32le; [done|lia|lia|]. intros dts _ Hd.
  wp_step. apply wp_rd32le; [done|lia|lia|]. intros maxm _ _.
  wp_step; wp_step; [by apply HE|]. wp_step. apply HQ; [lia|lia|lia].
Qed.

Lemma keeps_tr_caps c x y z :
  keeps_tr c (c <| rspCaps := x |> <| dataTransferSize := y |> <| maxSpdmMsgSize := z |>).
Proof. by destruct c. Qed.

#[global] Instance GetCapabilities_fns :
  ExchangeFns wolfSPDM_BuildGetCapabilities wolfSPDM_ParseCapabilities.
Proof.
  split.
  - intros n c Hwf. unfold wolfSPDM_BuildGetCapabilities, SPDM_CHECK_BUILD_ARGS.
    wp_step; wp_step; [done|]. do 2 wp_step. cbv beta. wp_step. split_and!; try done.
    rewrite !len_app, len_zeros, !len_cons, len_nil.
    change (len (SPDM_Set32LE _)) with 4. lia.
  - intros buf c Hwf Hb. apply ParseCapabilities_wp; [done|done| |].
    + intros caps dts m _ Hd Hr. split; [wf_tac|apply keeps_tr_caps].
    + intros rc c' Hrc Hs. split_and!; [done|by eapply err_step_wf|by apply keeps_tr_err].
Qed.

(** The type and the selection of each of the [n] AlgStructs that start at
    [off], when they are all inside the response. *)
Fixpoint alg_entries (n : nat) (buf : bytes) (off : Z) : option (list (Z * Z)) :=
  match n with
  | O => Some []
  | S n =>
      if off + 4 <=? len buf then
        let extLen := 4 * Z.land (at_ buf (Z.to_nat (off + 1))) 0x0F in
        es ← alg_entries n buf (off + 4 + extLen);
        Some ((at_ buf (Z.to_nat off), SPDM_Get16LE (sub_bytes buf (off + 2) 2)) :: es)
      else None
  end.

(** The selection of the last AlgStruct of a type, 0 when there is none. *)
Definition chosen (type : Z) (es : list (Z * Z)) : Z :=
  foldl (fun sel e => if e.1 =? type then e.2 else sel) 0 es.

(** A single ML-KEM set that the requester offered. *)
Definition kem_offered c (kem : Z) : Prop :=
  SPDM_VERSION_14 <= c.(spdmVersion) /\ Z.land kem (kem - 1) = 0 /\
  Z.land (Z.land kem c.(kexAdvKem)) WOLFSPDM_MLKEM_SETS <> 0.

(** An AlgStruct selects no key exchange that was not offered. *)
Definition alg_offered c (e : Z * Z) : Prop :=
  (e.1 = SPDM_ALG_TYPE_DHE ->
     e.2 = 0 \/ (e.2 = SPDM_DHE_ALGO_SECP384R1 /\ c.(kexAdvDhe) <> 0)) /\
  (e.1 = SPDM_ALG_TYPE_KEM -> e.2 = 0 \/ kem_offered c e.2).

(** What the AlgStructs of an accepted response say: AES-256-GCM, the SPDM key
    schedule, and either ECDHE on P-384, when it was offered, and no KEM, or
    [kem], an offered one, and no ECDHE. *)
Definition algs_chosen c (es : list (Z * Z)) (kem : Z) : Prop :=
  Forall (alg_offered c) es /\
  chosen SPDM_ALG_TYPE_AEAD es = SPDM_AEAD_ALGO_AES_256_GCM /\
  chosen SPDM_ALG_TYPE_KEY_SCHEDULE es = SPDM_KEY_SCHEDULE_SPDM /\
  chosen SPDM_ALG_TYPE_KEM es = kem /\
  ((chosen SPDM_ALG_TYPE_DHE es = SPDM_DHE_ALGO_SECP384R1 /\ c.(kexAdvDhe) <> 0 /\ kem = 0) \/
   (chosen SPDM_ALG_TYPE_DHE es = 0 /\ kem <> 0 /\ kem_offered c kem)).

(** The fixed part of an accepted response. *)
Definition algs_header c (buf : bytes) : Prop :=
  36 <= len buf /\
  at_ buf 0 = c.(spdmVersion) /\ at_ buf 1 = SPDM_ALGORITHMS /\
  SPDM_Get16LE (sub_bytes buf 4 2) = len buf /\
  at_ buf 6 <= 1 /\ at_ buf 7 = 2 /\
  SPDM_Get32LE (sub_bytes buf 16 4) = SPDM_HASH_ALGO_SHA_384.

(** Its signature algorithm: ECDSA P-384, or [pqc], a supported ML-DSA set. *)
Definition sig_selected c (buf : bytes) (pqc : Z) : Prop :=
  pqc = (if SPDM_VERSION_14 <=? c.(spdmVersion) then SPDM_Get32LE (sub_bytes buf 20 4) else 0) /\
  let base := SPDM_Get32LE (sub_bytes buf 12 4) in
  (pqc = 0 /\ base = SPDM_ASYM_ALGO_ECDSA_P384) \/
  (pqc <> 0 /\ base = 0 /\ SPDM_VERSION_14 <= c.(spdmVersion) /\ wolfSPDM_MlDsaLevel pqc <> 0).

(** What an accepted ALGORITHMS response selects, read off its bytes: one
    signature algorithm, AES-256-GCM, SHA-384 and one key exchange. *)
Definition algs_selected c (buf : bytes) (pqc kem : Z) : Prop :=
  algs_header c buf /\ sig_selected c buf pqc /\
  exists es,
    alg_entries (Z.to_nat (at_ buf 2)) buf (36 + at_ buf 32 * 4 + at_ buf 33 * 4) = Some es /\
    algs_chosen c es kem.

(** The flags of the walk, after the AlgStructs [es]. *)
Definition sel_of (es : list (Z * Z)) (a : alg_sel) : Prop :=
  a.(dheOk) = (chosen SPDM_ALG_TYPE_DHE es =? SPDM_DHE_ALGO_SECP384R1) /\
  a.(kemOk) = negb (chosen SPDM_ALG_TYPE_KEM es =? 0) /\
  a.(kemSel) = chosen SPDM_ALG_TYPE_KEM es /\
  a.(aeadOk) = (chosen SPDM_ALG_TYPE_AEAD es =? SPDM_AEAD_ALGO_AES_256_GCM) /\
  a.(ksOk) = (chosen SPDM_ALG_TYPE_KEY_SCHEDULE es =? SPDM_KEY_SCHEDULE_SPDM).

Lemma chosen_snoc type es e :
  chosen type (es ++ [e]) = if e.1 =? type then e.2 else chosen type es.
Proof. unfold chosen. by rewrite foldl_app. Qed.

(** The selection of a type is 0 or that of one of its AlgStructs. *)
Lemma chosen_in type es : chosen type es = 0 \/ (type, chosen type es) ∈ es.
Proof.
  induction es as [|e es IH] using rev_ind; [by left|]. rewrite chosen_snoc.
  rewrite elem_of_app, list_elem_of_singleton.
  destruct (Z.eqb_spec e.1 type) as [<-|]; [right; right; by destruct e|].
  destruct IH; auto.
Qed.

Lemma alg_select_wp {St} c type v seen a (Q : alg_sel -> St -> Prop) (E : Z -> St -> Prop) s :
  sel_of seen a ->
  (forall a', alg_offered c (type, v) -> sel_of (seen ++ [(type, v)]) a' -> Q a' s) ->
  (~ alg_offered c (type, v) -> E WOLFSPDM_E_ALGO_MISMATCH s) ->
  wp (alg_select c type v a) Q E s.
Proof.
  intros (Hd & Hk & Hs & Ha & Hks) HQ HE. unfold alg_select.
  assert (forall t, chosen t (seen ++ [(type, v)]) = if type =? t then v else chosen t seen) as Hc
    by (intros; apply chosen_snoc).
  unfold sel_of in HQ. rewrite !Hc in HQ.
  unfold alg_offered, kem_offered, SPDM_DHE_ALGO_SECP384R1 in *. cbn [fst snd] in *.
  destruct (Z.eqb_spec type SPDM_ALG_TYPE_DHE) as [->|Hn1];
    [|destruct (Z.eqb_spec type SPDM_ALG_TYPE_KEM) as [->|Hn2];
    [|destruct (Z.eqb_spec type SPDM_ALG_TYPE_AEAD) as [->|Hn3];
    [|destruct (Z.eqb_spec type SPDM_ALG_TYPE_KEY_SCHEDULE) as [->|Hn4]]]]; cbn [Z.eqb Pos.eqb] in HQ.
  - wp_step; wp_step; [apply HE; intros [Ho _]; specialize (Ho eq_refl); lia|]. wp_step.
    apply HQ; cbn [dheOk kemOk kemSel aeadOk ksOk]; [split; [lia|done]|done].
  - wp_step; wp_step; [apply HE; intros [_ Ho]; specialize (Ho eq_refl); lia|]. wp_step.
    apply HQ; cbn [dheOk kemOk kemSel aeadOk ksOk]; [split; [done|lia]|done].
  - wp_step. by apply HQ.
  - wp_step. by apply HQ.
  - wp_step. by apply HQ.
Qed.

Lemma alg_walk_wp {St} n c buf off seen a (Q : alg_sel -> St -> Prop)
    (E : Z -> St -> Prop) s :
  is_bytes buf -> 0 <= off -> sel_of seen a ->
  (forall es a', alg_entries n buf off = Some es -> Forall (alg_offered c) es ->
     sel_of (seen ++ es) a' -> Q a' s) ->
  ((forall es, alg_entries n buf off = Some es -> ~ Forall (alg_offered c) es) ->
   E WOLFSPDM_E_ALGO_MISMATCH s) ->
  wp (alg_walk n c buf off a) Q E s.
Proof.
  intros Hb. revert off seen a.
  induction n as [|n IH]; intros off seen a Ho Ha HQ HE; cbn [alg_walk alg_entries] in *.
  - wp_step. apply (HQ []); [done|by constructor|by rewrite app_nil_r].
  - wp_step; wp_step.
    { apply HE. replace (off + 4 <=? len buf) with false by lia. by intros. }
    replace (off + 4 <=? len buf) with true in * by lia.
    wp_step. apply wp_rd16le; [lia|lia|]. intros v -> _.
    wp_step. apply wp_rd; [lia|]. intros ext ->. wp_step. apply wp_rd; [lia|]. intros type ->.
    unfold at_ in HQ, HE. rewrite (Z.mul_comm 4) in HQ, HE.
    set (e := (nth (Z.to_nat off) buf 0, SPDM_Get16LE (sub_bytes buf (off + 2) 2))) in *.
    set (off' := off + 4 + _) in *.
    assert (0 <= off') by (subst off'; pose proof (Z.land_nonneg (nth (Z.to_nat (off + 1)) buf 0) 15); lia).
    wp_step. apply (alg_select_wp _ e.1 e.2 seen).
    + done.
    + rewrite <- surjective_pairing. intros a' Hoff Ha'. apply (IH _ (seen ++ [e])); [done|done| |].
      * intros es a2 Hes Hf. rewrite <- app_assoc. intros Ha2.
        apply (HQ (e :: es)); [by rewrite Hes|by constructor|done].
      * intros Hno. apply HE. intros es. destruct (alg_entries n buf off') as [es'|] eqn:Hes; [|done].
        intros [= <-]. intros [_ Hf]%Forall_cons_1. by apply (Hno es').
    + rewrite <- surjective_pairing. intros Hoff. apply HE. intros es.
      destruct (alg_entries n buf off') as [es'|]; [|done]. intros [= <-]. by intros [? _]%Forall_cons_1.
Qed.

(** The final test of the walk's flags. *)
Lemma algs_chosen_flags c es a : Forall (alg_offered c) es -> sel_of es a ->
  (Z.b2z a.(dheOk) + Z.b2z a.(kemOk) = 1 /\ a.(aeadOk) = true /\ a.(ksOk) = true <->
   algs_chosen c es a.(kemSel)).
Proof.
  intros Hf (Hd & Hk & Hs & Ha & Hks). unfold algs_chosen. rewrite Hd, Hk, Hs, Ha, Hks.
  assert (forall t v, chosen t es = v -> v <> 0 -> alg_offered c (t, v)) as Hin.
  { intros t v <- Hv. apply (proj1 (Forall_forall _ _) Hf), list_elem_of_In.
    by destruct (chosen_in t es). }
  pose proof (Hin SPDM_ALG_TYPE_DHE _ eq_refl) as Hdhe.
  pose proof (Hin SPDM_ALG_TYPE_KEM _ eq_refl) as Hkem.
  unfold alg_offered in Hdhe, Hkem. cbn [fst snd] in Hdhe, Hkem.
  set (d := chosen SPDM_ALG_TYPE_DHE es) in *. set (k := chosen SPDM_ALG_TYPE_KEM es) in *.
  set (ae := chosen SPDM_ALG_TYPE_AEAD es). set (ks := chosen SPDM_ALG_TYPE_KEY_SCHEDULE es).
  assert (d = 0 \/ d <> 0 /\ d = SPDM_DHE_ALGO_SECP384R1 /\ kexAdvDhe c <> 0) as Hd'.
  { destruct (Z.eq_dec d 0); [by left|right]. destruct (Hdhe n) as [Hx _]. by destruct (Hx eq_refl). }
  assert (k = 0 \/ k <> 0 /\ kem_offered c k) as Hk'.
  { destruct (Z.eq_dec k 0); [by left|right]. destruct (Hkem n) as [_ Hx]. by destruct (Hx eq_refl). }
  clear Hdhe Hkem Hin Hd Hk Hs Ha Hks. clearbody d k ae ks. split.
  - intros (Hsum & Hae%Z.eqb_eq & Hks%Z.eqb_eq). split_and!; try done.
    destruct Hd' as [->|(_ & -> & Hadv)], (Z.eqb_spec k 0) as [->|Hk]; try done.
    + right. by destruct Hk' as [?|[_ ?]].
    + by left.
  - intros (_ & -> & -> & _ & [(-> & _ & ->)|(-> & Hk2 & _)]); [done|].
    split_and!; [|done|done]. by destruct (Z.eqb_spec k 0).
Qed.

Definition alg_sels (pqc kem : Z) c : WOLFSPDM_CTX := c <| pqcAsymSel := pqc |> <| kemAlgSel := kem |>.

Lemma alg_sels_wf p k c : ctx_wf c -> ctx_wf (alg_sels p k c).
Proof. intros. unfold alg_sels. wf_tac. Qed.

(** The response selects nothing the requester can use. *)
Definition algs_refused c (buf : bytes) : Prop := forall pqc kem, ~ algs_selected c buf pqc kem.

(** Refute [algs_selected] by the test that failed. *)
Ltac refuse :=
  intros ? ? (Hhead & Hsig & _); unfold algs_header, sig_selected, at_ in *; cbv zeta in *;
  change (Z.to_nat 0) with 0%nat in *; change (Z.to_nat 6) with 6%nat in *;
  change (Z.to_nat 7) with 7%nat in *; destruct_and? Hhead; destruct_and? Hsig; subst.

(** The AlgStructs, once the header and the signature algorithm are accepted. *)
Lemma alg_structs_wp buf c pqc (Q : unit -> WOLFSPDM_CTX -> Prop)
    (E : Z -> WOLFSPDM_CTX -> Prop) :
  is_bytes buf -> algs_header c buf -> sig_selected c buf pqc ->
  (forall kem, algs_selected c buf pqc kem -> Q tt (alg_sels pqc kem c)) ->
  (algs_refused c buf -> E WOLFSPDM_E_ALGO_MISMATCH (alg_sels 0 0 c)) ->
  wp (let* numAlgs := rd buf 2 in
      let* extAsym := rd buf 32 in
      let* extHash := rd buf 33 in
      let* a := alg_walk (Z.to_nat numAlgs) c buf (36 + extAsym * 4 + extHash * 4) no_alg in
      check (negb (Z.b2z a.(dheOk) + Z.b2z a.(kemOk) =? 1) || negb a.(aeadOk) || negb a.(ksOk))
        WOLFSPDM_E_ALGO_MISMATCH ;;;
      upd (fun c => c <| pqcAsymSel := pqc |>) ;;;
      upd (fun c => c <| kemAlgSel := a.(kemSel) |>)) Q E (alg_sels 0 0 c).
Proof.
  intros Hb Hhead Hsig HQ HE. pose proof Hhead as (Hlen & _).
  wp_step. apply wp_rd; [lia|]. change (Z.to_nat 2) with 2%nat. intros num Hnum.
  wp_step. apply wp_rd; [lia|]. change (Z.to_nat 32) with 32%nat. intros ea Hea.
  wp_step. apply wp_rd; [lia|]. change (Z.to_nat 33) with 33%nat. intros eh Heh.
  assert (0 <= ea /\ 0 <= eh) as [? ?].
  { pose proof (is_byte_at _ 32 Hb). pose proof (is_byte_at _ 33 Hb). unfold is_byte, at_ in *. lia. }
  fold (at_ buf 2) in Hnum. fold (at_ buf 32) in Hea. fold (at_ buf 33) in Heh.
  wp_step. apply (alg_walk_wp _ _ _ _ []); [done|lia|done| |].
  - intros es a Hes Hf Ha. cbn [app] in Ha. pose proof (algs_chosen_flags c es a Hf Ha) as Hflags.
    wp_step; wp_step.
    + apply HE. intros pqc' kem (_ & _ & es' & Hes' & Hch). subst. rewrite Hes in Hes'. injection Hes' as <-.
      pose proof Hch as (_ & _ & _ & Hk & _). rewrite <- Hk, <- (proj1 (proj2 (proj2 Ha))) in Hch.
      apply Hflags in Hch. lia.
    + do 3 wp_step. cbv beta. change (Q tt (alg_sels pqc (kemSel a) c)). apply HQ.
      split_and!; [done|done|]. exists es. subst. split; [done|]. apply Hflags. lia.
  - intros Hno. apply HE. intros pqc' kem (_ & _ & es & Hes & (Hf & _)). subst. by apply (Hno es).
Qed.

Lemma ParseAlgorithms_wp buf c (Q : unit -> WOLFSPDM_CTX -> Prop)
    (E : Z -> WOLFSPDM_CTX -> Prop) : is_bytes buf ->
  (forall pqc kem, algs_selected c buf pqc kem -> Q tt (alg_sels pqc kem c)) ->
  (forall rc c', rc < 0 -> err_step c c' \/ c' = alg_sels 0 0 c -> algs_refused c buf -> E rc c') ->
  wp (wolfSPDM_ParseAlgorithms buf) Q E c.
Proof.
  intros Hb HQ HE.
  assert (forall rc, rc < 0 -> algs_refused c buf -> E rc c) as HE0
    by (intros; apply HE; [done|by left; left|done]).
  unfold wolfSPDM_ParseAlgorithms, SPDM_CHECK_PARSE_ARGS.
  wp_step; wp_step; [apply HE0; [done|]; refuse; lia|].
  wp_step. apply CHECK_RESPONSE_wp; [lia| | |].
  2: { intros e ?. apply HE; [done|left; right; eauto|]. refuse.
       unfold SPDM_ERROR, SPDM_ALGORITHMS in *. lia. }
  2: { intros. apply HE0; [done|]. by refuse. }
  intros Hcode. do 2 wp_step. cbv beta. wp_step; wp_step; [apply HE0; [done|]; refuse; lia|].
  wp_step. apply wp_rd; [lia|]. intros v Hv. wp_step. apply wp_rd16le; [lia|lia|]. intros sz Hsz _.
  wp_step; wp_step; [apply HE0; [done|]; refuse; lia|].
  wp_step. apply wp_rd; [lia|]. intros meas Hm. wp_step. apply wp_rd; [lia|]. intros par Hp.
  wp_step; wp_step; [apply HE0; [done|]; refuse; lia|].
  wp_step. apply wp_rd32le; [done|lia|lia|]. intros hash Hh _.
  wp_step; wp_step; [apply HE0; [done|]; refuse; lia|]. do 4 wp_step. cbv beta.
  change ((c <| pqcAsymSel := 0 |>) <| kemAlgSel := 0 |>) with (alg_sels 0 0 c).
  assert (forall rc, rc < 0 -> algs_refused c buf -> E rc (alg_sels 0 0 c)) as HE1
    by (intros; apply HE; [done|by right|done]).
  assert (algs_header c buf) as Hhead.
  { change (Z.to_nat 0) with 0%nat in Hv. change (Z.to_nat 6) with 6%nat in Hm.
    change (Z.to_nat 7) with 7%nat in Hp. unfold algs_header, at_ in *. split_and!; try done; lia. }
  wp_step. apply wp_rd32le; [done|lia|lia|]. intros base Hbase _. wp_step.
  apply (wp_mono _ (fun p c1 => c1 = alg_sels 0 0 c /\
      p = if SPDM_VERSION_14 <=? spdmVersion c then SPDM_Get32LE (sub_bytes buf 20 4) else 0) _
    (fun rc c1 => False)); [|intros pqc c1 [-> Hpv]|done].
  { rewrite Z.geb_leb. case_match; [|wp_step; done].
    apply wp_rd32le; [done|lia|lia|]. by intros p -> _. }
  wp_step; wp_step.
  { apply HE1; [done|]. intros pqc' kem (_ & [Hp' Hsig] & _). cbv zeta in Hsig.
    rewrite <- Hpv in Hp'. subst pqc' base. destruct (Z.eqb_spec pqc 0); cbn [negb] in *; lia. }
  apply alg_structs_wp; [done|done| |intros; by apply HQ|by apply HE1].
  split; [done|]. cbv zeta. rewrite <- Hbase.
  destruct (Z.eqb_spec pqc 0) as [->|]; cbn [negb] in *; [left|right]; [by split; lia|].
  split_and!; [done|lia| |lia]. destruct (Z.leb_spec SPDM_VERSION_14 (spdmVersion c)); [done|]. by subst.
Qed.

#[global] Instance NegotiateAlgorithms_fns :
  ExchangeFns wolfSPDM_BuildNegotiateAlgorithms wolfSPDM_ParseAlgorithms.
Proof.
  split.
  - intros n c Hwf. unfold wolfSPDM_BuildNegotiateAlgorithms, SPDM_CHECK_BUILD_ARGS.
    wp_step; wp_step; [done|]. do 2 wp_step. cbv beta zeta. wp_step; wp_step; [done|]. wp_step.
    split_and!; try done. rewrite !len_app.
    assert (forall t v, len (alg_struct t v) = 4) as Ha by done. rewrite !Ha, len_zeros.
    change (len (SPDM_Set32LE _)) with 4. change (len (SPDM_Set16LE _)) with 2.
    rewrite !len_cons, len_nil. unfold WOLFSPDM_NEG_ALGO_SZ in *.
    destruct (negb (kexAdvDhe c =? 0)), (spdmVersion c >=? SPDM_VERSION_14),
      (negb (kexAdvKem c =? 0)); cbn [andb]; rewrite ?Ha, ?len_nil, ?len_zeros;
      change (len (SPDM_Set32LE _)) with 4; lia.
  - intros buf c Hwf Hb. apply ParseAlgorithms_wp; [done| |].
    + intros pqc kem _. split; [by apply alg_sels_wf|by destruct c].
    + intros rc c' Hrc [Hs | ->] _; (split_and!; [done| |]);
        [by eapply err_step_wf|by apply keeps_tr_err|by apply alg_sels_wf|by destruct c].
Qed.

(** ** Certificates *)

(** A context up to the certificate chain and what exchanges may change. *)
Definition cert_core c : WOLFSPDM_CTX :=
  (core c) <| certChain := [] |> <| certChainLen := 0 |>.

Lemma cert_of_core c c' : core c' = core c -> cert_core c' = cert_core c.
Proof. unfold cert_core. by intros ->. Qed.

Definition chain_add c (portion : bytes) : WOLFSPDM_CTX :=
  c <| certChain := splice c.(certChain) c.(certChainLen) portion |>
    <| certChainLen := c.(certChainLen) + len portion |>.

Lemma cert_core_add c d : cert_core (chain_add c d) = cert_core c.
Proof. by destruct c. Qed.

(** The chain received so far. *)
Definition chain_of c : bytes := sub_bytes c.(certChain) 0 c.(certChainLen).

Lemma chain_add_wf c d : ctx_wf c -> is_bytes d ->
  c.(certChainLen) + len d <= WOLFSPDM_MAX_CERT_CHAIN -> ctx_wf (chain_add c d).
Proof.
  intros Hwf Hd Hl. pose proof (len_nonneg d). wf_facts Hwf.
  assert (is_bytes (splice (certChain c) (certChainLen c) d)) as Hb
    by (unfold splice; apply Forall_app; split; [by apply Forall_take|];
        apply Forall_app; split; [done|by apply Forall_drop]).
  unfold chain_add. wf_tac.
Qed.

Lemma chain_add_chain c d : ctx_wf c -> c.(certChainLen) + len d <= WOLFSPDM_MAX_CERT_CHAIN ->
  chain_of (chain_add c d) = chain_of c ++ d.
Proof. intros Hwf Hl. wf_facts Hwf. unfold chain_of, chain_add; ctx_simpl. apply sub_bytes_splice; lia. Qed.

Lemma ParseCertificate_wp buf c (Q : Z * Z -> WOLFSPDM_CTX -> Prop)
    (E : Z -> WOLFSPDM_CTX -> Prop) : ctx_wf c -> is_bytes buf ->
  (forall r portion, portion = sub_bytes buf 8 (len portion) -> 8 + len portion <= len buf ->
     c.(certChainLen) + len portion <= WOLFSPDM_MAX_CERT_CHAIN -> 0 <= r ->
     ctx_wf (chain_add c portion) -> Q (len portion, r) (chain_add c portion)) ->
  (forall rc c', rc < 0 -> err_step c c' -> E rc c') ->
  wp (wolfSPDM_ParseCertificate buf) Q E c.
Proof.
  intros Hwf Hb HQ HE. assert (err_step c c) as Hrefl by (by left).
  unfold wolfSPDM_ParseCertificate, SPDM_CHECK_PARSE_ARGS. wf_facts Hwf.
  wp_step; wp_step; [by apply HE|]. wp_step. apply CHECK_RESPONSE_wp; [lia| | |].
  2: { intros e _. apply HE; [done|right; eauto]. }
  2: { intros. by apply HE. }
  intros _. do 2 wp_step. cbv beta. wp_step. wp_step. wp_step; wp_step; [by apply HE|].
  wp_step. apply wp_rd16le; [lia|lia|]. intros p _ Hp.
  wp_step. apply wp_rd16le; [lia|lia|]. intros r _ Hr.
  wp_step; wp_step; [by apply HE|]. wp_step. wp_step. wp_step.
  assert (len (sub_bytes buf 8 p) = p) as Hlp by (apply len_sub_bytes; lia).
  apply wp_wr; [lia|lia|]. do 2 wp_step. cbv beta. wp_step. 
  specialize (HQ r (sub_bytes buf 8 p)). unfold chain_add in HQ at 2. rewrite Hlp in HQ.
  apply HQ; [done|lia|lia|lia|]. apply chain_add_wf; [done|by apply is_bytes_sub|lia].
Qed.

Lemma cert_loop_wp fuel slot reqLen off rem c (w : W) (Q : unit -> WOLFSPDM_CTX * W -> Prop)
    (E : Z -> WOLFSPDM_CTX * W -> Prop) : ctx_wf c ->
  (if rem >? 0 then WOLFSPDM_MAX_CERT_CHAIN - c.(certChainLen) + 1 < Z.of_nat fuel
   else 0 < Z.of_nat fuel) ->
  (forall c' w', ctx_wf c' -> cert_core c' = cert_core c ->
     (exists d, chain_of c' = chain_of c ++ d) -> Q tt (c', w')) ->
  (forall rc c' w', rc < 0 -> ctx_wf c' -> cert_core c' = cert_core c -> E rc (c', w')) ->
  wp (cert_loop fuel slot reqLen off rem) Q E (c, w).
Proof.
  revert off rem c w. induction fuel as [|fuel IH]; intros off rem c w Hwf Hf HQ HE.
  { destruct (rem >? 0); wf_facts Hwf; lia. }
  cbn [cert_loop]. destruct (rem >? 0); [|io_step; apply HQ; [done|done|exists []; by rewrite app_nil_r]].
  do 2 io_step. cbv zeta. pose proof cfg_dts.
  assert (0 <= 8 + WOLFSPDM_CERT_PORTION_SZ) by (unfold WOLFSPDM_CERT_PORTION_SZ; case_match; lia).
  io_step. eapply wp_mono; [apply ClearExchange_wp; [done|done|done]| |].
  2: { intros rc [c1 w1] (? & ? & Hx). cbn [fst] in *. apply HE; [done|done|].
       by apply cert_of_core, (core_xfer false). }
  intros rx [c1 w1] (Hb & _ & Hwf1 & Hx). cbn [fst] in *.
  assert (cert_core c1 = cert_core c) as Hc1 by (by apply cert_of_core, (core_xfer false)).
  assert (chain_of c1 = chain_of c /\ certChainLen c1 = certChainLen c) as [Hch1 Hcl1].
  { clear - Hx. destruct Hx as (f & r & q & p & e & h & l & -> & _). by destruct c. }
  io_step. io_step. apply ParseCertificate_wp; [done|done| |].
  2: { intros rc c2 ? Hs. apply HE; [done|by eapply err_step_wf|].
       rewrite <- Hc1. by apply cert_of_core, core_err. }
  intros r portion Hpo Hpl Hfit Hr Hwf2. pose proof (len_nonneg portion). cbv beta iota.
  pose proof (chain_add_chain _ _ Hwf1 Hfit) as Hch2.
  pose proof (cert_core_add c1 portion) as Hc2.
  assert (certChainLen (chain_add c1 portion) = certChainLen c1 + len portion) as Hcl2 by done.
  revert Hwf2 Hch2 Hc2 Hcl2. generalize (chain_add c1 portion). intros c2 Hwf2 Hch2 Hc2 Hcl2.
  io_step. io_step. io_step. io_step. apply M1Add_wp; [done| |].
  2: { intros c3 Hwf3 Hs3. apply HE; [done|done|].
       rewrite <- Hc1, <- Hc2. by apply cert_of_core, core_runs. }
  intros c3 Hwf3 Hs3. assert (cert_core c3 = cert_core c) as Hc3
    by (rewrite <- Hc1, <- Hc2; by apply cert_of_core, core_runs).
  assert (chain_of c3 = chain_of c2 /\ certChainLen c3 = certChainLen c2) as [Hch3 Hcl3].
  { clear - Hs3. destruct Hs3 as (h & s & h' & s' & ->). by destruct c2. }
  io_step. io_step; [by apply HE|].
  apply IH; [done| | |].
  - destruct (r >? 0) eqn:Hr0; lia.
  - intros c4 w4 Hwf4 Hc4 [d Hd]. apply HQ; [done|congruence|]. exists (portion ++ d).
    by rewrite Hd, Hch3, Hch2, Hch1, <- app_assoc.
  - intros rc c4 w4 ? ? Hc4. apply HE; [done|done|congruence].
Qed.

(** What [wolfSPDM_GetCertificate] gives. *)
Definition chain_received c c' : Prop :=
  WOLFSPDM_CERT_CHAIN_HDR_SZ < c'.(certChainLen) /\
  SPDM_Get16LE (sub_bytes c'.(certChain) 0 2) = c'.(certChainLen) /\
  sha384 (chain_of c') [] [] = Some c'.(certChainHash) /\
  tr c' = tr c ++ c'.(certChainHash) /\
  c'.(state) = WOLFSPDM_STATE_CERT /\
  c'.(flags).(rspKeyFromCert) = false /\
  (c.(flags).(rspKeyFromCert) = false -> c'.(flags) = c.(flags) /\ c'.(rspPubKey) = c.(rspPubKey)) /\
  (c.(flags).(rspKeyFromCert) = true -> c'.(flags).(hasRspPubKey) = false /\
     c'.(rspPubKey) = zeros WOLFSPDM_RSP_PUBKEY_SZ).

Definition cert_opened c slot : WOLFSPDM_CTX :=
  let c1 := c <| currentSlotId := w8 slot |> <| certChainLen := 0 |> in
  if c.(flags).(rspKeyFromCert)
  then (drop_cert_key c1) <| rspPubKey := zeros WOLFSPDM_RSP_PUBKEY_SZ |> else c1.

Lemma cert_opened_wf c slot : ctx_wf c -> ctx_wf (cert_opened c slot).
Proof.
  intros Hwf. unfold cert_opened, drop_cert_key. pose proof cfg_pos.
  assert (0 <= w8 slot) by (unfold w8; mlia). case_match; wf_tac.
Qed.

(** The state and the transcript of [c], and the fields of [c'] a chain does
    not touch. *)
Lemma cert_core_fields c c' : cert_core c' = cert_core c ->
  c'.(transcript) = c.(transcript) /\ c'.(transcriptLen) = c.(transcriptLen) /\
  c'.(flags) = c.(flags) /\ c'.(rspPubKey) = c.(rspPubKey) /\ c'.(state) = c.(state).
Proof.
  intros Hc. split_and!; match goal with |- ?p _ = _ => exact (f_equal p Hc) end.
Qed.

Lemma GetCertificate_wp slot c (w : W) (Q : unit -> WOLFSPDM_CTX * W -> Prop)
    (E : Z -> WOLFSPDM_CTX * W -> Prop) : ctx_wf c ->
  (forall c' w', ctx_wf c' -> 0 <= slot <= 7 -> chain_received c c' -> Q tt (c', w')) ->
  (forall rc c' w', rc < 0 -> ctx_wf c' -> c'.(state) = c.(state) -> tr c' = tr c -> E rc (c', w')) ->
  wp (wolfSPDM_GetCertificate slot) Q E (c, w).
Proof.
  intros Hwf HQ HE. unfold wolfSPDM_GetCertificate. io_step. io_step; [by apply HE|].
  do 2 io_step. cbv zeta. io_step. io_step. io_step.
  apply (wp_mono _ (fun _ s => s = (cert_opened c slot, w)) _ (fun _ _ => False));
    [|intros _ s ->|done].
  { unfold cert_opened. io_step; [io_step|];
      match goal with Hx : rspKeyFromCert _ = _ |- _ => rewrite Hx end; done. }
  pose proof (cert_opened_wf c slot Hwf) as Hwf1.
  assert (tr (cert_opened c slot) = tr c /\ state (cert_opened c slot) = state c /\
    rspKeyFromCert (flags (cert_opened c slot)) = false /\
    certChainLen (cert_opened c slot) = 0 /\
    (rspKeyFromCert (flags c) = false -> flags (cert_opened c slot) = flags c /\
       rspPubKey (cert_opened c slot) = rspPubKey c) /\
    (rspKeyFromCert (flags c) = true -> hasRspPubKey (flags (cert_opened c slot)) = false /\
       rspPubKey (cert_opened c slot) = zeros WOLFSPDM_RSP_PUBKEY_SZ))
    as (Ht1 & Hs1 & Hr1 & Hl1 & Hk1 & Hk1')
    by (unfold cert_opened; destruct (rspKeyFromCert (flags c)) eqn:Hr; by destruct c).
  revert Hwf1 Ht1 Hs1 Hr1 Hl1 Hk1 Hk1'. generalize (cert_opened c slot).
  intros c1 Hwf1 Ht1 Hs1 Hr1 Hl1 Hk1 Hk1'. io_step.
  pose proof cfg_pos.
  apply cert_loop_wp; [done|cbn [Z.gtb Z.compare]; lia| |].
  2: { intros rc c2 w2 ? ? (Htr & Htl & _ & _ & Hst)%cert_core_fields. apply HE; [done|done|congruence|].
       rewrite <- Ht1. by apply tr_ext. }
  intros c2 w2 Hwf2 (Htr & Htl & Hfl & Hpk & Hst)%cert_core_fields _.
  assert (tr c2 = tr c) as Ht2 by (rewrite <- Ht1; by apply tr_ext).
  assert (forall rc, rc < 0 -> E rc (c2, w2)) as HE2 by (intros; apply HE; [done|done|congruence|done]).
  wf_facts Hwf2. do 2 io_step. io_step. io_step; [by apply HE2|].
  unfold WOLFSPDM_CERT_CHAIN_HDR_SZ in *.
  io_step. io_step; io_step. io_step; [by apply HE2|]. io_step. io_step. io_step.
  apply Sha384Hash_wp; [|by apply HE2]. intros h Hh Hhl _. io_step. io_step. io_step. io_step.
  assert (ctx_wf (c2 <| certChainHash := h |>)) as Hwf3 by wf_tac.
  assert (tr (c2 <| certChainHash := h |>) = tr c2) as Ht3 by (by destruct c2).
  assert (state (c2 <| certChainHash := h |>) = state c2) as Hst3 by (by destruct c2).
  apply TranscriptAdd_wp; [done| |intros; apply HE; [done|done|congruence|congruence]].
  intros Hf4 Hwf4. io_step. pose proof (tr_tr_add _ _ Hwf3 Hf4) as Ht4.
  apply HQ; [|lia|].
  - revert Hwf4. generalize (tr_add (c2 <| certChainHash := h |>) h). intros. wf_tac.
  - assert (forall x, tr (x <| state := WOLFSPDM_STATE_CERT |>) = tr x) as Hx by (by intros []).
    unfold chain_received. rewrite Hx, Ht4, Ht3, Ht2. unfold tr_add, chain_of; ctx_simpl.
    rewrite Hfl, Hpk. split_and!; try done; lia.
Qed.

(** ** Digests and the first exchanges *)

Lemma GetDigests_wp c (w : W) (Q : unit -> WOLFSPDM_CTX * W -> Prop)
    (E : Z -> WOLFSPDM_CTX * W -> Prop) : ctx_wf c ->
  (forall c' w', ctx_wf c' -> tr c' = tr c -> Q tt (c', w')) ->
  (forall rc c' w', rc < 0 -> ctx_wf c' -> E rc (c', w')) ->
  wp wolfSPDM_GetDigests Q E (c, w).
Proof.
  intros Hwf HQ HE. unfold wolfSPDM_GetDigests. do 2 io_step. cbv zeta.
  io_step. eapply wp_mono; [apply ClearExchange_wp; [done|done|done]| |].
  2: { intros rc [c1 w1] (? & ? & _). by apply HE. }
  intros rx [c1 w1] (Hb & _ & Hwf1 & Hx). cbn [fst] in *.
  assert (tr c1 = tr c) as Ht1 by (destruct (keeps_tr_xfer _ _ _ Hx); by apply tr_ext).
  io_step. io_step. unfold wolfSPDM_ParseDigests, SPDM_CHECK_PARSE_ARGS.
  wp_step; wp_step; [by apply HE|]. wp_step. apply CHECK_RESPONSE_wp; [lia| | |].
  2: { intros e _. apply HE; [done|by apply error_wf]. }
  2: { intros. by apply HE. }
  intros _. wp_step. wp_step. wp_step. io_step.
  match goal with |- context [c1 <| slotMask := ?m |>] =>
    assert (ctx_wf (c1 <| slotMask := m |>)) as Hwf2 by wf_tac;
    assert (tr (c1 <| slotMask := m |>) = tr c1) as Ht2 by (by destruct c1);
    revert Hwf2 Ht2; generalize (c1 <| slotMask := m |>) end.
  intros c2 Hwf2 Ht2. apply M1Add_wp; [done| |intros; by apply HE].
  intros c3 Hwf3 Hs3. apply HQ; [done|]. destruct (keeps_tr_runs _ _ Hs3) as [Hk Hk'].
  rewrite (tr_ext _ _ Hk Hk'). congruence.
Qed.

Lemma NegotiateAlgorithms_wp c (w : W) (Q : unit -> WOLFSPDM_CTX * W -> Prop)
    (E : Z -> WOLFSPDM_CTX * W -> Prop) : ctx_wf c ->
  (forall c' w' c1, ctx_wf c' ->
     exchanged wolfSPDM_BuildNegotiateAlgorithms wolfSPDM_ParseAlgorithms WOLFSPDM_NEG_ALGO_SZ c c1 ->
     tr c' = tr c1 -> c'.(vcaLen) = len (tr c') -> Q tt (c', w')) ->
  (forall rc c' w', rc < 0 -> ctx_wf c' -> E rc (c', w')) ->
  wp wolfSPDM_NegotiateAlgorithms Q E (c, w).
Proof.
  intros Hwf HQ HE. unfold wolfSPDM_NegotiateAlgorithms. io_step.
  apply ExchangeMsg_wp; [apply _|done|done|done| |by intros; apply HE].
  intros c1 w1 Hwf1 Hx. io_step. io_step. io_step. wf_facts Hwf1.
  assert (ctx_wf (c1 <| vcaLen := transcriptLen c1 |>)) as Hwf2 by wf_tac.
  assert (tr (c1 <| vcaLen := transcriptLen c1 |>) = tr c1 /\
    vcaLen (c1 <| vcaLen := transcriptLen c1 |>) = len (tr c1)) as [Ht2 Hl2].
  { split; [by destruct c1|]. unfold tr; ctx_simpl. rewrite len_sub_bytes; lia. }
  revert Hwf2 Ht2 Hl2. generalize (c1 <| vcaLen := transcriptLen c1 |>). intros c2 Hwf2 Ht2 Hl2.
  apply RunStart_wp; [apply is_run_M|done| |intros; by apply HE].
  intros c3 Hwf3 Hs3 _ _. destruct (keeps_tr_runs _ _ Hs3) as [Hk Hk'].
  assert (tr c3 = tr c1) as Ht3 by (rewrite (tr_ext _ _ Hk Hk'); congruence).
  apply (HQ _ _ c1); [done|done|done|]. rewrite Ht3, <- Hl2.
  destruct Hs3 as (h & s & h' & s' & ->). by destruct c2.
Qed.

(** ** The handshake *)

Lemma CONNECT_STEP_wp {A} (func : M (WOLFSPDM_CTX * W) A) (Q : A -> WOLFSPDM_CTX * W -> Prop)
    (E : Z -> WOLFSPDM_CTX * W -> Prop) s :
  (forall rc c' w', rc < 0 -> ctx_wf c' -> c'.(state) = WOLFSPDM_STATE_ERROR -> E rc (c', w')) ->
  wp func Q (fun rc s => rc < 0 /\ ctx_wf s.1) s -> wp (SPDM_CONNECT_STEP func) Q E s.
Proof.
  intros HE Hf. unfold SPDM_CONNECT_STEP. wp_step. eapply wp_mono; [exact Hf|done|].
  intros rc [c' w'] [Hrc Hwf]. cbn [fst] in *. io_step. apply HE; [done| |done]. wf_tac.
Qed.

(** A standard handshake, step by step: the VCA messages from an empty
    transcript, the chain and its hash, the validation, the key exchange and
    FINISH. *)
Definition handshake c' : Prop :=
  exists c1 c2 c3 c4 c5 c6 c7 c8 c9,
    tr c1 = [] /\
    exchanged wolfSPDM_BuildGetVersion wolfSPDM_ParseVersion 8 c1 c2 /\
    exchanged wolfSPDM_BuildGetCapabilities wolfSPDM_ParseCapabilities 20 c2 c3 /\
    exchanged wolfSPDM_BuildNegotiateAlgorithms wolfSPDM_ParseAlgorithms WOLFSPDM_NEG_ALGO_SZ c3 c4 /\
    tr c5 = tr c4 /\ chain_received c5 c6 /\ chain_trusted c6 c7 /\
    key_exchanged c7 c8 /\ c8.(state) = WOLFSPDM_STATE_KEY_EX /\ finished c8 c9 /\
    c' = c9 <| state := WOLFSPDM_STATE_CONNECTED |>.

Lemma drop_key_wf c : ctx_wf c ->
  ctx_wf (if c.(flags).(rspKeyFromCert) then drop_cert_key c else c).
Proof. intros. case_match; [by apply drop_cert_key_wf|done]. Qed.

(** The exchanges of the VCA. *)
Ltac connect_step lem :=
  apply wp_bind, CONNECT_STEP_wp; [assumption|];
  apply lem; [first [done | apply _ | idtac]..|try (intros; split; cbn [fst]; done)].

Lemma ConnectStandard_wp c (w : W) (Q : unit -> WOLFSPDM_CTX * W -> Prop)
    (E : Z -> WOLFSPDM_CTX * W -> Prop) : ctx_wf c ->
  (forall c' w', ctx_wf c' -> handshake c' -> Q tt (c', w')) ->
  (forall rc c' w', rc < 0 -> ctx_wf c' -> c'.(state) = WOLFSPDM_STATE_ERROR -> E rc (c', w')) ->
  wp wolfSPDM_ConnectStandard Q E (c, w).
Proof.
  intros Hwf HQ HE. unfold wolfSPDM_ConnectStandard. do 2 io_step. io_step.
  apply (wp_mono _ (fun _ s => ctx_wf s.1) _ (fun _ _ => False)); [|intros _ [c1 w1] Hwf1|done].
  { io_step; [io_step; by apply drop_cert_key_wf|done]. }
  cbn [fst] in *. io_step. io_step. io_step. io_step.
  match goal with |- wp _ _ _ ?cc => assert (ctx_wf cc) as Hwf2 by wf_tac; revert Hwf2; generalize cc end.
  intros c2 Hwf2. apply TranscriptReset_wp; [done|]. intros Hwf3.
  pose proof (tr_reset_nil c2) as Ht3. revert Hwf3 Ht3. generalize (tr_reset c2). intros c3 Hwf3 Ht3.
  io_step. io_step. apply AttestFree_wp; [apply Hwf3|].
  pose proof (attest_freed_wf _ Hwf3) as Hwf4.
  assert (tr (m1_freed (l1l2_freed c3)) = []) as Ht4
    by (rewrite <- Ht3; unfold tr; by rewrite !attest_freed_fields).
  revert Hwf4 Ht4. generalize (m1_freed (l1l2_freed c3)). intros c4 Hwf4 Ht4.
  connect_step ExchangeMsg_wp. intros c5 w5 Hwf5 Hx5.
  connect_step ExchangeMsg_wp. intros c6 w6 Hwf6 Hx6.
  connect_step NegotiateAlgorithms_wp. intros c7 w7 c7' Hwf7 Hx7 Ht7 _.
  connect_step GetDigests_wp. intros c8 w8 Hwf8 Ht8.
  do 2 io_step. connect_step GetCertificate_wp. intros c9 w9 Hwf9 _ Hx9.
  apply wp_bind, CONNECT_STEP_wp; [assumption|]. io_step.
  apply ValidateCertChain_wp; [done| |by intros]. intros c10 Hwf10 Hx10. cbv beta.
  connect_step KeyExchange_wp. intros c11 w11 Hwf11 Hx11%key_exchange_run_done.
  apply wp_bind, CONNECT_STEP_wp; [assumption|].
  apply Finish_wp; [done| |by intros|by intros]. intros c12 w12 Hwf12 Hst Hx12. io_step.
  apply HQ; [wf_tac|]. exists c4, c5, c6, c7', c8, c9, c10, c11, c12.
  split_and!; try done. congruence.
Qed.

(** ** Properties *)

(** C32: algorithm negotiation accepts exactly the responses that select one
    suite, and none that was not offered.  An accepted ALGORITHMS response is of
    the negotiated version and of the size it claims and selects SHA-384, one
    signature algorithm (ECDSA P-384, or from version 1.4 a supported ML-DSA
    set), and in its AlgStructs, all of them in bounds, AES-256-GCM, the SPDM
    key schedule and one key exchange: ECDHE on P-384 when it was offered, or
    one offered ML-KEM set, not both; no AlgStruct selects another group or KEM.
    The two selections are all that changes.  Every response refused fails one
    of these tests, leaves no post-quantum selection behind once the header
    checks have passed, and no message makes the parser read out of bounds. *)
Theorem algorithms_selected_once buf c :
  is_bytes buf ->
  match wolfSPDM_ParseAlgorithms buf c with
  | Ok _ c' => exists pqc kem, algs_selected c buf pqc kem /\ c' = alg_sels pqc kem c
  | Err rc c' => rc < 0 /\ (err_step c c' \/ c' = alg_sels 0 0 c) /\ algs_refused c buf
  | Ub => False
  end.
Proof.
  intros Hb. apply (ParseAlgorithms_wp buf c
    (fun _ c' => exists pqc kem, algs_selected c buf pqc kem /\ c' = alg_sels pqc kem c)
    (fun rc c' => rc < 0 /\ (err_step c c' \/ c' = alg_sels 0 0 c) /\ algs_refused c buf)); eauto.
Qed.

(** C33: certificate retrieval ends and is recorded.  Whatever portions the
    responder sends, [wolfSPDM_GetCertificate] stops, inside the chain array;
    when it succeeds, the chain's length field is the number of bytes received,
    its hash is stored and is the one message appended to the transcript, and a
    key taken from an earlier chain is gone. *)
Theorem certificate_retrieval slot c (w : W) :
  ctx_wf c ->
  match wolfSPDM_GetCertificate slot (c, w) with
  | Ok _ (c', _) => ctx_wf c' /\ 0 <= slot <= 7 /\ chain_received c c'
  | Err rc (c', _) => rc < 0 /\ ctx_wf c' /\ c'.(state) = c.(state) /\ tr c' = tr c
  | Ub => False
  end.
Proof.
  intros Hwf. pose proof (GetCertificate_wp slot c w
    (fun _ s => ctx_wf s.1 /\ 0 <= slot <= 7 /\ chain_received c s.1)
    (fun rc s => rc < 0 /\ ctx_wf s.1 /\ s.1.(state) = c.(state) /\ tr s.1 = tr c) Hwf) as Hw.
  unfold wp in Hw. destruct (wolfSPDM_GetCertificate _ _) as [[] [c' w']|rc [c' w']|]; apply Hw; auto.
Qed.

(** C1: a standard session is connected only after the whole authenticated
    handshake.  [wolfSPDM_ConnectStandard] succeeds only when the version,
    capabilities and algorithms were exchanged from an empty transcript, a
    chain was retrieved and validated to a trusted root or pinned key, the key
    exchange was signed under the key so trusted, and FINISH was answered, in
    that order; on any failure the session is in the error state. *)
Theorem standard_session_authenticated c (w : W) :
  ctx_wf c ->
  match wolfSPDM_ConnectStandard (c, w) with
  | Ok _ (c', _) => ctx_wf c' /\ c'.(state) = WOLFSPDM_STATE_CONNECTED /\ handshake c'
  | Err rc (c', _) => rc < 0 /\ ctx_wf c' /\ c'.(state) = WOLFSPDM_STATE_ERROR
  | Ub => False
  end.
Proof.
  intros Hwf. pose proof (ConnectStandard_wp c w
    (fun _ s => ctx_wf s.1 /\ s.1.(state) = WOLFSPDM_STATE_CONNECTED /\ handshake s.1)
    (fun rc s => rc < 0 /\ ctx_wf s.1 /\ s.1.(state) = WOLFSPDM_STATE_ERROR) Hwf) as Hw.
  unfold wp in Hw. destruct (wolfSPDM_ConnectStandard _) as [[] [c' w']|rc [c' w']|]; apply Hw; auto.
  all: intros c1 w1 ? Hh; split_and!; try done;
    destruct Hh as (? & ? & ? & ? & ? & ? & ? & ? & c9 & Hh); destruct_and? Hh; by subst.
Qed.
End StandardLemmas.
