(* ===== verification/Tcg.v ===== *)
(** * The TCG profile: vendor commands and connection flow of src/spdm_tcg.c *)
From Stdlib Require Import ZArith Lia.
From stdpp Require Import base tactics list numbers.
From S2P Require Import Prelude Types Bytes Crypt Context Transcript Kdf CryptoOps Transport.
From S2P Require Import Secured Msg Chunk Cert Attest Session Standard.

(** The codes of the file's own [#define]s. *)
Definition WOLFSPDM_TCG_CAPABILITIES_RSP : Z := 0x61.
Definition WOLFSPDM_TCG_ALGORITHMS_RSP : Z := 0x63.
Definition WOLFSPDM_TCG_CAPABILITIES_RSP_SZ : Z := 20.
Definition WOLFSPDM_TCG_ALGORITHMS_RSP_SZ : Z := 52.
Definition WOLFSPDM_TCG_MIN_DATA_TRANSFER_SZ : Z := 42.
Definition WOLFSPDM_TCG_CAP_ENCRYPT : Z := 0x00000040.
Definition WOLFSPDM_TCG_CAP_MAC : Z := 0x00000080.
Definition WOLFSPDM_TCG_CAP_KEY_EX : Z := 0x00000200.
Definition WOLFSPDM_TCG_CAP_PSK : Z := 0x00000400.
Definition WOLFSPDM_TCG_CAP_PSK_WITH_CONTEXT : Z := 0x00000800.
Definition WOLFSPDM_TCG_CAP_PSK_MASK : Z := 0x00000C00.
Definition WOLFSPDM_TCG_CAP_PUB_KEY_ID : Z := 0x00010000.

(** [expectedAlgStructs] *)
Definition expectedAlgStructs : bytes :=
  [0x02; 0x20; 0x10; 0x00; 0x03; 0x20; 0x02; 0x00;
   0x04; 0x20; 0x80; 0x00; 0x05; 0x20; 0x01; 0x00].

Section Checks.
Context `{WolfCrypt} `{Config}.
Notation CM := (M WOLFSPDM_CTX).

Definition wolfSPDM_TCG_CheckPubKey (pubKey : bytes) : CM unit :=
  let* ctx := @get WOLFSPDM_CTX in
  if negb ctx.(flags).(hasRspPubKey) then ret tt
  else
    check (negb (ctx.(rspPubKeyLen) =? WOLFSPDM_ECC_POINT_SIZE)) WOLFSPDM_E_BAD_STATE ;;;
    let* (pubKeyX, pubKeyY) := as_err WOLFSPDM_E_PEER_ERROR (wolfSPDM_ExtractEccPoint pubKey) in
    let* x := rd_sub ctx.(rspPubKey) 0 WOLFSPDM_ECC_KEY_SIZE in
    let* y := rd_sub ctx.(rspPubKey) WOLFSPDM_ECC_KEY_SIZE WOLFSPDM_ECC_KEY_SIZE in
    check (negb (bytes_eqb pubKeyX x) || negb (bytes_eqb pubKeyY y)) WOLFSPDM_E_PEER_ERROR.

Definition wolfSPDM_TCG_CheckResponse (rsp : bytes) (minRspSz expectedCode : Z) : CM unit :=
  check (len rsp <? 4) WOLFSPDM_E_BUFFER_SMALL ;;;
  match wolfSPDM_CheckError rsp with
  | Some _ => fail WOLFSPDM_E_PEER_ERROR
  | None =>
      check (len rsp <? minRspSz) WOLFSPDM_E_BUFFER_SMALL ;;;
      let* ctx := @get WOLFSPDM_CTX in
      let* v := rd rsp 0 in
      check (negb (v =? ctx.(spdmVersion))) WOLFSPDM_E_VERSION_MISMATCH ;;;
      let* code := rd rsp 1 in
      check (negb (code =? expectedCode)) WOLFSPDM_E_PEER_ERROR
  end.

(** [requiredFlags] *)
Definition tcg_required (capsFlags : Z) : Z :=
  let base := Z.lor (Z.lor WOLFSPDM_TCG_CAP_ENCRYPT WOLFSPDM_TCG_CAP_MAC)
                WOLFSPDM_TCG_CAP_PUB_KEY_ID in
  if Z.land capsFlags WOLFSPDM_TCG_CAP_PSK =? 0 then Z.lor base WOLFSPDM_TCG_CAP_KEY_EX else base.

Definition wolfSPDM_TCG_CheckCapabilities (rsp : bytes) (capsFlags : Z) : CM unit :=
  wolfSPDM_TCG_CheckResponse rsp WOLFSPDM_TCG_CAPABILITIES_RSP_SZ WOLFSPDM_TCG_CAPABILITIES_RSP ;;;
  check (negb (len rsp =? WOLFSPDM_TCG_CAPABILITIES_RSP_SZ)) WOLFSPDM_E_PEER_ERROR ;;;
  let requiredFlags := tcg_required capsFlags in
  let* rspFlags := rd32le rsp 8 in
  let* dataTransferSz := rd32le rsp 12 in
  let* maxSpdmMsgSz := rd32le rsp 16 in
  let psk := Z.land rspFlags WOLFSPDM_TCG_CAP_PSK_MASK in
  check (negb (Z.land rspFlags requiredFlags =? requiredFlags) ||
         (negb (Z.land capsFlags WOLFSPDM_TCG_CAP_PSK =? 0) &&
          negb (psk =? WOLFSPDM_TCG_CAP_PSK) &&
          negb (psk =? WOLFSPDM_TCG_CAP_PSK_WITH_CONTEXT)) ||
         (dataTransferSz <? WOLFSPDM_TCG_MIN_DATA_TRANSFER_SZ) ||
         (maxSpdmMsgSz <? dataTransferSz)) WOLFSPDM_E_PEER_ERROR.

Definition wolfSPDM_TCG_CheckAlgorithms (rsp : bytes) : CM unit :=
  wolfSPDM_TCG_CheckResponse rsp WOLFSPDM_TCG_ALGORITHMS_RSP_SZ WOLFSPDM_TCG_ALGORITHMS_RSP ;;;
  check (negb (len rsp =? WOLFSPDM_TCG_ALGORITHMS_RSP_SZ)) WOLFSPDM_E_PEER_ERROR ;;;
  let* size := rd16le rsp 4 in
  let* hdr := rd_sub rsp 0 8 in
  let* meas := rd32le rsp 8 in
  let* asym := rd32le rsp 12 in
  let* hash := rd32le rsp 16 in
  let* r20 := rd32le rsp 20 in
  let* r24 := rd32le rsp 24 in
  let* r28 := rd32le rsp 28 in
  let* ext := rd_sub rsp 32 4 in
  let* structs := rd_sub rsp 36 16 in
  check (negb (size =? len rsp) || negb (at_ hdr 2 =? 4) || negb (at_ hdr 3 =? 0) ||
         negb (at_ hdr 6 =? 0) || negb (at_ hdr 7 =? 0x02) || negb (meas =? 0) ||
         negb (asym =? 0x00000080) || negb (hash =? 0x00000002) || negb (r20 =? 0) ||
         negb (r24 =? 0) || negb (r28 =? 0) || negb (at_ ext 0 =? 0) || negb (at_ ext 1 =? 0) ||
         negb (at_ ext 2 =? 0) || negb (at_ ext 3 =? 0) ||
         negb (bytes_eqb structs expectedAlgStructs)) WOLFSPDM_E_PEER_ERROR.

(** [capsReq] and [algReq] *)
Definition tcg_caps_req (spdmVersion capsFlags : Z) : bytes :=
  [spdmVersion; 0xE1; 0x00; 0x00; 0x00; 0x1F; 0x00; 0x00] ++ SPDM_Set32LE capsFlags ++
  [0xC0; 0x07; 0x00; 0x00; 0xC0; 0x07; 0x00; 0x00].

Definition tcg_alg_req (spdmVersion : Z) : bytes :=
  [spdmVersion; 0xE3; 0x04; 0x00; 0x30; 0x00; 0x00; 0x02; 0x80; 0x00; 0x00; 0x00;
   0x02; 0x00; 0x00; 0x00] ++ zeros 16 ++
  [0x02; 0x20; 0x10; 0x00; 0x03; 0x20; 0x02; 0x00; 0x04; 0x20; 0x80; 0x00;
   0x05; 0x20; 0x01; 0x00].
End Checks.

Section TcgIO.
Context `{WolfCrypt} `{Config} {W : Type} `{!Transport W}.
Notation IOM := (M (WOLFSPDM_CTX * W)).

Definition vendor_ver (ctx : WOLFSPDM_CTX) : Z :=
  if negb (ctx.(spdmVersion) =? 0) then ctx.(spdmVersion) else SPDM_VERSION_13.

(** [wanted] is false when [rsp] is NULL; the result is the response's code
    and payload. *)
Definition wolfSPDM_TCG_VendorCmdClear (vdCode : bytes) (payload : option bytes) (payloadSz : Z)
    (wanted : bool) : IOM (bytes * bytes) :=
  let* ctx := get_ctx in
  let* spdmMsg := wolfSPDM_BuildVendorDefined (vendor_ver ctx) vdCode payload payloadSz
                    WOLFSPDM_VENDOR_BUF_SZ in
  let* rx := wolfSPDM_SendReceive spdmMsg WOLFSPDM_VENDOR_RX_SZ in
  when ((len rx >=? 4) && (at_ rx 1 =? SPDM_ERROR))
    (upd_ctx (fun c => c <| lastPeerErrorCode := at_ rx 2 |>) ;;;
     fail WOLFSPDM_E_PEER_ERROR) ;;;
  if wanted then
    let* (code, data) := wolfSPDM_ParseVendorDefined rx WOLFSPDM_VENDOR_BUF_SZ in
    check (negb (bytes_eqb code (sub_bytes vdCode 0 WOLFSPDM_VDCODE_LEN))) WOLFSPDM_E_PEER_ERROR ;;;
    ret (code, data)
  else ret ([], []).

Definition wolfSPDM_TCG_VendorCmdSecured (vdCode : bytes) (payload : option bytes) (payloadSz : Z)
    : IOM unit :=
  let* ctx := get_ctx in
  let* spdmMsg := wolfSPDM_BuildVendorDefined (vendor_ver ctx) vdCode payload payloadSz
                    WOLFSPDM_VENDOR_BUF_SZ in
  let* dec := wolfSPDM_SecuredExchange spdmMsg WOLFSPDM_VENDOR_BUF_SZ in
  check ((len dec >=? 4) && (at_ dec 1 =? SPDM_ERROR)) WOLFSPDM_E_PEER_ERROR.

Definition wolfSPDM_TCG_GetPubKey (pubKeySz : Z) : IOM bytes :=
  let* ctx := get_ctx in
  when (ctx.(state) =? WOLFSPDM_STATE_INIT)
    (on_ctx wolfSPDM_TranscriptReset ;;; wolfSPDM_GetVersion) ;;;
  let* (code, payload) := wolfSPDM_TCG_VendorCmdClear WOLFSPDM_VDCODE_GET_PUBK None 0 true in
  check (negb (bytes_eqb code WOLFSPDM_VDCODE_GET_PUBK)) WOLFSPDM_E_PEER_ERROR ;;;
  on_ctx (wolfSPDM_TCG_CheckPubKey payload) ;;;
  check (pubKeySz <? len payload) WOLFSPDM_E_BUFFER_SMALL ;;;
  ret payload.

Definition wolfSPDM_TCG_GivePubKey (pubKey : bytes) : IOM unit :=
  let* ctx := get_ctx in
  check (ctx.(state) <? WOLFSPDM_STATE_KEY_EX) WOLFSPDM_E_BAD_STATE ;;;
  wolfSPDM_TCG_VendorCmdSecured WOLFSPDM_VDCODE_GIVE_PUB (Some pubKey) (len pubKey).

(** Any failure puts the session in the error state. *)
Definition wolfSPDM_TCG_GetCapabilities (capsFlags : Z) : IOM unit :=
  let* ctx := get_ctx in
  let capsReq := tcg_caps_req ctx.(spdmVersion) capsFlags in
  SPDM_CONNECT_STEP
    (on_ctx (wolfSPDM_TranscriptAdd capsReq) ;;;
     let* capsRsp := wolfSPDM_SendReceive capsReq 64 in
     on_ctx (wolfSPDM_TCG_CheckCapabilities capsRsp capsFlags) ;;;
     on_ctx (wolfSPDM_TranscriptAdd capsRsp)).

Definition wolfSPDM_TCG_NegotiateAlgorithms : IOM unit :=
  let* ctx := get_ctx in
  let algReq := tcg_alg_req ctx.(spdmVersion) in
  SPDM_CONNECT_STEP
    (on_ctx (wolfSPDM_TranscriptAdd algReq) ;;;
     let* algRsp := wolfSPDM_SendReceive algReq 128 in
     on_ctx (wolfSPDM_TCG_CheckAlgorithms algRsp) ;;;
     on_ctx (wolfSPDM_TranscriptAdd algRsp)).

Definition wolfSPDM_ConnectTCG : IOM unit :=
  let* ctx := get_ctx in
  check (negb ctx.(flags).(initialized)) WOLFSPDM_E_BAD_STATE ;;;
  check (negb ctx.(flags).(hasRspPubKey) ||
         negb (ctx.(rspPubKeyLen) =? WOLFSPDM_ECC_POINT_SIZE)) WOLFSPDM_E_BAD_STATE ;;;
  check (ctx.(ioCb) =? 0) WOLFSPDM_E_IO_FAIL ;;;
  upd_ctx (fun c => c <| state := WOLFSPDM_STATE_INIT |>) ;;;
  on_ctx wolfSPDM_TranscriptReset ;;;
  SPDM_CONNECT_STEP wolfSPDM_GetVersion ;;;
  when (negb (ctx.(mode) =? WOLFSPDM_MODE_NUVOTON))
    (SPDM_CONNECT_STEP (wolfSPDM_TCG_GetCapabilities WOLFSPDM_TCG_CAPS_FLAGS_DEFAULT) ;;;
     SPDM_CONNECT_STEP wolfSPDM_TCG_NegotiateAlgorithms) ;;;
  let* pubKey := SPDM_CONNECT_STEP (wolfSPDM_TCG_GetPubKey WOLFSPDM_PUBKEY_BUF_SZ) in
  upd_ctx (fun c => c <| state := WOLFSPDM_STATE_CERT |>) ;;;
  let* h := SPDM_CONNECT_STEP (wolfSPDM_Sha384Hash pubKey [] []) in
  upd_ctx (fun c => c <| certChainHash := h |>) ;;;
  SPDM_CONNECT_STEP (on_ctx (wolfSPDM_TranscriptAdd h)) ;;;
  SPDM_CONNECT_STEP wolfSPDM_KeyExchange ;;;
  let* ctx := get_ctx in
  when (ctx.(flags).(hasReqKeyPair) && (ctx.(reqPubKeyTPMTLen) >? 0))
    (SPDM_CONNECT_STEP
      (let* pub := rd_sub ctx.(reqPubKeyTPMT) 0 ctx.(reqPubKeyTPMTLen) in
       wolfSPDM_TCG_GivePubKey pub)) ;;;
  SPDM_CONNECT_STEP wolfSPDM_Finish ;;;
  upd_ctx (fun c => c <| state := WOLFSPDM_STATE_CONNECTED |>).
End TcgIO.

(** ** Lemmas: the checks *)

Section CheckLemmas.
Context `{WolfCrypt} `{Config}.
Implicit Types c : WOLFSPDM_CTX.

(** The public point of a TPMT_PUBLIC is the pinned key. *)
Definition key_matches c (pub : bytes) : Prop :=
  exists x y, wolfSPDM_ExtractEccPoint pub tt = Ok (x, y) tt /\
    sub_bytes c.(rspPubKey) 0 WOLFSPDM_ECC_POINT_SIZE = x ++ y.

Lemma ExtractEccPoint_any {S} pub (s : S) :
  wolfSPDM_ExtractEccPoint pub s =
  match wolfSPDM_ExtractEccPoint pub tt with
  | Ok a _ => Ok a s | Err rc _ => Err rc s | Ub => Ub
  end.
Proof.
  unfold wolfSPDM_ExtractEccPoint, rd16be, rd_sub.
  repeat (match goal with |- context [if ?b then _ else _] => destruct b end; run); done.
Qed.

Lemma sub_bytes_split b n m : 0 <= n -> 0 <= m ->
  sub_bytes b 0 (n + m) = sub_bytes b 0 n ++ sub_bytes b n m.
Proof.
  intros. unfold sub_bytes. rewrite !drop_0, Z2Nat.inj_add by done.
  symmetry. apply take_take_drop.
Qed.

Lemma CheckPubKey_wp pub c (Q : unit -> WOLFSPDM_CTX -> Prop) (E : Z -> WOLFSPDM_CTX -> Prop) :
  ctx_wf c ->
  (c.(flags).(hasRspPubKey) = false \/
   c.(rspPubKeyLen) = WOLFSPDM_ECC_POINT_SIZE /\ key_matches c pub -> Q tt c) ->
  (forall rc, rc < 0 -> E rc c) ->
  wp (wolfSPDM_TCG_CheckPubKey pub) Q E c.
Proof.
  intros Hwf HQ HE. wf_facts Hwf. unfold wolfSPDM_TCG_CheckPubKey. do 2 wp_step. cbv beta.
  wp_step. { wp_step. apply HQ. left. by destruct (hasRspPubKey _). }
  wp_step. wp_step; [by apply HE|]. wp_step. unfold as_err. wp_step.
  pose proof (ExtractEccPoint_wp pub (fun r _ => len r.1 = WOLFSPDM_ECC_KEY_SIZE)
    (fun _ _ => True) tt (fun x y Hx _ => Hx) I) as Hx.
  unfold wp in Hx |- * at 1. rewrite ExtractEccPoint_any.
  destruct (wolfSPDM_ExtractEccPoint pub tt) as [[x y] []|rc []|] eqn:Hp; [| |done].
  2: { apply wp_fail. by apply HE. }
  wp_step. wp_step. wp_step. wp_step. wp_step; [by apply HE|]. apply HQ. right. split; [lia|].
  exists x, y. split; [done|].
  change WOLFSPDM_ECC_POINT_SIZE with (WOLFSPDM_ECC_KEY_SIZE + WOLFSPDM_ECC_KEY_SIZE).
  rewrite sub_bytes_split by done.
  destruct (bytes_eqb x _) eqn:E1; [|done]. destruct (bytes_eqb y _) eqn:E2; [|done].
  apply bytes_eqb_eq in E1 as <-. by apply bytes_eqb_eq in E2 as <-.
Qed.

Lemma CheckResponse_wp rsp n code c (Q : unit -> WOLFSPDM_CTX -> Prop)
    (E : Z -> WOLFSPDM_CTX -> Prop) :
  (4 <= len rsp -> n <= len rsp -> at_ rsp 0 = c.(spdmVersion) -> at_ rsp 1 = code ->
   code <> SPDM_ERROR -> Q tt c) ->
  (forall rc, rc < 0 -> E rc c) ->
  wp (wolfSPDM_TCG_CheckResponse rsp n code) Q E c.
Proof.
  intros HQ HE. unfold wolfSPDM_TCG_CheckResponse, wolfSPDM_CheckError. wp_step.
  wp_step; [by apply HE|]. replace (len rsp <? 4) with false by lia.
  destruct (Z.eqb_spec (at_ rsp 1) SPDM_ERROR) as [He|He].
  { wp_step. by apply HE. }
  wp_go; try by apply HE. subst. unfold at_ in *.
  change (Z.to_nat 0) with 0%nat in *. change (Z.to_nat 1) with 1%nat in *. apply HQ; lia.
Qed.

(** The responder's capabilities suffice for the requested flow. *)
Definition tcg_caps_ok (spdmVersion capsFlags : Z) (rsp : bytes) : Prop :=
  len rsp = WOLFSPDM_TCG_CAPABILITIES_RSP_SZ /\ at_ rsp 0 = spdmVersion /\
  at_ rsp 1 = WOLFSPDM_TCG_CAPABILITIES_RSP /\
  Z.land (SPDM_Get32LE (sub_bytes rsp 8 4)) (tcg_required capsFlags) = tcg_required capsFlags /\
  (Z.land capsFlags WOLFSPDM_TCG_CAP_PSK <> 0 ->
   Z.land (SPDM_Get32LE (sub_bytes rsp 8 4)) WOLFSPDM_TCG_CAP_PSK_MASK = WOLFSPDM_TCG_CAP_PSK \/
   Z.land (SPDM_Get32LE (sub_bytes rsp 8 4)) WOLFSPDM_TCG_CAP_PSK_MASK =
     WOLFSPDM_TCG_CAP_PSK_WITH_CONTEXT) /\
  WOLFSPDM_TCG_MIN_DATA_TRANSFER_SZ <= SPDM_Get32LE (sub_bytes rsp 12 4) <=
    SPDM_Get32LE (sub_bytes rsp 16 4).

Lemma CheckCapabilities_wp rsp f c (Q : unit -> WOLFSPDM_CTX -> Prop)
    (E : Z -> WOLFSPDM_CTX -> Prop) :
  is_bytes rsp -> (tcg_caps_ok c.(spdmVersion) f rsp -> Q tt c) -> (forall rc, rc < 0 -> E rc c) ->
  wp (wolfSPDM_TCG_CheckCapabilities rsp f) Q E c.
Proof.
  intros Hb HQ HE. unfold wolfSPDM_TCG_CheckCapabilities. wp_step.
  apply CheckResponse_wp; [|done]. intros _ _ Hv Hc _.
  wp_step. wp_step; [by apply HE|]. unfold WOLFSPDM_TCG_CAPABILITIES_RSP_SZ in *. cbv zeta.
  io_go; try (by apply HE).
  unfold WOLFSPDM_TCG_CAP_PSK, WOLFSPDM_TCG_CAP_PSK_MASK, WOLFSPDM_TCG_CAP_PSK_WITH_CONTEXT,
    WOLFSPDM_TCG_MIN_DATA_TRANSFER_SZ in *.
  subst. apply HQ. unfold tcg_caps_ok. split_and!; try done; unfold WOLFSPDM_TCG_CAPABILITIES_RSP_SZ,
    WOLFSPDM_TCG_CAP_PSK, WOLFSPDM_TCG_CAP_PSK_MASK, WOLFSPDM_TCG_CAP_PSK_WITH_CONTEXT,
    WOLFSPDM_TCG_MIN_DATA_TRANSFER_SZ; lia.
Qed.

(** The one ALGORITHMS response that is accepted. *)
Definition tcg_alg_rsp (spdmVersion : Z) : bytes :=
  [spdmVersion; WOLFSPDM_TCG_ALGORITHMS_RSP; 4; 0; 52; 0; 0; 2] ++ [0; 0; 0; 0] ++
  [0x80; 0; 0; 0] ++ [2; 0; 0; 0] ++ [0; 0; 0; 0] ++ [0; 0; 0; 0] ++ [0; 0; 0; 0] ++
  [0; 0; 0; 0] ++ expectedAlgStructs.

(** A four-byte number determines its bytes. *)
Lemma Get32LE_bytes p v : is_bytes p -> len p = 4 -> SPDM_Get32LE p = v ->
  p = [v mod 256; v / 256 mod 256; v / 65536 mod 256; v / 16777216].
Proof.
  intros Hb Hl Hv. rewrite Get32LE_sum in Hv by done.
  destruct p as [|a [|b [|x [|d [|? p]]]]]; try discriminate Hl;
    [|rewrite !len_cons in Hl; pose proof (len_nonneg p); lia].
  inversion_clear Hb as [|? ? Ha Hb1]. inversion_clear Hb1 as [|? ? Hb' Hb2].
  inversion_clear Hb2 as [|? ? Hx Hb3]. inversion_clear Hb3 as [|? ? Hd _].
  cbn [at_ nth] in Hv. unfold at_, is_byte in *. cbn [nth] in Hv.
  f_equal; [mlia|]. f_equal; [mlia|]. f_equal; [mlia|]. f_equal. mlia.
Qed.

Lemma bytes_split_52 (b : bytes) : len b = 52 ->
  b = sub_bytes b 0 8 ++ sub_bytes b 8 4 ++ sub_bytes b 12 4 ++ sub_bytes b 16 4 ++
      sub_bytes b 20 4 ++ sub_bytes b 24 4 ++ sub_bytes b 28 4 ++ sub_bytes b 32 4 ++
      sub_bytes b 36 16.
Proof.
  intros Hl. rewrite <- (sub_bytes_all b 52) at 1 by done.
  unfold sub_bytes, len in *. rewrite drop_0.
  do 52 (destruct b as [|? b]; [discriminate Hl|]). by destruct b.
Qed.

Lemma header_8 (b : bytes) : 8 <= len b ->
  sub_bytes b 0 8 = [at_ b 0; at_ b 1; at_ (sub_bytes b 0 8) 2; at_ (sub_bytes b 0 8) 3] ++
    sub_bytes b 4 2 ++ [at_ (sub_bytes b 0 8) 6; at_ (sub_bytes b 0 8) 7].
Proof.
  intros Hl. unfold sub_bytes, len, at_ in *.
  do 8 (destruct b as [|? b]; [cbn in Hl; lia|]). done.
Qed.

Lemma piece_4 (p : bytes) : len p = 4 -> p = [at_ p 0; at_ p 1; at_ p 2; at_ p 3].
Proof.
  intros Hl. do 4 (destruct p as [|? p]; [discriminate Hl|]).
  destruct p; [done|]. rewrite !len_cons in Hl. pose proof (len_nonneg p). lia.
Qed.

Lemma Get16LE_bytes p v : is_bytes p -> len p = 2 -> SPDM_Get16LE p = v ->
  p = [v mod 256; v / 256].
Proof.
  intros Hb Hl Hv. rewrite Get16LE_sum in Hv by done.
  destruct p as [|a [|b [|? p]]]; try discriminate Hl;
    [|rewrite !len_cons in Hl; pose proof (len_nonneg p); lia].
  inversion_clear Hb as [|? ? Ha Hb1]. inversion_clear Hb1 as [|? ? Hb' _].
  unfold at_, is_byte in *. cbn [nth] in Hv.
  f_equal; [mlia|]. f_equal. mlia.
Qed.

Lemma CheckAlgorithms_wp rsp c (Q : unit -> WOLFSPDM_CTX -> Prop)
    (E : Z -> WOLFSPDM_CTX -> Prop) :
  is_bytes rsp -> (rsp = tcg_alg_rsp c.(spdmVersion) -> Q tt c) ->
  (forall rc, rc < 0 -> E rc c) ->
  wp (wolfSPDM_TCG_CheckAlgorithms rsp) Q E c.
Proof.
  intros Hb HQ HE. unfold wolfSPDM_TCG_CheckAlgorithms. wp_step.
  apply CheckResponse_wp; [|done]. intros _ _ Hv Hc _.
  wp_step. wp_step; [by apply HE|]. unfold WOLFSPDM_TCG_ALGORITHMS_RSP_SZ in *.
  assert (len rsp = 52) as Hl by lia.
  io_go; try (by apply HE). subst. apply HQ. unfold tcg_alg_rsp.
  rewrite (bytes_split_52 rsp Hl).
  assert (forall k, 0 <= k -> k + 4 <= 52 -> is_bytes (sub_bytes rsp k 4) /\
    len (sub_bytes rsp k 4) = 4) as Hs
    by (intros; split; [by apply is_bytes_sub|apply len_sub_bytes; lia]).
  assert (forall k v, 0 <= k -> k + 4 <= 52 -> SPDM_Get32LE (sub_bytes rsp k 4) = v ->
    sub_bytes rsp k 4 = [v mod 256; v / 256 mod 256; v / 65536 mod 256; v / 16777216]) as Hw
    by (intros; apply Get32LE_bytes; by try apply Hs).
  rewrite (header_8 rsp), (Get16LE_bytes (sub_bytes rsp 4 2) 52), (piece_4 (sub_bytes rsp 32 4)),
    (Hw 8 0), (Hw 12 0x80), (Hw 16 2), (Hw 20 0), (Hw 24 0), (Hw 28 0)
    by (lia || (by apply is_bytes_sub) || (apply len_sub_bytes; lia) || (by apply Hs)).
  destruct (bytes_eqb (sub_bytes rsp 36 16) expectedAlgStructs) eqn:Hx; [|lia].
  apply bytes_eqb_eq in Hx as ->.
  replace (at_ (sub_bytes rsp 0 8) 2) with 4 by lia.
  replace (at_ (sub_bytes rsp 0 8) 3) with 0 by lia.
  replace (at_ (sub_bytes rsp 0 8) 6) with 0 by lia.
  replace (at_ (sub_bytes rsp 0 8) 7) with 2 by lia.
  replace (at_ (sub_bytes rsp 32 4) 0) with 0 by lia.
  replace (at_ (sub_bytes rsp 32 4) 1) with 0 by lia.
  replace (at_ (sub_bytes rsp 32 4) 2) with 0 by lia.
  replace (at_ (sub_bytes rsp 32 4) 3) with 0 by lia.
  by rewrite Hv, Hc.
Qed.
End CheckLemmas.

(** ** Lemmas: the vendor commands *)

Section VendorLemmas.
Context `{WolfCrypt} `{Config} `{!CryptSizes} `{!RecordFits} `{!TranscriptFits}
  {W : Type} `{!Transport W} `{!TransportBytes}.
Implicit Types c : WOLFSPDM_CTX.

Lemma BuildVendorDefined_wp {St} v code payload n cap (s : St) (Q : bytes -> St -> Prop)
    (E : Z -> St -> Prop) :
  len code = WOLFSPDM_VDCODE_LEN -> 0 <= n -> n = len (opt_bytes payload) ->
  (forall m, len m <= cap -> m = [v; SPDM_VENDOR_DEFINED_REQUEST; 0; 0; 1; 0; 0] ++
     SPDM_Set16LE (w16 (WOLFSPDM_VDCODE_LEN + n)) ++ code ++ opt_bytes payload -> Q m s) ->
  (forall rc, rc < 0 -> E rc s) ->
  wp (wolfSPDM_BuildVendorDefined v code payload n cap) Q E s.
Proof.
  intros Hc Hn Hp HQ HE. unfold wolfSPDM_BuildVendorDefined, WOLFSPDM_VDCODE_LEN in *.
  wp_go; try (by apply HE); try lia.
  assert (sub_bytes code 0 8 = code) as Hs by (by apply sub_bytes_all).
  assert (sub_bytes (opt_bytes payload) 0 n = opt_bytes payload) as Hs' by (by apply sub_bytes_all).
  rewrite Hs, Hs'. apply HQ; [|done].
  change (SPDM_Set16LE 1) with [1; 0].
  rewrite !len_app, Hc. change (len (SPDM_Set16LE (w16 (8 + n)))) with 2.
  change (len [1; 0]) with 2. change (len [v; SPDM_VENDOR_DEFINED_REQUEST; 0; 0]) with 4.
  change (len [0]) with 1. lia.
Qed.

Lemma ParseVendorDefined_wp {St} buf cap (s : St) (Q : bytes * bytes -> St -> Prop)
    (E : Z -> St -> Prop) :
  is_bytes buf ->
  (forall code data, is_bytes code -> is_bytes data -> len code = WOLFSPDM_VDCODE_LEN ->
     len data <= cap -> Q (code, data) s) ->
  (forall rc, rc < 0 -> E rc s) ->
  wp (wolfSPDM_ParseVendorDefined buf cap) Q E s.
Proof.
  intros Hb HQ HE. unfold wolfSPDM_ParseVendorDefined, WOLFSPDM_VDCODE_LEN in *.
  wp_step. wp_step; [by apply HE|]. wp_step. apply wp_rd; [lia|]. intros v ->.
  pose proof (is_bytes_nth buf (Z.to_nat 6) Hb) as Hv. unfold is_byte in Hv.
  io_go; try (by apply HE); try lia.
  apply HQ; [by apply is_bytes_sub|by apply is_bytes_sub| |]; rewrite len_sub_bytes; lia.
Qed.

(** The key a session pins, and its mode. *)
Definition pin c := (c.(rspPubKey), c.(rspPubKeyLen), c.(flags).(hasRspPubKey), c.(mode)).

Lemma pin_of_view c c' : session_view c' = session_view c -> pin c' = pin c.
Proof. unfold session_view, pin. intros [=]. congruence. Qed.

Lemma key_matches_pin c c' pub : pin c' = pin c -> key_matches c' pub -> key_matches c pub.
Proof. unfold pin, key_matches. intros [= -> _ _ _]. done. Qed.

(** An exchange outside a session: link and buffers change, nothing else. *)
Definition clear_step c c' : Prop := session_view c' = session_view c /\ keeps_tr c c'.

Lemma clear_step_xfer c c' : xfer false c c' -> clear_step c c'.
Proof. intros Hx. split; [by apply view_xfer|by eapply keeps_tr_xfer]. Qed.

Lemma clear_step_trans c1 c2 c3 : clear_step c1 c2 -> clear_step c2 c3 -> clear_step c1 c3.
Proof. intros [? ?] [? ?]. split; [congruence|by eapply keeps_tr_trans]. Qed.

Lemma VendorCmdClear_wp code payload n (wanted : bool) c (w : W)
    (Q : bytes * bytes -> WOLFSPDM_CTX * W -> Prop) (E : Z -> WOLFSPDM_CTX * W -> Prop) :
  ctx_wf c -> len code = WOLFSPDM_VDCODE_LEN -> 0 <= n -> n = len (opt_bytes payload) ->
  (forall data c' w', ctx_wf c' -> clear_step c c' -> is_bytes data ->
     len data <= WOLFSPDM_VENDOR_BUF_SZ ->
     Q (if wanted then (code, data) else ([], [])) (c', w')) ->
  (forall rc c' w', rc < 0 -> ctx_wf c' -> clear_step c c' -> E rc (c', w')) ->
  wp (wolfSPDM_TCG_VendorCmdClear code payload n wanted) Q E (c, w).
Proof.
  intros Hwf Hc Hn Hp HQ HE. assert (clear_step c c) as Hrefl by (split; [done|apply keeps_tr_refl]).
  unfold wolfSPDM_TCG_VendorCmdClear. do 2 io_step. io_step.
  apply BuildVendorDefined_wp; [done|done|done| |intros; by apply HE]. intros m Hm _.
  io_step. eapply wp_mono; [apply (SendReceive_xfer m WOLFSPDM_VENDOR_RX_SZ c w Hwf)| |].
  { unfold WOLFSPDM_VENDOR_BUF_SZ, WOLFSPDM_TCG_HEADER_SIZE in *. lia. }
  2: { intros rc [c1 w1] (? & ? & ?). cbn [fst] in *. apply HE; [done|done|by apply clear_step_xfer]. }
  intros rx [c1 w1] (Hb & _ & Hwf1 & Hx%clear_step_xfer). cbn [fst] in *.
  io_step. io_step.
  { io_step. io_step. io_step. apply HE; [done|by apply error_wf|].
    eapply clear_step_trans; [done|]. by destruct c1. }
  destruct wanted; [|io_step; apply (HQ []); [done|done|apply Forall_nil; done|done]].
  io_step. apply ParseVendorDefined_wp; [done| |intros; by apply HE].
  intros code' data Hb1 Hb2 Hl1 Hl2. cbv beta iota. io_step. io_step; [by apply HE|]. io_step.
  destruct (bytes_eqb code' _) eqn:He; [|done]. apply bytes_eqb_eq in He as ->.
  rewrite sub_bytes_all by done. by apply HQ.
Qed.

Lemma VendorCmdSecured_wp code payload n c (w : W)
    (Q : unit -> WOLFSPDM_CTX * W -> Prop) (E : Z -> WOLFSPDM_CTX * W -> Prop) :
  ctx_wf c -> len code = WOLFSPDM_VDCODE_LEN -> 0 <= n -> n = len (opt_bytes payload) ->
  (forall c' w', ctx_wf c' -> xfer true c c' -> secured_ready c = true -> Q tt (c', w')) ->
  (forall rc c' w', rc < 0 -> ctx_wf c' -> xfer true c c' -> E rc (c', w')) ->
  wp (wolfSPDM_TCG_VendorCmdSecured code payload n) Q E (c, w).
Proof.
  intros Hwf Hc Hn Hp HQ HE. assert (xfer true c c) as Hrefl by apply xfer_refl.
  unfold wolfSPDM_TCG_VendorCmdSecured. do 2 io_step. io_step.
  apply BuildVendorDefined_wp; [done|done|done| |intros; by apply HE]. intros m Hm _.
  io_step. eapply wp_mono; [by apply SecuredExchange_wp| |].
  2: { intros rc [c1 w1] [(_ & -> & [= -> ->])|(_ & ? & ? & ?)]; by apply HE. }
  intros rx [c1 w1] (Hr & _ & _ & Hwf1 & Hx). cbn [fst] in *.
  io_step; [by apply HE|]. by apply HQ.
Qed.

(** GET_VERSION sets the version and the state, and keeps every part [p] of
    the context that neither the link nor those two touch. *)
Lemma version_keeps {A} (p : WOLFSPDM_CTX -> A) n c c' :
  (forall c1 c2, xfer false c1 c2 -> p c2 = p c1) -> (forall c1 d, p (tr_add c1 d) = p c1) ->
  (forall c1 v, p (c1 <| spdmVersion := v |> <| state := WOLFSPDM_STATE_VERSION |>) = p c1) ->
  exchanged wolfSPDM_BuildGetVersion wolfSPDM_ParseVersion n c c' ->
  p c' = p c /\ c'.(state) = WOLFSPDM_STATE_VERSION.
Proof.
  intros Hpx Hpt Hpv (tx & rx & c0 & c2 & Hb & Hx%Hpx & Hp & Hrx & _ & _).
  assert (c0 = c) as ->.
  { revert Hb. unfold wolfSPDM_BuildGetVersion, SPDM_CHECK_BUILD_ARGS. run.
    destruct (n <? 4); intros; by simplify_eq. }
  rewrite Hpt in Hx. rewrite <- Hx, <- (Hpt c2 rx).
  pose proof (ParseVersion_wp rx (tr_add c2 rx)
    (fun _ c' => p c' = p (tr_add c2 rx) /\ c'.(state) = WOLFSPDM_STATE_VERSION)
    (fun _ _ => True) Hrx) as Hw.
  unfold wp in Hw. rewrite Hp in Hw. apply Hw; [|done].
  intros. rewrite Hpv. split; [done|]. generalize (tr_add c2 rx). by intros [].
Qed.

Lemma version_pin n c c' : exchanged wolfSPDM_BuildGetVersion wolfSPDM_ParseVersion n c c' ->
  pin c' = pin c /\ c'.(state) = WOLFSPDM_STATE_VERSION.
Proof.
  apply version_keeps; [|by intros []|by intros []].
  intros. by apply pin_of_view, view_xfer.
Qed.

(** What an accepted GET_PUBK gives. *)
Definition pubkey_pinned c c' (pub : bytes) : Prop :=
  is_bytes pub /\ pin c' = pin c /\
  (c.(flags).(hasRspPubKey) = true -> key_matches c pub) /\
  (c.(state) <> WOLFSPDM_STATE_INIT -> clear_step c c').

Lemma GetPubKey_wp pubKeySz c (w : W) (Q : bytes -> WOLFSPDM_CTX * W -> Prop)
    (E : Z -> WOLFSPDM_CTX * W -> Prop) : ctx_wf c ->
  (forall pub c' w', ctx_wf c' -> pubkey_pinned c c' pub -> len pub <= pubKeySz -> Q pub (c', w')) ->
  (forall rc c' w', rc < 0 -> ctx_wf c' -> E rc (c', w')) ->
  wp (wolfSPDM_TCG_GetPubKey pubKeySz) Q E (c, w).
Proof.
  intros Hwf HQ HE. unfold wolfSPDM_TCG_GetPubKey. do 2 io_step. io_step.
  apply (wp_mono _ (fun _ s => ctx_wf s.1 /\ pin s.1 = pin c /\
    (c.(state) <> WOLFSPDM_STATE_INIT -> s.1 = c)) _ (fun rc s => rc < 0 /\ ctx_wf s.1)).
  { io_step; [|done]. io_step. io_step. apply TranscriptReset_wp; [done|]. intros Hwf1.
    assert (pin (tr_reset c) = pin c) as Hp1 by (by destruct c).
    revert Hwf1 Hp1. generalize (tr_reset c). intros c1 Hwf1 Hp1.
    apply ExchangeMsg_wp; [apply _|done|done|done| |done].
    intros c2 w2 Hwf2 [Hp2 _]%version_pin. split_and!; [done|cbn [fst] in *; congruence|lia]. }
  2: { intros rc [c1 w1] [? ?]. by apply HE. }
  intros _ [c1 w1] (Hwf1 & Hp1 & Hsame). cbn [fst] in *.
  io_step. apply VendorCmdClear_wp; [done|done|done|done| |intros; by apply HE].
  intros data c2 w2 Hwf2 Hs2 Hb _. cbv beta iota. pose proof (pin_of_view _ _ (proj1 Hs2)) as Hp2.
  io_step. io_step; [by apply HE|]. io_step. io_step.
  apply CheckPubKey_wp; [done| |intros; by apply HE]. intros Hk.
  io_step. io_step; [by apply HE|]. io_step. apply HQ; [done| |lia].
  split_and!; [done|congruence| |].
  - intros Hh. assert (pin c2 = pin c) as Hp by congruence.
    apply (key_matches_pin _ c2); [done|]. destruct Hk as [Hk|[_ Hk]]; [|done].
    unfold pin in Hp. injection Hp as _ _ Hp _. congruence.
  - intros Hst. by rewrite <- (Hsame Hst).
Qed.
(** ** Lemmas: the connection flow *)

(** One recorded exchange whose response is checked before it is recorded:
    the shape of GET_CAPABILITIES and NEGOTIATE_ALGORITHMS. *)
Lemma checked_exchange_wp req cap (chk : bytes -> M WOLFSPDM_CTX unit) (P : Z -> bytes -> Prop)
    c (w : W) (Q : unit -> WOLFSPDM_CTX * W -> Prop) (E : Z -> WOLFSPDM_CTX * W -> Prop) :
  ctx_wf c -> len req < 2 ^ 32 - WOLFSPDM_TCG_HEADER_SIZE ->
  (forall rsp c1 (Q1 : unit -> WOLFSPDM_CTX -> Prop) (E1 : Z -> WOLFSPDM_CTX -> Prop),
     is_bytes rsp -> (P c1.(spdmVersion) rsp -> Q1 tt c1) -> (forall rc, rc < 0 -> E1 rc c1) ->
     wp (chk rsp) Q1 E1 c1) ->
  (forall rsp c' w', ctx_wf c' -> session_view c' = session_view c -> P c.(spdmVersion) rsp ->
     tr c' = tr c ++ req ++ rsp -> Q tt (c', w')) ->
  (forall rc c' w', rc < 0 -> ctx_wf c' -> c'.(state) = WOLFSPDM_STATE_ERROR -> E rc (c', w')) ->
  wp (SPDM_CONNECT_STEP
        (on_ctx (wolfSPDM_TranscriptAdd req) ;;;
         let* rsp := wolfSPDM_SendReceive req cap in
         on_ctx (chk rsp) ;;;
         on_ctx (wolfSPDM_TranscriptAdd rsp))) Q E (c, w).
Proof.
  intros Hwf Hl Hchk HQ HE. apply CONNECT_STEP_wp; [done|]. io_step. io_step.
  apply TranscriptAdd_wp; [done| |intros; by split]. intros Hf1 Hwf1.
  pose proof (tr_tr_add _ _ Hwf Hf1) as Ht1. pose proof (view_tr_add c req) as Hv1.
  revert Hwf1 Ht1 Hv1. generalize (tr_add c req). intros c1 Hwf1 Ht1 Hv1.
  io_step. eapply wp_mono; [by apply SendReceive_xfer| |].
  2: { intros rc [c2 w2] (? & ? & _). by split. }
  intros rsp [c2 w2] (Hb & _ & Hwf2 & Hx). cbn [fst] in *.
  pose proof (view_xfer _ _ Hx) as Hv2. destruct (keeps_tr_xfer _ _ _ Hx) as [Hk Hk'].
  assert (tr c2 = tr c ++ req) as Ht2 by (rewrite <- Ht1; by apply tr_ext).
  io_step. io_step. apply Hchk; [done| |done]. intros HP. io_step.
  apply TranscriptAdd_wp; [done| |done]. intros Hf3 Hwf3.
  apply (HQ rsp); [done|by rewrite view_tr_add, Hv2| |].
  - rewrite Hv1 in Hv2. unfold session_view in Hv2.
    replace (spdmVersion c) with (spdmVersion c2) by (injection Hv2; congruence). done.
  - rewrite tr_tr_add by done. by rewrite Ht2, <- app_assoc.
Qed.

(** GET_CAPABILITIES and NEGOTIATE_ALGORITHMS as they stand in the transcript. *)
Definition tcg_negotiated (v : Z) (msgs : bytes) : Prop :=
  exists capsRsp, tcg_caps_ok v WOLFSPDM_TCG_CAPS_FLAGS_DEFAULT capsRsp /\
    msgs = (tcg_caps_req v WOLFSPDM_TCG_CAPS_FLAGS_DEFAULT ++ capsRsp) ++
           tcg_alg_req v ++ tcg_alg_rsp v.

(** A TCG handshake, step by step; [c0] is the context the connection was
    asked for. *)
Definition tcg_handshake c0 c' : Prop :=
  exists c1 c2 c3 c4 c5 c6 c7 msgs pub h,
    tr c1 = [] /\ pin c1 = pin c0 /\
    exchanged wolfSPDM_BuildGetVersion wolfSPDM_ParseVersion 8 c1 c2 /\
    (if c0.(mode) =? WOLFSPDM_MODE_NUVOTON then msgs = []
     else tcg_negotiated c2.(spdmVersion) msgs) /\
    tr c3 = tr c2 ++ msgs /\ pin c3 = pin c0 /\
    key_matches c0 pub /\ sha384 pub [] [] = Some h /\
    tr c4 = tr c3 ++ h /\ pin c4 = pin c0 /\
    key_exchanged c4 c5 /\ c5.(state) = WOLFSPDM_STATE_KEY_EX /\
    (if c5.(flags).(hasReqKeyPair) && (c5.(reqPubKeyTPMTLen) >? 0) then xfer true c5 c6
     else c6 = c5) /\
    finished c6 c7 /\ c' = c7 <| state := WOLFSPDM_STATE_CONNECTED |>.

Lemma GetCapabilities_wp f c (w : W) (Q : unit -> WOLFSPDM_CTX * W -> Prop)
    (E : Z -> WOLFSPDM_CTX * W -> Prop) : ctx_wf c ->
  (forall rsp c' w', ctx_wf c' -> session_view c' = session_view c ->
     tcg_caps_ok c.(spdmVersion) f rsp ->
     tr c' = tr c ++ tcg_caps_req c.(spdmVersion) f ++ rsp -> Q tt (c', w')) ->
  (forall rc c' w', rc < 0 -> ctx_wf c' -> c'.(state) = WOLFSPDM_STATE_ERROR -> E rc (c', w')) ->
  wp (wolfSPDM_TCG_GetCapabilities f) Q E (c, w).
Proof.
  intros Hwf HQ HE. unfold wolfSPDM_TCG_GetCapabilities. do 2 io_step.
  apply (checked_exchange_wp _ _ _ (fun v rsp => tcg_caps_ok v f rsp)); [done|done| |done|done].
  intros. by apply CheckCapabilities_wp.
Qed.

Lemma NegotiateTcg_wp c (w : W) (Q : unit -> WOLFSPDM_CTX * W -> Prop)
    (E : Z -> WOLFSPDM_CTX * W -> Prop) : ctx_wf c ->
  (forall c' w', ctx_wf c' -> session_view c' = session_view c ->
     tr c' = tr c ++ tcg_alg_req c.(spdmVersion) ++ tcg_alg_rsp c.(spdmVersion) -> Q tt (c', w')) ->
  (forall rc c' w', rc < 0 -> ctx_wf c' -> c'.(state) = WOLFSPDM_STATE_ERROR -> E rc (c', w')) ->
  wp wolfSPDM_TCG_NegotiateAlgorithms Q E (c, w).
Proof.
  intros Hwf HQ HE. unfold wolfSPDM_TCG_NegotiateAlgorithms. do 2 io_step.
  apply (checked_exchange_wp _ _ _ (fun v rsp => rsp = tcg_alg_rsp v)); [done|done| |by intros; subst; eauto|done].
  intros. by apply CheckAlgorithms_wp.
Qed.

(** A link that is not ready is refused before anything is sent. *)
Definition tcg_refused c : option Z :=
  if negb c.(flags).(initialized) then Some WOLFSPDM_E_BAD_STATE
  else if negb c.(flags).(hasRspPubKey) || negb (c.(rspPubKeyLen) =? WOLFSPDM_ECC_POINT_SIZE)
  then Some WOLFSPDM_E_BAD_STATE
  else if c.(ioCb) =? 0 then Some WOLFSPDM_E_IO_FAIL else None.

Lemma tcg_refused_err c rc : tcg_refused c = Some rc -> rc < 0.
Proof. unfold tcg_refused. repeat case_match; by intros [= <-]. Qed.

(** Steps 2 and 3, skipped for Nuvoton. *)
Lemma tcg_negotiate_wp (nuvoton : bool) c (w : W) (Q : unit -> WOLFSPDM_CTX * W -> Prop)
    (E : Z -> WOLFSPDM_CTX * W -> Prop) : ctx_wf c ->
  (forall msgs c' w', ctx_wf c' -> session_view c' = session_view c -> tr c' = tr c ++ msgs ->
     (if nuvoton then msgs = [] else tcg_negotiated c.(spdmVersion) msgs) -> Q tt (c', w')) ->
  (forall rc c' w', rc < 0 -> ctx_wf c' -> c'.(state) = WOLFSPDM_STATE_ERROR -> E rc (c', w')) ->
  wp (when (negb nuvoton)
        (SPDM_CONNECT_STEP (wolfSPDM_TCG_GetCapabilities WOLFSPDM_TCG_CAPS_FLAGS_DEFAULT) ;;;
         SPDM_CONNECT_STEP wolfSPDM_TCG_NegotiateAlgorithms)) Q E (c, w).
Proof.
  intros Hwf HQ HE. destruct nuvoton; cbn [negb when].
  { io_step. apply (HQ []); [done|done| |done]. by rewrite app_nil_r. }
  apply wp_bind, CONNECT_STEP_wp; [done|].
  apply GetCapabilities_wp; [done| |intros; by split]. intros rsp c1 w1 Hwf1 Hv1 Hok Ht1.
  apply CONNECT_STEP_wp; [done|].
  apply NegotiateTcg_wp; [done| |intros; by split]. intros c2 w2 Hwf2 Hv2 Ht2.
  assert (spdmVersion c1 = spdmVersion c) as Hver by (unfold session_view in Hv1; injection Hv1; congruence).
  rewrite Hver in Ht2.
  eapply (HQ (_ ++ _)); [done|congruence| |by exists rsp].
  by rewrite Ht2, Ht1, <- !app_assoc.
Qed.

(** GIVE_PUB runs under the handshake keys, when there is a host key. *)
Lemma give_pub_wp c (w : W) (Q : unit -> WOLFSPDM_CTX * W -> Prop)
    (E : Z -> WOLFSPDM_CTX * W -> Prop) : ctx_wf c ->
  (forall c' w', ctx_wf c' ->
     (if c.(flags).(hasReqKeyPair) && (c.(reqPubKeyTPMTLen) >? 0) then xfer true c c' else c' = c) ->
     Q tt (c', w')) ->
  (forall rc c' w', rc < 0 -> ctx_wf c' -> c'.(state) = WOLFSPDM_STATE_ERROR -> E rc (c', w')) ->
  wp (when (c.(flags).(hasReqKeyPair) && (c.(reqPubKeyTPMTLen) >? 0))
    (SPDM_CONNECT_STEP
      (let* pub := rd_sub c.(reqPubKeyTPMT) 0 c.(reqPubKeyTPMTLen) in
       wolfSPDM_TCG_GivePubKey pub))) Q E (c, w).
Proof.
  intros Hwf HQ HE. wf_facts Hwf. destruct (_ && _); [|cbn [when]; io_step; by apply HQ].
  cbn [when]. apply CONNECT_STEP_wp; [done|]. io_step. io_step.
  unfold wolfSPDM_TCG_GivePubKey. do 3 io_step. io_step; [done|].
  apply VendorCmdSecured_wp; [done|done|apply len_nonneg|done| |intros; by split].
  intros. by apply HQ.
Qed.

Lemma ConnectTCG_wp c (w : W) (Q : unit -> WOLFSPDM_CTX * W -> Prop)
    (E : Z -> WOLFSPDM_CTX * W -> Prop) : ctx_wf c ->
  (forall c' w', ctx_wf c' -> tcg_refused c = None -> tcg_handshake c c' -> Q tt (c', w')) ->
  (forall rc, tcg_refused c = Some rc -> E rc (c, w)) ->
  (forall rc c' w', rc < 0 -> ctx_wf c' -> tcg_refused c = None ->
     c'.(state) = WOLFSPDM_STATE_ERROR -> E rc (c', w')) ->
  wp wolfSPDM_ConnectTCG Q E (c, w).
Proof.
  intros Hwf HQ HE0 HE. unfold wolfSPDM_ConnectTCG. unfold tcg_refused in *. do 2 io_step.
  io_step. io_step; [apply HE0; by case_match|].
  destruct (negb (initialized (flags c))); [done|]. io_step.
  destruct (negb (hasRspPubKey (flags c)) || _) eqn:Hk; io_step; try done; [by apply HE0|].
  io_step. destruct (ioCb c =? 0); io_step; try done; [by apply HE0|].
  assert (forall rc c' w', rc < 0 -> ctx_wf c' -> c'.(state) = WOLFSPDM_STATE_ERROR -> E rc (c', w'))
    as HE' by auto. clear HE HE0.
  io_step. io_step.
  match goal with |- wp _ _ _ (?x, _) =>
    assert (ctx_wf x) as Hwf1 by wf_tac; assert (pin x = pin c) as Hp1 by (by destruct c);
    revert Hwf1 Hp1; generalize x end. intros c1 Hwf1 Hp1.
  io_step. io_step. apply TranscriptReset_wp; [done|]. intros Hwf2.
  assert (pin (tr_reset c1) = pin c) as Hp2 by (by destruct c1).
  pose proof (tr_reset_nil c1) as Ht2. revert Hwf2 Hp2 Ht2. generalize (tr_reset c1).
  clear c1 Hwf1 Hp1. intros c1 Hwf1 Hp1 Ht1.
  apply wp_bind, CONNECT_STEP_wp; [done|].
  apply ExchangeMsg_wp; [apply _|done|done|done| |intros; by split]. intros c2 w2 Hwf2 Hx2.
  destruct (version_pin _ _ _ Hx2) as [Hp2 Hst2].
  io_step. apply tcg_negotiate_wp; [done| |done]. intros msgs c3 w3 Hwf3 Hv3 Ht3 Hmsgs.
  pose proof (pin_of_view _ _ Hv3) as Hp3.
  assert (state c3 = WOLFSPDM_STATE_VERSION) as Hst3
    by (unfold session_view in Hv3; injection Hv3; congruence).
  apply wp_bind, CONNECT_STEP_wp; [done|].
  apply GetPubKey_wp; [done| |intros; by split].
  intros pub c4 w4 Hwf4 (Hb4 & Hp4 & Hk4 & Hs4) _. destruct Hs4 as [Hv4 [Htr4 Htl4]]; [by rewrite Hst3|].
  assert (tr c4 = tr c3) as Ht4 by (by apply tr_ext).
  assert (pin c3 = pin c) as Hpc3 by congruence.
  assert (key_matches c pub) as Hkey.
  { apply (key_matches_pin c c3); [done|]. apply Hk4. unfold pin in Hpc3. injection Hpc3 as _ _ -> _.
    by destruct (hasRspPubKey (flags c)). }
  io_step. io_step.
  match goal with |- wp _ _ _ (?x, _) =>
    assert (ctx_wf x) as Hwf5 by wf_tac; assert (pin x = pin c4) as Hp5 by (by destruct c4);
    assert (tr x = tr c4) as Ht5 by (by destruct c4); revert Hwf5 Hp5 Ht5; generalize x end.
  intros c5 Hwf5 Hp5 Ht5. apply wp_bind, CONNECT_STEP_wp; [done|].
  apply Sha384Hash_wp; [|by split]. intros h Hh Hhl Hhb. io_step. io_step.
  match goal with |- wp _ _ _ (?x, _) =>
    assert (ctx_wf x) as Hwf6 by wf_tac; assert (pin x = pin c5) as Hp6 by (by destruct c5);
    assert (tr x = tr c5) as Ht6 by (by destruct c5); revert Hwf6 Hp6 Ht6; generalize x end.
  intros c6 Hwf6 Hp6 Ht6. apply wp_bind, CONNECT_STEP_wp; [done|]. io_step.
  apply TranscriptAdd_wp; [done| |intros; by split]. intros Hf7 Hwf7.
  assert (pin (tr_add c6 h) = pin c6) as Hp7 by (by destruct c6).
  pose proof (tr_tr_add _ _ Hwf6 Hf7) as Ht7. revert Hwf7 Hp7 Ht7. generalize (tr_add c6 h).
  intros c7 Hwf7 Hp7 Ht7.
  apply wp_bind, CONNECT_STEP_wp; [done|].
  apply KeyExchange_wp; [done| |intros; by split]. intros c8 w8 Hwf8 Hx8%key_exchange_run_done.
  io_step. io_step. io_step. apply give_pub_wp; [done| |done]. intros c9 w9 Hwf9 Hx9.
  apply wp_bind, CONNECT_STEP_wp; [done|].
  apply Finish_wp; [done| |by intros|by intros]. intros c10 w10 Hwf10 Hst10 Hx10. io_step.
  assert (state c8 = WOLFSPDM_STATE_KEY_EX) as Hst8.
  { rewrite <- Hst10. destruct (_ && _) in Hx9; [|by subst].
    symmetry. by destruct (fin_frame_xfer _ _ _ Hx9). }
  apply HQ; [wf_tac|done|]. exists c1, c2, c3, c7, c8, c9, c10, msgs, pub, h.
  split_and!; try done; congruence.
Qed.
End VendorLemmas.

(** ** Properties *)

Lemma tcg_alg_rsp_code `{WolfCrypt} `{Config} c :
  wolfSPDM_TCG_CheckResponse (tcg_alg_rsp c.(spdmVersion)) WOLFSPDM_TCG_ALGORITHMS_RSP_SZ
    WOLFSPDM_TCG_ALGORITHMS_RSP c = Ok tt c.
Proof.
  cbv -[Z.eqb spdmVersion]. replace (99 =? 127) with false by done. cbv beta iota.
  by rewrite Z.eqb_refl.
Qed.

Lemma tcg_alg_rsp_accepted `{WolfCrypt} `{Config} c :
  wolfSPDM_TCG_CheckAlgorithms (tcg_alg_rsp c.(spdmVersion)) c = Ok tt c.
Proof.
  unfold wolfSPDM_TCG_CheckAlgorithms. unfold bind at 1. rewrite tcg_alg_rsp_code.
  generalize (spdmVersion c). intros v. by vm_compute.
Qed.

(** C24: one ALGORITHMS response is accepted.  In the TCG profile the responder
    has no choice: a response is accepted exactly when it is, byte for byte,
    the 52-byte message that selects P-384, SHA-384, AES-256-GCM and the SPDM
    key schedule at the negotiated version.  Every other message is refused
    with the context untouched. *)
Theorem tcg_algorithms_exact `{WolfCrypt} `{Config} rsp c :
  is_bytes rsp ->
  match wolfSPDM_TCG_CheckAlgorithms rsp c with
  | Ok _ c' => c' = c /\ rsp = tcg_alg_rsp c.(spdmVersion)
  | Err rc c' => rc < 0 /\ c' = c /\ rsp <> tcg_alg_rsp c.(spdmVersion)
  | Ub => False
  end.
Proof.
  intros Hb. pose proof (CheckAlgorithms_wp rsp c
    (fun _ c' => c' = c /\ rsp = tcg_alg_rsp c.(spdmVersion)) (fun rc c' => rc < 0 /\ c' = c) Hb
    (fun He => conj eq_refl He) (fun _ Hrc => conj Hrc eq_refl)) as Hw.
  unfold wp in Hw. pose proof (tcg_alg_rsp_accepted c) as Ha.
  destruct (wolfSPDM_TCG_CheckAlgorithms rsp c) as [|rc c'|] eqn:Hr; [done| |done].
  destruct Hw as [? ->]. split_and!; [done|done|]. intros ->. congruence.
Qed.

(** C8: a TCG session is connected only to the configured responder.
    [wolfSPDM_ConnectTCG] refuses, with the context untouched, a link without
    a pinned P-384 key or a callback.  It succeeds only when the responder's
    version, and outside Nuvoton's flow its capabilities and its one accepted
    algorithm selection, were recorded from an empty transcript; GET_PUBK
    returned an object whose public point is the pinned key; the hash of that
    object was bound into the transcript; the key exchange was accepted under
    the key that was pinned; and FINISH was answered.  On any later failure
    the session is in the error state. *)
Theorem tcg_session_authenticated `{WolfCrypt} `{Config} `{!CryptSizes} `{!RecordFits}
    `{!TranscriptFits} {W : Type} `{!Transport W} `{!TransportBytes} (c : WOLFSPDM_CTX) (w : W) :
  ctx_wf c ->
  match wolfSPDM_ConnectTCG (c, w) with
  | Ok _ (c', _) => ctx_wf c' /\ tcg_refused c = None /\ c'.(state) = WOLFSPDM_STATE_CONNECTED /\
      tcg_handshake c c'
  | Err rc (c', w') => rc < 0 /\ ctx_wf c' /\
      match tcg_refused c with
      | Some _ => (c', w') = (c, w)
      | None => c'.(state) = WOLFSPDM_STATE_ERROR
      end
  | Ub => False
  end.
Proof.
  intros Hwf. pose proof (ConnectTCG_wp c w
    (fun _ s => ctx_wf s.1 /\ tcg_refused c = None /\ s.1.(state) = WOLFSPDM_STATE_CONNECTED /\
       tcg_handshake c s.1)
    (fun rc s => rc < 0 /\ ctx_wf s.1 /\ match tcg_refused c with
       | Some _ => s = (c, w) | None => s.1.(state) = WOLFSPDM_STATE_ERROR end) Hwf) as Hw.
  unfold wp in Hw. destruct (wolfSPDM_ConnectTCG _) as [[] [c' w']|rc [c' w']|]; apply Hw; clear Hw.
  all: try (intros rc1 Hr; rewrite Hr; split_and!; [by eapply tcg_refused_err|done|done]).
  all: try (intros rc1 c1 w1 ? ? -> ?; by split_and!).
  all: intros c1 w1 ? ? Hh; split_and!; [done|done| |done];
    destruct Hh as (? & ? & ? & ? & ? & ? & c9 & ? & ? & ? & Hh); destruct_and? Hh; by subst.
Qed.
