(* ===== verification/Psk.v ===== *)
(** * The PSK session: src/spdm_psk.c *)
From Stdlib Require Import ZArith Lia.
From stdpp Require Import base tactics list numbers option.
From S2P Require Import Prelude Types Bytes Crypt Context Transcript Kdf CryptoOps Transport.
From S2P Require Import Secured Msg Chunk Cert Attest Session Standard Tcg.

Section PskDefs.
Context `{WolfCrypt} `{Config}.
Notation CM := (M WOLFSPDM_CTX).
Notation upd := (@modify WOLFSPDM_CTX).

(** [hint] is None for a NULL pointer. *)
Definition wolfSPDM_SetPSK (newPsk : bytes) (hint : option bytes) : CM unit :=
  check (len newPsk =? 0) WOLFSPDM_E_INVALID_ARG ;;;
  check (len newPsk >? WOLFSPDM_PSK_MAX_SIZE) WOLFSPDM_E_INVALID_ARG ;;;
  check (match hint with Some h => len h >? WOLFSPDM_PSK_HINT_MAX | None => false end)
    WOLFSPDM_E_INVALID_ARG ;;;
  let* a := wr (zeros WOLFSPDM_PSK_MAX_SIZE) 0 newPsk in
  upd (fun c => c <| psk := a |> <| pskSz := len newPsk |>) ;;;
  if match hint with Some h => len h >? 0 | None => false end then
    let* h := wr (zeros WOLFSPDM_PSK_HINT_MAX) 0 (opt_bytes hint) in
    upd (fun c => c <| pskHint := h |> <| pskHintSz := len (opt_bytes hint) |>)
  else upd (fun c => c <| pskHint := zeros WOLFSPDM_PSK_HINT_MAX |> <| pskHintSz := 0 |>).

Definition wolfSPDM_BuildPskExchange (bufSz : Z) : CM bytes :=
  SPDM_CHECK_BUILD_ARGS bufSz 48 ;;;
  let* ctx := @get WOLFSPDM_CTX in
  check (ctx.(pskSz) =? 0) WOLFSPDM_E_BAD_STATE ;;;
  let hdr := [ctx.(spdmVersion); SPDM_PSK_EXCHANGE; 0x00; 0x00] ++
             SPDM_Set16LE ctx.(reqSessionId) ++ SPDM_Set16LE (w16 ctx.(pskHintSz)) ++
             SPDM_Set16LE WOLFSPDM_RANDOM_SIZE ++ SPDM_Set16LE 0 in
  check ((ctx.(pskHintSz) >? 0) && (12 + ctx.(pskHintSz) >? bufSz)) WOLFSPDM_E_BUFFER_SMALL ;;;
  let* hint := rd_sub ctx.(pskHint) 0 ctx.(pskHintSz) in
  check (12 + ctx.(pskHintSz) + WOLFSPDM_RANDOM_SIZE >? bufSz) WOLFSPDM_E_BUFFER_SMALL ;;;
  let* rnd := wolfSPDM_GetRandom WOLFSPDM_RANDOM_SIZE in
  ret (hdr ++ hint ++ rnd).

Definition pskSalt : bytes := replicate 48 0xFF.

Definition wipe_psk (c : WOLFSPDM_CTX) : WOLFSPDM_CTX :=
  c <| psk := zeros WOLFSPDM_PSK_MAX_SIZE |> <| pskSz := 0 |>.

Definition wolfSPDM_DeriveHandshakeKeysPsk (th1Hash : bytes) : CM unit :=
  let* ctx := @get WOLFSPDM_CTX in
  check (ctx.(pskSz) =? 0) WOLFSPDM_E_BAD_STATE ;;;
  let* ikm := rd_sub ctx.(psk) 0 ctx.(pskSz) in
  on_err (let* hs := lift_opt WOLFSPDM_E_CRYPTO_FAIL (wc_HKDF_Extract pskSalt ikm) in
          upd (fun c => c <| handshakeSecret := hs |>) ;;;
          wolfSPDM_DeriveFromHandshakeSecret th1Hash) (fun _ => upd wipe_psk) ;;;
  upd wipe_psk.

Definition wolfSPDM_ParsePskExchangeRsp (buf : bytes) : CM unit :=
  SPDM_CHECK_PARSE_OR_ERROR_ARGS buf 59 ;;;
  SPDM_CHECK_RESPONSE buf SPDM_PSK_EXCHANGE_RSP WOLFSPDM_E_KEY_EXCHANGE ;;;
  let* rspContextLen := rd16le buf 8 in
  let* opaqueLen := rd16le buf 10 in
  let verifyOffset := 12 + rspContextLen + opaqueLen in
  check (len buf <? verifyOffset + WOLFSPDM_HASH_SIZE) WOLFSPDM_E_BUFFER_SMALL ;;;
  let* rspVerifyData := rd_sub buf verifyOffset WOLFSPDM_HASH_SIZE in
  let* partial := rd_sub buf 0 verifyOffset in
  wolfSPDM_TranscriptAdd partial ;;;
  let* th1Hash := wolfSPDM_TranscriptHash in
  upd (fun c => c <| th1 := th1Hash |>) ;;;
  wolfSPDM_DeriveHandshakeKeysPsk th1Hash ;;;
  let* ctx := @get WOLFSPDM_CTX in
  let* expectedHmac := wolfSPDM_ComputeVerifyData ctx.(rspFinishedKey) th1Hash in
  check (negb (wolfSPDM_ConstCompare expectedHmac rspVerifyData WOLFSPDM_HASH_SIZE =? 0))
    WOLFSPDM_E_BAD_HMAC ;;;
  wolfSPDM_TranscriptAdd rspVerifyData ;;;
  let* id := rd16le buf 4 in
  upd (fun c => c <| rspSessionId := id |>
    <| sessionId := Z.lor c.(reqSessionId) (w32 (Z.shiftl id 16)) |>
    <| state := WOLFSPDM_STATE_KEY_EX |>).

Definition wolfSPDM_BuildPskFinish (bufSz : Z) : CM bytes :=
  check (bufSz <? 4 + WOLFSPDM_HASH_SIZE) WOLFSPDM_E_BUFFER_SMALL ;;;
  let* ctx := @get WOLFSPDM_CTX in
  let hdr := [ctx.(spdmVersion); SPDM_PSK_FINISH; 0x00; 0x00] in
  wolfSPDM_TranscriptAdd hdr ;;;
  let* th2Hash := wolfSPDM_TranscriptHash in
  upd (fun c => c <| th2 := th2Hash |>) ;;;
  let* verifyData := wolfSPDM_ComputeVerifyData ctx.(reqFinishedKey) th2Hash in
  wolfSPDM_TranscriptAdd verifyData ;;;
  ret (hdr ++ verifyData).

Definition wolfSPDM_ParsePskFinishRsp (buf : bytes) : CM unit :=
  SPDM_CHECK_PARSE_ARGS buf 4 ;;;
  let* code := rd buf 1 in
  if code =? SPDM_PSK_FINISH_RSP then
    let* msg := rd_sub buf 0 4 in
    wolfSPDM_TranscriptAdd msg ;;;
    upd (fun c => c <| state := WOLFSPDM_STATE_FINISH |>)
  else if code =? SPDM_ERROR then fail WOLFSPDM_E_PEER_ERROR
  else fail WOLFSPDM_E_BAD_STATE.
End PskDefs.

Section PskIO.
Context `{WolfCrypt} `{Config} {W : Type} `{!Transport W}.
Notation IOM := (M (WOLFSPDM_CTX * W)).

(** Any failure after the checks puts the session in the error state. *)
Definition wolfSPDM_ConnectPsk : IOM unit :=
  let* ctx := get_ctx in
  check (negb ctx.(flags).(initialized)) WOLFSPDM_E_BAD_STATE ;;;
  check (ctx.(pskSz) =? 0) WOLFSPDM_E_BAD_STATE ;;;
  check (ctx.(ioCb) =? 0) WOLFSPDM_E_IO_FAIL ;;;
  upd_ctx (fun c => c <| state := WOLFSPDM_STATE_INIT |>) ;;;
  on_ctx wolfSPDM_TranscriptReset ;;;
  let bufSize := WOLFSPDM_MAX_MSG_SIZE + WOLFSPDM_AEAD_OVERHEAD in
  SPDM_CONNECT_STEP
    (wolfSPDM_GetVersion ;;;
     let* txBuf := on_ctx (wolfSPDM_BuildPskExchange 128) in
     on_ctx (wolfSPDM_TranscriptAdd txBuf) ;;;
     let* rxBuf := wolfSPDM_SendReceive txBuf bufSize in
     on_ctx (wolfSPDM_ParsePskExchangeRsp rxBuf) ;;;
     let* finBuf := on_ctx (wolfSPDM_BuildPskFinish 64) in
     let* encBuf := on_ctx (wolfSPDM_EncryptInternal finBuf bufSize) in
     let* rxBuf := wolfSPDM_SendReceive encBuf bufSize in
     let* decBuf := on_ctx (wolfSPDM_DecryptInternal rxBuf 64) in
     on_ctx (wolfSPDM_ParsePskFinishRsp decBuf) ;;;
     on_ctx wolfSPDM_DeriveAppDataKeys) ;;;
  upd_ctx (fun c => c <| state := WOLFSPDM_STATE_CONNECTED |>).
End PskIO.

(** ** Lemmas *)

Section PskLemmas.
Context `{WolfCrypt} `{Config} `{!CryptSizes} `{!RecordFits} `{!TranscriptFits}
  {W : Type} `{!Transport W} `{!TransportBytes}.
Implicit Types c : WOLFSPDM_CTX.

Lemma wipe_psk_wf c : ctx_wf c -> ctx_wf (wipe_psk c).
Proof. intros. unfold wipe_psk. wf_tac. Qed.

(** The pre-shared key and what a PSK session is started with. *)
Definition psk_view c := (sub_bytes c.(psk) 0 c.(pskSz), c.(pskSz), c.(reqSessionId), c.(mode)).

(** The parts of the context PSK_EXCHANGE needs. *)
Lemma psk_view_xfer b c c' : xfer b c c' -> psk_view c' = psk_view c.
Proof. intros (f & r & q & p & e & h & l & -> & _). by destruct c. Qed.

Lemma psk_view_rng c c' : rng_step c c' -> psk_view c' = psk_view c.
Proof. intros [->|[r ->]]; [done|by destruct c]. Qed.

Lemma version_psk n c c' : exchanged wolfSPDM_BuildGetVersion wolfSPDM_ParseVersion n c c' ->
  psk_view c' = psk_view c /\ c'.(state) = WOLFSPDM_STATE_VERSION.
Proof. apply version_keeps; [apply psk_view_xfer|by intros []|by intros []]. Qed.

(** The key material a PSK gives over TH1. *)
Definition psk_secret c : option bytes :=
  wc_HKDF_Extract pskSalt (sub_bytes c.(psk) 0 c.(pskSz)).

(** The pre-shared key is gone once it has been used, whatever came of it. *)
Lemma DeriveHandshakeKeysPsk_wp th c (Q : unit -> WOLFSPDM_CTX -> Prop)
    (E : Z -> WOLFSPDM_CTX -> Prop) : ctx_wf c -> len th = WOLFSPDM_HASH_SIZE ->
  (forall hs k, c.(pskSz) <> 0 -> psk_secret c = Some hs -> hs_schedule c.(spdmVersion) hs th = Some k ->
     ctx_wf (wipe_psk (install_hs k (c <| handshakeSecret := hs |>))) ->
     Q tt (wipe_psk (install_hs k (c <| handshakeSecret := hs |>)))) ->
  (c.(pskSz) = 0 -> E WOLFSPDM_E_BAD_STATE c) ->
  (forall c1, ctx_wf (wipe_psk c1) ->
     c1 = c \/ (exists hs, c1 = wipe_handshake_keys (c <| handshakeSecret := hs |>)) ->
     E WOLFSPDM_E_CRYPTO_FAIL (wipe_psk c1)) ->
  wp (wolfSPDM_DeriveHandshakeKeysPsk th) Q E c.
Proof.
  intros Hwf Hth HQ HE0 HE. wf_facts Hwf. unfold wolfSPDM_DeriveHandshakeKeysPsk.
  do 2 wp_step. cbv beta. wp_step. wp_step; [apply HE0; lia|]. wp_step. wp_step.
  wp_step. wp_step. wp_step.
  wp_step; [|wp_step; cbv beta; apply HE; [by apply wipe_psk_wf|by left]].
  match goal with Hx : wc_HKDF_Extract _ _ = Some ?h |- _ =>
    pose proof (extract_size _ _ _ Hx) as [Hl _]; rename h into hs; rename Hx into Hhs end.
  cbv beta. do 2 (wp_step; cbv beta).
  assert (ctx_wf (c <| handshakeSecret := hs |>)) as Hwf1 by wf_tac.
  apply DeriveFromHandshakeSecret_wp; [done|done| |].
  - intros k Hk Hwf2. wp_step. apply HQ; [lia|done|done|]. by apply wipe_psk_wf.
  - intros Hwf2. wp_step. apply HE; [by apply wipe_psk_wf|right; by exists hs].
Qed.

Lemma view_wipe_psk c : session_view (wipe_psk c) = session_view c.
Proof. by destruct c. Qed.
Lemma tr_wipe_psk c : tr (wipe_psk c) = tr c.
Proof. by destruct c. Qed.
Hint Rewrite view_tr_add view_install_hs view_wipe_hs view_wipe_psk view_hs view_th1
  tr_install_hs tr_hs tr_th1 tr_wipe_psk : view.
Ltac views := autorewrite with view; try done.

(** What the responder has proved when its PSK_EXCHANGE_RSP is accepted:
    verify data over TH1 under the key schedule of the pre-shared key. *)
Definition psk_accepted c (buf : bytes) c' : Prop :=
  exists hs k, let off := 12 + SPDM_Get16LE (sub_bytes buf 8 2) + SPDM_Get16LE (sub_bytes buf 10 2) in
    let partial := sub_bytes buf 0 off in
    let vd := sub_bytes buf off WOLFSPDM_HASH_SIZE in
    at_ buf 1 = SPDM_PSK_EXCHANGE_RSP /\ off + WOLFSPDM_HASH_SIZE <= len buf /\
    c.(pskSz) <> 0 /\ psk_secret c = Some hs /\
    sha384 (tr c ++ partial) [] [] = Some c'.(th1) /\
    hs_schedule c.(spdmVersion) hs c'.(th1) = Some k /\
    verify_data (k_rsp_fin k) c'.(th1) = Some vd /\
    c'.(handshakeSecret) = hs /\ c'.(reqFinishedKey) = k_req_fin k /\
    (c'.(reqDataKey), c'.(reqDataIv), (c'.(rspDataKey), c'.(rspDataIv))) = (k_req k, k_rsp k) /\
    tr c' = tr c ++ partial ++ vd /\
    c'.(psk) = zeros WOLFSPDM_PSK_MAX_SIZE /\ c'.(pskSz) = 0 /\
    c'.(state) = WOLFSPDM_STATE_KEY_EX /\
    c'.(rspSessionId) = SPDM_Get16LE (sub_bytes buf 4 2) /\
    c'.(sessionId) = c.(reqSessionId) + c'.(rspSessionId) * 2 ^ 16 /\
    (c'.(spdmVersion), c'.(mode), c'.(reqSessionId)) =
      (c.(spdmVersion), c.(mode), c.(reqSessionId)).

Definition psk_commit (i : Z) c : WOLFSPDM_CTX :=
  c <| rspSessionId := i |> <| sessionId := Z.lor c.(reqSessionId) (w32 (Z.shiftl i 16)) |>
    <| state := WOLFSPDM_STATE_KEY_EX |>.

Lemma psk_commit_wf i c : 0 <= i < 2 ^ 16 -> ctx_wf c -> ctx_wf (psk_commit i c).
Proof.
  intros Hi Hwf. unfold psk_commit. wf_facts Hwf.
  destruct (session_id_range (reqSessionId c) i) as [? _]; [lia|done|]. wf_tac.
Qed.

Lemma tr_psk_commit i c : tr (psk_commit i c) = tr c.
Proof. by destruct c. Qed.

(** The context after the key derivation. *)
Definition psk_derived (hs : bytes) (k : hs_keys) c : WOLFSPDM_CTX :=
  wipe_psk (install_hs k (c <| handshakeSecret := hs |>)).

Lemma psk_derived_fields hs k c : let c' := psk_derived hs k c in
  c'.(th1) = c.(th1) /\ c'.(handshakeSecret) = hs /\ c'.(reqFinishedKey) = k_req_fin k /\
  c'.(rspFinishedKey) = k_rsp_fin k /\
  (c'.(reqDataKey), c'.(reqDataIv), (c'.(rspDataKey), c'.(rspDataIv))) = (k_req k, k_rsp k) /\
  (c'.(psk), c'.(pskSz)) = (zeros WOLFSPDM_PSK_MAX_SIZE, 0) /\
  c'.(reqSessionId) = c.(reqSessionId).
Proof. destruct c, k as [? ? ? ? [? ?] [? ?]]. by split_and!. Qed.

Lemma ParsePskExchangeRsp_wp buf c (Q : unit -> WOLFSPDM_CTX -> Prop)
    (E : Z -> WOLFSPDM_CTX -> Prop) : ctx_wf c -> is_bytes buf ->
  (forall c', ctx_wf c' -> psk_accepted c buf c' -> Q tt c') ->
  (forall rc c', rc < 0 -> ctx_wf c' -> session_view c' = session_view c -> E rc c') ->
  wp (wolfSPDM_ParsePskExchangeRsp buf) Q E c.
Proof.
  intros Hwf Hb HQ HE. unfold wolfSPDM_ParsePskExchangeRsp.
  wp_step. apply CHECK_PARSE_OR_ERROR_wp; [|by intros; apply HE].
  intros Hl Hor. wp_step. apply CHECK_RESPONSE_wp; [lia| | |].
  2: { intros e _. apply HE; [done|by eapply err_step_wf; [right; eauto|]|done]. }
  2: { intros. by apply HE. }
  intros Hcode. assert (59 <= len buf) by (destruct Hor as [|[_ Hr]]; [done|by rewrite Hcode in Hr]).
  wp_step. apply wp_rd16le; [lia|lia|]. intros n1 Hn1 Hr1.
  wp_step. apply wp_rd16le; [lia|lia|]. intros n2 Hn2 Hr2. cbv zeta.
  wp_step; wp_step; [by apply HE|]. do 2 (wp_step; wp_step).
  set (off := 12 + n1 + n2) in *.
  wp_step. apply TranscriptAdd_wp; [done| |intros; by apply HE]. intros Hf1 Hwf1.
  pose proof (tr_tr_add _ _ Hwf Hf1) as Ht1.
  wp_step. apply TranscriptHash_wp; [done| |by apply HE]. rewrite Ht1. intros th Hth Hthl _.
  do 2 wp_step. cbv beta. set (c1 := _ <| th1 := th |>).
  assert (session_view c1 = session_view c /\ tr c1 = tr (tr_add c (sub_bytes buf 0 off)) /\
    ctx_wf c1 /\ psk_secret c1 = psk_secret c /\ pskSz c1 = pskSz c /\ th1 c1 = th)
    as (Hv1 & Ht1' & Hwf1' & Hp1 & Hz1 & Hth1)
    by (split_and!; [by unfold c1; views..|wf_tac|by destruct c|done|done]).
  clearbody c1. rewrite Ht1 in Ht1'.
  wp_step. apply DeriveHandshakeKeysPsk_wp; [done|done| |by intros; apply HE|].
  2: { intros c2 Hwf2 [-> | [hs ->]]; apply HE; views. }
  rewrite Hp1, Hz1. intros hs k Hsz Hhs Hk Hwf2.
  assert (spdmVersion c1 = spdmVersion c /\ reqSessionId c1 = reqSessionId c /\ mode c1 = mode c)
    as (Hver & Hrid & Hmode) by (unfold session_view in Hv1; injection Hv1; intros; by split_and!).
  rewrite Hver in Hk. pose proof (psk_derived_fields hs k c1) as Hf2. rewrite Hth1 in Hf2.
  assert (session_view (psk_derived hs k c1) = session_view c /\ tr (psk_derived hs k c1) = tr c1)
    as [Hv2 Ht2] by (unfold psk_derived; split; by views).
  fold (psk_derived hs k c1) in Hwf2 |- *. revert Hwf2 Hf2 Hv2 Ht2. generalize (psk_derived hs k c1).
  intros c2 Hwf2 (Hth2 & Hs2 & Hfin2 & Hrf2 & Hd2 & Hz2 & Hi2) Hv2 Ht2.
  wf_facts Hwf2. do 2 (wp_step; cbv beta).
  wp_step. apply ComputeVerifyData_wp; [lia|lia| |by apply HE]. intros vd Hvd Hvl Hvb.
  wp_step. wp_step; [by apply HE|].
  assert (vd = sub_bytes buf off WOLFSPDM_HASH_SIZE) as ->.
  { assert (len (sub_bytes buf off WOLFSPDM_HASH_SIZE) = WOLFSPDM_HASH_SIZE)
      by (apply len_sub_bytes; unfold WOLFSPDM_HASH_SIZE in *; lia).
    assert (wolfSPDM_ConstCompare vd (sub_bytes buf off WOLFSPDM_HASH_SIZE) WOLFSPDM_HASH_SIZE = 0)
      as Hcc by lia.
    apply wolfSPDM_ConstCompare_eq in Hcc; [|done|by apply is_bytes_sub|done|lia|lia].
    by rewrite !sub_bytes_all in Hcc by done. }
  wp_step. apply TranscriptAdd_wp; [done| |by intros; apply HE].
  intros Hf3 Hwf3. pose proof (tr_tr_add _ _ Hwf2 Hf3) as Ht3.
  wp_step. apply wp_rd16le; [lia|lia|]. intros id -> Hid. wp_step.
  match goal with |- Q tt _ =>
    apply (HQ (psk_commit (SPDM_Get16LE (sub_bytes buf 4 2)) (tr_add c2 _))) end;
    [by apply psk_commit_wf|]. exists hs, k. cbv zeta. rewrite <- Hn1, <- Hn2. fold off.
  destruct (session_id_range (reqSessionId c) (SPDM_Get16LE (sub_bytes buf 4 2))) as [_ Hsid];
    [wf_facts Hwf; lia|done|].
  rewrite Hrf2 in Hvd. rewrite Ht2, Ht1' in Ht3. rewrite <- app_assoc in Ht3.
  rewrite tr_psk_commit, Ht3. rewrite Hrid in Hi2. unfold psk_commit, tr_add; ctx_simpl.
  rewrite Hth2, Hs2, Hfin2, Hd2, Hi2, Hsid. injection Hz2 as -> ->.
  unfold session_view in Hv2. injection Hv2 as _ _ _ _ _ _ _ _ -> -> _ _ _ _ _.
  split_and!; try done; lia.
Qed.

(** PSK_EXCHANGE as sent. *)
Definition psk_request c (rnd : bytes) : bytes :=
  ([c.(spdmVersion); SPDM_PSK_EXCHANGE; 0x00; 0x00] ++ SPDM_Set16LE c.(reqSessionId) ++
   SPDM_Set16LE (w16 c.(pskHintSz)) ++ SPDM_Set16LE WOLFSPDM_RANDOM_SIZE ++ SPDM_Set16LE 0) ++
  sub_bytes c.(pskHint) 0 c.(pskHintSz) ++ rnd.

Lemma BuildPskExchange_wp n c (Q : bytes -> WOLFSPDM_CTX -> Prop) (E : Z -> WOLFSPDM_CTX -> Prop) :
  ctx_wf c ->
  (forall rnd r, len rnd = WOLFSPDM_RANDOM_SIZE -> len (psk_request c rnd) <= n ->
     ctx_wf (set_rng r c) -> Q (psk_request c rnd) (set_rng r c)) ->
  (forall rc c', rc < 0 -> ctx_wf c' -> E rc c') ->
  wp (wolfSPDM_BuildPskExchange n) Q E c.
Proof.
  intros Hwf HQ HE. wf_facts Hwf. unfold wolfSPDM_BuildPskExchange, SPDM_CHECK_BUILD_ARGS.
  wp_step. wp_step; [by apply HE|]. do 2 (wp_step; cbv beta). wp_step. wp_step; [by apply HE|].
  cbv zeta. wp_step. wp_step; [by apply HE|]. wp_step. wp_step. wp_step. wp_step; [by apply HE|].
  wp_step. apply GetRandom_wp; [done|done| |by apply HE|by intros; apply HE].
  intros r rnd Hl Hb Hwf1. wp_step. apply HQ; [done| |done].
  unfold psk_request. rewrite !len_app, Hl, len_sub_bytes by lia. autorewrite with blen.
  change (len (SPDM_Set16LE _)) with 2. unfold WOLFSPDM_RANDOM_SIZE in *. lia.
Qed.

(** PSK_FINISH as sent: the verify data is keyed by the requester's finished
    key over the transcript with the message header. *)
Definition psk_finish_sent c (m : bytes) c' : Prop :=
  exists vd, let hdr := [c.(spdmVersion); SPDM_PSK_FINISH; 0x00; 0x00] in
    m = hdr ++ vd /\ tr c' = tr c ++ m /\ sha384 (tr c ++ hdr) [] [] = Some c'.(th2) /\
    verify_data c.(reqFinishedKey) c'.(th2) = Some vd.

Lemma BuildPskFinish_wp n c (Q : bytes -> WOLFSPDM_CTX -> Prop) (E : Z -> WOLFSPDM_CTX -> Prop) :
  ctx_wf c ->
  (forall m c', len m <= n -> ctx_wf c' -> fin_core c' = fin_core c -> psk_finish_sent c m c' ->
     Q m c') ->
  (forall rc c', rc < 0 -> ctx_wf c' -> E rc c') ->
  wp (wolfSPDM_BuildPskFinish n) Q E c.
Proof.
  intros Hwf HQ HE. unfold wolfSPDM_BuildPskFinish. wp_step. wp_step; [by apply HE|].
  do 2 (wp_step; cbv beta). cbv zeta. set (hdr := [spdmVersion c; _; _; _]).
  wp_step. apply TranscriptAdd_wp; [done| |by intros; apply HE]. intros Hf1 Hwf1.
  pose proof (tr_tr_add _ _ Hwf Hf1) as Ht1.
  wp_step. apply TranscriptHash_wp; [done| |by apply HE]. rewrite Ht1. intros th Hth Hthl _.
  do 2 (wp_step; cbv beta).
  assert (ctx_wf ((tr_add c hdr) <| th2 := th |>)) as Hwf2 by wf_tac.
  assert (tr ((tr_add c hdr) <| th2 := th |>) = tr c ++ hdr) as Ht2 by (by rewrite tr_th2).
  assert (fin_core ((tr_add c hdr) <| th2 := th |>) = fin_core c /\
    th2 ((tr_add c hdr) <| th2 := th |>) = th) as [Hc2 Hth2] by (split; by destruct c).
  revert Hwf2 Ht2 Hc2 Hth2. generalize ((tr_add c hdr) <| th2 := th |>). intros c2 Hwf2 Ht2 Hc2 Hth2.
  wf_facts Hwf. wp_step. apply ComputeVerifyData_wp; [lia|lia| |by apply HE].
  intros vd Hvd Hvl _. wp_step. apply TranscriptAdd_wp; [done| |by intros; apply HE].
  intros Hf3 Hwf3. pose proof (tr_tr_add _ _ Hwf2 Hf3) as Ht3. wp_step.
  apply HQ; [|done|by rewrite fin_tr_add|].
  - rewrite len_app, Hvl. change (len hdr) with 4. unfold WOLFSPDM_HASH_SIZE in *. lia.
  - assert (th2 (tr_add c2 vd) = th) as Hth3 by (by rewrite <- Hth2; destruct c2).
    exists vd. cbv zeta. rewrite Ht3, Ht2, Hth3, <- app_assoc. by split_and!.
Qed.

Lemma ParsePskFinishRsp_wp buf c (Q : unit -> WOLFSPDM_CTX -> Prop)
    (E : Z -> WOLFSPDM_CTX -> Prop) : ctx_wf c ->
  (forall rsp, rsp = sub_bytes buf 0 4 -> at_ rsp 1 = SPDM_PSK_FINISH_RSP ->
     tr (tr_add c rsp) = tr c ++ rsp ->
     ctx_wf ((tr_add c rsp) <| state := WOLFSPDM_STATE_FINISH |>) ->
     Q tt ((tr_add c rsp) <| state := WOLFSPDM_STATE_FINISH |>)) ->
  (forall rc, rc < 0 -> E rc c) ->
  wp (wolfSPDM_ParsePskFinishRsp buf) Q E c.
Proof.
  intros Hwf HQ HE. unfold wolfSPDM_ParsePskFinishRsp, SPDM_CHECK_PARSE_ARGS.
  wp_step; wp_step; [by apply HE|]. wp_step. apply wp_rd; [lia|]. intros code ->.
  change (nth (Z.to_nat 1) buf 0) with (at_ buf 1).
  wp_step; [|wp_step; wp_step; by apply HE]. wp_step. wp_step. wp_step.
  apply TranscriptAdd_wp; [done| |by intros; apply HE]. intros Hf1 Hwf1. wp_step.
  apply HQ; [done|rewrite at_sub_0; lia|by apply tr_tr_add|]. wf_tac.
Qed.

(** One secured message each way, written out in the caller. *)
Lemma inline_xfer_wp {A} m cap (k : bytes -> M (WOLFSPDM_CTX * W) A) Q E s :
  wp (wolfSPDM_SecuredXfer m cap) (fun r s => wp (k r) Q E s) E s ->
  wp (let* enc := on_ctx (wolfSPDM_EncryptInternal m SECURED_BUF_SZ) in
      let* rx := wolfSPDM_SendReceive enc SECURED_BUF_SZ in
      let* dec := on_ctx (wolfSPDM_DecryptInternal rx cap) in k dec) Q E s.
Proof.
  unfold wp, wolfSPDM_SecuredXfer, bind.
  destruct (on_ctx _ s) as [enc s1|rc s1|]; [|done|done].
  destruct (wolfSPDM_SendReceive _ _ s1) as [rx s2|rc s2|]; [|done|done].
  by destruct (on_ctx _ s2).
Qed.

(** What the end of a PSK session keeps. *)
Definition psk_end c :=
  (c.(sessionId), c.(spdmVersion), c.(mode), c.(handshakeSecret), (c.(psk), c.(pskSz))).

Lemma psk_end_core c c' : fin_core c' = fin_core c -> psk_end c' = psk_end c.
Proof.
  intros Hc. assert (forall x, psk_end x = psk_end (fin_core x)) as Hp by (by intros []).
  by rewrite Hp, Hc, <- Hp.
Qed.

Lemma psk_end_xfer b c c' : xfer b c c' -> psk_end c' = psk_end c.
Proof. intros (f & r & q & p & e & h & l & -> & _). by destruct c. Qed.

(** PSK_FINISH and its answer, and the application keys they install. *)
Definition psk_finished c c' : Prop :=
  exists m c1 rsp th k, psk_finish_sent c m c1 /\ at_ rsp 1 = SPDM_PSK_FINISH_RSP /\
    tr c' = tr c1 ++ rsp /\ sha384 (tr c') [] [] = Some th /\
    app_schedule c.(spdmVersion) c.(handshakeSecret) th = Some k /\
    (c'.(reqDataKey), c'.(reqDataIv), (c'.(rspDataKey), c'.(rspDataIv))) = (k_areq k, k_arsp k) /\
    (c'.(reqSeqNum), c'.(rspSeqNum)) = (0, 0) /\ psk_end c' = psk_end c.

Lemma psk_finish_wp c (w : W) (Q : unit -> WOLFSPDM_CTX * W -> Prop)
    (E : Z -> WOLFSPDM_CTX * W -> Prop) : ctx_wf c ->
  (forall c' w', ctx_wf c' -> psk_finished c c' -> Q tt (c', w')) ->
  (forall rc c' w', rc < 0 -> ctx_wf c' -> E rc (c', w')) ->
  wp (let* finBuf := on_ctx (wolfSPDM_BuildPskFinish 64) in
      let* encBuf := on_ctx (wolfSPDM_EncryptInternal finBuf SECURED_BUF_SZ) in
      let* rxBuf := wolfSPDM_SendReceive encBuf SECURED_BUF_SZ in
      let* decBuf := on_ctx (wolfSPDM_DecryptInternal rxBuf 64) in
      on_ctx (wolfSPDM_ParsePskFinishRsp decBuf) ;;;
      on_ctx wolfSPDM_DeriveAppDataKeys) Q E (c, w).
Proof.
  intros Hwf HQ HE. io_step. io_step. apply BuildPskFinish_wp; [done| |by intros; apply HE].
  intros m c1 Hl Hwf1 Hc1%psk_end_core Hsent. apply inline_xfer_wp.
  eapply wp_mono; [by apply SecuredXfer_wp| |].
  2: { intros rc [c2 w2] (? & ? & _). by apply HE. }
  intros dec [c2 w2] (_ & _ & Hwf2 & Hx2). cbn [fst] in *.
  pose proof (psk_end_xfer _ _ _ Hx2) as He2. destruct (keeps_tr_xfer _ _ _ Hx2) as [Hk Hk'].
  pose proof (tr_ext _ _ Hk Hk') as Ht2.
  io_step. io_step. apply ParsePskFinishRsp_wp; [done| |by intros; apply HE].
  intros rsp _ Hcode Ht3 Hwf3.
  match type of Hwf3 with ctx_wf ?x => assert (tr x = tr c2 ++ rsp) as Ht3'
    by (rewrite <- Ht3; by destruct c2); assert (psk_end x = psk_end c2) as He3 by (by destruct c2);
    revert Hwf3 Ht3' He3; generalize x end.
  clear Ht3. intros c3 Hwf3 Ht3 He3. assert (psk_end c3 = psk_end c) as He by congruence.
  io_step. apply DeriveAppDataKeys_wp; [done| |by intros; apply HE].
  intros th k Hth Hk4 Hwf4. apply HQ; [done|]. exists m, c1, rsp, th, k.
  assert (tr (install_app k c3) = tr c3) as -> by (by destruct c3).
  assert (psk_end (install_app k c3) = psk_end c3) as -> by (by destruct c3).
  unfold psk_end in He. injection He as Hi Hv Hm Hs Hp Hz. rewrite Hv, Hs in Hk4.
  split_and!; try done; [by rewrite Ht3, Ht2| |unfold psk_end; congruence].
  by destruct k as [? ? [? ?] [? ?]], c3.
Qed.

(** A PSK handshake, step by step; [c0] is the context it was asked for. *)
Definition psk_handshake c0 c' : Prop :=
  exists c1 c2 rnd c3 rx c4 c5,
    tr c1 = [] /\ exchanged wolfSPDM_BuildGetVersion wolfSPDM_ParseVersion 8 c1 c2 /\
    psk_view c2 = psk_view c0 /\ len rnd = WOLFSPDM_RANDOM_SIZE /\
    tr c3 = tr c2 ++ psk_request c2 rnd /\
    psk_view c3 = psk_view c0 /\ c3.(spdmVersion) = c2.(spdmVersion) /\
    psk_accepted c3 rx c4 /\ psk_finished c4 c5 /\
    c' = c5 <| state := WOLFSPDM_STATE_CONNECTED |>.

Definition psk_refused c : option Z :=
  if negb c.(flags).(initialized) then Some WOLFSPDM_E_BAD_STATE
  else if c.(pskSz) =? 0 then Some WOLFSPDM_E_BAD_STATE
  else if c.(ioCb) =? 0 then Some WOLFSPDM_E_IO_FAIL else None.

Lemma psk_refused_err c rc : psk_refused c = Some rc -> rc < 0.
Proof. unfold psk_refused. repeat case_match; by intros [= <-]. Qed.

Lemma ConnectPsk_wp c (w : W) (Q : unit -> WOLFSPDM_CTX * W -> Prop)
    (E : Z -> WOLFSPDM_CTX * W -> Prop) : ctx_wf c ->
  (forall c' w', ctx_wf c' -> psk_refused c = None -> psk_handshake c c' -> Q tt (c', w')) ->
  (forall rc, psk_refused c = Some rc -> E rc (c, w)) ->
  (forall rc c' w', rc < 0 -> ctx_wf c' -> psk_refused c = None ->
     c'.(state) = WOLFSPDM_STATE_ERROR -> E rc (c', w')) ->
  wp wolfSPDM_ConnectPsk Q E (c, w).
Proof.
  intros Hwf HQ HE0 HE. unfold wolfSPDM_ConnectPsk. unfold psk_refused in *. do 2 io_step.
  io_step. io_step; [apply HE0; by case_match|].
  destruct (negb (initialized (flags c))); [done|].
  io_step. destruct (pskSz c =? 0); io_step; try done; [by apply HE0|].
  io_step. destruct (ioCb c =? 0); io_step; try done; [by apply HE0|].
  assert (forall rc c' w', rc < 0 -> ctx_wf c' -> c'.(state) = WOLFSPDM_STATE_ERROR -> E rc (c', w'))
    as HE' by auto. clear HE HE0.
  io_step. io_step.
  match goal with |- wp _ _ _ (?x, _) =>
    assert (ctx_wf x) as Hwf1 by wf_tac; assert (psk_view x = psk_view c) as Hp1 by (by destruct c);
    revert Hwf1 Hp1; generalize x end. intros c1 Hwf1 Hp1.
  io_step. io_step. apply TranscriptReset_wp; [done|]. intros Hwf2.
  assert (psk_view (tr_reset c1) = psk_view c) as Hp2 by (by destruct c1).
  pose proof (tr_reset_nil c1) as Ht2. revert Hwf2 Hp2 Ht2. generalize (tr_reset c1).
  clear c1 Hwf1 Hp1. intros c1 Hwf1 Hp1 Ht1. cbv zeta.
  io_step. apply CONNECT_STEP_wp; [done|].
  io_step. apply ExchangeMsg_wp; [apply _|done|done|done| |intros; by split].
  intros c2 w2 Hwf2 Hx2. destruct (version_psk _ _ _ Hx2) as [Hp2 _].
  io_step. io_step. apply BuildPskExchange_wp; [done| |intros; by split].
  intros rnd r Hrl Hml Hwf3.
  assert (psk_view (set_rng r c2) = psk_view c2 /\ tr (set_rng r c2) = tr c2 /\
    spdmVersion (set_rng r c2) = spdmVersion c2) as (Hp3 & Ht3 & Hv3) by (by destruct c2).
  revert Hwf3 Hp3 Ht3 Hv3. generalize (set_rng r c2). intros c3 Hwf3 Hp3 Ht3 Hv3.
  io_step. io_step. apply TranscriptAdd_wp; [done| |intros; by split]. intros Hf4 Hwf4.
  assert (psk_view (tr_add c3 (psk_request c2 rnd)) = psk_view c3 /\
    spdmVersion (tr_add c3 (psk_request c2 rnd)) = spdmVersion c3) as (Hp4 & Hv4) by (by destruct c3).
  pose proof (tr_tr_add _ _ Hwf3 Hf4) as Ht4. revert Hwf4 Hp4 Ht4 Hv4.
  generalize (tr_add c3 (psk_request c2 rnd)). intros c4 Hwf4 Hp4 Ht4 Hv4.
  io_step. eapply wp_mono; [apply SendReceive_xfer; [done|unfold WOLFSPDM_TCG_HEADER_SIZE; lia]| |].
  2: { intros rc [c5 w5] (? & ? & _). by split. }
  intros rx [c5 w5] (Hb5 & _ & Hwf5 & Hx5). cbn [fst] in *.
  pose proof (psk_view_xfer _ _ _ Hx5) as Hp5. destruct (keeps_tr_xfer _ _ _ Hx5) as [Hk Hk'].
  pose proof (tr_ext _ _ Hk Hk') as Ht5.
  assert (spdmVersion c5 = spdmVersion c4) as Hv5
    by (pose proof (psk_end_xfer _ _ _ Hx5) as He; unfold psk_end in He; by injection He).
  io_step. io_step. apply ParsePskExchangeRsp_wp; [done|done| |intros; by split].
  intros c6 Hwf6 Hx6. apply psk_finish_wp; [done| |intros; by split].
  intros c7 w7 Hwf7 Hx7. io_step. apply HQ; [wf_tac|done|].
  exists c1, c2, rnd, c5, rx, c6, c7. split_and!; try done; try congruence.
Qed.
End PskLemmas.

(** ** Properties *)

Section PskProps.
Context `{WolfCrypt} `{Config} `{!CryptSizes} `{!RecordFits} `{!TranscriptFits}.

(** C19: no PSK session without the pre-shared key.  A PSK_EXCHANGE_RSP is
    accepted only when its verify data is the HMAC of the transcript hash under
    the finished key that the key schedule derives from the configured key;
    only then does the session get its identifier and the key-exchanged state,
    and the key is wiped from the context.  A refused response changes no part
    of the session, and no message is read out of bounds. *)
Theorem psk_exchange_authenticated buf c :
  ctx_wf c -> is_bytes buf ->
  match wolfSPDM_ParsePskExchangeRsp buf c with
  | Ok _ c' => ctx_wf c' /\ psk_accepted c buf c'
  | Err rc c' => rc < 0 /\ ctx_wf c' /\ session_view c' = session_view c
  | Ub => False
  end.
Proof.
  intros Hwf Hb. apply (ParsePskExchangeRsp_wp buf c (fun _ c' => ctx_wf c' /\ psk_accepted c buf c')
    (fun rc c' => rc < 0 /\ ctx_wf c' /\ session_view c' = session_view c)); auto.
Qed.

(** C9: a PSK session is connected only after both sides proved the key.
    [wolfSPDM_ConnectPsk] refuses, with the context untouched, a link without a
    key or a callback.  It succeeds only when the version was exchanged from an
    empty transcript, PSK_EXCHANGE carried fresh requester randomness and was
    recorded, its response was authenticated under the configured key, PSK_FINISH
    was answered inside the session, and the traffic keys are those of the key
    schedule over the final transcript with fresh sequence numbers; the key is
    then gone.  On any later failure the session is in the error state. *)
Theorem psk_session_authenticated {W : Type} `{!Transport W} `{!TransportBytes}
    (c : WOLFSPDM_CTX) (w : W) :
  ctx_wf c ->
  match wolfSPDM_ConnectPsk (c, w) with
  | Ok _ (c', _) => ctx_wf c' /\ psk_refused c = None /\ psk_handshake c c' /\
      c'.(state) = WOLFSPDM_STATE_CONNECTED /\
      c'.(psk) = zeros WOLFSPDM_PSK_MAX_SIZE /\ c'.(pskSz) = 0
  | Err rc (c', w') => rc < 0 /\ ctx_wf c' /\
      match psk_refused c with
      | Some _ => (c', w') = (c, w)
      | None => c'.(state) = WOLFSPDM_STATE_ERROR
      end
  | Ub => False
  end.
Proof.
  intros Hwf. pose proof (ConnectPsk_wp c w
    (fun _ s => ctx_wf s.1 /\ psk_refused c = None /\ psk_handshake c s.1)
    (fun rc s => rc < 0 /\ ctx_wf s.1 /\ match psk_refused c with
       | Some _ => s = (c, w) | None => s.1.(state) = WOLFSPDM_STATE_ERROR end) Hwf) as Hw.
  assert (wp wolfSPDM_ConnectPsk (fun _ s => ctx_wf s.1 /\ psk_refused c = None /\ psk_handshake c s.1)
    (fun rc s => rc < 0 /\ ctx_wf s.1 /\ match psk_refused c with
       | Some _ => s = (c, w) | None => s.1.(state) = WOLFSPDM_STATE_ERROR end) (c, w)) as Hw'.
  { apply Hw; clear Hw; [by auto| |by intros rc1 c1 w1 ? ? -> ?].
    intros rc1 Hr. rewrite Hr. split_and!; [by eapply psk_refused_err|done|done]. }
  clear Hw. unfold wp in Hw'.
  destruct (wolfSPDM_ConnectPsk _) as [[] [c' w']|rc [c' w']|]; [|done|done].
  destruct Hw' as (Hwf' & Hr & Hh). cbn [fst] in *.
  split_and!; try done.
  all: destruct Hh as (c1 & c2 & rnd & c3 & rx & c4 & c5 & _ & _ & _ & _ & _ & _ & _ & Ha & Hf & ->).
  all: destruct Ha as (hs & k & Ha); cbv zeta in Ha; destruct_and? Ha.
  all: destruct Hf as (m & c6 & rsp & th & k' & Hf); destruct_and? Hf.
  all: unfold psk_end in *; simplify_eq; ctx_simpl; congruence.
Qed.

(** Setting a pre-shared key replaces the earlier one completely.  A key
    of 1 to 64 bytes with a hint of at most 32 is stored with zeros behind it,
    so no tail of a longer key or hint survives, and nothing else changes; any
    other argument is refused with the context untouched. *)
Lemma psk_set_exact newPsk hint c :
  match wolfSPDM_SetPSK newPsk hint c with
  | Ok _ c' => 0 < len newPsk <= WOLFSPDM_PSK_MAX_SIZE /\
      len (opt_bytes hint) <= WOLFSPDM_PSK_HINT_MAX /\
      c' = c <| psk := newPsk ++ zeros (WOLFSPDM_PSK_MAX_SIZE - len newPsk) |>
             <| pskSz := len newPsk |>
             <| pskHint := opt_bytes hint ++ zeros (WOLFSPDM_PSK_HINT_MAX - len (opt_bytes hint)) |>
             <| pskHintSz := len (opt_bytes hint) |>
  | Err rc c' => rc = WOLFSPDM_E_INVALID_ARG /\ c' = c /\
      (len newPsk = 0 \/ len newPsk > WOLFSPDM_PSK_MAX_SIZE \/
       len (opt_bytes hint) > WOLFSPDM_PSK_HINT_MAX)
  | Ub => False
  end.
Proof.
  pose proof (len_nonneg newPsk). pose proof (len_nonneg (opt_bytes hint)).
  assert (match hint with Some h => len h >? WOLFSPDM_PSK_HINT_MAX | None => false end =
    (len (opt_bytes hint) >? WOLFSPDM_PSK_HINT_MAX)) as Hh by (by destruct hint).
  assert (match hint with Some h => len h >? 0 | None => false end =
    (len (opt_bytes hint) >? 0)) as Hh0 by (by destruct hint).
  assert (forall n d, 0 <= n -> len d <= n -> splice (zeros n) 0 d = d ++ zeros (n - len d)) as Hz.
  { intros n d Hn Hd. unfold splice, zeros, len in *. rewrite take_0. cbn [app Z.to_nat].
    rewrite drop_replicate. do 2 f_equal. lia. }
  match goal with |- match ?m with Ok _ c' => @?Q c' | Err rc c' => @?E rc c' | Ub => False end =>
    change (wp (wolfSPDM_SetPSK newPsk hint) (fun _ => Q) E c) end.
  unfold wolfSPDM_SetPSK. rewrite Hh, Hh0. unfold WOLFSPDM_PSK_MAX_SIZE, WOLFSPDM_PSK_HINT_MAX in *.
  wp_go; try (split_and!; [done|done|lia]); rewrite ?len_zeros; try lia.
  all: split_and!; [lia|lia|lia|]; rewrite !Hz by lia; try done.
  assert (opt_bytes hint = []) as -> by (destruct (opt_bytes hint); [done|rewrite len_cons in *; pose proof (len_nonneg l); lia]).
  done.
Qed.
End PskProps.
