(* ===== verification/Connect.v ===== *)
(** * Connect and Disconnect: the entry points of src/spdm_context.c *)
From Stdlib Require Import ZArith Lia.
From stdpp Require Import base tactics list numbers.
From S2P Require Import Prelude Types Bytes Crypt Context Transcript Kdf CryptoOps Transport.
From S2P Require Import Secured Msg Chunk Cert Attest Session Standard Tcg Psk.

Section ConnectDefs.
Context `{WolfCrypt} `{Config} {W : Type} `{!Transport W}.
Notation IOM := (M (WOLFSPDM_CTX * W)).

Definition wolfSPDM_Connect : IOM unit :=
  let* ctx := get_ctx in
  check (negb ctx.(flags).(initialized)) WOLFSPDM_E_BAD_STATE ;;;
  check (ctx.(ioCb) =? 0) WOLFSPDM_E_IO_FAIL ;;;
  on_ctx wolfSPDM_ResetSession ;;;
  if (ctx.(mode) =? WOLFSPDM_MODE_TCG) || (ctx.(mode) =? WOLFSPDM_MODE_NUVOTON) ||
     (ctx.(mode) =? WOLFSPDM_MODE_NATIONS) then wolfSPDM_ConnectTCG
  else if ctx.(mode) =? WOLFSPDM_MODE_NATIONS_PSK then wolfSPDM_ConnectPsk
  else if ctx.(mode) =? WOLFSPDM_MODE_AUTO then wolfSPDM_ConnectStandard
  else fail WOLFSPDM_E_INVALID_ARG.

(** END_SESSION for a live session. *)
Definition end_session : IOM unit :=
  let* txBuf := on_ctx (wolfSPDM_BuildEndSession 8) in
  let* rxBuf := wolfSPDM_SecuredExchange txBuf 16 in
  let* ctx := get_ctx in
  check (len rxBuf <? 4) WOLFSPDM_E_BUFFER_SMALL ;;;
  match wolfSPDM_CheckError rxBuf with
  | Some _ => fail WOLFSPDM_E_PEER_ERROR
  | None =>
      check (negb (len rxBuf =? 4) || negb (at_ rxBuf 0 =? ctx.(spdmVersion)) ||
             negb (at_ rxBuf 1 =? SPDM_END_SESSION_ACK) || negb (at_ rxBuf 2 =? 0) ||
             negb (at_ rxBuf 3 =? 0)) WOLFSPDM_E_PEER_ERROR
  end.

(** The wipe runs whatever became of END_SESSION. *)
Definition wolfSPDM_Disconnect : IOM unit :=
  let* ctx := get_ctx in
  on_err (if ctx.(state) =? WOLFSPDM_STATE_CONNECTED then end_session
          else fail WOLFSPDM_E_NOT_CONNECTED)
    (fun _ => on_ctx wolfSPDM_ResetSession) ;;;
  on_ctx wolfSPDM_ResetSession.
End ConnectDefs.

Section ConnectLemmas.
Context `{WolfCrypt} `{Config} `{!CryptSizes} `{!RecordFits} `{!TranscriptFits}
  {W : Type} `{!Transport W} `{!TransportBytes}.
Implicit Types c : WOLFSPDM_CTX.

(** The part of the identity that an exchange leaves alone too. *)
Definition configured c :=
  (c.(mode), c.(ioCb), c.(ioUserCtx), c.(connectionHandle),
   (c.(reqPubKeyTPMT), c.(reqPubKeyTPMTLen)), (c.(psk), c.(pskSz), c.(pskHint), c.(pskHintSz)),
   c.(maxVersion), c.(reqSessionId), (c.(rspPubKey), c.(rspPubKeyLen)),
   (c.(reqPrivKey), c.(reqPrivKeyLen), c.(reqPubKey)), (c.(trustedCA), c.(trustedCASz)),
   (c.(flags).(hasRspPubKey), c.(flags).(hasReqKeyPair), c.(flags).(allowUntrustedCert),
    c.(flags).(rspKeyFromCert), c.(flags).(initialized))).

Lemma configured_xfer b c c' : xfer b c c' -> configured c' = configured c.
Proof. intros (f & r & q & p & e & h & l & -> & _). by destruct c. Qed.

Lemma configured_reset c : configured (reset_ctx c) = configured c.
Proof.
  pose proof (reset_identity c) as Hi. revert Hi. generalize (reset_ctx c). intros c1 Hi.
  unfold identity in Hi. unfold configured. injection Hi. intros. congruence.
Qed.

Lemma end_session_wp c (w : W) (Q : unit -> WOLFSPDM_CTX * W -> Prop)
    (E : Z -> WOLFSPDM_CTX * W -> Prop) : ctx_wf c ->
  (forall c' w', ctx_wf c' -> xfer true c c' -> secured_ready c = true -> Q tt (c', w')) ->
  (forall rc c' w', rc < 0 -> ctx_wf c' -> xfer true c c' -> E rc (c', w')) ->
  wp end_session Q E (c, w).
Proof.
  intros Hwf HQ HE. assert (xfer true c c) as Hrefl by apply xfer_refl.
  unfold end_session. io_step. io_step. unfold wolfSPDM_BuildEndSession, wolfSPDM_BuildSimpleMsg, SPDM_CHECK_BUILD_ARGS.
  wp_step. wp_step; [done|]. do 3 (wp_step; cbv beta). io_step. eapply wp_mono; [by apply SecuredExchange_wp| |].
  2: { intros rc [c1 w1] [(_ & -> & [= -> ->])|(_ & ? & ? & ?)]; by apply HE. }
  intros rx [c1 w1] (Hr & _ & _ & Hwf1 & Hx). cbn [fst] in *.
  io_go; try (by apply HE). by apply HQ.
Qed.

Lemma Disconnect_wp c (w : W) (Q : unit -> WOLFSPDM_CTX * W -> Prop)
    (E : Z -> WOLFSPDM_CTX * W -> Prop) : ctx_wf c ->
  (forall c1 w1, ctx_wf (reset_ctx c1) -> xfer true c c1 -> c.(state) = WOLFSPDM_STATE_CONNECTED ->
     Q tt (reset_ctx c1, w1)) ->
  (forall rc c1 w1, rc < 0 -> ctx_wf (reset_ctx c1) -> xfer true c c1 ->
     c.(state) = WOLFSPDM_STATE_CONNECTED -> E rc (reset_ctx c1, w1)) ->
  (c.(state) <> WOLFSPDM_STATE_CONNECTED -> ctx_wf (reset_ctx c) ->
     E WOLFSPDM_E_NOT_CONNECTED (reset_ctx c, w)) ->
  wp wolfSPDM_Disconnect Q E (c, w).
Proof.
  intros Hwf HQ HE HE0. unfold wolfSPDM_Disconnect. do 2 io_step. io_step. io_step. io_step.
  - apply end_session_wp; [done| |].
    + intros c1 w1 Hwf1 Hx _. io_step. apply ResetSession_wp; [done|]. intros.
      apply HQ; [done|done|lia].
    + intros rc c1 w1 Hrc Hwf1 Hx. io_step. apply ResetSession_wp; [done|]. intros.
      apply HE; [done|done|done|lia].
  - io_step. io_step. apply ResetSession_wp; [done|]. intros. apply HE0; [lia|done].
Qed.

(** A link that is refused before anything changes. *)
Definition connect_refused c : option Z :=
  if negb c.(flags).(initialized) then Some WOLFSPDM_E_BAD_STATE
  else if c.(ioCb) =? 0 then Some WOLFSPDM_E_IO_FAIL else None.

Definition tcg_mode (m : Z) : bool :=
  (m =? WOLFSPDM_MODE_TCG) || (m =? WOLFSPDM_MODE_NUVOTON) || (m =? WOLFSPDM_MODE_NATIONS).

(** The session each mode promises, from the context [c0] it starts from. *)
Definition connected_by_mode c0 c' : Prop :=
  if tcg_mode c0.(mode) then tcg_handshake c0 c'
  else if c0.(mode) =? WOLFSPDM_MODE_NATIONS_PSK then psk_handshake c0 c'
  else c0.(mode) = WOLFSPDM_MODE_AUTO /\ handshake c'.

Lemma Connect_wp c (w : W) (Q : unit -> WOLFSPDM_CTX * W -> Prop)
    (E : Z -> WOLFSPDM_CTX * W -> Prop) : ctx_wf c ->
  (forall c' w', ctx_wf c' -> connect_refused c = None -> connected_by_mode (reset_ctx c) c' ->
     Q tt (c', w')) ->
  (forall rc, connect_refused c = Some rc -> E rc (c, w)) ->
  (forall rc c' w', rc < 0 -> ctx_wf c' -> connect_refused c = None ->
     c' = reset_ctx c \/ c'.(state) = WOLFSPDM_STATE_ERROR -> E rc (c', w')) ->
  wp wolfSPDM_Connect Q E (c, w).
Proof.
  intros Hwf HQ HE0 HE. unfold wolfSPDM_Connect. unfold connect_refused in *. do 2 io_step.
  io_step. io_step; [apply HE0; by case_match|].
  destruct (negb (initialized (flags c))); [done|].
  io_step. destruct (ioCb c =? 0); io_step; try done; [by apply HE0|].
  io_step. io_step. apply ResetSession_wp; [done|]. intros Hwf1.
  assert (mode (reset_ctx c) = mode c) as Hm.
  { pose proof (reset_identity c) as Hi. revert Hi. generalize (reset_ctx c). intros c1 Hi.
    unfold identity in Hi. by injection Hi. }
  unfold connected_by_mode, tcg_mode in HQ. rewrite Hm in HQ.
  revert Hwf1 HQ HE. generalize (reset_ctx c). intros c1 Hwf1 HQ HE.
  io_step; [|io_step; [|io_step]].
  - apply ConnectTCG_wp; [done| | |]; auto.
    intros rc Hr. apply HE; [by eapply tcg_refused_err|done|done|by left].
  - apply ConnectPsk_wp; [done| | |]; auto.
    intros rc Hr. apply HE; [by eapply psk_refused_err|done|done|by left].
  - apply ConnectStandard_wp; [done| |]; auto.
    intros c' w' ? ?. apply HQ; [done|done|]. split; [lia|done].
  - io_step. apply HE; [done|done|done|by left].
Qed.
End ConnectLemmas.

(** ** Properties *)

Section ConnectProps.
Context `{WolfCrypt} `{Config} `{!CryptSizes} `{!RecordFits} `{!TranscriptFits}
  {W : Type} `{!Transport W} `{!TransportBytes}.

(** C21: every connection starts from a wiped session and runs the flow of its
    mode.  [wolfSPDM_Connect] refuses an uninitialised context or one without a
    callback and changes nothing.  Otherwise the earlier session is wiped
    first, and success means a complete handshake of the configured mode (TCG,
    PSK or standard) starting from the wiped context; on failure the session
    is in the error state, or still the freshly wiped one. *)
Theorem connect_by_mode (c : WOLFSPDM_CTX) (w : W) :
  ctx_wf c ->
  match wolfSPDM_Connect (c, w) with
  | Ok _ (c', _) => ctx_wf c' /\ session_wiped (reset_ctx c) /\
      connected_by_mode (reset_ctx c) c' /\ c'.(state) = WOLFSPDM_STATE_CONNECTED
  | Err rc (c', w') => rc < 0 /\ ctx_wf c' /\
      match connect_refused c with
      | Some _ => (c', w') = (c, w)
      | None => c' = reset_ctx c /\ session_wiped c' \/ c'.(state) = WOLFSPDM_STATE_ERROR
      end
  | Ub => False
  end.
Proof.
  intros Hwf. pose proof (reset_wiped c) as Hr. pose proof (Connect_wp c w) as HC.
  revert HC Hr. generalize (reset_ctx c). intros c0 HC Hr.
  assert (wp wolfSPDM_Connect (fun _ s => ctx_wf s.1 /\ connected_by_mode c0 s.1)
    (fun rc s => rc < 0 /\ ctx_wf s.1 /\ match connect_refused c with
       | Some _ => s = (c, w)
       | None => s.1 = c0 /\ session_wiped s.1 \/ s.1.(state) = WOLFSPDM_STATE_ERROR
       end) (c, w)) as Hw.
  { apply HC; [done|by intros| |].
    - intros rc He. rewrite He. split_and!; [|done|done]. revert He. unfold connect_refused.
      repeat case_match; by intros [= <-].
    - intros rc c' w' ? ? -> [-> | ?]; split_and!; try done; [by left|by right]. }
  unfold wp in Hw. destruct (wolfSPDM_Connect _) as [[] [c' w']|rc [c' w']|]; [|done|done].
  destruct Hw as [Hwf' Hc]. cbn [fst] in *. split_and!; try done.
  unfold connected_by_mode in Hc. repeat case_match.
  - destruct Hc as (? & ? & ? & ? & ? & ? & c9 & ? & ? & ? & Hh). destruct_and? Hh. by subst.
  - by destruct Hc as (? & ? & ? & ? & ? & ? & c9 & _ & _ & _ & _ & _ & _ & _ & _ & _ & ->).
  - destruct Hc as [_ (? & ? & ? & ? & ? & ? & ? & ? & c9 & Hh)]. destruct_and? Hh. by subst.
Qed.

(** C20: disconnecting always wipes the session.  Whatever the state and
    whatever the responder answers to END_SESSION, [wolfSPDM_Disconnect] leaves
    no key, secret, identifier or sequence number of the session, and keeps the
    configured keys, the pre-shared key, the anchors and the link.  It reports
    success only for a connected session whose END_SESSION was answered; with
    no session nothing is sent. *)
Theorem disconnect_always_wipes (c : WOLFSPDM_CTX) (w : W) :
  ctx_wf c ->
  match wolfSPDM_Disconnect (c, w) with
  | Ok _ (c', _) => c.(state) = WOLFSPDM_STATE_CONNECTED /\
      ctx_wf c' /\ session_wiped c' /\ configured c' = configured c
  | Err rc (c', w') => rc < 0 /\ ctx_wf c' /\ session_wiped c' /\ configured c' = configured c /\
      (c.(state) <> WOLFSPDM_STATE_CONNECTED -> rc = WOLFSPDM_E_NOT_CONNECTED /\ w' = w)
  | Ub => False
  end.
Proof.
  intros Hwf.
  assert (wp wolfSPDM_Disconnect
    (fun _ s => c.(state) = WOLFSPDM_STATE_CONNECTED /\ ctx_wf s.1 /\ session_wiped s.1 /\
       configured s.1 = configured c)
    (fun rc s => rc < 0 /\ ctx_wf s.1 /\ session_wiped s.1 /\ configured s.1 = configured c /\
       (c.(state) <> WOLFSPDM_STATE_CONNECTED -> rc = WOLFSPDM_E_NOT_CONNECTED /\ s.2 = w)) (c, w))
    as Hw.
  { apply Disconnect_wp; [done|..]; intros; split_and!; try done.
    all: cbn [fst]; try done; try apply reset_wiped.
    all: rewrite configured_reset; try done; by eapply configured_xfer. }
  unfold wp in Hw. by destruct (wolfSPDM_Disconnect _) as [[] [c' w']|rc [c' w']|].
Qed.
End ConnectProps.
