(* ===== verification/Vendor.v ===== *)
(** * The vendor commands: src/vendor/spdm_nuvoton.c, spdm_nations.c, spdm_infineon.c

    The status query, the SPDM-only switch and, for Nations, the provisioning
    of the pre-shared key.  A status structure is the result of the query; on
    failure the caller's structure is left zeroed. *)
From Stdlib Require Import ZArith Lia String.
From stdpp Require Import base tactics list numbers option.
From S2P Require Import Prelude Types Bytes Crypt Context Transcript Kdf CryptoOps Transport.
From S2P Require Import Secured Msg Chunk Cert Attest Session Standard Tcg.

(** The switch, the same code for the three vendors. *)
Section OnlyMode.
Context `{WolfCrypt} `{Config} {W : Type} `{!Transport W}.

Definition set_only_mode (lock : Z) : M (WOLFSPDM_CTX * W) unit :=
  let* ctx := get_ctx in
  check (negb (ctx.(state) =? WOLFSPDM_STATE_CONNECTED)) WOLFSPDM_E_NOT_CONNECTED ;;;
  let param := [if negb (lock =? 0) then WOLFSPDM_SPDMONLY_LOCK else WOLFSPDM_SPDMONLY_UNLOCK] in
  wolfSPDM_TCG_VendorCmdSecured WOLFSPDM_VDCODE_SPDMONLY (Some param) 1.
End OnlyMode.

Module Nuvoton.
Record WOLFSPDM_NUVOTON_STATUS := {
  spdmEnabled : bool; sessionActive : bool; spdmOnlyLocked : bool;
  specVersionMajor : Z; specVersionMinor : Z
}.

Section Defs.
Context `{WolfCrypt} `{Config} {W : Type} `{!Transport W}.
Notation IOM := (M (WOLFSPDM_CTX * W)).

(** Four bytes or more: version and lock; one to three: the lock first. *)
Definition wolfSPDM_Nuvoton_GetStatus : IOM WOLFSPDM_NUVOTON_STATUS :=
  let statusType := [0x00; 0x00; 0x00; 0x00] in
  let* (_, payload) :=
    wolfSPDM_TCG_VendorCmdClear WOLFSPDM_VDCODE_GET_STS (Some statusType) 4 true in
  if len payload >=? 4 then
    let* specMajor := rd payload 0 in
    let* specMinor := rd payload 1 in
    let* spdmOnly := rd payload 3 in
    ret {| specVersionMajor := specMajor; specVersionMinor := specMinor;
           spdmOnlyLocked := negb (spdmOnly =? 0); spdmEnabled := true; sessionActive := false |}
  else if len payload >=? 1 then
    let* spdmOnly := rd payload 0 in
    ret {| specVersionMajor := 0; specVersionMinor := 0;
           spdmOnlyLocked := negb (spdmOnly =? 0); spdmEnabled := true; sessionActive := false |}
  else fail WOLFSPDM_E_FRAMING.

Definition wolfSPDM_Nuvoton_SetOnlyMode (lock : Z) : IOM unit := set_only_mode lock.
End Defs.
End Nuvoton.

Module Nations.
Definition WOLFSPDM_NATIONS_VDCODE_PSK_SET : bytes := str "PSK_SET_".
Definition WOLFSPDM_NATIONS_VDCODE_PSK_CLEAR : bytes := str "PSK_CLR_".

Record WOLFSPDM_NATIONS_STATUS := {
  spdmEnabled : bool; sessionActive : bool; spdmOnlyLocked : bool; spdmOnlyPending : bool;
  pskProvisioned : bool; identityKeyProvisioned : bool
}.

Section Defs.
Context `{WolfCrypt} `{Config} {W : Type} `{!Transport W}.
Notation IOM := (M (WOLFSPDM_CTX * W)).

Definition wolfSPDM_Nations_GetStatus : IOM WOLFSPDM_NATIONS_STATUS :=
  let* (_, payload) := wolfSPDM_TCG_VendorCmdClear WOLFSPDM_VDCODE_GET_STS None 0 true in
  if len payload >=? 4 then
    let* pskSet := rd payload 2 in
    let* spdmOnly := rd payload 3 in
    ret {| spdmEnabled := true; pskProvisioned := negb (pskSet =? 0);
           spdmOnlyLocked := negb (spdmOnly =? 0); sessionActive := false;
           spdmOnlyPending := false; identityKeyProvisioned := false |}
  else fail WOLFSPDM_E_FRAMING.

Definition wolfSPDM_Nations_SetOnlyMode (lock : Z) : IOM unit := set_only_mode lock.

Definition wolfSPDM_Nations_PskSet (psk : bytes) : IOM unit :=
  check (len psk =? 0) WOLFSPDM_E_INVALID_ARG ;;;
  wolfSPDM_TCG_VendorCmdClear WOLFSPDM_NATIONS_VDCODE_PSK_SET (Some psk) (len psk) false ;;;
  ret tt.

Definition wolfSPDM_Nations_PskClear (clearAuth : bytes) : IOM unit :=
  check (len clearAuth =? 0) WOLFSPDM_E_INVALID_ARG ;;;
  wolfSPDM_TCG_VendorCmdClear WOLFSPDM_NATIONS_VDCODE_PSK_CLEAR (Some clearAuth) (len clearAuth)
    false ;;;
  ret tt.

(** Version, capabilities and algorithms first. *)
Definition wolfSPDM_Nations_PskClearWithVCA (clearAuth : bytes) : IOM unit :=
  check (len clearAuth =? 0) WOLFSPDM_E_INVALID_ARG ;;;
  wolfSPDM_GetVersion ;;;
  wolfSPDM_TCG_GetCapabilities WOLFSPDM_TCG_CAPS_FLAGS_PSK ;;;
  wolfSPDM_TCG_NegotiateAlgorithms ;;;
  wolfSPDM_Nations_PskClear clearAuth.
End Defs.
End Nations.

Module Infineon.
Record WOLFSPDM_INFINEON_STATUS := {
  spdmEnabled : bool; sessionActive : bool; spdmOnlyLocked : bool; spdmOnlyPending : bool;
  pskProvisioned : bool
}.

Section Defs.
Context `{WolfCrypt} `{Config} {W : Type} `{!Transport W}.
Notation IOM := (M (WOLFSPDM_CTX * W)).

Definition wolfSPDM_Infineon_GetStatus : IOM WOLFSPDM_INFINEON_STATUS :=
  let* (_, payload) := wolfSPDM_TCG_VendorCmdClear WOLFSPDM_VDCODE_GET_STS None 0 true in
  check (len payload <? 4) WOLFSPDM_E_FRAMING ;;;
  let* pskSet := rd payload 2 in
  let* spdmOnly := rd payload 3 in
  ret {| spdmEnabled := true; pskProvisioned := negb (pskSet =? 0);
         spdmOnlyLocked := negb (spdmOnly =? 0); spdmOnlyPending := spdmOnly =? 0x81;
         sessionActive := false |}.

Definition wolfSPDM_Infineon_SetOnlyMode (lock : Z) : IOM unit := set_only_mode lock.
End Defs.
End Infineon.
