(* ===== verification/Frame.v ===== *)
(** * Frames: what an operation leaves alone

    [keeps v m] says that the computation [m] does not change the view [v] of
    the state, whether it succeeds or fails.  The property follows the syntax
    of [m]: there is a rule for every construct of the monad, a lemma for
    every loop, and [keeps_go] walks through the rest.  The file applies it to
    the stored measurements. *)
From Stdlib Require Import ZArith Lia.
From stdpp Require Import base tactics list numbers option.
From S2P Require Import Prelude Types Bytes Crypt Context Transcript Kdf CryptoOps Transport.
From S2P Require Import Secured Msg Chunk Cert Attest Session Standard Tcg Psk Connect Vendor.

Definition keeps {S V A} (v : S -> V) (m : M S A) : Prop :=
  forall s, match m s with Ok _ s' | Err _ s' => v s' = v s | Ub => True end.

Section Keeps.
Context {S V : Type} (v : S -> V).

Lemma keeps_ret {A} (a : A) : keeps v (ret a).
Proof. done. Qed.
Lemma keeps_fail {A} rc : keeps v (fail rc : M S A).
Proof. done. Qed.
Lemma keeps_ub {A} : keeps v (ub : M S A).
Proof. done. Qed.
Lemma keeps_get : keeps v get.
Proof. done. Qed.
Lemma keeps_modify f : (forall s, v (f s) = v s) -> keeps v (modify f).
Proof. intros Hf s. apply Hf. Qed.

Lemma keeps_bind {A B} (m : M S A) (f : A -> M S B) :
  keeps v m -> (forall a, keeps v (f a)) -> keeps v (bind m f).
Proof.
  intros Hm Hf s. specialize (Hm s). unfold bind. destruct (m s) as [a s'|rc s'|]; [|done..].
  specialize (Hf a s'). by destruct (f a s'); rewrite ?Hf.
Qed.

Lemma keeps_check b rc : keeps v (check b rc).
Proof. by destruct b. Qed.
Lemma keeps_when b m : keeps v m -> keeps v (when b m).
Proof. by destruct b. Qed.
Lemma keeps_lift_opt {A} e (o : option A) : keeps v (lift_opt e o).
Proof. by destruct o. Qed.
Lemma keeps_rd b i : keeps v (rd b i).
Proof. intros s. unfold rd. by destruct (_ && _). Qed.
Lemma keeps_rd_sub b i n : keeps v (rd_sub b i n).
Proof. intros s. unfold rd_sub. by destruct (_ && _). Qed.
Lemma keeps_wr b i d : keeps v (wr b i d).
Proof. intros s. unfold wr. by destruct (_ && _). Qed.

Lemma keeps_on_err {A} (m : M S A) h :
  keeps v m -> (forall rc, keeps v (h rc)) -> keeps v (on_err m h).
Proof.
  intros Hm Hh s. specialize (Hm s). unfold on_err. destruct (m s) as [|rc s'|]; [done| |done].
  specialize (Hh rc s'). by destruct (h rc s'); rewrite ?Hh.
Qed.

Lemma keeps_try {A} (m : M S A) : keeps v m -> keeps v (try m).
Proof. intros Hm s. specialize (Hm s). unfold try. by destruct (m s). Qed.

End Keeps.

Lemma keeps_zoom {S T V A} (g : S -> T) (p : T -> S -> S) (v : S -> V) (u : T -> V) (m : M T A) :
  (forall s, v s = u (g s)) -> (forall t s, v (p t s) = u t) -> keeps u m -> keeps v (zoom g p m).
Proof.
  intros Hg Hp Hm s. specialize (Hm (g s)). unfold zoom.
  by destruct (m (g s)); rewrite ?Hp, ?Hg.
Qed.

(** [stable P m] says that [m] keeps the property [P]; a frame keeps every
    property of its view. *)
Definition stable {S A} (P : S -> Prop) (m : M S A) : Prop :=
  forall s, P s -> match m s with Ok _ s' | Err _ s' => P s' | Ub => True end.

Section Stable.
Context {S : Type} (P : S -> Prop).

Lemma keeps_stable {V A} (v : S -> V) (m : M S A) :
  (forall s s', v s' = v s -> P s -> P s') -> keeps v m -> stable P m.
Proof. intros HP Hm s Hs. specialize (Hm s). destruct (m s); eauto. Qed.

Lemma stable_bind {A B} (m : M S A) (f : A -> M S B) :
  stable P m -> (forall a, stable P (f a)) -> stable P (bind m f).
Proof.
  intros Hm Hf s Hs. specialize (Hm s Hs). unfold bind. destruct (m s) as [a s'| |]; [|done..].
  exact (Hf a s' Hm).
Qed.

Lemma stable_on_err {A} (m : M S A) h :
  stable P m -> (forall rc, stable P (h rc)) -> stable P (on_err m h).
Proof.
  intros Hm Hh s Hs. specialize (Hm s Hs). unfold on_err. destruct (m s) as [|rc s'|]; [done| |done].
  specialize (Hh rc s' Hm). by destruct (h rc s').
Qed.

Lemma wp_stable {A} (m : M S A) Q E s : stable P m -> P s -> wp m Q E s ->
  wp m (fun a s' => Q a s' /\ P s') (fun rc s' => E rc s' /\ P s') s.
Proof. intros Hm Hs. specialize (Hm s Hs). unfold wp. by destruct (m s). Qed.
End Stable.

(** The frame of a context operation with I/O. *)
Definition ctx_view `{WolfCrypt} {W V} (u : WOLFSPDM_CTX -> V) (s : WOLFSPDM_CTX * W) : V := u s.1.

Lemma keeps_on_ctx `{WolfCrypt} {W V A} (u : WOLFSPDM_CTX -> V) (m : M WOLFSPDM_CTX A) :
  keeps u m -> keeps (ctx_view (W := W) u) (on_ctx m).
Proof. by apply keeps_zoom. Qed.

Lemma stable_on_ctx `{WolfCrypt} {W A} (P : WOLFSPDM_CTX -> Prop) (m : M WOLFSPDM_CTX A) :
  stable P m -> stable (fun s : WOLFSPDM_CTX * W => P s.1) (on_ctx m).
Proof. intros Hm [c w] Hc. specialize (Hm c Hc). unfold on_ctx, zoom. by destruct (m _). Qed.

Create HintDb keeps.

(** One construct; a call is unfolded unless the database knows it. *)
Ltac keeps_head m := match m with ?f _ => keeps_head f | _ => m end.
Ltac keeps_step :=
  lazymatch goal with
  | |- forall _, _ => intros ?
  | |- keeps _ (ret _) => apply keeps_ret
  | |- keeps _ (fail _) => apply keeps_fail
  | |- keeps _ ub => apply keeps_ub
  | |- keeps _ get => apply keeps_get
  | |- keeps _ (modify _) => apply keeps_modify; intros ?; repeat case_match; reflexivity
  | |- keeps _ (bind _ _) => apply keeps_bind
  | |- keeps _ (check _ _) => apply keeps_check
  | |- keeps _ (when _ _) => apply keeps_when
  | |- keeps _ (lift_opt _ _) => apply keeps_lift_opt
  | |- keeps _ (rd _ _) => apply keeps_rd
  | |- keeps _ (rd_sub _ _ _) => apply keeps_rd_sub
  | |- keeps _ (wr _ _ _) => apply keeps_wr
  | |- keeps _ (on_err _ _) => apply keeps_on_err
  | |- keeps _ (try _) => apply keeps_try
  | |- keeps (ctx_view _) (on_ctx _) => apply keeps_on_ctx
  | |- keeps _ (let x := ?a in _) => cbv zeta
  | |- keeps _ (match ?x with _ => _ end) => destruct x
  | |- keeps _ ?m => first [ solve [auto 2 with keeps nocore] | let f := keeps_head m in unfold f; cbv beta ]
  end.
Ltac keeps_go := repeat keeps_step.

(** ** The stored measurements *)

Definition meas_view `{WolfCrypt} (c : WOLFSPDM_CTX) := (c.(measRecord), c.(measRecordLen), c.(measBlockCount)).

Section MeasFrame.
Context `{WolfCrypt} `{Config}.
Notation mkeeps m := (keeps meas_view m).

(** *** Loops *)

Lemma version_scan_keeps buf maxVer n i h : mkeeps (version_scan buf maxVer n i h).
Proof. revert i h. induction n as [|n IH]; intros; cbn [version_scan]; keeps_go; apply IH. Qed.

Lemma meas_walk_keeps n buf off e : mkeeps (meas_walk n buf off e).
Proof. revert off. induction n as [|n IH]; intros; cbn [meas_walk]; keeps_go; apply IH. Qed.

Lemma meas_block_off_keeps n rec off : mkeeps (meas_block_off n rec off).
Proof. revert off. induction n as [|n IH]; intros; cbn [meas_block_off]; keeps_go; apply IH. Qed.

Lemma alg_walk_keeps n c buf off a : mkeeps (alg_walk n c buf off a).
Proof. revert off a. induction n as [|n IH]; intros; cbn [alg_walk]; keeps_go; apply IH. Qed.

Lemma chain_walk_keeps n chain pos k : mkeeps (chain_walk n chain pos k).
Proof. revert pos k. induction n as [|n IH]; intros; cbn [chain_walk]; keeps_go; apply IH. Qed.
End MeasFrame.

#[export] Hint Resolve version_scan_keeps meas_walk_keeps meas_block_off_keeps
  alg_walk_keeps chain_walk_keeps : keeps.

Section MeasFrameIO.
Context `{WolfCrypt} `{Config} {W : Type} `{!Transport W}.
Notation mkeeps m := (keeps (ctx_view (W := W) meas_view) m).

Lemma call_io_keeps tx cap : mkeeps (call_io tx cap).
Proof.
  intros [c w]. unfold call_io. destruct (io_call _ _ _ _ _ _) as [w' [rx|]]; [|done].
  by destruct (len rx >? cap).
Qed.
Hint Resolve call_io_keeps : keeps.

Lemma SendReceive_keeps tx n : mkeeps (wolfSPDM_SendReceive tx n).
Proof. keeps_go. Qed.
Hint Resolve SendReceive_keeps : keeps.

Lemma ChunkXfer_keeps secured req n : mkeeps (wolfSPDM_ChunkXfer secured req n).
Proof. keeps_go. Qed.
Hint Resolve ChunkXfer_keeps : keeps.

Lemma chunk_send_loop_keeps fuel secured limit req cap handle sent seq :
  mkeeps (chunk_send_loop fuel secured limit req cap handle sent seq).
Proof.
  revert sent seq. induction fuel as [|n IH]; intros; cbn [chunk_send_loop]; keeps_go; apply IH.
Qed.

Lemma chunk_get_loop_keeps fuel secured handle cap rspSz total seq rsp :
  mkeeps (chunk_get_loop fuel secured handle cap rspSz total seq rsp).
Proof.
  revert total seq rsp. induction fuel as [|n IH]; intros; cbn [chunk_get_loop]; keeps_go; apply IH.
Qed.
Hint Resolve chunk_send_loop_keeps chunk_get_loop_keeps : keeps.

Lemma ChunkExchange_keeps secured req n : mkeeps (wolfSPDM_ChunkExchange secured req n).
Proof. keeps_go. Qed.
Hint Resolve ChunkExchange_keeps : keeps.
Lemma ClearExchange_keeps req n : mkeeps (wolfSPDM_ClearExchange req n).
Proof. keeps_go. Qed.
Lemma SecuredExchange_keeps req n : mkeeps (wolfSPDM_SecuredExchange req n).
Proof. keeps_go. Qed.
Hint Resolve ClearExchange_keeps SecuredExchange_keeps : keeps.

Lemma cert_loop_keeps fuel slot reqLen off rem : mkeeps (cert_loop fuel slot reqLen off rem).
Proof.
  revert off rem. induction fuel as [|n IH]; intros; cbn [cert_loop]; keeps_go; apply IH.
Qed.

Lemma SendData_keeps data : mkeeps (wolfSPDM_SendData data).
Proof.
  unfold wolfSPDM_SendData. keeps_go. intros [c w].
  by destruct (io_call _ _ _ _ _ _) as [w' [rx|]].
Qed.
End MeasFrameIO.

#[export] Hint Resolve call_io_keeps SendReceive_keeps ChunkXfer_keeps chunk_send_loop_keeps
  chunk_get_loop_keeps ChunkExchange_keeps ClearExchange_keeps SecuredExchange_keeps
  cert_loop_keeps SendData_keeps : keeps.

(** Well-formed stored measurements survive whatever does not touch them, and
    a reset empties them. *)
Section MeasStable.
Context `{WolfCrypt} `{Config} {W : Type} `{!Transport W}.

Lemma meas_ok_view c c' : meas_view c' = meas_view c -> meas_ok c -> meas_ok c'.
Proof. unfold meas_ok. by intros [= -> -> ->]. Qed.

Lemma meas_stable {A} (m : M WOLFSPDM_CTX A) : keeps meas_view m -> stable meas_ok m.
Proof. apply keeps_stable. intros. by eapply meas_ok_view. Qed.

Lemma meas_stable_io {A} (m : M (WOLFSPDM_CTX * W) A) :
  keeps (ctx_view meas_view) m -> stable (fun s : WOLFSPDM_CTX * W => meas_ok s.1) m.
Proof. apply keeps_stable. intros. by eapply meas_ok_view. Qed.

Lemma ResetSession_stable : stable meas_ok wolfSPDM_ResetSession.
Proof.
  unfold wolfSPDM_ResetSession. do 6 (apply stable_bind; [apply meas_stable; keeps_go|intros []]).
  apply stable_bind; [|intros []; apply meas_stable; keeps_go].
  intros c _. apply no_meas_ok.
Qed.

Lemma Connect_stable : stable (fun s : WOLFSPDM_CTX * W => meas_ok s.1) wolfSPDM_Connect.
Proof.
  unfold wolfSPDM_Connect. do 3 (apply stable_bind; [apply meas_stable_io; keeps_go|intros ?]).
  apply stable_bind; [apply stable_on_ctx, ResetSession_stable|intros []].
  apply meas_stable_io. keeps_go.
Qed.

Lemma Disconnect_stable : stable (fun s : WOLFSPDM_CTX * W => meas_ok s.1) wolfSPDM_Disconnect.
Proof.
  unfold wolfSPDM_Disconnect. apply stable_bind; [apply meas_stable_io; keeps_go|intros ctx].
  apply stable_bind; [apply stable_on_err|intros []]; intros;
    try apply stable_on_ctx, ResetSession_stable.
  apply meas_stable_io. keeps_go.
Qed.
End MeasStable.
