(* ===== verification/Api.v ===== *)
(** * The application's view: any sequence of calls of the public functions

    [api_call] has a constructor per public function of spdm.h, spdm_psk.h,
    spdm_tcg.h and the vendor headers that works on a requester context, with
    its arguments; [run_call] makes the call.  A function that only reads the
    context is a call too.  An application is a list of calls between
    [wolfSPDM_Init] and [wolfSPDM_Free] that goes on after a failed call. *)
From Stdlib Require Import ZArith Lia.
From stdpp Require Import base tactics list numbers option.
From S2P Require Import Prelude Types Bytes Crypt Context Transcript Kdf CryptoOps Transport.
From S2P Require Import Secured Msg Chunk Cert Attest Session Standard Tcg Psk Connect Vendor Frame.

Inductive api_call : Type :=
| SetIO (cb userCtx : Z)
| HasIO
| SetMode (mode : Z)
| GetMode
| SetResponderPubKey (pubKey : bytes)
| SetRequesterKeyPair (privKey pubKey : bytes)
| SetRequesterKeyTPMT (tpmtPub : bytes)
| SetMaxVersion (maxVersion : Z)
| SetRequesterSessionId (id : Z)
| SetTrustedCAs (derCerts : bytes)
| AllowUntrustedCerts (allow : Z)
| SetKeyExchangePref (advDhe kemMask : Z)
| SetPSK (psk : bytes) (hint : option bytes)
| SetDebug (enable : Z)
| BuildPskExchange (bufSz : Z)
| ParsePskExchangeRsp (buf : bytes)
| BuildPskFinish (bufSz : Z)
| ParsePskFinishRsp (buf : bytes)
| DeriveHandshakeKeysPsk (th1Hash : bytes)
| Connect
| ConnectTCG
| ConnectPsk
| IsConnected
| Disconnect
| GetVersion
| GetCapabilities
| NegotiateAlgorithms
| GetDigests
| GetCertificate (slotId : Z)
| ValidateCertChain
| KeyExchange
| Finish
| SecuredExchange (cmd : bytes) (rspSz : Z)
| EncryptMessage (plain : bytes) (encSz : Z)
| DecryptMessage (enc : bytes) (plainSz : Z)
| SendData (data : bytes)
| ReceiveData (dataSz : Z)
| GetMeasurements (operation : Z) (requestSignature : bool)
| GetMeasurementCount
| GetMeasurementBlock (blockIdx : Z) (value : option Z)
| Challenge (slotId measHashType : Z)
| Heartbeat
| KeyUpdate (updateAll : bool)
| GetSessionId
| GetNegotiatedVersion
| GetVersion_Negotiated
| GetLastPeerError
| GetConnectionHandle
| GetFipsIndicator
| VendorCmdClear (vdCode : bytes) (payload : option bytes) (wanted : bool)
| VendorCmdSecured (vdCode : bytes) (payload : option bytes)
| TCG_GetPubKey (pubKeySz : Z)
| TCG_GivePubKey (pubKey : bytes)
| TCG_GetCapabilities (capsFlags : Z)
| TCG_NegotiateAlgorithms
| Nuvoton_GetStatus
| Nations_GetStatus
| Infineon_GetStatus
| SetOnlyMode (lock : Z)
| PskSet (psk : bytes)
| PskClear (clearAuth : bytes)
| PskClearWithVCA (clearAuth : bytes).

(** What a call gives back beside its return code. *)
Inductive api_value : Type :=
| v_none
| v_int (n : Z)
| v_bytes (b : bytes)
| v_message (vdCode payload : bytes)
| v_block (rc index type n : Z) (value : bytes)
| v_nuvoton (s : Nuvoton.WOLFSPDM_NUVOTON_STATUS)
| v_nations (s : Nations.WOLFSPDM_NATIONS_STATUS)
| v_infineon (s : Infineon.WOLFSPDM_INFINEON_STATUS).

Section ApiDefs.
Context `{WolfCrypt} `{Config} {W : Type} `{!Transport W}.
Notation IOM := (M (WOLFSPDM_CTX * W)).

Definition done (m : IOM unit) : IOM api_value := m ;;; ret v_none.
Definition giving {A} (f : A -> api_value) (m : IOM A) : IOM api_value :=
  let* a := m in ret (f a).
Definition reading (f : WOLFSPDM_CTX -> Z) : IOM api_value :=
  let* ctx := get_ctx in ret (v_int (f ctx)).

Definition run_call (call : api_call) : IOM api_value :=
  match call with
  | SetIO cb u => done (on_ctx (wolfSPDM_SetIO cb u))
  | HasIO => reading (fun c => if wolfSPDM_HasIO c then 1 else 0)
  | SetMode m => done (on_ctx (wolfSPDM_SetMode m))
  | GetMode => reading wolfSPDM_GetMode
  | SetResponderPubKey k => done (on_ctx (wolfSPDM_SetResponderPubKey k))
  | SetRequesterKeyPair d k => done (on_ctx (wolfSPDM_SetRequesterKeyPair d k))
  | SetRequesterKeyTPMT k => done (on_ctx (wolfSPDM_SetRequesterKeyTPMT k))
  | SetMaxVersion v => done (on_ctx (wolfSPDM_SetMaxVersion v))
  | SetRequesterSessionId i => done (on_ctx (wolfSPDM_SetRequesterSessionId i))
  | SetTrustedCAs d => done (on_ctx (wolfSPDM_SetTrustedCAs d))
  | AllowUntrustedCerts a => done (on_ctx (wolfSPDM_AllowUntrustedCerts a))
  | SetKeyExchangePref d k => done (on_ctx (wolfSPDM_SetKeyExchangePref d k))
  | SetPSK k h => done (on_ctx (wolfSPDM_SetPSK k h))
  | SetDebug e => done (on_ctx (wolfSPDM_SetDebug e))
  | BuildPskExchange n => giving v_bytes (on_ctx (wolfSPDM_BuildPskExchange n))
  | ParsePskExchangeRsp b => done (on_ctx (wolfSPDM_ParsePskExchangeRsp b))
  | BuildPskFinish n => giving v_bytes (on_ctx (wolfSPDM_BuildPskFinish n))
  | ParsePskFinishRsp b => done (on_ctx (wolfSPDM_ParsePskFinishRsp b))
  | DeriveHandshakeKeysPsk th => done (on_ctx (wolfSPDM_DeriveHandshakeKeysPsk th))
  | Connect => done wolfSPDM_Connect
  | ConnectTCG => done wolfSPDM_ConnectTCG
  | ConnectPsk => done wolfSPDM_ConnectPsk
  | IsConnected => reading wolfSPDM_IsConnected
  | Disconnect => done wolfSPDM_Disconnect
  | GetVersion => done wolfSPDM_GetVersion
  | GetCapabilities => done wolfSPDM_GetCapabilities
  | NegotiateAlgorithms => done wolfSPDM_NegotiateAlgorithms
  | GetDigests => done wolfSPDM_GetDigests
  | GetCertificate s => done (wolfSPDM_GetCertificate s)
  | ValidateCertChain => done (on_ctx wolfSPDM_ValidateCertChain)
  | KeyExchange => done wolfSPDM_KeyExchange
  | Finish => done wolfSPDM_Finish
  | SecuredExchange cmd n => giving v_bytes (wolfSPDM_SecuredExchange cmd n)
  | EncryptMessage p n => giving v_bytes (on_ctx (wolfSPDM_EncryptMessage p n))
  | DecryptMessage e n => giving v_bytes (on_ctx (wolfSPDM_DecryptMessage e n))
  | SendData d => done (wolfSPDM_SendData d)
  | ReceiveData n => giving v_bytes (wolfSPDM_ReceiveData n)
  | GetMeasurements op sg => done (wolfSPDM_GetMeasurements op sg)
  | GetMeasurementCount => reading wolfSPDM_GetMeasurementCount
  | GetMeasurementBlock i v =>
      giving (fun '(rc, i, t, n, v) => v_block rc i t n v)
        (on_ctx (wolfSPDM_GetMeasurementBlock i v))
  | Challenge s h => done (wolfSPDM_Challenge s h)
  | Heartbeat => done wolfSPDM_Heartbeat
  | KeyUpdate all => done (wolfSPDM_KeyUpdate all)
  | GetSessionId => reading wolfSPDM_GetSessionId
  | GetNegotiatedVersion => reading wolfSPDM_GetNegotiatedVersion
  | GetVersion_Negotiated => reading wolfSPDM_GetVersion_Negotiated
  | GetLastPeerError => reading wolfSPDM_GetLastPeerError
  | GetConnectionHandle => reading wolfSPDM_GetConnectionHandle
  | GetFipsIndicator => reading wolfSPDM_GetFipsIndicator
  | VendorCmdClear code p wanted =>
      giving (fun '(code, p) => v_message code p)
        (wolfSPDM_TCG_VendorCmdClear code p (len (opt_bytes p)) wanted)
  | VendorCmdSecured code p => done (wolfSPDM_TCG_VendorCmdSecured code p (len (opt_bytes p)))
  | TCG_GetPubKey n => giving v_bytes (wolfSPDM_TCG_GetPubKey n)
  | TCG_GivePubKey k => done (wolfSPDM_TCG_GivePubKey k)
  | TCG_GetCapabilities f => done (wolfSPDM_TCG_GetCapabilities f)
  | TCG_NegotiateAlgorithms => done wolfSPDM_TCG_NegotiateAlgorithms
  | Nuvoton_GetStatus => giving v_nuvoton Nuvoton.wolfSPDM_Nuvoton_GetStatus
  | Nations_GetStatus => giving v_nations Nations.wolfSPDM_Nations_GetStatus
  | Infineon_GetStatus => giving v_infineon Infineon.wolfSPDM_Infineon_GetStatus
  | SetOnlyMode l => done (set_only_mode l)
  | PskSet k => done (Nations.wolfSPDM_Nations_PskSet k)
  | PskClear a => done (Nations.wolfSPDM_Nations_PskClear a)
  | PskClearWithVCA a => done (Nations.wolfSPDM_Nations_PskClearWithVCA a)
  end.

(** The outcome of each call, in order. *)
Fixpoint run_calls (calls : list api_call) : IOM (list (api_value + Z)) :=
  match calls with
  | [] => ret []
  | call :: rest =>
      let* r := try (run_call call) in
      let* rs := run_calls rest in
      ret (r :: rs)
  end.

Definition application (calls : list api_call) : IOM (list (api_value + Z)) :=
  on_ctx wolfSPDM_Init ;;;
  let* rs := run_calls calls in
  on_ctx wolfSPDM_Free ;;;
  ret rs.

(** The calls that store, drop or read measurements. *)
Definition measuring (call : api_call) : bool :=
  match call with
  | Connect | Disconnect | GetMeasurements _ _ => true
  | _ => false
  end.

Lemma run_call_keeps call : measuring call = false ->
  keeps (ctx_view (W := W) meas_view) (run_call call).
Proof.
  destruct call; intros; try discriminate; cbn [run_call]; keeps_go.
Qed.
End ApiDefs.

(** ** Every call is safe *)

Section ApiLemmas.
Context `{WolfCrypt} `{Config} `{!CryptSizes} `{!RecordFits} `{!TranscriptFits}
  {W : Type} `{!Transport W} `{!TransportBytes}.
Implicit Types c : WOLFSPDM_CTX.
Notation IOM := (M (WOLFSPDM_CTX * W)).

(** Arguments within the C types of the parameters; a message is bytes, a
    vendor code has its eight. *)
Definition call_ok (call : api_call) : Prop :=
  match call with
  | SetRequesterSessionId id => 0 <= id < 2 ^ 16
  | SecuredExchange _ rspSz => 0 <= rspSz
  | DecryptMessage enc _ => is_bytes enc
  | ParsePskExchangeRsp buf => is_bytes buf
  | DeriveHandshakeKeysPsk th => len th = WOLFSPDM_HASH_SIZE
  | VendorCmdClear code _ _ | VendorCmdSecured code _ => len code = WOLFSPDM_VDCODE_LEN
  | _ => True
  end.

Definition safe {A} (m : IOM A) (s : WOLFSPDM_CTX * W) : Prop :=
  wp m (fun _ s' => ctx_wf s'.1) (fun rc s' => rc < 0 /\ ctx_wf s'.1) s.

Lemma safe_done m s : safe m s -> safe (done m) s.
Proof. intros Hm. unfold done. by apply wp_bind. Qed.
Lemma safe_giving {A} (f : A -> api_value) m s : safe m s -> safe (giving f m) s.
Proof. intros Hm. unfold giving. by apply wp_bind. Qed.
Lemma safe_on_ctx {A} (m : M WOLFSPDM_CTX A) c (w : W) :
  wp m (fun _ c' => ctx_wf c') (fun rc c' => rc < 0 /\ ctx_wf c') c -> safe (on_ctx m) (c, w).
Proof. intros Hm. by apply wp_zoom. Qed.
Lemma safe_reading f c (w : W) : ctx_wf c -> safe (reading f) (c, w).
Proof. intros. unfold reading. by io_go. Qed.

(** A setter: guards, then updates that keep the context well-formed. *)
Ltac setter := apply safe_on_ctx; wp_go; try (split; [lia|assumption]); try wf_tac.

Lemma setters_safe c (w : W) : ctx_wf c ->
  (forall cb u, safe (on_ctx (wolfSPDM_SetIO cb u)) (c, w)) /\
  (forall m, safe (on_ctx (wolfSPDM_SetMode m)) (c, w)) /\
  (forall k, safe (on_ctx (wolfSPDM_SetResponderPubKey k)) (c, w)) /\
  (forall d k, safe (on_ctx (wolfSPDM_SetRequesterKeyPair d k)) (c, w)) /\
  (forall k, safe (on_ctx (wolfSPDM_SetRequesterKeyTPMT k)) (c, w)) /\
  (forall v, safe (on_ctx (wolfSPDM_SetMaxVersion v)) (c, w)) /\
  (forall i, 0 <= i < 2 ^ 16 -> safe (on_ctx (wolfSPDM_SetRequesterSessionId i)) (c, w)) /\
  (forall d, safe (on_ctx (wolfSPDM_SetTrustedCAs d)) (c, w)) /\
  (forall a, safe (on_ctx (wolfSPDM_AllowUntrustedCerts a)) (c, w)) /\
  (forall d k, safe (on_ctx (wolfSPDM_SetKeyExchangePref d k)) (c, w)) /\
  (forall k h, safe (on_ctx (wolfSPDM_SetPSK k h)) (c, w)) /\
  (forall e, safe (on_ctx (wolfSPDM_SetDebug e)) (c, w)).
Proof.
  intros Hwf. wf_facts Hwf. split_and!; intros.
  - unfold wolfSPDM_SetIO. setter.
  - unfold wolfSPDM_SetMode. setter.
  - pose proof (len_nonneg k). unfold wolfSPDM_SetResponderPubKey. setter.
  - pose proof (len_nonneg d). pose proof (len_nonneg k). unfold wolfSPDM_SetRequesterKeyPair. setter.
  - pose proof (len_nonneg k). unfold wolfSPDM_SetRequesterKeyTPMT. setter.
  - unfold wolfSPDM_SetMaxVersion. setter.
  - unfold wolfSPDM_SetRequesterSessionId. setter.
  - pose proof (len_nonneg d). unfold wolfSPDM_SetTrustedCAs. setter.
  - unfold wolfSPDM_AllowUntrustedCerts. setter.
  - unfold wolfSPDM_SetKeyExchangePref. setter.
  - apply safe_on_ctx. pose proof (psk_set_exact k h c) as Hk. unfold wp.
    destruct (wolfSPDM_SetPSK k h c); [|destruct Hk as (-> & -> & _); split; [lia|done]|done].
    destruct Hk as (? & ? & ->). pose proof (len_nonneg (opt_bytes h)).
    assert (forall (b : bytes) n, len b <= n -> len (b ++ zeros (n - len b)) = n) as Hp
      by (intros; rewrite len_app, len_zeros; lia).
    pose proof (Hp k WOLFSPDM_PSK_MAX_SIZE ltac:(lia)).
    pose proof (Hp (opt_bytes h) WOLFSPDM_PSK_HINT_MAX ltac:(lia)). cbv beta. wf_tac.
  - unfold wolfSPDM_SetDebug. setter.
Qed.

Lemma connect_refused_err c rc : connect_refused c = Some rc -> rc < 0.
Proof. unfold connect_refused. repeat case_match; by intros [= <-]. Qed.

Lemma psk_messages_safe c (w : W) : ctx_wf c ->
  (forall n, safe (on_ctx (wolfSPDM_BuildPskExchange n)) (c, w)) /\
  (forall b, is_bytes b -> safe (on_ctx (wolfSPDM_ParsePskExchangeRsp b)) (c, w)) /\
  (forall n, safe (on_ctx (wolfSPDM_BuildPskFinish n)) (c, w)) /\
  (forall b, safe (on_ctx (wolfSPDM_ParsePskFinishRsp b)) (c, w)) /\
  (forall th, len th = WOLFSPDM_HASH_SIZE -> safe (on_ctx (wolfSPDM_DeriveHandshakeKeysPsk th)) (c, w)).
Proof.
  intros Hwf. split_and!; intros; apply safe_on_ctx.
  - by apply BuildPskExchange_wp.
  - by apply ParsePskExchangeRsp_wp.
  - by apply BuildPskFinish_wp.
  - by apply ParsePskFinishRsp_wp.
  - apply DeriveHandshakeKeysPsk_wp; auto; intros; split; (lia || done).
Qed.

Lemma connections_safe c (w : W) : ctx_wf c ->
  safe wolfSPDM_Connect (c, w) /\ safe wolfSPDM_ConnectTCG (c, w) /\
  safe wolfSPDM_ConnectPsk (c, w) /\ safe wolfSPDM_Disconnect (c, w).
Proof.
  intros Hwf. split_and!; unfold safe.
  - apply Connect_wp; eauto using connect_refused_err.
  - apply ConnectTCG_wp; eauto using tcg_refused_err.
  - apply ConnectPsk_wp; eauto using psk_refused_err.
  - apply Disconnect_wp; auto. intros. split; [lia|done].
Qed.

Lemma ParseHeartbeatAck_wp buf c (Q : unit -> WOLFSPDM_CTX -> Prop) : ctx_wf c ->
  (len buf = 4 -> at_ buf 1 = SPDM_HEARTBEAT_ACK -> Q tt c) ->
  wp (wolfSPDM_ParseHeartbeatAck buf) Q (fun rc c' => rc < 0 /\ ctx_wf c') c.
Proof.
  intros Hwf HQ. unfold wolfSPDM_ParseHeartbeatAck, SPDM_CHECK_PARSE_ARGS.
  wp_step; wp_step; [by split; [lia|]|]. wp_step. apply CHECK_RESPONSE_wp; [lia| |..].
  - intros Hc. wp_go; try done. apply HQ; [lia|done].
  - intros e _. split; [lia|wf_tac].
  - done.
Qed.

Lemma Heartbeat_wp c (w : W) (Q : unit -> WOLFSPDM_CTX * W -> Prop) : ctx_wf c ->
  (forall c' w', ctx_wf c' -> c.(state) = WOLFSPDM_STATE_CONNECTED -> xfer true c c' -> Q tt (c', w')) ->
  wp wolfSPDM_Heartbeat Q (fun rc s => rc < 0 /\ ctx_wf s.1) (c, w).
Proof.
  intros Hwf HQ. unfold wolfSPDM_Heartbeat. io_step. io_step.
  apply CheckSessionCap_wp; [intros Hst _|intros; split; [lia|done]..].
  io_step. io_step. unfold wolfSPDM_BuildHeartbeat, wolfSPDM_BuildSimpleMsg, SPDM_CHECK_BUILD_ARGS.
  wp_step; wp_step; [done|]. do 2 wp_step. wp_step. cbv beta. io_step.
  eapply wp_mono; [apply SecuredExchange_wp; [done|lia]| |].
  - intros rx [c1 w1] (_ & _ & _ & Hwf1 & Hx). apply wp_zoom, ParseHeartbeatAck_wp; [done|].
    intros _ _. by apply HQ.
  - intros rc s [(_ & -> & ->)|(_ & Hrc & Hwf1 & _)]; [split; [lia|done]|done].
Qed.

Lemma Heartbeat_safe c (w : W) : ctx_wf c -> safe wolfSPDM_Heartbeat (c, w).
Proof. intros. by apply Heartbeat_wp. Qed.

Lemma handshake_safe c (w : W) : ctx_wf c ->
  safe wolfSPDM_GetVersion (c, w) /\ safe wolfSPDM_GetCapabilities (c, w) /\
  safe wolfSPDM_NegotiateAlgorithms (c, w) /\ safe wolfSPDM_GetDigests (c, w) /\
  (forall slot, safe (wolfSPDM_GetCertificate slot) (c, w)) /\
  safe (on_ctx wolfSPDM_ValidateCertChain) (c, w) /\
  safe wolfSPDM_KeyExchange (c, w) /\ safe wolfSPDM_Finish (c, w) /\
  (forall all, safe (wolfSPDM_KeyUpdate all) (c, w)).
Proof.
  intros Hwf. split_and!; unfold safe; intros.
  - apply ExchangeMsg_wp; [apply _|done|lia|done|auto|auto].
  - apply ExchangeMsg_wp; [apply _|done|lia|done|auto|auto].
  - apply NegotiateAlgorithms_wp; auto.
  - apply GetDigests_wp; auto.
  - apply GetCertificate_wp; auto.
  - apply safe_on_ctx, ValidateCertChain_wp; auto.
  - apply KeyExchange_wp; auto.
  - apply Finish_wp; auto. split; [lia|done].
  - apply KeyUpdate_wp; auto. intros rc c' w' (? & ? & _). auto.
Qed.

Lemma SecuredExchange_safe cmd n c (w : W) : ctx_wf c -> 0 <= n ->
  wp (wolfSPDM_SecuredExchange cmd n) (fun rx s => is_bytes rx /\ ctx_wf s.1)
    (fun rc s => rc < 0 /\ ctx_wf s.1) (c, w).
Proof.
  intros Hwf Hn. eapply wp_mono; [by apply SecuredExchange_wp|..].
  - intros rx s (_ & ? & _ & ? & _). done.
  - intros rc s [(_ & -> & ->)|(_ & ? & ? & _)]; [split; [lia|done]|done].
Qed.

Lemma EncryptRecord_safe app p n c : ctx_wf c ->
  wp (wolfSPDM_EncryptRecord app p n) (fun _ c' => ctx_wf c') (fun rc c' => rc < 0 /\ ctx_wf c') c.
Proof.
  intros Hwf. apply EncryptRecord_wp; [done| |].
  - intros. by eapply seq_sent_wf, rng_step_wf.
  - intros. split; [done|]. by eapply rng_step_wf.
Qed.

Lemma DecryptRecord_safe app e n c : ctx_wf c -> is_bytes e ->
  wp (wolfSPDM_DecryptRecord app e n) (fun p c' => is_bytes p /\ (app = true -> wolfSPDM_IsTcgMode c = false -> 0 < len p) /\ ctx_wf c')
    (fun rc c' => rc < 0 /\ ctx_wf c') c.
Proof.
  intros Hwf He. apply DecryptRecord_wp; [done|done| |].
  - intros. split_and!; auto using seq_rcvd_wf.
  - intros rc c' ? [-> | ->]; auto using seq_rcvd_wf.
Qed.

Lemma records_safe c (w : W) : ctx_wf c ->
  (forall p n, safe (on_ctx (wolfSPDM_EncryptMessage p n)) (c, w)) /\
  (forall e n, is_bytes e -> safe (on_ctx (wolfSPDM_DecryptMessage e n)) (c, w)).
Proof.
  intros Hwf. split; intros; apply safe_on_ctx;
    [unfold wolfSPDM_EncryptMessage|unfold wolfSPDM_DecryptMessage];
    do 2 (wp_step; cbv beta); (wp_step; wp_step; [split; [lia|done]|]).
  - by apply EncryptRecord_safe.
  - eapply wp_mono; [by apply DecryptRecord_safe|by intros p c' (_ & _ & ?)|done].
Qed.

Lemma AppDataReady_safe c (w : W) (Q : unit -> WOLFSPDM_CTX * W -> Prop) : ctx_wf c ->
  (wolfSPDM_IsTcgMode c = false -> Q tt (c, w)) ->
  wp (wolfSPDM_AppDataReady c) Q (fun rc s => rc < 0 /\ ctx_wf s.1) (c, w).
Proof. intros Hwf HQ. unfold wolfSPDM_AppDataReady. wp_go; try (split; [lia|done]). auto. Qed.

Lemma SendData_safe d c (w : W) : ctx_wf c -> safe (wolfSPDM_SendData d) (c, w).
Proof.
  intros Hwf. pose proof (len_nonneg d). unfold wolfSPDM_SendData, safe. io_step.
  io_step; [split; [lia|done]|]. do 2 io_step. io_step. io_step; [split; [lia|done]|].
  do 2 io_step. io_step. apply AppDataReady_safe; [done|intros _]. io_step. io_step.
  eapply wp_mono; [by apply EncryptRecord_safe| |done]. intros enc c1 Hwf1. unfold wp.
  by destruct (io_call _ _ _ _ _ _) as [w' [rx|]].
Qed.

Lemma ReceiveData_safe n c (w : W) : ctx_wf c -> safe (wolfSPDM_ReceiveData n) (c, w).
Proof.
  intros Hwf. unfold wolfSPDM_ReceiveData, safe. do 2 io_step. io_step.
  apply AppDataReady_safe; [done|intros Htcg]. io_step.
  apply call_io_wp; [intros w1 rx Hrx _ _|by split].
  io_step. io_step. eapply wp_mono; [by apply DecryptRecord_safe| |done].
  intros p c1 (Hp & Hl & Hwf1). specialize (Hl eq_refl Htcg). io_go; try (split; [lia|done]); try done.
  split; [lia|]. cbn [fst]. wf_tac.
Qed.

Lemma attestation_safe c (w : W) : ctx_wf c ->
  (forall op sg, safe (wolfSPDM_GetMeasurements op sg) (c, w)) /\
  (meas_ok c -> forall i v, safe (on_ctx (wolfSPDM_GetMeasurementBlock i v)) (c, w)) /\
  (forall slot h, safe (wolfSPDM_Challenge slot h) (c, w)).
Proof.
  intros Hwf. split_and!; intros; unfold safe.
  - apply GetMeasurements_wp; auto. intros rc s (? & ? & _). done.
  - apply safe_on_ctx, GetMeasurementBlock_wp; auto. split; [lia|done].
  - apply Challenge_wp; auto. intros rc s (? & ? & _). done.
Qed.

(** The status queries and the provisioning of a key. *)
Lemma clear_cmd_safe {B} code p n wanted (k : bytes * bytes -> IOM B) c (w : W) :
  ctx_wf c -> len code = WOLFSPDM_VDCODE_LEN -> n = len (opt_bytes p) ->
  (forall m c' w', ctx_wf c' -> safe (k m) (c', w')) ->
  safe (let* m := wolfSPDM_TCG_VendorCmdClear code p n wanted in k m) (c, w).
Proof.
  intros Hwf Hc -> Hk. unfold safe. apply wp_bind.
  apply VendorCmdClear_wp; [done|done|apply len_nonneg|done| |done]. intros. by apply Hk.
Qed.

Lemma status_safe c (w : W) : ctx_wf c ->
  safe Nuvoton.wolfSPDM_Nuvoton_GetStatus (c, w) /\ safe Nations.wolfSPDM_Nations_GetStatus (c, w) /\
  safe Infineon.wolfSPDM_Infineon_GetStatus (c, w).
Proof.
  intros Hwf. split_and!; apply clear_cmd_safe; try done; intros [code p] c' w' Hwf'; unfold safe;
    io_go; done || (split; [lia|done]).
Qed.

Lemma secured_cmd_safe code p n c (w : W) : ctx_wf c -> len code = WOLFSPDM_VDCODE_LEN ->
  n = len (opt_bytes p) -> safe (wolfSPDM_TCG_VendorCmdSecured code p n) (c, w).
Proof.
  intros Hwf Hc ->. unfold safe. apply VendorCmdSecured_wp; auto using len_nonneg.
Qed.

Lemma vendor_safe c (w : W) : ctx_wf c ->
  (forall n, safe (wolfSPDM_TCG_GetPubKey n) (c, w)) /\
  (forall k, safe (wolfSPDM_TCG_GivePubKey k) (c, w)) /\
  (forall f, safe (wolfSPDM_TCG_GetCapabilities f) (c, w)) /\
  safe wolfSPDM_TCG_NegotiateAlgorithms (c, w) /\
  (forall l, safe (set_only_mode l) (c, w)).
Proof.
  intros Hwf. split_and!; intros.
  - apply GetPubKey_wp; auto.
  - unfold wolfSPDM_TCG_GivePubKey, safe. io_go; [split; [lia|done]|]. by apply secured_cmd_safe.
  - apply GetCapabilities_wp; auto.
  - apply NegotiateTcg_wp; auto.
  - unfold set_only_mode, safe. do 2 io_step. io_step. io_step; [split; [lia|done]|].
    by apply secured_cmd_safe.
Qed.

Lemma PskClear_safe a c (w : W) : ctx_wf c -> safe (Nations.wolfSPDM_Nations_PskClear a) (c, w).
Proof.
  intros Hwf. unfold Nations.wolfSPDM_Nations_PskClear, safe. io_step.
  io_step; [split; [lia|done]|]. by apply clear_cmd_safe.
Qed.

Lemma provisioning_safe c (w : W) : ctx_wf c ->
  (forall k, safe (Nations.wolfSPDM_Nations_PskSet k) (c, w)) /\
  (forall a, safe (Nations.wolfSPDM_Nations_PskClear a) (c, w)) /\
  (forall a, safe (Nations.wolfSPDM_Nations_PskClearWithVCA a) (c, w)).
Proof.
  intros Hwf. split_and!; intros.
  - unfold Nations.wolfSPDM_Nations_PskSet, safe. io_step.
    io_step; [split; [lia|done]|]. by apply clear_cmd_safe.
  - by apply PskClear_safe.
  - unfold Nations.wolfSPDM_Nations_PskClearWithVCA, safe. io_step.
    io_step; [split; [lia|done]|]. io_step.
    apply ExchangeMsg_wp; [apply _|done|lia|done| |auto]. intros c1 w1 Hwf1 _. io_step.
    apply GetCapabilities_wp; [done| |auto]. intros rsp c2 w2 Hwf2 _ _ _. io_step.
    apply NegotiateTcg_wp; [done| |auto]. intros. by apply PskClear_safe.
Qed.

(** ** The invariant of an application *)

Definition app_ok c : Prop := ctx_wf c /\ meas_ok c.

Lemma run_call_safe call c (w : W) : app_ok c -> call_ok call -> safe (run_call call) (c, w).
Proof.
  intros [Hwf Hm] Hc.
  pose proof (setters_safe c w Hwf). pose proof (psk_messages_safe c w Hwf).
  pose proof (connections_safe c w Hwf). pose proof (handshake_safe c w Hwf).
  pose proof (records_safe c w Hwf). pose proof (attestation_safe c w Hwf).
  pose proof (status_safe c w Hwf). pose proof (vendor_safe c w Hwf).
  pose proof (provisioning_safe c w Hwf). destruct_and?.
  destruct call; cbn [run_call call_ok] in *;
    (apply safe_done || apply safe_giving || (apply safe_reading; done)); auto.
  - eapply wp_mono; [by apply SecuredExchange_safe|by intros ? ? []|done].
  - by apply SendData_safe.
  - by apply ReceiveData_safe.
  - by apply Heartbeat_safe.
  - apply VendorCmdClear_wp; auto using len_nonneg.
  - by apply secured_cmd_safe.
Qed.

(** The stored measurements stay whole. *)
Lemma run_call_meas call c (w : W) : app_ok c -> call_ok call ->
  match run_call call (c, w) with Ok _ s | Err _ s => meas_ok s.1 | Ub => True end.
Proof.
  intros [Hwf Hm] Hc. destruct (measuring call) eqn:Hk.
  2: { by apply (meas_stable_io _ (run_call_keeps call Hk)). }
  assert (forall m : IOM unit, stable (fun s => meas_ok s.1) m ->
    stable (fun s : WOLFSPDM_CTX * W => meas_ok s.1) (done m)) as Hd
    by (intros m Hs; apply stable_bind; [exact Hs|intros _ s Hm'; exact Hm']).
  destruct call; try discriminate; cbn [run_call].
  - apply (Hd _ Connect_stable (c, w) Hm).
  - apply (Hd _ Disconnect_stable (c, w) Hm).
  - enough (wp (done (wolfSPDM_GetMeasurements operation requestSignature))
      (fun _ s => meas_ok s.1) (fun _ s => meas_ok s.1) (c, w)) as Hw
      by (unfold wp in Hw; by destruct (done _ _)).
    apply wp_bind, GetMeasurements_wp; [done|by intros ? ? ? ? ? (_ & ? & _)|].
    intros rc s (_ & _ & _ & [(_ & _ & ->)|[(_ & _ & _ & ->)|(_ & _ & Hb & Hl)]]); [done..|].
    unfold meas_ok. by rewrite Hb, Hl.
Qed.

Lemma run_call_ok call c (w : W) : app_ok c -> call_ok call ->
  wp (run_call call) (fun _ s => app_ok s.1) (fun rc s => rc < 0 /\ app_ok s.1) (c, w).
Proof.
  intros Ha Hc. pose proof (run_call_safe call c w Ha Hc) as Hs.
  pose proof (run_call_meas call c w Ha Hc) as Hm. unfold safe, wp, app_ok in *.
  destruct (run_call call (c, w)); tauto.
Qed.

(** An outcome: a value, or an error code. *)
Definition outcome_ok (r : api_value + Z) : Prop :=
  match r with inl _ => True | inr rc => rc < 0 end.

Lemma run_calls_ok calls c (w : W) : app_ok c -> Forall call_ok calls ->
  wp (run_calls calls) (fun rs s => app_ok s.1 /\ length rs = length calls /\ Forall outcome_ok rs)
    (fun _ _ => False) (c, w).
Proof.
  intros Ha Hc. revert c w Ha. induction Hc as [|call calls Hc _ IH]; intros c w Ha; cbn [run_calls].
  { by io_step. }
  assert (forall r s, outcome_ok r -> app_ok s.1 ->
    wp (let* rs := run_calls calls in ret (r :: rs))
      (fun rs s => app_ok s.1 /\ length rs = S (length calls) /\ Forall outcome_ok rs)
      (fun _ _ => False) s) as Hrest.
  { intros r [c1 w1] Hr Ha1. io_step. eapply wp_mono; [by apply IH| |done].
    intros rs s (? & Hl & ?). io_step. cbn [length]. rewrite Hl. auto. }
  io_step. io_step. eapply wp_mono; [by apply run_call_ok|..].
  - intros v s Hs. by apply Hrest.
  - intros rc s [Hrc Hs]. by apply Hrest.
Qed.

Lemma Free_wp c (Q : unit -> WOLFSPDM_CTX -> Prop) E : ctx_wf c -> Q tt zero_ctx ->
  wp wolfSPDM_Free Q E c.
Proof.
  intros Hwf HQ. unfold wolfSPDM_Free. apply wp_bind, FreeEphemeralKey_wp; [apply Hwf|].
  apply wp_bind, AttestFree_wp; [by apply eph_freed_wf|]. by wp_step.
Qed.

Lemma Init_ok c0 : match wolfSPDM_Init c0 with
  | Ok _ c => app_ok c
  | Err rc _ => rc = WOLFSPDM_E_CRYPTO_FAIL /\ wc_InitRng = None
  | Ub => False
  end.
Proof.
  assert (wp wolfSPDM_Init (fun _ c => meas_ok c)
    (fun rc _ => rc = WOLFSPDM_E_CRYPTO_FAIL /\ wc_InitRng = None) c0) as Hi.
  { unfold wolfSPDM_Init. wp_go; [|done]. unfold meas_ok, zero_ctx. ctx_simpl. done. }
  pose proof (Init_wp c0 (fun _ => ctx_wf) (fun _ _ => True)
    (fun c' Hwf _ => Hwf) (fun _ => I)) as Hw.
  unfold wp in Hi.
  unfold wp in Hw. by destruct (wolfSPDM_Init c0).
Qed.

(** C7: no sequence of calls breaks the requester.  An application that
    initialises a context, makes any calls of the public functions in any
    order - out of state, after failures, over any transport and against any
    peer, with well-typed arguments - and frees the context, never reaches
    undefined behaviour: every call returns a value or a negative code, every
    counter stays inside its array in between, and nothing is left in the
    context.  The only way it ends early is a generator that does not start. *)
Theorem requester_api_safe calls c0 (w : W) : Forall call_ok calls ->
  match application calls (c0, w) with
  | Ok rs s => s.1 = zero_ctx /\ length rs = length calls /\ Forall outcome_ok rs /\
      exists c s', app_ok c /\ wolfSPDM_Init c0 = Ok tt c /\
        run_calls calls (c, w) = Ok rs s' /\ app_ok s'.1
  | Err rc s => rc = WOLFSPDM_E_CRYPTO_FAIL /\ wc_InitRng = None
  | Ub => False
  end.
Proof.
  intros Hc. pose proof (Init_ok c0) as Hi. unfold application, bind, on_ctx, zoom. cbn [fst snd].
  destruct (wolfSPDM_Init c0) as [[] c|rc c|]; [|done..].
  pose proof (run_calls_ok calls c w Hi Hc) as Hr. unfold wp in Hr.
  destruct (run_calls calls (c, w)) as [rs [c1 w1]| |] eqn:Hrun; [|done..].
  destruct Hr as (Ha & Hl & Ho). cbn [fst snd] in *.
  pose proof (Free_wp c1 (fun _ c2 => c2 = zero_ctx) (fun _ _ => False) ltac:(by destruct Ha)
    ltac:(done)) as Hf. unfold wp in Hf.
  destruct (wolfSPDM_Free c1) as [[] c2| |]; [|done..]. cbn. split_and!; [done..|].
  exists c, (c1, w1). done.
Qed.
End ApiLemmas.
