(* ===== verification/Socket.v ===== *)
(** * The MCTP socket transport: src/examples/spdm_demo.c

    The I/O callback of the demonstration program, which carries the messages
    of the library over a TCP connection to an emulator.  The socket calls are
    the class [Posix]; [TcpStream] states what the code relies on: a stream
    socket carries bytes in order, [send] and [recv] may transfer any part of
    what they are asked for or be interrupted by a signal.  [sent] and
    [pending] are the bytes handed to the connection and the bytes the peer
    has yet to deliver. *)
From Stdlib Require Import ZArith Lia String.
From stdpp Require Import base tactics list numbers option.
From S2P Require Import Prelude Types Bytes Crypt Context Transcript Kdf CryptoOps Transport.
From S2P Require Import Secured Msg.

(** What [send] and [recv] return: a count or the bytes, [-1] with [EINTR], or
    [-1] with another error. *)
Inductive sock_res (A : Type) : Type :=
| s_done (a : A)
| s_eintr
| s_error.
Arguments s_done {A} _.
Arguments s_eintr {A}.
Arguments s_error {A}.

(** [signals n] is the number of interruptions still to come in the state [n]. *)
Class Posix (N : Type) := {
  p_socket : N -> N * Z;
  p_inet_pton : string -> bool;
  p_connect : Z -> string -> Z -> N -> N * bool;
  p_close : Z -> N -> N;
  p_send : Z -> bytes -> N -> N * sock_res Z;
  p_recv : Z -> Z -> N -> N * sock_res bytes;
  signals : N -> nat
}.

Class TcpStream (N : Type) `{!Posix N} := {
  sent : N -> bytes;
  pending : N -> bytes;
  send_stream : forall fd p n n' r, p_send fd p n = (n', r) ->
    match r with
    | s_done k => 0 <= k <= len p /\ sent n' = sent n ++ sub_bytes p 0 k /\
                  (signals n' <= signals n)%nat
    | s_eintr => sent n' = sent n /\ (signals n' < signals n)%nat
    | s_error => True
    end;
  recv_stream : forall fd k n n' r, p_recv fd k n = (n', r) ->
    match r with
    | s_done d => is_bytes d /\ len d <= Z.max 0 k /\ pending n = d ++ pending n' /\ sent n' = sent n /\
                  (signals n' <= signals n)%nat
    | s_eintr => pending n' = pending n /\ sent n' = sent n /\ (signals n' < signals n)%nat
    | s_error => True
    end
}.

(** A connection that stays up: nothing fails, [send] always takes something,
    and [recv] returns something as long as there is something to deliver. *)
Class TcpAlive (N : Type) `{!Posix N} `{!TcpStream N} := {
  alive : N -> Prop;
  send_alive : forall fd p n n' r, alive n -> p <> [] -> p_send fd p n = (n', r) ->
    alive n' /\ match r with s_done k => 0 < k | s_eintr => True | s_error => False end;
  recv_alive : forall fd k n n' r, alive n -> 0 < k -> pending n <> [] -> p_recv fd k n = (n', r) ->
    alive n' /\ match r with s_done d => d <> [] | s_eintr => True | s_error => False end
}.

Section Socket.
Context {N : Type} `{!Posix N}.

(** [Some (n', ok)]: [ok] is [return 0]; [None] is a loop that has not ended. *)
Fixpoint send_all (fuel : nat) (fd : Z) (p : bytes) (n : N) : option (N * bool) :=
  match p with
  | [] => Some (n, true)
  | _ =>
      match fuel with
      | O => None
      | S fuel' =>
          let '(n', r) := p_send fd p n in
          match r with
          | s_eintr => send_all fuel' fd p n'
          | s_error => Some (n', false)
          | s_done k => if k =? 0 then Some (n', false)
                        else send_all fuel' fd (drop (Z.to_nat k) p) n'
          end
      end
  end.

(** [acc] is what has arrived, [left] what is still to come. *)
Fixpoint recv_all (fuel : nat) (fd left : Z) (acc : bytes) (n : N) : option (N * option bytes) :=
  if left >? 0 then
    match fuel with
    | O => None
    | S fuel' =>
        let '(n', r) := p_recv fd left n in
        match r with
        | s_eintr => recv_all fuel' fd left acc n'
        | s_error => Some (n', None)
        | s_done d => if len d =? 0 then Some (n', None)
                      else recv_all fuel' fd (left - len d) (acc ++ d) n'
        end
    end
  else Some (n, Some acc).

(** Every round transfers a byte or spends an interruption. *)
Definition rounds (count : Z) (n : N) : nat := Z.to_nat count + signals n.

Definition send_out (fd : Z) (p : bytes) (n : N) : N * bool :=
  match send_all (rounds (len p) n) fd p n with Some r => r | None => (n, false) end.
Definition recv_in (fd count : Z) (n : N) : N * option bytes :=
  match recv_all (rounds count n) fd count [] n with Some r => r | None => (n, None) end.

Record TCP_CTX := { sockFd : Z; net : N }.

Context `{WolfCrypt}.

Definition is_secured_spdm (ctx : WOLFSPDM_CTX) (buf : bytes) : bool :=
  if len buf <? 4 then false else
  let sid := wolfSPDM_GetSessionId ctx in
  if sid =? 0 then false else
  let b0 := Z.lor (Z.lor (Z.lor (at_ buf 0) (Z.shiftl (at_ buf 1) 8))
              (Z.shiftl (at_ buf 2) 16)) (Z.shiftl (at_ buf 3) 24) in
  b0 =? sid.

Definition SEND_BUF_SZ : Z := 4096.

(** Socket header (command, transport type, size), the MCTP message type and
    the message. *)
Definition mctp_frame (ctx : WOLFSPDM_CTX) (txBuf : bytes) : bytes :=
  let payloadSz := 1 + len txBuf in
  [0x00; 0x00; 0x00; 0x01; 0x00; 0x00; 0x00; 0x01] ++
  [w8 (Z.shiftr payloadSz 24); w8 (Z.shiftr payloadSz 16); w8 (Z.shiftr payloadSz 8);
   Z.land payloadSz 0xFF] ++
  [if is_secured_spdm ctx txBuf then 0x06 else 0x05] ++ txBuf.

Definition resp_size (recvHdr : bytes) : Z :=
  Z.lor (Z.lor (Z.lor (Z.shiftl (at_ recvHdr 8) 24) (Z.shiftl (at_ recvHdr 9) 16))
    (Z.shiftl (at_ recvHdr 10) 8)) (at_ recvHdr 11).

(** The first half of the callback: the request, unless there is none. *)
Definition mctp_send (ctx : WOLFSPDM_CTX) (txBuf : bytes) (fd : Z) (n : N) : N * bool :=
  match txBuf with
  | [] => (n, true)
  | _ => send_out fd (mctp_frame ctx txBuf) n
  end.

(** The second half: header, message type byte, message. *)
Definition mctp_recv (rxSz fd : Z) (n : N) : N * option bytes :=
  match recv_in fd 12 n with
  | (n1, None) => (n1, None)
  | (n1, Some recvHdr) =>
      let respSize := resp_size recvHdr in
      if (respSize <? 1) || (respSize - 1 >? rxSz) then (n1, None) else
      match recv_in fd 1 n1 with
      | (n2, None) => (n2, None)
      | (n2, Some mctpHdr) =>
          if respSize - 1 >? 0 then recv_in fd (respSize - 1) n2 else (n2, Some [])
      end
  end.

(** A NULL request is the empty list and a NULL receive buffer the capacity 0:
    the library passes them in [wolfSPDM_ReceiveData] and [wolfSPDM_SendData]
    and nowhere else. *)
Definition tcp_io_callback (ctx : WOLFSPDM_CTX) (txBuf : bytes) (rxSz : Z) (userCtx : Z)
    (t : TCP_CTX) : TCP_CTX * option bytes :=
  if (userCtx =? 0) || (t.(sockFd) <? 0) then (t, None) else
  if len txBuf >? SEND_BUF_SZ - 13 then (t, None) else
  let fd := t.(sockFd) in
  let on n := {| sockFd := fd; net := n |} in
  match mctp_send ctx txBuf fd t.(net) with
  | (n1, false) => (on n1, None)
  | (n1, true) =>
      if rxSz =? 0 then (on n1, Some []) else
      let '(n2, r) := mctp_recv rxSz fd n1 in (on n2, r)
  end.

#[global] Instance tcp_transport : Transport TCP_CTX := fun cb user ctx tx cap t =>
  tcp_io_callback ctx tx cap user t.
End Socket.
Arguments TCP_CTX : clear implicits.

(** ** Lemmas *)

Section SocketLemmas.
Context {N : Type} `{!Posix N} `{!TcpStream N}.

(** The loops end, and a success is a transfer of everything. *)
Lemma send_all_stream fuel fd p (n : N) : (rounds (len p) n <= fuel)%nat ->
  exists n' ok, send_all fuel fd p n = Some (n', ok) /\ (ok = true -> sent n' = sent n ++ p).
Proof.
  unfold rounds. revert p n. induction fuel as [|fuel IH]; intros p n Hf; cbn [send_all];
    (destruct p as [|x p]; [exists n, true; by rewrite app_nil_r|]).
  { rewrite len_cons in Hf. pose proof (len_nonneg p). lia. }
  destruct (p_send fd (x :: p) n) as [n' r] eqn:Hs. apply send_stream in Hs. revert Hs Hf.
  generalize (x :: p). clear x p. intros p Hs Hf. destruct r as [k| |].
  - destruct (Z.eqb_spec k 0); [by exists n', false|]. destruct Hs as (Hk & Hs & Hg).
    destruct (IH (drop (Z.to_nat k) p) n') as (n2 & ok & -> & Hok).
    { unfold len in *. rewrite length_drop. lia. }
    exists n2, ok. split; [done|]. intros ->. rewrite Hok, Hs by done.
    rewrite <- app_assoc. f_equal. unfold sub_bytes. rewrite drop_0. apply take_drop.
  - destruct Hs as [Hs Hg]. destruct (IH p n') as (n2 & ok & -> & Hok); [lia|].
    exists n2, ok. by rewrite <- Hs.
  - by exists n', false.
Qed.

Lemma recv_all_stream fuel fd left acc (n : N) : (rounds left n <= fuel)%nat ->
  exists n' r, recv_all fuel fd left acc n = Some (n', r) /\
    (forall d, r = Some d -> exists e, d = acc ++ e /\ len e = Z.max 0 left /\ is_bytes e /\
       pending n = e ++ pending n' /\ sent n' = sent n).
Proof.
  unfold rounds. revert left acc n. induction fuel as [|fuel IH]; intros left acc n Hf;
    cbn [recv_all]; (destruct (left >? 0) eqn:Hl;
      [|exists n, (Some acc); split; [done|]; intros d [= <-]; exists []; rewrite app_nil_r, len_nil;
        split_and!; [done|lia|constructor|done|done]]).
  { lia. }
  destruct (p_recv fd left n) as [n' r] eqn:Hs. apply recv_stream in Hs. destruct r as [d| |].
  - destruct (Z.eqb_spec (len d) 0); [by exists n', None|].
    destruct Hs as (Hb & Hk & Hp & Hs & Hg). pose proof (len_nonneg d).
    destruct (IH (left - len d) (acc ++ d) n') as (n2 & r & -> & Hr); [lia|].
    exists n2, r. split; [done|]. intros d2 [e (-> & He & Hbe & Hpe & Hse)]%Hr.
    exists (d ++ e). rewrite <- app_assoc, len_app, Hp, Hpe, Hse.
    split_and!; [done|lia|by apply Forall_app|by rewrite <- app_assoc|done].
  - destruct Hs as (Hp & Hs & Hg). destruct (IH left acc n') as (n2 & r & -> & Hr); [lia|].
    exists n2, r. rewrite <- Hp, <- Hs. done.
  - by exists n', None.
Qed.

Lemma send_out_stream fd p (n n' : N) ok : send_out fd p n = (n', ok) -> ok = true ->
  sent n' = sent n ++ p.
Proof.
  unfold send_out. destruct (send_all_stream _ fd p n (le_n _)) as (n1 & b & -> & Hs).
  by intros [= -> ->].
Qed.

Lemma recv_in_stream fd k (n n' : N) d : 0 <= k -> recv_in fd k n = (n', Some d) ->
  len d = k /\ is_bytes d /\ pending n = d ++ pending n' /\ sent n' = sent n.
Proof.
  intros Hk. unfold recv_in. destruct (recv_all_stream _ fd k [] n (le_n _)) as (n1 & r & -> & Hr).
  intros [= -> ->]. destruct (Hr d eq_refl) as (e & -> & He & ? & ? & ?). split; [cbn; lia|done].
Qed.

(** On a connection that stays up the loops succeed. *)
Context `{!TcpAlive N}.

Lemma send_all_alive fuel fd p (n n' : N) ok : alive n ->
  send_all fuel fd p n = Some (n', ok) -> ok = true /\ alive n'.
Proof.
  revert p n. induction fuel as [|fuel IH]; intros p n Ha; cbn [send_all];
    (destruct p as [|x p]; [by intros [= <- <-]|]); [done|].
  destruct (p_send fd (x :: p) n) as [n1 r] eqn:Hs.
  apply send_alive in Hs as [Ha1 Hr]; [|done..]. destruct r as [k| |]; [|eauto|done].
  destruct (Z.eqb_spec k 0); [lia|]. eauto.
Qed.

Lemma recv_all_alive fuel fd left acc (n n' : N) r : alive n -> left <= len (pending n) ->
  recv_all fuel fd left acc n = Some (n', r) -> is_Some r /\ alive n'.
Proof.
  revert left acc n. induction fuel as [|fuel IH]; intros left acc n Ha Hl; cbn [recv_all];
    (destruct (left >? 0) eqn:Hg; [|by intros [= <- <-]]); [done|].
  destruct (p_recv fd left n) as [n1 r1] eqn:Hs. pose proof (recv_stream _ _ _ _ _ Hs) as Hd.
  apply recv_alive in Hs as [Ha1 Hr]; [|done|lia|intros Hn; rewrite Hn, len_nil in Hl; lia].
  destruct r1 as [d| |]; [|destruct Hd as [Hp _]; apply IH; [done|by rewrite Hp]|done].
  destruct Hd as (_ & _ & Hp & _). destruct (Z.eqb_spec (len d) 0) as [He|]; [by destruct d|].
  apply IH; [done|]. rewrite Hp, len_app in Hl. lia.
Qed.

Lemma send_out_alive fd p (n : N) : alive n -> (send_out fd p n).2 = true /\ alive (send_out fd p n).1.
Proof.
  intros Ha. unfold send_out. destruct (send_all_stream _ fd p n (le_n _)) as (n1 & b & E & _).
  rewrite E. by apply send_all_alive in E.
Qed.

(** What is pending arrives. *)
Lemma recv_in_alive fd (n : N) d rest : alive n -> pending n = d ++ rest ->
  exists n', recv_in fd (len d) n = (n', Some d) /\ alive n' /\ pending n' = rest.
Proof.
  intros Ha Hp. destruct (recv_in fd (len d) n) as [n' r] eqn:Hr.
  pose proof Hr as Hr'. unfold recv_in in Hr'.
  destruct (recv_all_stream _ fd (len d) [] n (le_n _)) as (n1 & r1 & E & _).
  rewrite E in Hr'. injection Hr' as -> ->.
  apply recv_all_alive in E as [[d' ->] Ha']; [|done|rewrite Hp, len_app; pose proof (len_nonneg rest); lia].
  apply recv_in_stream in Hr as (Hl & _ & Hp' & _); [|apply len_nonneg].
  rewrite Hp in Hp'. apply app_len_inj in Hp' as [-> ->]; [|done]. by exists n'.
Qed.
End SocketLemmas.

(** ** The message type *)

Section MessageType.
Context `{WolfCrypt} `{Config}.
Implicit Types c : WOLFSPDM_CTX.

(** A session identifier as the code forms it, from a requester half that
    [wolfSPDM_SetRequesterSessionId] admits. *)
Definition session_id_ok c : Prop :=
  (exists c0 c1, wolfSPDM_SetRequesterSessionId c.(reqSessionId) c0 = Ok tt c1) /\
  c.(sessionId) = Z.lor c.(reqSessionId) (w32 (Z.shiftl c.(rspSessionId) 16)).

(** The session is live: the code reports its identifier. *)
Definition session_live c : Prop :=
  WOLFSPDM_STATE_KEY_EX <= c.(state) /\ c.(state) <> WOLFSPDM_STATE_ERROR.

Lemma session_id_low c : session_id_ok c ->
  c.(sessionId) <> 0 /\ ~ 0x10 <= c.(sessionId) mod 256 <= 0x1F.
Proof.
  intros [(c0 & c1 & Hs) Hid]. unfold wolfSPDM_SetRequesterSessionId in Hs. inv_ok. rewrite Hid.
  change 255 with (Z.ones 8) in *. rewrite Z.land_ones in * by lia.
  assert (Z.lor (reqSessionId c) (w32 (Z.shiftl (rspSessionId c) 16)) mod 2 ^ 8 =
    reqSessionId c mod 2 ^ 8) as Hm.
  { rewrite <- !Z.land_ones, Z.land_lor_distr_l by lia.
    replace (Z.land (w32 (Z.shiftl (rspSessionId c) 16)) (Z.ones 8)) with 0;
      [apply Z.lor_0_r|].
    rewrite Z.land_ones, Z.shiftl_mul_pow2 by lia. unfold w32. mlia. }
  change (2 ^ 8) with 256 in *. split; [|lia].
  intros [Hr _]%Z.lor_eq_0_iff. lia.
Qed.

Lemma secured_recognised app plain rec c : ctx_wf c -> session_id_ok c -> session_live c ->
  is_record app c plain rec -> is_secured_spdm c rec = true.
Proof.
  intros Hwf Hid [Hst Hne] (rnd & aes & cipher & tag & _ & _ & _ & -> & _).
  apply session_id_low in Hid as [Hid _]. wf_facts Hwf. unfold is_secured_spdm, wolfSPDM_GetSessionId.
  replace ((state c <? _) || (state c =? _)) with false by lia.
  destruct (Z.eqb_spec (sessionId c) 0); [done|].
  assert (exists q, rec_hdr c (len (rec_plain (wolfSPDM_IsTcgMode c) app plain rnd)) ++ cipher ++ tag =
    SPDM_Set32LE (sessionId c) ++ q) as [q ->]
    by (unfold rec_hdr; case_match; rewrite <- !app_assoc; eauto).
  rewrite len_app. pose proof (len_nonneg q). change (len (SPDM_Set32LE (sessionId c))) with 4.
  replace (4 + len q <? 4) with false by lia.
  change (SPDM_Get32LE (SPDM_Set32LE (sessionId c) ++ q) =? sessionId c = true).
  rewrite Get32LE_app, Get32LE_Set32LE by (done || lia). apply Z.eqb_refl.
Qed.

Lemma clear_recognised msg c : session_id_ok c -> is_bytes msg -> 0x10 <= at_ msg 0 <= 0x1F ->
  is_secured_spdm c msg = false.
Proof.
  intros Hid Hb Hv. apply session_id_low in Hid as [_ Hid]. unfold is_secured_spdm.
  destruct (len msg <? 4); [done|]. unfold wolfSPDM_GetSessionId.
  destruct ((state c <? _) || _); [done|]. destruct (sessionId c =? 0); [done|].
  change (SPDM_Get32LE msg =? sessionId c = false). apply Z.eqb_neq. intros He. apply Hid.
  rewrite <- He, Get32LE_sum by done. replace ((_ + _) mod 256) with (at_ msg 0); [done|].
  pose proof (is_byte_at msg 0 Hb). unfold is_byte in *. mlia.
Qed.
End MessageType.

(** ** The callback *)

Section Callback.
Context {N : Type} `{!Posix N} `{!TcpStream N} `{WolfCrypt} `{Config}.
Implicit Types (ctx : WOLFSPDM_CTX) (t : TCP_CTX N).

Definition request_frame ctx (tx : bytes) : bytes :=
  match tx with [] => [] | _ => mctp_frame ctx tx end.

(** The frame of [rx] arrived between the states [n] and [n'] of the connection. *)
Definition frame_arrived (cap : Z) (rx : bytes) (n n' : N) : Prop :=
  exists hdr ty, pending n = hdr ++ [ty] ++ rx ++ pending n' /\ len hdr = 12 /\
    resp_size hdr = 1 + len rx /\ len rx <= cap /\ is_bytes rx /\ sent n' = sent n.

Lemma mctp_send_stream ctx tx fd (n n' : N) : mctp_send ctx tx fd n = (n', true) ->
  sent n' = sent n ++ request_frame ctx tx.
Proof.
  unfold mctp_send, request_frame. destruct tx; [intros [= <-]; by rewrite app_nil_r|].
  intros E. by apply send_out_stream in E.
Qed.

Lemma mctp_recv_stream cap fd (n n' : N) rx : mctp_recv cap fd n = (n', Some rx) ->
  frame_arrived cap rx n n'.
Proof.
  unfold mctp_recv. destruct (recv_in fd 12 n) as [n1 [hdr|]] eqn:E1; [|done].
  apply recv_in_stream in E1 as (Hl1 & _ & Hp1 & Hs1); [|done].
  destruct (_ || _) eqn:Hsz; [done|].
  destruct (recv_in fd 1 n1) as [n2 [ty|]] eqn:E2; [|done].
  apply recv_in_stream in E2 as (Hl2 & _ & Hp2 & Hs2); [|done].
  assert (exists b, ty = [b]) as [b ->].
  { destruct ty as [|b [|]]; [done|by exists b|]. rewrite !len_cons in Hl2.
    pose proof (len_nonneg l). lia. }
  destruct (resp_size hdr - 1 >? 0) eqn:Hgt.
  - intros E3. apply recv_in_stream in E3 as (Hl3 & Hb & Hp3 & Hs3); [|lia].
    exists hdr, b. rewrite Hp1, Hp2, Hp3. split_and!; [done|done|lia|lia|done|congruence].
  - intros [= <- <-]. exists hdr, b. rewrite Hp1, Hp2, len_nil.
    split_and!; [done|done|lia|lia|constructor|congruence].
Qed.

#[global] Instance tcp_transport_bytes : @TransportBytes _ _ (tcp_transport (N := N)).
Proof.
  intros cb user ctx tx cap t t' rx. unfold io_call, tcp_transport, tcp_io_callback.
  destruct (_ || _); [done|]. destruct (len tx >? _); [done|].
  destruct (mctp_send _ _ _ _) as [n1 []]; [|done].
  destruct (cap =? 0); [intros [= _ <-]; constructor|].
  destruct (mctp_recv _ _ _) as [n2 r] eqn:Hr. intros [= _ ->].
  by apply mctp_recv_stream in Hr as (? & ? & _ & _ & _ & _ & ? & _).
Qed.

Lemma mctp_recv_alive `{!TcpAlive N} cap fd (n : N) hdr ty rx rest : alive n ->
  pending n = hdr ++ [ty] ++ rx ++ rest -> len hdr = 12 -> resp_size hdr = 1 + len rx ->
  len rx <= cap -> exists n', mctp_recv cap fd n = (n', Some rx) /\ pending n' = rest.
Proof.
  intros Ha Hp Hl Hr Hc. pose proof (len_nonneg rx). unfold mctp_recv. rewrite <- Hl.
  destruct (recv_in_alive fd n hdr _ Ha Hp) as (n1 & -> & Ha1 & Hp1).
  replace ((resp_size hdr <? 1) || (resp_size hdr - 1 >? cap)) with false by lia.
  change 1 with (len [ty]) at 1.
  destruct (recv_in_alive fd n1 [ty] _ Ha1 Hp1) as (n2 & -> & Ha2 & Hp2). rewrite Hr.
  replace (1 + len rx - 1) with (len rx) by lia. destruct (len rx >? 0) eqn:Hz.
  - destruct (recv_in_alive fd n2 rx _ Ha2 Hp2) as (n3 & -> & _ & Hp3). by exists n3.
  - destruct rx as [|x rx]; [by exists n2|]. rewrite len_cons in Hz. pose proof (len_nonneg rx). lia.
Qed.

Lemma mctp_send_alive `{!TcpAlive N} ctx tx fd (n : N) : alive n ->
  exists n', mctp_send ctx tx fd n = (n', true) /\ alive n'.
Proof.
  intros Ha. unfold mctp_send. destruct tx as [|x tx]; [by exists n|].
  destruct (send_out_alive fd (mctp_frame ctx (x :: tx)) n Ha) as [Hok Ha'].
  destruct (send_out fd _ n) as [n' ok]. cbn [fst snd] in *. subst. by exists n'.
Qed.

(** C23: the socket callback carries whole messages over a stream.  Its loops
    end; a call that succeeds has sent exactly the frame of the request, marked
    as secured for a record of the live session and as plain for a clear
    message, and returns exactly the payload of the next frame of the stream,
    within the buffer; and on a connection that stays up it succeeds, however
    the transfers are cut up and interrupted, leaving the rest of the stream. *)
Theorem mctp_socket_delivers `{!TcpAlive N} ctx tx cap user t :
  user <> 0 -> 0 <= t.(sockFd) -> len tx <= SEND_BUF_SZ - 13 -> 0 <= cap ->
  let n1 := (mctp_send ctx tx t.(sockFd) t.(net)).1 in
  let '(t', r) := tcp_io_callback ctx tx cap user t in
  (forall fd p k (n : N), send_all (rounds (len p) n) fd p n <> None /\
     recv_all (rounds k n) fd k [] n <> None) /\
  t'.(sockFd) = t.(sockFd) /\
  (session_id_ok ctx ->
     (ctx_wf ctx -> session_live ctx -> forall app plain, is_record app ctx plain tx ->
        at_ (mctp_frame ctx tx) 12 = 0x06) /\
     (is_bytes tx -> 0x10 <= at_ tx 0 <= 0x1F -> at_ (mctp_frame ctx tx) 12 = 0x05)) /\
  (forall rx, r = Some rx -> sent n1 = sent t.(net) ++ request_frame ctx tx /\
     if cap =? 0 then rx = [] /\ t'.(net) = n1 else frame_arrived cap rx n1 t'.(net)) /\
  (alive t.(net) -> sent n1 = sent t.(net) ++ request_frame ctx tx /\
     (cap = 0 -> r = Some []) /\
     forall hdr ty rx rest, 0 < cap -> pending n1 = hdr ++ [ty] ++ rx ++ rest -> len hdr = 12 ->
       resp_size hdr = 1 + len rx -> len rx <= cap -> r = Some rx /\ pending t'.(net) = rest).
Proof.
  intros Hu Hfd Htx Hcap n1.
  assert (forall fd p k (n : N), send_all (rounds (len p) n) fd p n <> None /\
    recv_all (rounds k n) fd k [] n <> None) as Hloops.
  { intros fd p k n. destruct (send_all_stream _ fd p n (le_n _)) as (? & ? & -> & _).
    by destruct (recv_all_stream _ fd k [] n (le_n _)) as (? & ? & -> & _). }
  assert (session_id_ok ctx ->
    (ctx_wf ctx -> session_live ctx -> forall app plain, is_record app ctx plain tx ->
       at_ (mctp_frame ctx tx) 12 = 0x06) /\
    (is_bytes tx -> 0x10 <= at_ tx 0 <= 0x1F -> at_ (mctp_frame ctx tx) 12 = 0x05)) as Htype.
  { intros Hid. change (at_ (mctp_frame ctx tx) 12) with (if is_secured_spdm ctx tx then 0x06 else 0x05).
    split; intros; [by erewrite secured_recognised|by rewrite clear_recognised]. }
  pose proof (mctp_send_stream ctx tx (sockFd t) (net t)) as Hsend.
  pose proof (mctp_send_alive ctx tx (sockFd t) (net t)) as Halive.
  unfold tcp_io_callback. replace ((user =? 0) || (sockFd t <? 0)) with false by lia.
  replace (len tx >? SEND_BUF_SZ - 13) with false by lia. subst n1.
  destruct (mctp_send ctx tx (sockFd t) (net t)) as [n1 ok]. cbn [fst snd].
  destruct ok; [|split_and!; try done; by intros (? & ? & _)%Halive]. specialize (Hsend n1 eq_refl).
  destruct (cap =? 0) eqn:Hz.
  { split_and!; try done; [by intros rx [= <-]|]. intros _. split_and!; [done..|]. lia. }
  destruct (mctp_recv cap (sockFd t) n1) as [n2 r] eqn:Hr. cbn [net sockFd].
  split_and!; try done; [intros rx ->; split; [done|by apply mctp_recv_stream in Hr]|].
  intros (n' & [= <-] & Ha)%Halive. split_and!; [done|lia|].
  intros hdr ty rx rest _ Hp Hl Hs Hc.
  destruct (mctp_recv_alive cap (sockFd t) n1 hdr ty rx rest Ha Hp Hl Hs Hc) as (n3 & E & Hp3).
  rewrite E in Hr. by injection Hr as -> <-.
Qed.
End Callback.
