(* ===== verification/Demo.v ===== *)
(** * The demonstration program: src/examples/spdm_demo.c

    The scenarios of the program and its [main], over the socket transport of
    Socket.v.  The operating system is a parameter: the socket calls, the
    options as [getopt_long] returns them, and [Env], the environment
    variables, [realpath] and the contents of a file.  What the program prints
    is not modelled. *)
From Stdlib Require Import ZArith Lia String Ascii.
From stdpp Require Import base tactics list numbers option.
From S2P Require Import Prelude Types Bytes Crypt Context Transcript Kdf CryptoOps Transport.
From S2P Require Import Secured Msg Chunk Cert Attest Session Standard Tcg Psk Connect Vendor Frame Api.
From S2P Require Import Socket.

Definition SPDM_MEAS_OPERATION_ALL : Z := 0xFF.
Definition SPDM_MEAS_SUMMARY_HASH_ALL : Z := 0xFF.
Definition WOLFSPDM_CTX_STATIC_SIZE : Z := 73728.
Definition CTX_BUF_SIZE : Z := WOLFSPDM_CTX_STATIC_SIZE.
Definition EMU_HOST : string := "127.0.0.1".
Definition EMU_PORT : Z := 2323.

(** [realpath] and [read_file] return None where the C functions fail. *)
Record Env := {
  SPDM_EMU_PATH : option string;
  SPDM_EMU_CERT_DIR : option string;
  PATH_MAX : Z;
  realpath : string -> option string;
  read_file : string -> option bytes
}.

Definition strlen (s : string) : Z := Z.of_nat (String.length s).

Definition parse_version (s : string) : Z :=
  if String.eqb s "1.2" then SPDM_VERSION_12
  else if String.eqb s "1.3" then SPDM_VERSION_13
  else if String.eqb s "1.4" then SPDM_VERSION_14
  else 0.

(** No control characters, then the canonical path if it fits. *)
Definition control_char (c : ascii) : bool :=
  let c := Z.of_nat (nat_of_ascii c) in (c <? 0x20) || (c =? 0x7F).

Definition sanitize_emu_path (env : Env) (emuPath : option string) (outSz : Z) : option string :=
  match emuPath with
  | None => None
  | Some p =>
      if (strlen p =? 0) || (strlen p >? env.(PATH_MAX) - 32) then None
      else if existsb control_char (list_ascii_of_string p) then None
      else match env.(realpath) p with
           | None => None
           | Some resolved => if strlen resolved >=? outSz then None else Some resolved
           end
  end.

Definition load_der (env : Env) (path : string) : option bytes :=
  match env.(read_file) path with
  | None => None
  | Some buf => if len buf <=? 0 then None else Some (sub_bytes buf 0 (w32 (len buf)))
  end.

Definition allowedCertDirs : list string :=
  ["ecp256"; "ecp384"; "ecp521"; "mldsa44"; "mldsa65"; "mldsa87"]%string.

(** The path the program opens, and its failures. *)
Definition ca_path (env : Env) : option string :=
  match env.(SPDM_EMU_PATH) with
  | None => None
  | Some _ =>
      match sanitize_emu_path env env.(SPDM_EMU_PATH) env.(PATH_MAX) with
      | None => None
      | Some realEmu =>
          let certDir := match env.(SPDM_EMU_CERT_DIR) with
                         | None | Some EmptyString => "ecp384"%string
                         | Some d => d
                         end in
          match find (String.eqb certDir) allowedCertDirs with
          | None => None
          | Some safeDir =>
              let path := (realEmu ++ "/" ++ safeDir ++ "/ca.cert.der")%string in
              if strlen path >=? env.(PATH_MAX) then None else Some path
          end
      end
  end.

(** Options: what the switch of [main] collects. *)
Record options := {
  o_mode : Z; withSig : bool; o_debug : Z; maxVer : Z; kexEcdheOnly : bool; kexKemOnly : Z
}.
#[global] Instance options_eta : Settable options := fun r => {|
  o_mode := r.(o_mode); withSig := r.(withSig); o_debug := r.(o_debug); maxVer := r.(maxVer);
  kexEcdheOnly := r.(kexEcdheOnly); kexKemOnly := r.(kexKemOnly) |}.

Definition MODE_SESSION : Z := 1.
Definition MODE_MEAS : Z := 2.
Definition MODE_CHALLENGE : Z := 3.
Definition MODE_HEARTBEAT : Z := 4.
Definition MODE_KEY_UPDATE : Z := 5.
Definition MODE_APP_DATA : Z := 6.

Definition no_options : options := {|
  o_mode := 0; withSig := true; o_debug := 0; maxVer := 0; kexEcdheOnly := false; kexKemOnly := 0 |}.

(** The options as [getopt_long] returns them, one letter with its argument;
    [inr] is an exit from the loop. *)
Fixpoint parse_options (opts : list (ascii * string)) (o : options) : options + Z :=
  match opts with
  | [] => inl o
  | (c, optarg) :: opts' =>
      if Ascii.eqb c "e" then parse_options opts' (o <| o_mode := MODE_SESSION |>)
      else if Ascii.eqb c "m" then parse_options opts' (o <| o_mode := MODE_MEAS |>)
      else if Ascii.eqb c "n" then parse_options opts' (o <| withSig := false |>)
      else if Ascii.eqb c "c" then parse_options opts' (o <| o_mode := MODE_CHALLENGE |>)
      else if Ascii.eqb c "b" then parse_options opts' (o <| o_mode := MODE_HEARTBEAT |>)
      else if Ascii.eqb c "k" then parse_options opts' (o <| o_mode := MODE_KEY_UPDATE |>)
      else if Ascii.eqb c "a" then parse_options opts' (o <| o_mode := MODE_APP_DATA |>)
      else if Ascii.eqb c "d" then parse_options opts' (o <| o_debug := 1 |>)
      else if Ascii.eqb c "v" then
        let v := parse_version optarg in
        if v =? 0 then inr 1 else parse_options opts' (o <| maxVer := v |>)
      else if Ascii.eqb c "K" then
        if String.eqb optarg "ecdhe" then parse_options opts' (o <| kexEcdheOnly := true |>)
        else if String.eqb optarg "mlkem512"
        then parse_options opts' (o <| kexKemOnly := SPDM_KEM_ALGO_ML_KEM_512 |>)
        else if String.eqb optarg "mlkem768"
        then parse_options opts' (o <| kexKemOnly := SPDM_KEM_ALGO_ML_KEM_768 |>)
        else if String.eqb optarg "mlkem1024"
        then parse_options opts' (o <| kexKemOnly := SPDM_KEM_ALGO_ML_KEM_1024 |>)
        else inr 1
      else if Ascii.eqb c "h" then inr 0
      else inr 1
  end.

Section Demo.
Context {N : Type} `{!Posix N} `{WolfCrypt} `{Config}.
Notation IOM := (M (WOLFSPDM_CTX * TCP_CTX N)).

(** ** The connection *)

Definition tcp_connect (host : string) (port : Z) : IOM bool := fun '(c, t) =>
  let '(n1, fd) := p_socket t.(net) in
  if fd <? 0 then Ok false (c, {| sockFd := t.(sockFd); net := n1 |}) else
  if negb (p_inet_pton host) then Ok false (c, {| sockFd := t.(sockFd); net := p_close fd n1 |}) else
  let '(n2, ok) := p_connect fd host port n1 in
  if negb ok then Ok false (c, {| sockFd := t.(sockFd); net := p_close fd n2 |}) else
  Ok true (c, {| sockFd := fd; net := n2 |}).

Definition tcp_disconnect : IOM unit := fun '(c, t) =>
  if t.(sockFd) >=? 0 then Ok tt (c, {| sockFd := -1; net := p_close t.(sockFd) t.(net) |})
  else Ok tt (c, t).

(** ** The scenarios *)

Context (env : Env).

Definition load_trusted_ca : M WOLFSPDM_CTX unit :=
  let* path := lift_opt (-1) (ca_path env) in
  let* der := lift_opt (-1) (load_der env path) in
  let* r := try (wolfSPDM_SetTrustedCAs der) in
  match r with inl _ => ret tt | inr _ => fail (-1) end.

Definition do_session : IOM unit := wolfSPDM_Connect.

Definition do_meas (sig : bool) : IOM unit :=
  do_session ;;; wolfSPDM_GetMeasurements SPDM_MEAS_OPERATION_ALL sig.

Definition do_challenge : IOM unit :=
  wolfSPDM_GetVersion ;;;
  wolfSPDM_GetCapabilities ;;;
  wolfSPDM_NegotiateAlgorithms ;;;
  wolfSPDM_GetDigests ;;;
  wolfSPDM_GetCertificate 0 ;;;
  let* r := try (on_ctx load_trusted_ca) in
  match r with
  | inr _ => fail WOLFSPDM_E_INVALID_ARG
  | inl _ => wolfSPDM_Challenge 0 SPDM_MEAS_SUMMARY_HASH_ALL
  end.

Definition do_heartbeat : IOM unit := do_session ;;; wolfSPDM_Heartbeat.

Definition do_key_update : IOM unit := do_session ;;; wolfSPDM_KeyUpdate true.

(** PLDM GetTID; the value is the TID that is printed. *)
Definition getTid : bytes := [0x01; 0x80; 0x00; 0x02].

Definition do_app_data : IOM Z :=
  do_session ;;;
  wolfSPDM_SendData getTid ;;;
  let* rsp := wolfSPDM_ReceiveData 64 in
  check (negb (len rsp =? 6) || negb (at_ rsp 0 =? at_ getTid 0) || negb (at_ rsp 1 =? 0x00) ||
         negb (at_ rsp 2 =? at_ getTid 2) || negb (at_ rsp 3 =? at_ getTid 3) ||
         negb (at_ rsp 4 =? 0x00)) WOLFSPDM_E_FRAMING ;;;
  rd rsp 5.

(** The switch on the mode; the flag is [notBuilt]. *)
Definition scenario (o : options) : IOM (unit + Z) * bool :=
  if o.(o_mode) =? MODE_SESSION then (try do_session, false)
  else if o.(o_mode) =? MODE_MEAS then (try (do_meas o.(withSig)), false)
  else if o.(o_mode) =? MODE_CHALLENGE then (try do_challenge, false)
  else if o.(o_mode) =? MODE_HEARTBEAT then (try do_heartbeat, false)
  else if o.(o_mode) =? MODE_KEY_UPDATE then (try do_key_update, false)
  else if o.(o_mode) =? MODE_APP_DATA then (try (do_app_data ;;; ret tt), false)
  else (ret (inr WOLFSPDM_E_NOT_AVAILABLE), true).

(** ** main *)

(** [tcp_io_callback] and [&g_tcpCtx] are not NULL. *)
Definition configure (o : options) : M WOLFSPDM_CTX (unit + Z) :=
  try (wolfSPDM_SetIO 1 1) ;;;
  when (negb (o.(o_debug) =? 0)) (wolfSPDM_SetDebug 1) ;;;
  wolfSPDM_AllowUntrustedCerts 1 ;;;
  try (when (negb (o.(maxVer) =? 0)) (wolfSPDM_SetMaxVersion o.(maxVer)) ;;;
       when (o.(kexEcdheOnly) || negb (o.(kexKemOnly) =? 0))
         (wolfSPDM_SetKeyExchangePref (if o.(kexEcdheOnly) then 1 else 0) o.(kexKemOnly))).

(** From a configured context to the exit code. *)
Definition run_scenario (o : options) : IOM Z :=
  let* conf := on_ctx (configure o) in
  let '(m, notBuilt) := match conf with
                        | inr rc => (ret (inr rc), false)
                        | inl _ => scenario o
                        end in
  let* rc := m in
  let* ctx := get_ctx in
  when (match rc with inl _ => negb (wolfSPDM_IsConnected ctx =? 0) | inr _ => false end)
    (try wolfSPDM_Disconnect ;;; ret tt) ;;;
  on_ctx wolfSPDM_Free ;;;
  tcp_disconnect ;;;
  ret (if notBuilt : bool then 77 else match rc with inl _ => 0 | inr _ => 1 end).

(** [sizeof_ctx] is what [wolfSPDM_GetCtxSize] returns. *)
Definition demo_main (sizeof_ctx : Z) (opts : list (ascii * string)) : IOM Z :=
  match parse_options opts no_options with
  | inr code => ret code
  | inl o =>
      if o.(o_mode) =? 0 then ret 1
      else if sizeof_ctx >? CTX_BUF_SIZE then ret 1
      else
        let* up := tcp_connect EMU_HOST EMU_PORT in
        if negb up then ret 1
        else
          let* r := try (on_ctx (wolfSPDM_InitStatic sizeof_ctx CTX_BUF_SIZE)) in
          match r with
          | inr _ => tcp_disconnect ;;; ret 1
          | inl _ => run_scenario o
          end
  end.
End Demo.

(** ** Lemmas *)

Lemma parse_options_exit opts o code : parse_options opts o = inr code -> code = 0 \/ code = 1.
Proof.
  revert o. induction opts as [|[l a] opts IH]; intros o; cbn [parse_options]; [done|].
  repeat (case_match; try apply IH); intros [= <-]; auto.
Qed.

Section DemoLemmas.
Context {N : Type} `{!Posix N} `{!TcpStream N} `{WolfCrypt} `{Config} `{!CryptSizes} `{!RecordFits}
  `{!TranscriptFits}.
Context (env : Env).
Implicit Types (c : WOLFSPDM_CTX) (t : TCP_CTX N) (o : options).
Notation IOM := (M (WOLFSPDM_CTX * TCP_CTX N)).

(** What each scenario has done when it reports success. *)
Definition ca_loaded c : Prop :=
  exists path der, ca_path env = Some path /\ load_der env path = Some der /\
    0 < c.(trustedCASz) /\ sub_bytes c.(trustedCA) 0 c.(trustedCASz) = der.

Notation st := (WOLFSPDM_CTX * TCP_CTX N)%type.

(** [session_up s s1]: the library's [wolfSPDM_Connect] took [s] to [s1], over
    the whole handshake. *)
Definition session_up (s s1 : st) : Prop := wolfSPDM_Connect s = Ok tt s1 /\ handshake s1.1.

(** The messages before a challenge. *)
Definition chain_fetched (s s5 : st) : Prop :=
  exists s1 s2 s3 s4,
    wolfSPDM_GetVersion s = Ok tt s1 /\ wolfSPDM_GetCapabilities s1 = Ok tt s2 /\
    wolfSPDM_NegotiateAlgorithms s2 = Ok tt s3 /\ wolfSPDM_GetDigests s3 = Ok tt s4 /\
    wolfSPDM_GetCertificate 0 s4 = Ok tt s5.

(** The answer to GetTID. *)
Definition tid_answer (tid : Z) : bytes := [0x01; 0x00; 0x00; 0x02; 0x00; tid].

(** The scenario of each mode as a sequence of library calls that all
    succeeded, from the state [s] it was started in to the state [s'] it ended
    in, with what the calls established. *)
Definition meas_done (sig : bool) (s s' : st) : Prop :=
  exists s1, session_up s s1 /\ wolfSPDM_GetMeasurements SPDM_MEAS_OPERATION_ALL sig s1 = Ok tt s' /\
    meas_result sig s1.1 s'.1.

Definition challenge_done (s s' : st) : Prop :=
  exists s1 c1, chain_fetched s s1 /\ load_trusted_ca env s1.1 = Ok tt c1 /\ ca_loaded c1 /\
    wolfSPDM_Challenge 0 SPDM_MEAS_SUMMARY_HASH_ALL (c1, s1.2) = Ok tt s' /\ chal_result c1 s'.1.

Definition heartbeat_done (s s' : st) : Prop :=
  exists s1, session_up s s1 /\ wolfSPDM_Heartbeat s1 = Ok tt s' /\ xfer true s1.1 s'.1.

Definition key_update_done (s s' : st) : Prop :=
  exists s1, session_up s s1 /\ wolfSPDM_KeyUpdate true s1 = Ok tt s' /\ rotated true s1.1 s'.1.

Definition app_data_done (s s' : st) : Prop :=
  exists s1 s2 tid, session_up s s1 /\
    wolfSPDM_SendData getTid s1 = Ok tt s2 /\ record_sent getTid s1 s2 /\
    wolfSPDM_ReceiveData 64 s2 = Ok (tid_answer tid) s' /\ record_received (tid_answer tid) 64 s2 s'.

Definition scenario_done o (s s' : st) : Prop :=
  (o.(o_mode) = MODE_SESSION /\ session_up s s') \/
  (o.(o_mode) = MODE_MEAS /\ meas_done o.(withSig) s s') \/
  (o.(o_mode) = MODE_CHALLENGE /\ challenge_done s s') \/
  (o.(o_mode) = MODE_HEARTBEAT /\ heartbeat_done s s') \/
  (o.(o_mode) = MODE_KEY_UPDATE /\ key_update_done s s') \/
  (o.(o_mode) = MODE_APP_DATA /\ app_data_done s s').

(** [ends m P s]: whatever happens the context stays well-formed, and a success
    has established [P] of the result and the final state. *)
Definition ends {A} (m : IOM A) (P : A -> st -> Prop) (s : st) : Prop :=
  wp m (fun a s' => ctx_wf s'.1 /\ P a s') (fun _ s' => ctx_wf s'.1) s.

Lemma ends_run {A} (m : IOM A) (P : A -> st -> Prop) s :
  ends m P s -> ends m (fun a s' => m s = Ok a s' /\ P a s') s.
Proof.
  intros Hm. apply wp_remember. eapply wp_mono; [exact Hm|..]; [|done].
  intros a s' [? ?] ?. by split.
Qed.

Lemma ends_mono {A} (m : IOM A) (P Q : A -> st -> Prop) s :
  ends m P s -> (forall a s', P a s' -> Q a s') -> ends m Q s.
Proof. intros Hm HQ. eapply wp_mono; [exact Hm| |done]. intros a s' [? ?]. eauto. Qed.

Lemma ends_bind {A B} (m : IOM A) (f : A -> IOM B) (P : A -> st -> Prop) (Q : B -> st -> Prop) s :
  ends m P s -> (forall a c1 t1, ctx_wf c1 -> m s = Ok a (c1, t1) -> P a (c1, t1) -> ends (f a) Q (c1, t1)) ->
  ends (bind m f) Q s.
Proof.
  intros Hm%ends_run Hf. apply wp_bind. eapply wp_mono; [exact Hm| |done].
  intros a [c1 t1] (Hw & He & Hp). by apply Hf.
Qed.

Lemma ends_safe {A} (m : IOM A) c t : safe m (c, t) -> ends m (fun _ _ => True) (c, t).
Proof. intros Hm. eapply wp_mono; [exact Hm|done|by intros rc s [_ ?]]. Qed.

Lemma do_session_ends c t : ctx_wf c -> c.(mode) = WOLFSPDM_MODE_AUTO ->
  ends do_session (fun _ => session_up (c, t)) (c, t).
Proof.
  intros Hwf Hm. unfold do_session.
  eapply ends_mono; [apply (ends_run _ (fun _ s => handshake s.1))|by intros [] s' []].
  apply Connect_wp; [done| |done|done]. intros c' w' Hwf' _ Hc. split; [done|].
  unfold connected_by_mode in Hc.
  assert (mode (reset_ctx c) = mode c) as Hr by (pose proof (reset_identity c) as Hi; by injection Hi).
  rewrite Hr, Hm in Hc. cbn in Hc. tauto.
Qed.

(** A scenario that opens a session and makes one more call. *)
Lemma session_then_ends (m : IOM unit) (R : st -> st -> Prop) c t :
  ctx_wf c -> c.(mode) = WOLFSPDM_MODE_AUTO ->
  (forall c1 t1, ctx_wf c1 -> ends m (fun _ => R (c1, t1)) (c1, t1)) ->
  ends (do_session ;;; m)
    (fun _ s' => exists s1, session_up (c, t) s1 /\ m s1 = Ok tt s' /\ R s1 s') (c, t).
Proof.
  intros Hwf Hm HR. eapply ends_bind; [by apply do_session_ends|]. intros a c1 t1 Hwf1 Hrun Hh.
  eapply ends_mono; [by apply ends_run, HR|]. intros [] s' [? ?]. by exists (c1, t1).
Qed.

Lemma do_meas_ends sig c t : ctx_wf c -> c.(mode) = WOLFSPDM_MODE_AUTO ->
  ends (do_meas sig) (fun _ => meas_done sig (c, t)) (c, t).
Proof.
  intros Hwf Hm. apply (session_then_ends _ (fun s1 s' => meas_result sig s1.1 s'.1)); [done|done|].
  intros c1 t1 Hwf1. apply GetMeasurements_wp; [done|by intros|by intros rc s (_ & ? & _)].
Qed.

Lemma do_heartbeat_ends c t : ctx_wf c -> c.(mode) = WOLFSPDM_MODE_AUTO ->
  ends do_heartbeat (fun _ => heartbeat_done (c, t)) (c, t).
Proof.
  intros Hwf Hm. apply (session_then_ends _ (fun s1 s' => xfer true s1.1 s'.1)); [done|done|].
  intros c1 t1 Hwf1.
  eapply (wp_mono _ (fun _ s => ctx_wf s.1 /\ xfer true c1 s.1));
    [apply Heartbeat_wp; [done|by intros]|done|by intros rc s [_ ?]].
Qed.

Lemma do_key_update_ends c t : ctx_wf c -> c.(mode) = WOLFSPDM_MODE_AUTO ->
  ends do_key_update (fun _ => key_update_done (c, t)) (c, t).
Proof.
  intros Hwf Hm. apply (session_then_ends _ (fun s1 s' => rotated true s1.1 s'.1)); [done|done|].
  intros c1 t1 Hwf1. apply KeyUpdate_wp; [done|by intros|by intros rc c' w' (_ & ? & _)].
Qed.

(** The test on the answer leaves one shape. *)
Lemma tid_answer_exact rsp : len rsp = 6 -> at_ rsp 0 = 1 -> at_ rsp 1 = 0 -> at_ rsp 2 = 0 ->
  at_ rsp 3 = 2 -> at_ rsp 4 = 0 -> rsp = tid_answer (at_ rsp 5).
Proof.
  intros Hl. do 6 (destruct rsp as [|? rsp]; [done|]). destruct rsp; [|exfalso].
  - unfold at_. cbn [nth]. by intros -> -> -> -> ->.
  - revert Hl. rewrite !len_cons. pose proof (len_nonneg rsp). lia.
Qed.

Lemma do_app_data_ends c t : ctx_wf c -> c.(mode) = WOLFSPDM_MODE_AUTO ->
  ends do_app_data (fun tid s' => app_data_done (c, t) s') (c, t).
Proof.
  intros Hwf Hm. eapply ends_bind; [by apply do_session_ends|]. intros a c1 t1 Hwf1 Hrun Hh.
  eapply ends_bind; [by apply ends_safe, SendData_safe|]. intros [] c2 t2 Hwf2 Hs _.
  eapply ends_bind; [by apply ends_safe, ReceiveData_safe|]. intros rsp c3 t3 Hwf3 Hr _.
  unfold ends. io_step. io_step; [done|]. io_step. split; [done|].
  assert (rsp = tid_answer (at_ rsp 5)) as Ha by (apply tid_answer_exact; unfold getTid, at_ in *; cbn [nth] in *; lia).
  rewrite Ha in Hr. exists (c1, t1), (c2, t2), (at_ rsp 5).
  pose proof (SendData_ok _ _ _ _ Hs) as [_ ?]. by pose proof (ReceiveData_ok _ _ _ _ Hr) as [_ ?].
Qed.

Lemma load_trusted_ca_wp c : ctx_wf c ->
  wp (load_trusted_ca env) (fun _ c' => ctx_wf c' /\ ca_loaded c') (fun _ c' => ctx_wf c') c.
Proof.
  intros Hwf. unfold load_trusted_ca. wp_step. wp_step; [|done].
  rename a into path, H1 into Hpath. wp_step. wp_step; [|done]. rename a into der, H1 into Hder.
  assert (0 <= len der) as Hd by apply len_nonneg. wf_facts Hwf.
  unfold wolfSPDM_SetTrustedCAs. wp_go; try done.
  split; [wf_tac|]. exists path, der. ctx_simpl. split_and!; [done|done|lia|].
  rewrite (sub_bytes_splice _ 0 der) by lia. done.
Qed.

Lemma do_challenge_ends c t : ctx_wf c ->
  ends (do_challenge env) (fun _ => challenge_done (c, t)) (c, t).
Proof.
  intros Hwf. unfold do_challenge.
  pose proof (fun c t (Hwf : ctx_wf c) => handshake_safe c t Hwf) as Hs.
  eapply ends_bind; [by apply ends_safe, Hs|]. intros [] c1 t1 Hwf1 Hr1 _.
  eapply ends_bind; [by apply ends_safe, Hs|]. intros [] c2 t2 Hwf2 Hr2 _.
  eapply ends_bind; [by apply ends_safe, Hs|]. intros [] c3 t3 Hwf3 Hr3 _.
  eapply ends_bind; [by apply ends_safe, Hs|]. intros [] c4 t4 Hwf4 Hr4 _.
  eapply ends_bind; [by apply ends_safe, Hs|]. intros [] c5 t5 Hwf5 Hr5 _.
  assert (chain_fetched (c, t) (c5, t5)) as Hf by (by exists (c1, t1), (c2, t2), (c3, t3), (c4, t4)).
  apply wp_bind, wp_try, wp_zoom, wp_remember.
  eapply wp_mono; [by apply load_trusted_ca_wp|..]; cbn [fst snd].
  - intros [] c6 [Hwf6 Hca] Hl.
    eapply ends_mono; [apply (ends_run _ (fun _ s => chal_result c6 s.1))|].
    + apply Challenge_wp; [done|by intros|by intros rc s (_ & ? & _)].
    + intros [] s' [? ?]. by exists (c5, t5), c6.
  - intros rc c6 Hwf6 _. by io_step.
Qed.

(** A scenario as [main] sees it: its return code is a value. *)
Lemma ends_try (m : IOM unit) (P : st -> Prop) o s : ends m (fun _ => P) s ->
  (forall s', P s' -> scenario_done o s s') ->
  wp (try m) (fun r s' => ctx_wf s'.1 /\ (r = inl tt -> scenario_done o s s')) (fun _ _ => False) s.
Proof.
  intros Hm HP. apply wp_try. eapply wp_mono; [exact Hm|..].
  - intros [] s' [? ?]. eauto.
  - intros rc s' ?. by split.
Qed.

Lemma scenario_wp o c t : ctx_wf c -> c.(mode) = WOLFSPDM_MODE_AUTO ->
  wp (scenario env o).1 (fun r s => ctx_wf s.1 /\ (r = inl tt -> scenario_done o (c, t) s))
    (fun _ _ => False) (c, t).
Proof.
  intros Hwf Hm. unfold scenario.
  destruct (Z.eqb_spec (o_mode o) MODE_SESSION) as [Ho|_]; cbn [fst].
  { eapply ends_try; [by apply do_session_ends|]. unfold scenario_done. tauto. }
  destruct (Z.eqb_spec (o_mode o) MODE_MEAS) as [Ho|_]; cbn [fst].
  { eapply ends_try; [by apply do_meas_ends|]. unfold scenario_done. tauto. }
  destruct (Z.eqb_spec (o_mode o) MODE_CHALLENGE) as [Ho|_]; cbn [fst].
  { eapply ends_try; [by apply do_challenge_ends|]. unfold scenario_done. tauto. }
  destruct (Z.eqb_spec (o_mode o) MODE_HEARTBEAT) as [Ho|_]; cbn [fst].
  { eapply ends_try; [by apply do_heartbeat_ends|]. unfold scenario_done. tauto. }
  destruct (Z.eqb_spec (o_mode o) MODE_KEY_UPDATE) as [Ho|_]; cbn [fst].
  { eapply ends_try; [by apply do_key_update_ends|]. unfold scenario_done. tauto. }
  destruct (Z.eqb_spec (o_mode o) MODE_APP_DATA) as [Ho|_]; cbn [fst]; [|by io_step].
  apply (ends_try _ (app_data_done (c, t))); [|unfold scenario_done; tauto].
  eapply ends_bind; [by apply do_app_data_ends|]. intros a c1 t1 Hwf1 Hrun Hh. by split.
Qed.

(** Conversely, [main] sees success when the calls succeed. *)
Lemma try_ok {A} (m : IOM A) s a s' : m s = Ok a s' -> try m s = Ok (inl a) s'.
Proof. unfold try. by intros ->. Qed.

Lemma scenario_succeeds o s s' : scenario_done o s s' ->
  (scenario env o).1 s = Ok (inl tt) s' /\ (scenario env o).2 = false.
Proof.
  unfold scenario. intros [[-> Hd]|[[-> Hd]|[[-> Hd]|[[-> Hd]|[[-> Hd]|[-> Hd]]]]]]; (split; [|done]); cbn [fst].
  - apply try_ok, Hd.
  - destruct Hd as (s1 & [Hu _] & Hm & _). apply try_ok, bind_ok. by exists tt, s1.
  - destruct Hd as ([c5 t5] & c6 & (s1 & s2 & s3 & s4 & Hr1 & Hr2 & Hr3 & Hr4 & Hr5) & Hl & _ & Hc & _).
    apply try_ok. unfold do_challenge.
    do 4 (apply bind_ok; do 2 eexists; split; [eassumption|]).
    apply bind_ok. do 2 eexists. split; [eassumption|].
    apply bind_ok. exists (inl tt), (c6, t5). split; [|done].
    apply try_ok, on_ctx_ok. by exists c6.
  - destruct Hd as (s1 & [Hu _] & Hm & _). apply try_ok, bind_ok. by exists tt, s1.
  - destruct Hd as (s1 & [Hu _] & Hm & _). apply try_ok, bind_ok. by exists tt, s1.
  - destruct Hd as (s1 & s2 & tid & [Hu _] & Hs & _ & Hr & _).
    apply try_ok, bind_ok. exists tid, s'. split; [|done].
    apply bind_ok. exists tt, s1. split; [done|]. apply bind_ok. exists tt, s2. split; [done|].
    apply bind_ok. by exists (tid_answer tid), s'.
Qed.

Lemma configure_wp o c : ctx_wf c -> c.(mode) = WOLFSPDM_MODE_AUTO ->
  wp (configure o) (fun _ c' => ctx_wf c' /\ c'.(mode) = WOLFSPDM_MODE_AUTO) (fun _ _ => False) c.
Proof.
  intros Hwf Hm. unfold configure, wolfSPDM_SetIO, wolfSPDM_SetDebug, wolfSPDM_AllowUntrustedCerts,
    wolfSPDM_SetMaxVersion, wolfSPDM_SetKeyExchangePref.
  wp_go; (split; [wf_tac|ctx_simpl; done]).
Qed.

(** How [main] leaves the state its scenario ended in: a session still up is
    disconnected, whatever comes of that, the context wiped and the socket
    closed. *)
Definition shut_down (s s' : st) : Prop :=
  exists s1, (if wolfSPDM_IsConnected s.1 =? 0 then s1 = s
              else exists r, try wolfSPDM_Disconnect s = Ok r s1) /\
    wolfSPDM_Free s1.1 = Ok tt zero_ctx /\ tcp_disconnect (zero_ctx, s1.2) = Ok tt s'.

(** The program configured the context [c], ran the scenario to its end, and
    shut down. *)
Definition ran o c t (s' : st) : Prop :=
  exists c1 s1, configure o c = Ok (inl tt) c1 /\ scenario_done o (c1, t) s1 /\ shut_down s1 s'.

Lemma run_scenario_wp o c t : ctx_wf c -> c.(mode) = WOLFSPDM_MODE_AUTO ->
  wp (run_scenario env o) (fun code s => (code = 0 \/ code = 1 \/ code = 77) /\
      (code = 0 -> ran o c t s) /\ s.1 = zero_ctx /\ s.2.(sockFd) < 0)
    (fun _ _ => False) (c, t).
Proof.
  intros Hwf Hm. unfold run_scenario. apply wp_bind, wp_zoom, wp_remember.
  eapply wp_mono; [by apply configure_wp| |done]. intros conf c1 [Hwf1 Hm1] Hconf. cbn [fst snd] in *.
  assert (wp (match conf with inr rc => (ret (inr rc), false) | inl _ => scenario env o end).1
    (fun r s => ctx_wf s.1 /\ (r = inl tt -> conf = inl tt /\ scenario_done o (c1, t) s))
    (fun _ _ => False) (c1, t)) as Hs.
  { destruct conf as [[]|]; [|by apply wp_ret].
    eapply wp_mono; [by apply scenario_wp| |done]. intros r s [? ?]. eauto. }
  destruct (match conf with inr rc => _ | inl _ => _ end) as [m notBuilt]. cbn [fst] in Hs.
  apply wp_bind. eapply wp_mono; [exact Hs| |done]. intros rc [c2 t2] [Hwf2 Hd]. cbn [fst] in *.
  do 2 io_step. apply wp_bind.
  apply (wp_mono _ (fun _ s => ctx_wf s.1 /\ (rc = inl tt ->
      if wolfSPDM_IsConnected c2 =? 0 then s = (c2, t2)
      else exists r, try wolfSPDM_Disconnect (c2, t2) = Ok r s)) _ (fun _ _ => False));
    [|intros _ [c3 t3] [Hwf3 Hc3]|done].
  { apply wp_when; intros Hb.
    - apply wp_bind, wp_remember, wp_try.
      eapply wp_mono; [apply connections_safe; done|..].
      + intros [] s Hw Hr. io_step. split; [done|]. intros ->. destruct (_ =? 0); [done|eauto].
      + intros e s [_ Hw] Hr. io_step. split; [done|]. intros ->. destruct (_ =? 0); [done|eauto].
    - split; [done|]. intros ->. by destruct (_ =? 0). }
  io_step. io_step. apply wp_remember. apply Free_wp; [done|]. intros Hfree. cbn [fst snd] in *.
  apply wp_bind, wp_remember. unfold wp at 1.
  destruct (tcp_disconnect (zero_ctx, t3)) as [[] [c4 t4]|? ?|] eqn:Hdisc.
  2,3: unfold tcp_disconnect in Hdisc; by destruct (_ >=? 0).
  intros _. io_step.
  assert (c4 = zero_ctx /\ sockFd t4 < 0) as [-> Hfd].
  { unfold tcp_disconnect in Hdisc. destruct (sockFd t3 >=? 0) eqn:Hn; injection Hdisc as <- <-;
      (split; [done|cbn; lia]). }
  split_and!; [destruct notBuilt, rc; auto| |done|done].
  destruct notBuilt; [done|]. destruct rc as [[]|]; [|done]. intros _.
  destruct (Hd eq_refl) as [-> Hdone]. exists c1, (c2, t2). split_and!; [done|done|].
  exists (c3, t3). split_and!; [by apply Hc3|done|done].
Qed.

Lemma run_scenario_succeeds o c t s' : ran o c t s' -> run_scenario env o (c, t) = Ok 0 s'.
Proof.
  intros (c1 & [c2 t2] & Hconf & Hd & [c3 t3] & Hc & Hfree & Hdisc). unfold run_scenario.
  apply bind_ok. exists (inl tt), (c1, t). split; [apply on_ctx_ok; by exists c1|].
  destruct (scenario_succeeds _ _ _ Hd) as [Hrun Hbuilt].
  destruct (scenario env o) as [m notBuilt]. cbn [fst snd] in *. subst notBuilt.
  apply bind_ok. exists (inl tt), (c2, t2). split; [done|].
  apply bind_ok. exists c2, (c2, t2). split; [done|].
  apply bind_ok. exists tt, (c3, t3). split.
  { destruct (_ =? 0); cbn [negb when]; [by rewrite Hc|]. destruct Hc as [r Hr].
    apply bind_ok. by exists r, (c3, t3). }
  apply bind_ok. exists tt, (zero_ctx, t3). split; [apply on_ctx_ok; by exists zero_ctx|].
  apply bind_ok. by exists tt, s'.
Qed.

(** [tcp_connect] leaves the context and, when it fails, the descriptor. *)
Lemma tcp_connect_wp host port c t (Q : bool -> WOLFSPDM_CTX * TCP_CTX N -> Prop) E :
  (forall t', Q true (c, t')) -> (forall t', t'.(sockFd) = t.(sockFd) -> Q false (c, t')) ->
  wp (tcp_connect host port) Q E (c, t).
Proof.
  intros Ht Hf. unfold wp, tcp_connect. destruct (p_socket _) as [n1 fd].
  destruct (fd <? 0); [by apply Hf|]. destruct (p_inet_pton host); [|by apply Hf].
  cbn [negb]. destruct (p_connect _ _ _ _) as [n2 []]; [by apply Ht|by apply Hf].
Qed.

Lemma Init_auto c0 : match wolfSPDM_Init c0 with Ok _ c => c.(mode) = WOLFSPDM_MODE_AUTO | _ => True end.
Proof.
  assert (wp wolfSPDM_Init (fun _ c => c.(mode) = WOLFSPDM_MODE_AUTO) (fun _ _ => True) c0) as Hi
    by (unfold wolfSPDM_Init; wp_go; ctx_simpl; done).
  unfold wp in Hi. by destruct (wolfSPDM_Init c0).
Qed.

(** The program reached its scenario and ran it: the options, the connection
    and the context were good, and every library call of the scenario succeeded
    from the state [main] prepared. *)
Definition demo_ran (sizeof_ctx : Z) (opts : list (ascii * string)) c0 t (s' : st) : Prop :=
  exists o t1 c, parse_options opts no_options = inl o /\ o.(o_mode) <> 0 /\
    sizeof_ctx <= CTX_BUF_SIZE /\
    tcp_connect EMU_HOST EMU_PORT (c0, t) = Ok true (c0, t1) /\
    wolfSPDM_InitStatic sizeof_ctx CTX_BUF_SIZE c0 = Ok tt c /\ ran o c t1 s'.

Lemma demo_succeeds sizeof_ctx opts c0 t s' :
  demo_ran sizeof_ctx opts c0 t s' -> demo_main env sizeof_ctx opts (c0, t) = Ok 0 s'.
Proof.
  intros (o & t1 & c & Ho & Hmode & Hsz & Hconn & Hinit & Hran). unfold demo_main. rewrite Ho.
  replace (o_mode o =? 0) with false by lia. replace (sizeof_ctx >? CTX_BUF_SIZE) with false by lia.
  apply bind_ok. exists true, (c0, t1). split; [done|]. cbn [negb].
  apply bind_ok. exists (inl tt), (c, t1). split; [|by apply run_scenario_succeeds].
  apply try_ok, on_ctx_ok. by exists c.
Qed.

(** What [main] leaves behind, for any exit code. *)
Lemma demo_main_wp sizeof_ctx opts c0 t : t.(sockFd) < 0 ->
  wp (demo_main env sizeof_ctx opts) (fun code s =>
      (code = 0 \/ code = 1 \/ code = 77) /\ s.2.(sockFd) < 0 /\
      (code = 0 -> parse_options opts no_options = inr 0 \/
         demo_ran sizeof_ctx opts c0 t s /\ s.1 = zero_ctx))
    (fun _ _ => False) (c0, t).
Proof.
  intros Hfd. set (Post := fun (code : Z) (s : st) => _ /\ _ /\ _).
  assert (forall c t', sockFd t' < 0 -> Post 1 (c, t')) as Hfail by (intros; split_and!; auto; lia).
  unfold demo_main.
  destruct (parse_options opts no_options) as [o|code] eqn:Ho.
  2: { apply wp_ret. assert (code = 0 \/ code = 1) as Hc by (by eapply parse_options_exit).
       split_and!; [tauto|done|intros ->; by left]. }
  destruct (Z.eqb_spec (o_mode o) 0) as [|Hmode]; [by apply wp_ret, Hfail|].
  destruct (sizeof_ctx >? CTX_BUF_SIZE) eqn:Hsz; [by apply wp_ret, Hfail|].
  apply wp_bind, wp_remember, tcp_connect_wp; intros t'; cbn [negb];
    [intros Hconn|intros Ht' _; apply wp_ret, Hfail; by rewrite Ht'].
  apply wp_bind, wp_try, wp_zoom, wp_remember. cbn [fst snd]. unfold wolfSPDM_InitStatic at 1.
  wp_step. wp_step; [lia|]. pose proof (Init_ok c0) as Hi. pose proof (Init_auto c0) as Hm.
  unfold wp at 1. destruct (wolfSPDM_Init c0) as [[] c|rc c|]; [|clear Hi|done]; intros Hinit.
  - eapply wp_mono; [apply run_scenario_wp; [apply Hi|done]| |done].
    intros code s (Hc & Hd & Hz & Hs). split_and!; [done|done|]. intros Hcode. right.
    split; [|done]. exists o, t', c. split_and!; try done; [lia|by apply Hd].
  - apply wp_bind. unfold tcp_disconnect, wp at 1.
    destruct (sockFd t' >=? 0) eqn:Hn; apply wp_ret, Hfail; cbn; lia.
Qed.

(** C22: the demonstration reports exactly what happened.  For any options, any
    environment and any behaviour of the network, the program ends without
    undefined behaviour, with the socket closed and exit code 0, 1 or 77.  It
    exits with 0 exactly when help was asked for or the chosen scenario ran to
    its end: every call of it succeeded, one after the other, from the
    configured context and the connection [main] opened - a complete
    authenticated handshake, then measurements verified, a heartbeat answered,
    both directions rotated, or GetTID sent as a record of the session and
    answered by a record that holds the PLDM answer; or a challenge signed under
    a chain that ends in the certificate of the file.  The state the program
    leaves is the one the scenario ended in, disconnected if a session was up,
    its context wiped. *)
Theorem demo_exit_status sizeof_ctx opts c0 t : t.(sockFd) < 0 ->
  match demo_main env sizeof_ctx opts (c0, t) with
  | Ok code s =>
      (code = 0 \/ code = 1 \/ code = 77) /\ s.2.(sockFd) < 0 /\
      (code = 0 <-> parse_options opts no_options = inr 0 \/
         demo_ran sizeof_ctx opts c0 t s /\ s.1 = zero_ctx)
  | Err _ _ => False
  | Ub => False
  end.
Proof.
  intros Hfd. pose proof (demo_main_wp sizeof_ctx opts c0 t Hfd) as Hw. unfold wp in Hw.
  destruct (demo_main env sizeof_ctx opts (c0, t)) as [code s|? ?|] eqn:Hrun; [|done|done].
  destruct Hw as (Hc & Hs & Hz). split_and!; [done|done|]. split; [done|]. intros [Ho|[Hran _]].
  - unfold demo_main in Hrun. rewrite Ho in Hrun. by injection Hrun as <- _.
  - apply demo_succeeds in Hran. rewrite Hran in Hrun. by injection Hrun as <-.
Qed.
End DemoLemmas.
