(* ===== verification/Responder.v ===== *)
(** * The TCG and PSK responder: src/spdm_responder.c

    The responder keeps a requester context of its own and reuses the
    requester's transcript, key schedule, record layer and signing.  The TPM
    behind it is a parameter: a callback with a state of type [T]. *)
From Stdlib Require Import ZArith Lia String.
From stdpp Require Import base tactics list numbers option.
From S2P Require Import Prelude Types Bytes Crypt Context Transcript Kdf CryptoOps Transport.
From S2P Require Import Secured Msg Chunk Cert Attest Session Standard Tcg Psk.

(** The TPM callback: its number and user pointer, the command, the room for
    the response; None is a nonzero return. *)
Class TpmCallback (T : Type) := tpm_call : Z -> Z -> bytes -> Z -> T -> T * option bytes.

Definition WOLFSPDM_MAX_TPM_MSG_SIZE `{Config} : Z := WOLFSPDM_MAX_MSG_SIZE.

(** ** The responder context *)

Record RESP_FLAGS := {
  useTcg : bool; usePsk : bool; hasIdKey : bool; resp_initialized : bool; spdmOnlyLock : bool;
  pskProvisioned : bool; clearAuthSet : bool; sessionAsym : bool; pendingAsym : bool
}.

#[global] Instance resp_flags_eta : Settable RESP_FLAGS := fun r => {|
  useTcg := useTcg r; usePsk := usePsk r; hasIdKey := hasIdKey r;
  resp_initialized := resp_initialized r; spdmOnlyLock := spdmOnlyLock r;
  pskProvisioned := pskProvisioned r; clearAuthSet := clearAuthSet r;
  sessionAsym := sessionAsym r; pendingAsym := pendingAsym r |}.

Section RespStruct.
Context `{WolfCrypt}.

Record WOLFSPDM_RESP_CTX := {
  rctx : WOLFSPDM_CTX;
  rflags : RESP_FLAGS;
  clearAuthDigest : bytes;
  idPrivKey : bytes;
  idPrivKeyLen : Z;
  idPubKey : bytes;
  idPubKeyLen : Z;
  pskStore : bytes;
  pskStoreSz : Z;
  pskHintStore : bytes;
  pskHintStoreSz : Z;
  tpmCb : Z;
  tpmCbUserCtx : Z;
  secureInPlain : bytes;
  secureOutPlain : bytes;
  vdInPayload : bytes;
  vdOutPayload : bytes
}.

#[global] Instance resp_eta : Settable WOLFSPDM_RESP_CTX := fun r => {|
  rctx := rctx r; rflags := rflags r; clearAuthDigest := clearAuthDigest r;
  idPrivKey := idPrivKey r; idPrivKeyLen := idPrivKeyLen r; idPubKey := idPubKey r;
  idPubKeyLen := idPubKeyLen r; pskStore := pskStore r; pskStoreSz := pskStoreSz r;
  pskHintStore := pskHintStore r; pskHintStoreSz := pskHintStoreSz r; tpmCb := tpmCb r;
  tpmCbUserCtx := tpmCbUserCtx r; secureInPlain := secureInPlain r;
  secureOutPlain := secureOutPlain r; vdInPayload := vdInPayload r;
  vdOutPayload := vdOutPayload r |}.
End RespStruct.

Notation upd_r f := (@modify WOLFSPDM_RESP_CTX f).

Definition zero_resp_flags : RESP_FLAGS := {|
  useTcg := false; usePsk := false; hasIdKey := false; resp_initialized := false;
  spdmOnlyLock := false; pskProvisioned := false; clearAuthSet := false; sessionAsym := false;
  pendingAsym := false |}.

Section RespConfig.
Context `{WolfCrypt} `{Config}.
Notation RM := (M WOLFSPDM_RESP_CTX).

Definition zero_resp : WOLFSPDM_RESP_CTX := {|
  rctx := zero_ctx; rflags := zero_resp_flags; clearAuthDigest := zeros WOLFSPDM_HASH_SIZE;
  idPrivKey := zeros WOLFSPDM_ECC_KEY_SIZE; idPrivKeyLen := 0;
  idPubKey := zeros WOLFSPDM_ECC_POINT_SIZE; idPubKeyLen := 0;
  pskStore := zeros WOLFSPDM_PSK_MAX_SIZE; pskStoreSz := 0;
  pskHintStore := zeros WOLFSPDM_PSK_HINT_MAX; pskHintStoreSz := 0;
  tpmCb := 0; tpmCbUserCtx := 0;
  secureInPlain := zeros WOLFSPDM_MAX_TPM_MSG_SIZE;
  secureOutPlain := zeros WOLFSPDM_MAX_TPM_MSG_SIZE;
  vdInPayload := zeros WOLFSPDM_MAX_TPM_MSG_SIZE;
  vdOutPayload := zeros WOLFSPDM_MAX_TPM_MSG_SIZE |}.

(** An operation of the inner context, [&rctx->ctx]. *)
Definition in_ctx {A} (m : M WOLFSPDM_CTX A) : RM A :=
  zoom rctx (fun c r => r <| rctx := c |>) m.

Definition wolfSPDM_RespInit : RM unit :=
  upd_r (fun _ => zero_resp) ;;;
  in_ctx wolfSPDM_Init ;;;
  upd_r (fun r => r <| rflags := r.(rflags) <| resp_initialized := true |> |>).

Definition wolfSPDM_RespFree : RM unit :=
  in_ctx wolfSPDM_Free ;;;
  upd_r (fun _ => zero_resp).

Definition wolfSPDM_RespSetMode (tcg psk : bool) : RM unit :=
  let* r := @get WOLFSPDM_RESP_CTX in
  check (negb r.(rflags).(resp_initialized)) WOLFSPDM_E_INVALID_ARG ;;;
  check (negb tcg && negb psk) WOLFSPDM_E_INVALID_ARG ;;;
  upd_r (fun r => r <| rflags := r.(rflags) <| useTcg := tcg |> <| usePsk := psk |> |>
    <| rctx := r.(rctx) <| mode := if psk then WOLFSPDM_MODE_NATIONS_PSK
                                   else WOLFSPDM_MODE_NUVOTON |> |>).

Definition wolfSPDM_RespSetPSK (newPsk : bytes) (hint : option bytes) : RM unit :=
  let* r := @get WOLFSPDM_RESP_CTX in
  check (negb r.(rflags).(resp_initialized)) WOLFSPDM_E_INVALID_ARG ;;;
  check ((len newPsk =? 0) || (len newPsk >? WOLFSPDM_PSK_MAX_SIZE)) WOLFSPDM_E_INVALID_ARG ;;;
  in_ctx (wolfSPDM_SetPSK newPsk hint) ;;;
  let* store := wr (zeros WOLFSPDM_PSK_MAX_SIZE) 0 newPsk in
  upd_r (fun r => r <| pskStore := store |> <| pskStoreSz := len newPsk |>) ;;;
  (if match hint with
      | Some h => (len h >? 0) && (len h <=? WOLFSPDM_PSK_HINT_MAX)
      | None => false
      end then
     let* h := wr (zeros WOLFSPDM_PSK_HINT_MAX) 0 (opt_bytes hint) in
     upd_r (fun r => r <| pskHintStore := h |> <| pskHintStoreSz := len (opt_bytes hint) |>)
   else upd_r (fun r => r <| pskHintStore := zeros WOLFSPDM_PSK_HINT_MAX |>
                          <| pskHintStoreSz := 0 |>)) ;;;
  upd_r (fun r => r
    <| rflags := r.(rflags) <| pskProvisioned := true |> <| clearAuthSet := false |> |>
    <| clearAuthDigest := zeros WOLFSPDM_HASH_SIZE |>).

Definition wolfSPDM_RespSetIdentityKey (privKey pubKey : bytes) : RM unit :=
  let* r := @get WOLFSPDM_RESP_CTX in
  check (negb r.(rflags).(resp_initialized)) WOLFSPDM_E_INVALID_ARG ;;;
  check (negb (len privKey =? WOLFSPDM_ECC_KEY_SIZE) || negb (len pubKey =? WOLFSPDM_ECC_POINT_SIZE))
    WOLFSPDM_E_INVALID_ARG ;;;
  check (negb (r.(rctx).(state) =? WOLFSPDM_STATE_INIT)) WOLFSPDM_E_BAD_STATE ;;;
  let* a := wr r.(idPrivKey) 0 privKey in
  let* b := wr r.(idPubKey) 0 pubKey in
  upd_r (fun r => r <| idPrivKey := a |> <| idPrivKeyLen := len privKey |>
    <| idPubKey := b |> <| idPubKeyLen := len pubKey |>
    <| rflags := r.(rflags) <| hasIdKey := true |> |>).

Definition wolfSPDM_RespSetTpmCallback (cb userCtx : Z) : RM unit :=
  let* r := @get WOLFSPDM_RESP_CTX in
  check (negb r.(rflags).(resp_initialized)) WOLFSPDM_E_INVALID_ARG ;;;
  upd_r (fun r => r <| tpmCb := cb |> <| tpmCbUserCtx := userCtx |>).

Definition wolfSPDM_RespSetDebug (enable : Z) : RM unit := in_ctx (wolfSPDM_SetDebug enable).

Definition wolfSPDM_RespIsLocked (r : WOLFSPDM_RESP_CTX) : Z :=
  if r.(rflags).(spdmOnlyLock) then 1 else 0.

Definition wolfSPDM_RespIsSessionActive (r : WOLFSPDM_RESP_CTX) : Z :=
  if (r.(rctx).(state) =? WOLFSPDM_STATE_CONNECTED) && negb (r.(rctx).(sessionId) =? 0) then 1 else 0.

(** The key and its length; None for a return of 0. *)
Definition wolfSPDM_RespGetIdentityKey (r : WOLFSPDM_RESP_CTX) : option (bytes * Z) :=
  if negb r.(rflags).(hasIdKey) || negb r.(rflags).(sessionAsym) then None
  else Some (r.(idPubKey), r.(idPubKeyLen)).

Definition wipe_scratch_vd (r : WOLFSPDM_RESP_CTX) : WOLFSPDM_RESP_CTX :=
  r <| vdInPayload := zeros WOLFSPDM_MAX_TPM_MSG_SIZE |>
    <| vdOutPayload := zeros WOLFSPDM_MAX_TPM_MSG_SIZE |>.

Definition wipe_scratch_secure (r : WOLFSPDM_RESP_CTX) : WOLFSPDM_RESP_CTX :=
  r <| secureInPlain := zeros WOLFSPDM_MAX_TPM_MSG_SIZE |>
    <| secureOutPlain := zeros WOLFSPDM_MAX_TPM_MSG_SIZE |>.

Definition wolfSPDM_RespReset : RM unit :=
  in_ctx (upd (fun c => c <| reqDataKey := zeros WOLFSPDM_AEAD_KEY_SIZE |>
            <| rspDataKey := zeros WOLFSPDM_AEAD_KEY_SIZE |>
            <| reqDataIv := zeros WOLFSPDM_AEAD_IV_SIZE |>
            <| rspDataIv := zeros WOLFSPDM_AEAD_IV_SIZE |>
            <| handshakeSecret := zeros WOLFSPDM_HASH_SIZE |>
            <| reqHsSecret := zeros WOLFSPDM_HASH_SIZE |>
            <| rspHsSecret := zeros WOLFSPDM_HASH_SIZE |>
            <| reqFinishedKey := zeros WOLFSPDM_HASH_SIZE |>
            <| rspFinishedKey := zeros WOLFSPDM_HASH_SIZE |>
            <| sharedSecret := zeros WOLFSPDM_ECC_KEY_SIZE |> <| sharedSecretSz := 0 |>
            <| reqAppSecret := zeros WOLFSPDM_HASH_SIZE |>
            <| rspAppSecret := zeros WOLFSPDM_HASH_SIZE |>) ;;;
          wolfSPDM_FreeEphemeralKey ;;;
          wolfSPDM_TranscriptReset ;;;
          upd (fun c => c <| reqSeqNum := 0 |> <| rspSeqNum := 0 |> <| sessionId := 0 |>
            <| state := WOLFSPDM_STATE_INIT |>)) ;;;
  upd_r (fun r => r <| rflags := r.(rflags) <| sessionAsym := false |> <| pendingAsym := false |> |>) ;;;
  upd_r wipe_scratch_secure ;;; upd_r wipe_scratch_vd.
End RespConfig.

(** ** Clear requests *)

Section RespClear.
Context `{WolfCrypt} `{Config}.
Notation CM := (M WOLFSPDM_CTX).
Notation RM := (M WOLFSPDM_RESP_CTX).

Definition RespBuildErrorClear (errCode errData outSz : Z) : CM bytes :=
  check (outSz <? 4) WOLFSPDM_E_BUFFER_SMALL ;;;
  let* ctx := @get WOLFSPDM_CTX in
  ret [if negb (ctx.(spdmVersion) =? 0) then ctx.(spdmVersion) else SPDM_VERSION_10;
       SPDM_ERROR; errCode; errData].

Definition swapped (c : WOLFSPDM_CTX) : WOLFSPDM_CTX :=
  c <| reqDataKey := c.(rspDataKey) |> <| rspDataKey := c.(reqDataKey) |>
    <| reqDataIv := c.(rspDataIv) |> <| rspDataIv := c.(reqDataIv) |>
    <| reqSeqNum := c.(rspSeqNum) |> <| rspSeqNum := c.(reqSeqNum) |>.

Definition RespSwapDataDir : CM unit := upd swapped.

(** Swapped back on every path. *)
Definition RespEncrypt (plain : bytes) (encSz : Z) : CM bytes :=
  RespSwapDataDir ;;;
  let* enc := on_err (wolfSPDM_EncryptInternal plain encSz) (fun _ => RespSwapDataDir) in
  RespSwapDataDir ;;;
  ret enc.

Definition RespDecrypt (enc : bytes) (plainSz : Z) : CM bytes :=
  RespSwapDataDir ;;;
  let* plain := on_err (wolfSPDM_DecryptInternal enc plainSz) (fun _ => RespSwapDataDir) in
  RespSwapDataDir ;;;
  ret plain.

Definition WOLFSPDM_RESP_MAX_VERSION : Z :=
  if WOLFSPDM_MAX_SPDM_VERSION >? SPDM_VERSION_13 then SPDM_VERSION_13
  else WOLFSPDM_MAX_SPDM_VERSION.
Definition WOLFSPDM_RESP_VERSION_COUNT : Z :=
  WOLFSPDM_RESP_MAX_VERSION - WOLFSPDM_MIN_SPDM_VERSION + 1.

(** The loop over the versions; [n] counts the entries left. *)
Fixpoint version_entries (n : nat) (ver : Z) : bytes :=
  match n with
  | O => []
  | S n => [0x00; ver] ++ version_entries n (ver + 1)
  end.

Definition RespBuildVersion (outSz : Z) : CM bytes :=
  check (outSz <? 6 + 2 * WOLFSPDM_RESP_VERSION_COUNT) WOLFSPDM_E_BUFFER_SMALL ;;;
  let out := [SPDM_VERSION_10; SPDM_VERSION; 0x00; 0x00; 0x00; WOLFSPDM_RESP_VERSION_COUNT] ++
    version_entries (Z.to_nat WOLFSPDM_RESP_VERSION_COUNT) WOLFSPDM_MIN_SPDM_VERSION in
  upd (fun c => c <| spdmVersion := 0 |> <| state := WOLFSPDM_STATE_VERSION |>) ;;;
  ret out.

Definition RespSelectVersion (reqVer : Z) (isVendor : bool) : CM unit :=
  let* ctx := @get WOLFSPDM_CTX in
  if negb (ctx.(spdmVersion) =? 0) then
    check (negb (reqVer =? ctx.(spdmVersion))) WOLFSPDM_E_VERSION_MISMATCH
  else if negb (ctx.(state) =? WOLFSPDM_STATE_VERSION) then
    check (negb isVendor) WOLFSPDM_E_BAD_STATE
  else
    check ((reqVer <? WOLFSPDM_MIN_SPDM_VERSION) || (reqVer >? WOLFSPDM_RESP_MAX_VERSION))
      WOLFSPDM_E_VERSION_MISMATCH ;;;
    upd (fun c => c <| spdmVersion := reqVer |>).

Definition RespBuildCapabilities (pskEnabled : bool) (outSz : Z) : CM bytes :=
  check (outSz <? 20) WOLFSPDM_E_BUFFER_SMALL ;;;
  let flags := if pskEnabled then Z.lor 0x000193C0 0x00000400 else 0x000193C0 in
  let* ctx := @get WOLFSPDM_CTX in
  ret ([ctx.(spdmVersion); WOLFSPDM_TCG_CAPABILITIES_RSP; 0x00; 0x00; 0x00; 0x1F; 0x00; 0x00] ++
       SPDM_Set32LE flags ++ [0xC0; 0x07; 0x00; 0x00; 0xC0; 0x07; 0x00; 0x00]).

Definition RespBuildAlgorithms (outSz : Z) : CM bytes :=
  check (outSz <? 52) WOLFSPDM_E_BUFFER_SMALL ;;;
  let* ctx := @get WOLFSPDM_CTX in
  ret ([ctx.(spdmVersion); WOLFSPDM_TCG_ALGORITHMS_RSP; 0x04; 0x00; 0x34; 0x00; 0x00; 0x02] ++
       zeros 4 ++ [0x80; 0x00; 0x00; 0x00; 0x02; 0x00; 0x00; 0x00] ++ zeros 12 ++
       [0x00; 0x00; 0x00; 0x00; 0x02; 0x20; 0x10; 0x00; 0x03; 0x20; 0x02; 0x00;
        0x04; 0x20; 0x80; 0x00; 0x05; 0x20; 0x01; 0x00]).

Definition RESP_SESSION_ID : Z := 0xFFFE.

(** The identifiers of the session a request opens. *)
Definition resp_open_session (inp : bytes) : CM unit :=
  let* id := rd16le inp 4 in
  upd (fun c => c <| reqSessionId := id |> <| rspSessionId := RESP_SESSION_ID |>
    <| sessionId := Z.lor id (w32 (Z.shiftl RESP_SESSION_ID 16)) |>).

(** The stored key goes back into the inner context. *)
Definition resp_reload_psk : RM unit :=
  let* r := @get WOLFSPDM_RESP_CTX in
  let* key := rd_sub r.(pskStore) 0 r.(pskStoreSz) in
  let* a := wr r.(rctx).(psk) 0 key in
  in_ctx (upd (fun c => c <| psk := a |> <| pskSz := r.(pskStoreSz) |>)) ;;;
  when (r.(pskHintStoreSz) >? 0)
    (let* hint := rd_sub r.(pskHintStore) 0 r.(pskHintStoreSz) in
     let* h := wr r.(rctx).(pskHint) 0 hint in
     in_ctx (upd (fun c => c <| pskHint := h |> <| pskHintSz := r.(pskHintStoreSz) |>))).

(** From the session identifiers to the verify data. *)
Definition psk_exchange_rsp (inp : bytes) : CM bytes :=
  resp_open_session inp ;;;
  let* ctx := @get WOLFSPDM_CTX in
  let* rnd := wolfSPDM_GetRandom 32 in
  let out := [ctx.(spdmVersion); SPDM_PSK_EXCHANGE_RSP; 0x00; 0x00] ++
             SPDM_Set16LE ctx.(rspSessionId) ++ [0x00; 0x00] ++ SPDM_Set16LE 32 ++
             SPDM_Set16LE 0 ++ rnd in
  wolfSPDM_TranscriptAdd out ;;;
  let* th1Hash := wolfSPDM_TranscriptHash in
  upd (fun c => c <| th1 := th1Hash |>) ;;;
  wolfSPDM_DeriveHandshakeKeysPsk th1Hash ;;;
  let* ctx := @get WOLFSPDM_CTX in
  let* verifyData := wolfSPDM_ComputeVerifyData ctx.(rspFinishedKey) th1Hash in
  wolfSPDM_TranscriptAdd verifyData ;;;
  upd (fun c => c <| state := WOLFSPDM_STATE_KEY_EX |>) ;;;
  ret (out ++ verifyData).

Definition RespBuildPskExchangeRsp (inp : bytes) (outSz : Z) : RM bytes :=
  let* r := @get WOLFSPDM_RESP_CTX in
  check ((len inp <? 12) || (r.(pskStoreSz) =? 0)) WOLFSPDM_E_BAD_STATE ;;;
  check (outSz <? 12 + 32 + WOLFSPDM_HASH_SIZE) WOLFSPDM_E_BUFFER_SMALL ;;;
  let* reqHintLen := rd16le inp 6 in
  let* reqContextLen := rd16le inp 8 in
  let* reqOpaqueLen := rd16le inp 10 in
  check (12 + reqHintLen + reqContextLen + reqOpaqueLen >? len inp) WOLFSPDM_E_FRAMING ;;;
  resp_reload_psk ;;;
  let* out := in_ctx (psk_exchange_rsp inp) in
  upd_r (fun r => r <| rflags := r.(rflags) <| pendingAsym := false |> |>) ;;;
  ret out.

(** The identity key takes the place of the requester's for one signature. *)
Definition resp_sign (priv pub hash : bytes) : CM bytes :=
  let* ctx := @get WOLFSPDM_CTX in
  let restore := upd (fun c => c <| reqPrivKey := ctx.(reqPrivKey) |>
    <| reqPubKey := ctx.(reqPubKey) |> <| reqPrivKeyLen := ctx.(reqPrivKeyLen) |>
    <| flags := c.(flags) <| hasReqKeyPair := ctx.(flags).(hasReqKeyPair) |> |>) in
  upd (fun c => c <| reqPrivKey := priv |> <| reqPubKey := pub |>
    <| reqPrivKeyLen := WOLFSPDM_ECC_KEY_SIZE |>
    <| flags := c.(flags) <| hasReqKeyPair := true |> |>) ;;;
  let* sig := on_err (wolfSPDM_SignHash hash WOLFSPDM_ECC_SIG_SIZE) (fun _ => restore) in
  restore ;;;
  ret sig.

Definition key_exchange_rsp (priv pub inp : bytes) : CM bytes :=
  let* peerPubKeyX := rd_sub inp 40 WOLFSPDM_ECC_KEY_SIZE in
  let* peerPubKeyY := rd_sub inp 88 WOLFSPDM_ECC_KEY_SIZE in
  resp_open_session inp ;;;
  let* ctx := @get WOLFSPDM_CTX in
  let* rnd := wolfSPDM_GetRandom WOLFSPDM_RANDOM_SIZE in
  wolfSPDM_GenerateEphemeralKey ;;;
  let* (myPubX, myPubY) :=
    wolfSPDM_ExportEphemeralPubKey WOLFSPDM_ECC_KEY_SIZE WOLFSPDM_ECC_KEY_SIZE in
  let out := [ctx.(spdmVersion); SPDM_KEY_EXCHANGE_RSP; 0x00; 0x00] ++
             SPDM_Set16LE ctx.(rspSessionId) ++ [0x00; 0x00] ++ rnd ++ myPubX ++ myPubY ++
             SPDM_Set16LE 0 in
  wolfSPDM_TranscriptAdd out ;;;
  let* th1Hash := wolfSPDM_TranscriptHash in
  let* signMsgHash := wolfSPDM_BuildSignedHash ctx.(spdmVersion) kex_context th1Hash in
  let* sig := resp_sign priv pub signMsgHash in
  wolfSPDM_TranscriptAdd sig ;;;
  wolfSPDM_ComputeSharedSecret peerPubKeyX peerPubKeyY ;;;
  let* th := wolfSPDM_TranscriptHash in
  upd (fun c => c <| th1 := th |>) ;;;
  wolfSPDM_DeriveHandshakeKeys th ;;;
  let* ctx := @get WOLFSPDM_CTX in
  let* verifyData := wolfSPDM_ComputeVerifyData ctx.(rspFinishedKey) th in
  wolfSPDM_TranscriptAdd verifyData ;;;
  upd (fun c => c <| state := WOLFSPDM_STATE_KEY_EX |>) ;;;
  ret (out ++ sig ++ verifyData).

Definition RespBuildKeyExchangeRsp (inp : bytes) (outSz : Z) : RM bytes :=
  let* r := @get WOLFSPDM_RESP_CTX in
  check ((len inp <? 136) || negb r.(rflags).(hasIdKey)) WOLFSPDM_E_BAD_STATE ;;;
  check (outSz <? 138 + WOLFSPDM_ECC_SIG_SIZE + WOLFSPDM_HASH_SIZE) WOLFSPDM_E_BUFFER_SMALL ;;;
  let* out := in_ctx (key_exchange_rsp r.(idPrivKey) r.(idPubKey) inp) in
  upd_r (fun r => r <| rflags := r.(rflags) <| pendingAsym := true |> |>) ;;;
  ret out.

(** FINISH and PSK_FINISH: the same handler but for the code. *)
Definition finish_rsp (rspCode : Z) (inp : bytes) (outSz : Z) : CM bytes :=
  check (len inp <? 4 + WOLFSPDM_HASH_SIZE) WOLFSPDM_E_FRAMING ;;;
  check (outSz <? 4) WOLFSPDM_E_BUFFER_SMALL ;;;
  let* hdr := rd_sub inp 0 4 in
  let* verifyData := rd_sub inp 4 WOLFSPDM_HASH_SIZE in
  wolfSPDM_TranscriptAdd hdr ;;;
  let* th := wolfSPDM_TranscriptHash in
  upd (fun c => c <| th2 := th |>) ;;;
  let* ctx := @get WOLFSPDM_CTX in
  let* expectedHmac := wolfSPDM_ComputeVerifyData ctx.(reqFinishedKey) th in
  check (negb (wolfSPDM_ConstCompare expectedHmac verifyData WOLFSPDM_HASH_SIZE =? 0))
    WOLFSPDM_E_BAD_HMAC ;;;
  wolfSPDM_TranscriptAdd verifyData ;;;
  let out := [ctx.(spdmVersion); rspCode; 0x00; 0x00] in
  wolfSPDM_TranscriptAdd out ;;;
  upd (fun c => c <| state := WOLFSPDM_STATE_CONNECTED |>) ;;;
  ret out.

Definition RespHandleFinish (inp : bytes) (outSz : Z) : RM bytes :=
  let* out := in_ctx (finish_rsp SPDM_FINISH_RSP inp outSz) in
  upd_r (fun r => r <| rflags := r.(rflags) <| sessionAsym := true |> |>) ;;;
  ret out.

Definition RespHandlePskFinish (inp : bytes) (outSz : Z) : RM bytes :=
  let* out := in_ctx (finish_rsp SPDM_PSK_FINISH_RSP inp outSz) in
  upd_r (fun r => r <| rflags := r.(rflags) <| sessionAsym := false |> |>) ;;;
  ret out.

Definition RespBuildEndSessionAck (outSz : Z) : CM bytes :=
  check (outSz <? 4) WOLFSPDM_E_BUFFER_SMALL ;;;
  let* ctx := @get WOLFSPDM_CTX in
  ret [ctx.(spdmVersion); SPDM_END_SESSION_ACK; 0x00; 0x00].
End RespClear.

(** ** Vendor-defined commands *)

Section RespVendor.
Context `{WolfCrypt} `{Config} {T : Type} `{!TpmCallback T}.
Notation RM := (M (WOLFSPDM_RESP_CTX * T)).

(** An operation without the TPM; reading and assigning the responder. *)
Definition on_r {A} (m : M WOLFSPDM_RESP_CTX A) : RM A := zoom fst (fun r s => (r, snd s)) m.
Definition get_r : RM WOLFSPDM_RESP_CTX := on_r get.
Definition set_r (f : WOLFSPDM_RESP_CTX -> WOLFSPDM_RESP_CTX) : RM unit := on_r (modify f).

(** A copy into one of the working buffers. *)
Definition resp_store (buf : WOLFSPDM_RESP_CTX -> bytes)
    (put : bytes -> WOLFSPDM_RESP_CTX -> WOLFSPDM_RESP_CTX) (data : bytes) : RM unit :=
  let* r := get_r in
  let* b := wr (buf r) 0 data in
  set_r (put b).

(** [after] runs whatever became of [m]. *)
Definition always {A} (m : RM A) (after : RM unit) : RM A :=
  let* a := on_err m (fun _ => after) in
  after ;;;
  ret a.

Definition call_tpm (cmd : bytes) (cap : Z) : RM bytes := fun '(r, t) =>
  match tpm_call r.(tpmCb) r.(tpmCbUserCtx) cmd cap t with
  | (t', Some rsp) => Ok rsp (r, t')
  | (t', None) => Err WOLFSPDM_E_IO_FAIL (r, t')
  end.

Definition tpmRespCap : Z := WOLFSPDM_MAX_TPM_MSG_SIZE - (9 + WOLFSPDM_VDCODE_LEN).

Definition resp_tpm2_cmd (payload : bytes) : RM bytes :=
  let* r := get_r in
  check (r.(tpmCb) =? 0) WOLFSPDM_E_BAD_STATE ;;;
  let* rsp := call_tpm payload tpmRespCap in
  check (len rsp >? tpmRespCap) WOLFSPDM_E_BUFFER_SMALL ;;;
  ret rsp.

Definition resp_get_pubk : RM bytes :=
  let* r := get_r in
  check (negb r.(rflags).(hasIdKey)) WOLFSPDM_E_BAD_STATE ;;;
  check (r.(idPubKeyLen) >? WOLFSPDM_MAX_MSG_SIZE) WOLFSPDM_E_BUFFER_SMALL ;;;
  rd_sub r.(idPubKey) 0 r.(idPubKeyLen).

Definition resp_give_pub (payload : bytes) : RM bytes :=
  let* r := get_r in
  check (len payload >? len r.(rctx).(reqPubKeyTPMT)) WOLFSPDM_E_BUFFER_SMALL ;;;
  let* a := wr r.(rctx).(reqPubKeyTPMT) 0 payload in
  on_r (in_ctx (upd (fun c => c <| reqPubKeyTPMT := a |> <| reqPubKeyTPMTLen := len payload |>))) ;;;
  ret [].

Definition resp_get_sts : RM bytes :=
  let* r := get_r in
  ret [0x00; 0x04; if r.(rflags).(pskProvisioned) then 0x01 else 0x00;
       if r.(rflags).(spdmOnlyLock) then 0x01 else 0x00].

Definition resp_spdmonly (payload : bytes) : RM bytes :=
  check (negb (len payload =? 1)) WOLFSPDM_E_INVALID_ARG ;;;
  let* b := rd payload 0 in
  check (negb (b =? WOLFSPDM_SPDMONLY_LOCK) && negb (b =? WOLFSPDM_SPDMONLY_UNLOCK))
    WOLFSPDM_E_INVALID_ARG ;;;
  set_r (fun r => r <| rflags := r.(rflags) <| spdmOnlyLock := b =? WOLFSPDM_SPDMONLY_LOCK |> |>) ;;;
  ret [].

(** What PSK_SET_ stores and PSK_CLR_ erases. *)
Definition psk_stored (key digest : bytes) (r : WOLFSPDM_RESP_CTX) : WOLFSPDM_RESP_CTX :=
  r <| pskStore := key |> <| pskStoreSz := WOLFSPDM_PSK_MAX_SIZE |> <| clearAuthDigest := digest |>
    <| rflags := r.(rflags) <| pskProvisioned := true |> <| clearAuthSet := true |> |>
    <| rctx := r.(rctx) <| psk := key |> <| pskSz := WOLFSPDM_PSK_MAX_SIZE |> |>.

Definition psk_cleared (r : WOLFSPDM_RESP_CTX) : WOLFSPDM_RESP_CTX :=
  r <| pskStore := zeros WOLFSPDM_PSK_MAX_SIZE |>
    <| clearAuthDigest := zeros WOLFSPDM_HASH_SIZE |> <| pskStoreSz := 0 |>
    <| rflags := r.(rflags) <| pskProvisioned := false |> <| clearAuthSet := false |> |>
    <| rctx := r.(rctx) <| psk := zeros WOLFSPDM_PSK_MAX_SIZE |> <| pskSz := 0 |> |>.

Definition resp_psk_set (payload : bytes) : RM bytes :=
  let pskLen := WOLFSPDM_PSK_MAX_SIZE in
  check (negb (len payload =? pskLen + WOLFSPDM_HASH_SIZE)) WOLFSPDM_E_INVALID_ARG ;;;
  let* r := get_r in
  check r.(rflags).(clearAuthSet) WOLFSPDM_E_BAD_STATE ;;;
  let* key := rd_sub payload 0 pskLen in
  let* digest := rd_sub payload pskLen WOLFSPDM_HASH_SIZE in
  check (negb (r.(pskStoreSz) =? 0) && negb (r.(pskStoreSz) =? pskLen)) WOLFSPDM_E_BAD_STATE ;;;
  check (negb (r.(pskStoreSz) =? 0) &&
         negb (wolfSPDM_ConstCompare r.(pskStore) key pskLen =? 0)) WOLFSPDM_E_BAD_STATE ;;;
  set_r (psk_stored key digest) ;;;
  ret [].

Definition resp_psk_clr (payload : bytes) : RM bytes :=
  let* r := get_r in
  check (negb (len payload =? 32) || negb r.(rflags).(pskProvisioned)) WOLFSPDM_E_INVALID_ARG ;;;
  let* digest := wolfSPDM_Sha384Hash payload [] [] in
  check (negb (wolfSPDM_ConstCompare digest r.(clearAuthDigest) WOLFSPDM_HASH_SIZE =? 0))
    WOLFSPDM_E_BAD_HMAC ;;;
  set_r psk_cleared ;;;
  ret [].

(** The codes of the Nations commands. *)
Definition VDCODE_PSK_SET : bytes := str "PSK_SET_".
Definition VDCODE_PSK_CLR : bytes := str "PSK_CLR_".

Definition WOLFSPDM_VENDOR_DEFINED_RSP : Z := 0x7E.

(** [XSTRCMP] of the eight-byte code with a constant of eight characters is a
    comparison of bytes: a NUL in the code makes both unequal. *)
Definition resp_command (vdCode payload : bytes) : RM bytes :=
  if bytes_eqb vdCode WOLFSPDM_VDCODE_TPM2_CMD then resp_tpm2_cmd payload
  else if bytes_eqb vdCode WOLFSPDM_VDCODE_GET_PUBK then resp_get_pubk
  else if bytes_eqb vdCode WOLFSPDM_VDCODE_GIVE_PUB then resp_give_pub payload
  else if bytes_eqb vdCode WOLFSPDM_VDCODE_GET_STS then resp_get_sts
  else if bytes_eqb vdCode WOLFSPDM_VDCODE_SPDMONLY then resp_spdmonly payload
  else if bytes_eqb vdCode VDCODE_PSK_SET then resp_psk_set payload
  else if bytes_eqb vdCode VDCODE_PSK_CLR then resp_psk_clr payload
  else fail WOLFSPDM_E_NOT_AVAILABLE.

(** The codes that only a secured message may carry. *)
Definition secured_only (vdCode : bytes) : bool :=
  bytes_eqb vdCode WOLFSPDM_VDCODE_TPM2_CMD || bytes_eqb vdCode WOLFSPDM_VDCODE_GIVE_PUB ||
  bytes_eqb vdCode WOLFSPDM_VDCODE_SPDMONLY.

Definition RespHandleVendorDefinedInner (inp : bytes) (outSz : Z) (fromSecured : bool)
    : RM (bytes * bytes) :=
  let* (vdCode, payload) := wolfSPDM_ParseVendorDefined inp WOLFSPDM_MAX_TPM_MSG_SIZE in
  resp_store vdInPayload (fun b r => r <| vdInPayload := b |>) payload ;;;
  check (negb fromSecured && secured_only vdCode) WOLFSPDM_E_BAD_STATE ;;;
  let* r := get_r in
  check (fromSecured && negb (r.(rctx).(state) =? WOLFSPDM_STATE_CONNECTED) &&
         negb (bytes_eqb vdCode WOLFSPDM_VDCODE_GIVE_PUB)) WOLFSPDM_E_BAD_STATE ;;;
  let* respPayload := resp_command vdCode payload in
  resp_store vdOutPayload (fun b r => r <| vdOutPayload := b |>) respPayload ;;;
  let totalSz := 1 + 1 + 1 + 1 + 2 + 1 + 2 + WOLFSPDM_VDCODE_LEN + len respPayload in
  check (outSz <? totalSz) WOLFSPDM_E_BUFFER_SMALL ;;;
  let* r := get_r in
  ret ([r.(rctx).(spdmVersion); WOLFSPDM_VENDOR_DEFINED_RSP; 0x00; 0x00] ++ SPDM_Set16LE 0x0001 ++
       [0x00] ++ SPDM_Set16LE (w16 (WOLFSPDM_VDCODE_LEN + len respPayload)) ++ vdCode ++
       respPayload, vdCode).

Definition RespHandleVendorDefined (inp : bytes) (outSz : Z) (fromSecured : bool)
    : RM (bytes * bytes) :=
  always (RespHandleVendorDefinedInner inp outSz fromSecured) (set_r wipe_scratch_vd).

(** ** The dispatchers *)

Definition resp_error (errCode errData outSz : Z) : RM bytes :=
  on_r (in_ctx (RespBuildErrorClear errCode errData outSz)).

(** A response that the dispatcher records itself. *)
Definition resp_record (m : M WOLFSPDM_CTX bytes) : RM bytes :=
  let* out := on_r (in_ctx m) in
  on_r (in_ctx (wolfSPDM_TranscriptAdd out)) ;;;
  ret out.

(** The handler of a request that passed the checks of the dispatcher. *)
Definition resp_clear_handler (code : Z) (inp : bytes) (outSz : Z) : RM bytes :=
  if code =? SPDM_GET_VERSION then resp_record (RespBuildVersion outSz)
  else if code =? SPDM_GET_CAPABILITIES then
    let* r := get_r in
    resp_record (RespBuildCapabilities r.(rflags).(usePsk) outSz)
  else if code =? SPDM_NEGOTIATE_ALGORITHMS then resp_record (RespBuildAlgorithms outSz)
  else if code =? SPDM_PSK_EXCHANGE then on_r (RespBuildPskExchangeRsp inp outSz)
  else if code =? SPDM_KEY_EXCHANGE then on_r (RespBuildKeyExchangeRsp inp outSz)
  else if code =? SPDM_VENDOR_DEFINED_REQUEST then
    let* (out, vdCode) := RespHandleVendorDefined inp outSz false in
    when (bytes_eqb vdCode WOLFSPDM_VDCODE_GET_PUBK)
      (let* r := get_r in
       let* pub := rd_sub r.(idPubKey) 0 r.(idPubKeyLen) in
       let* ct := wolfSPDM_Sha384Hash pub [] [] in
       on_r (in_ctx (wolfSPDM_TranscriptAdd ct))) ;;;
    ret out
  else resp_error SPDM_ERROR_UNSUPPORTED_REQUEST code outSz.

Definition RespDispatchClear (inp : bytes) (outSz : Z) : RM bytes :=
  check (len inp <? 2) WOLFSPDM_E_FRAMING ;;;
  let* code := rd inp 1 in
  let* ver := rd inp 0 in
  let* rc :=
    (if code =? SPDM_GET_VERSION then
       on_r (in_ctx wolfSPDM_TranscriptReset ;;; wolfSPDM_RespReset) ;;; ret (inl tt)
     else try (on_r (in_ctx (RespSelectVersion ver (code =? SPDM_VENDOR_DEFINED_REQUEST))))) in
  match rc with
  | inr rc =>
      if rc =? WOLFSPDM_E_BAD_STATE then resp_error SPDM_ERROR_UNEXPECTED_REQUEST 0 outSz
      else resp_error SPDM_ERROR_MAJOR_VERSION_MISMATCH 0 outSz
  | inl _ =>
      let* r := get_r in
      let exchange := (code =? SPDM_KEY_EXCHANGE) || (code =? SPDM_PSK_EXCHANGE) in
      if exchange && (((code =? SPDM_KEY_EXCHANGE) && negb r.(rflags).(useTcg)) ||
                      ((code =? SPDM_PSK_EXCHANGE) && negb r.(rflags).(usePsk)))
      then resp_error SPDM_ERROR_UNSUPPORTED_REQUEST code outSz
      else if exchange && ((r.(rctx).(state) =? WOLFSPDM_STATE_KEY_EX) ||
                           (r.(rctx).(state) =? WOLFSPDM_STATE_CONNECTED))
      then resp_error SPDM_ERROR_UNEXPECTED_REQUEST 0 outSz
      else
        when (negb (code =? SPDM_VENDOR_DEFINED_REQUEST))
          (on_r (in_ctx (wolfSPDM_TranscriptAdd inp))) ;;;
        resp_clear_handler code inp outSz
  end.

(** The answer to a decrypted request, whether it completes the handshake and
    whether it ends the session. *)
Definition resp_secured_handler (code : Z) (plain : bytes) : RM (bytes * bool * bool) :=
  let respSz := WOLFSPDM_MAX_MSG_SIZE in
  let* r := get_r in
  if code =? SPDM_PSK_FINISH then
    check (negb (r.(rctx).(state) =? WOLFSPDM_STATE_KEY_EX) || r.(rflags).(pendingAsym))
      WOLFSPDM_E_BAD_STATE ;;;
    let* out := on_r (RespHandlePskFinish plain respSz) in
    ret (out, true, false)
  else if code =? SPDM_FINISH then
    check (negb (r.(rctx).(state) =? WOLFSPDM_STATE_KEY_EX) || negb r.(rflags).(pendingAsym))
      WOLFSPDM_E_BAD_STATE ;;;
    let* out := on_r (RespHandleFinish plain respSz) in
    ret (out, true, false)
  else if code =? SPDM_END_SESSION then
    let* out := on_r (in_ctx (RespBuildEndSessionAck respSz)) in
    ret (out, false, true)
  else if code =? SPDM_VENDOR_DEFINED_REQUEST then
    let* (out, _) := RespHandleVendorDefined plain respSz true in
    ret (out, false, false)
  else
    let* out := resp_error SPDM_ERROR_UNSUPPORTED_REQUEST code respSz in
    ret (out, false, false).

Definition RespDispatchSecuredInner (securedIn : bytes) (securedOutSz : Z) : RM bytes :=
  let* r := get_r in
  check ((negb (r.(rctx).(state) =? WOLFSPDM_STATE_KEY_EX) &&
          negb (r.(rctx).(state) =? WOLFSPDM_STATE_CONNECTED)) || (r.(rctx).(sessionId) =? 0))
    WOLFSPDM_E_BAD_STATE ;;;
  let* plain := on_r (in_ctx (RespDecrypt securedIn WOLFSPDM_MAX_MSG_SIZE)) in
  resp_store secureInPlain (fun b r => r <| secureInPlain := b |>) plain ;;;
  check (len plain <? 2) WOLFSPDM_E_FRAMING ;;;
  let* code := rd plain 1 in
  let* (respPlain, derivedAppKeys, sessionEnded) := resp_secured_handler code plain in
  resp_store secureOutPlain (fun b r => r <| secureOutPlain := b |>) respPlain ;;;
  let* enc := on_r (in_ctx (RespEncrypt respPlain securedOutSz)) in
  when derivedAppKeys (on_r (in_ctx wolfSPDM_DeriveAppDataKeys)) ;;;
  when sessionEnded (on_r wolfSPDM_RespReset) ;;;
  ret enc.

Definition RespDispatchSecured (securedIn : bytes) (securedOutSz : Z) : RM bytes :=
  always (RespDispatchSecuredInner securedIn securedOutSz) (set_r wipe_scratch_secure).

Definition wolfSPDM_RespHandleMessage (inBuf : bytes) (outSz : Z) : RM bytes :=
  let* r := get_r in
  check (negb r.(rflags).(resp_initialized)) WOLFSPDM_E_BAD_STATE ;;;
  check (negb r.(rflags).(useTcg) && negb r.(rflags).(usePsk)) WOLFSPDM_E_BAD_STATE ;;;
  check (len inBuf <? WOLFSPDM_TCG_HEADER_SIZE) WOLFSPDM_E_FRAMING ;;;
  let* tag := rd16be inBuf 0 in
  check (negb (tag =? WOLFSPDM_TCG_TAG_CLEAR) && negb (tag =? WOLFSPDM_TCG_TAG_SECURED))
    WOLFSPDM_E_FRAMING ;;;
  let* msgSize := rd32be inBuf 2 in
  check ((msgSize <? WOLFSPDM_TCG_HEADER_SIZE) || (msgSize >? len inBuf)) WOLFSPDM_E_FRAMING ;;;
  let* conn := rd32be inBuf 6 in
  let* fips := rd16be inBuf 10 in
  set_r (fun r => r <| rctx := r.(rctx) <| connectionHandle := conn |> <| fipsIndicator := fips |> |>) ;;;
  let payloadSz := msgSize - WOLFSPDM_TCG_HEADER_SIZE in
  check (outSz <? WOLFSPDM_TCG_HEADER_SIZE) WOLFSPDM_E_BUFFER_SMALL ;;;
  let spdmOutSz := outSz - WOLFSPDM_TCG_HEADER_SIZE in
  let* payload := rd_sub inBuf WOLFSPDM_TCG_HEADER_SIZE payloadSz in
  let* out := (if tag =? WOLFSPDM_TCG_TAG_CLEAR then RespDispatchClear payload spdmOutSz
               else RespDispatchSecured payload spdmOutSz) in
  let* r := get_r in
  ret (wolfSPDM_WriteTcgHeader tag (WOLFSPDM_TCG_HEADER_SIZE + len out)
         r.(rctx).(connectionHandle) r.(rctx).(fipsIndicator) ++ out).
End RespVendor.
