(* ===== verification/RespSpec.v ===== *)
(** * What the responder promises

    An abstract responder - the phase of its session, the lock, the pre-shared
    key store, the stored requester key and the TPM - and the lemmas that the
    handlers of spdm_responder.c implement its steps. *)
From Stdlib Require Import ZArith Lia String.
From stdpp Require Import base tactics list numbers option relations.
From S2P Require Import Prelude Types Bytes Crypt Context Transcript Kdf CryptoOps Transport.
From S2P Require Import Secured Msg Chunk Cert Attest Session Standard Tcg Psk Responder.

(** ** The abstract responder *)

(** [asym] tells a KEY_EXCHANGE session from a PSK session. *)
Inductive phase :=
| P_init
| P_version
| P_keyex (asym : bool)
| P_connected (asym : bool).

#[global] Instance phase_eq_dec : EqDecision phase.
Proof. solve_decision. Defined.

Record spec_state (T : Type) := {
  sp_phase : phase;
  sp_lock : bool;
  sp_psk : bytes;
  sp_clear : option bytes;
  sp_tpmt : bytes;
  sp_tpm : T
}.
Arguments sp_phase {T}. Arguments sp_lock {T}. Arguments sp_psk {T}. Arguments sp_clear {T}.
Arguments sp_tpmt {T}. Arguments sp_tpm {T}.

#[global] Instance spec_eta {T} : Settable (spec_state T) := fun s => {|
  sp_phase := sp_phase s; sp_lock := sp_lock s; sp_psk := sp_psk s; sp_clear := sp_clear s;
  sp_tpmt := sp_tpmt s; sp_tpm := sp_tpm s |}.

(** Clear messages (tag 0x8101) and secured ones (0x8201). *)
Inductive channel := Clear | Secured.

Section Spec.
Context `{WolfCrypt} {T : Type} `{!TpmCallback T}.
Variables (cb user cap : Z).

(** One message may do one of these things, and nothing else. *)
Inductive spec_step : channel -> spec_state T -> spec_state T -> Prop :=
| ss_stay ch s : spec_step ch s s
| ss_version s : spec_step Clear s (s <| sp_phase := P_version |>)
| ss_restart s : spec_step Clear s (s <| sp_phase := P_init |>)
| ss_exchange s asym :
    sp_phase s = P_init \/ sp_phase s = P_version ->
    spec_step Clear s (s <| sp_phase := P_keyex asym |>)
| ss_finish s asym :
    sp_phase s = P_keyex asym ->
    spec_step Secured s (s <| sp_phase := P_connected asym |>)
| ss_end s asym :
    sp_phase s = P_keyex asym \/ sp_phase s = P_connected asym ->
    spec_step Secured s (s <| sp_phase := P_init |>)
| ss_give_pub s asym pub :
    sp_phase s = P_keyex asym \/ sp_phase s = P_connected asym ->
    spec_step Secured s (s <| sp_tpmt := pub |>)
| ss_lock s asym b :
    sp_phase s = P_connected asym ->
    spec_step Secured s (s <| sp_lock := b |>)
| ss_tpm s asym cmd :
    sp_phase s = P_connected asym ->
    spec_step Secured s (s <| sp_tpm := fst (tpm_call cb user cmd cap (sp_tpm s)) |>)
| ss_psk_set ch s key digest :
    (ch = Secured -> exists asym, sp_phase s = P_connected asym) ->
    sp_clear s = None -> (sp_psk s = [] \/ sp_psk s = key) ->
    len key = WOLFSPDM_PSK_MAX_SIZE ->
    spec_step ch s (s <| sp_psk := key |> <| sp_clear := Some digest |>)
| ss_psk_clr ch s payload digest :
    (ch = Secured -> exists asym, sp_phase s = P_connected asym) ->
    sha384 payload [] [] = Some digest ->
    digest = default (zeros WOLFSPDM_HASH_SIZE) (sp_clear s) ->
    spec_step ch s (s <| sp_psk := [] |> <| sp_clear := None |>).
End Spec.

(** ** The invariant and the abstraction *)

Section RespWf.
Context `{WolfCrypt} `{Config}.

Record resp_wf (r : WOLFSPDM_RESP_CTX) : Prop := {
  rw_ctx : ctx_wf r.(rctx);
  rw_keys : len r.(idPrivKey) = WOLFSPDM_ECC_KEY_SIZE /\ len r.(idPubKey) = WOLFSPDM_ECC_POINT_SIZE /\
    0 <= r.(idPubKeyLen) <= WOLFSPDM_ECC_POINT_SIZE;
  rw_psk : len r.(pskStore) = WOLFSPDM_PSK_MAX_SIZE /\ is_bytes r.(pskStore) /\
    0 <= r.(pskStoreSz) <= WOLFSPDM_PSK_MAX_SIZE /\
    len r.(pskHintStore) = WOLFSPDM_PSK_HINT_MAX /\
    0 <= r.(pskHintStoreSz) <= WOLFSPDM_PSK_HINT_MAX;
  rw_clear : len r.(clearAuthDigest) = WOLFSPDM_HASH_SIZE /\ is_bytes r.(clearAuthDigest) /\
    (r.(rflags).(clearAuthSet) = false -> r.(clearAuthDigest) = zeros WOLFSPDM_HASH_SIZE);
  rw_state : In r.(rctx).(state) [WOLFSPDM_STATE_INIT; WOLFSPDM_STATE_VERSION;
    WOLFSPDM_STATE_KEY_EX; WOLFSPDM_STATE_CONNECTED];
  rw_scratch : len r.(secureInPlain) = WOLFSPDM_MAX_TPM_MSG_SIZE /\
    len r.(secureOutPlain) = WOLFSPDM_MAX_TPM_MSG_SIZE /\
    len r.(vdInPayload) = WOLFSPDM_MAX_TPM_MSG_SIZE /\ len r.(vdOutPayload) = WOLFSPDM_MAX_TPM_MSG_SIZE
}.

(** No decrypted message and no vendor payload is left in the working buffers. *)
Definition scratch_clean (r : WOLFSPDM_RESP_CTX) : Prop :=
  r.(secureInPlain) = zeros WOLFSPDM_MAX_TPM_MSG_SIZE /\
  r.(secureOutPlain) = zeros WOLFSPDM_MAX_TPM_MSG_SIZE /\
  r.(vdInPayload) = zeros WOLFSPDM_MAX_TPM_MSG_SIZE /\
  r.(vdOutPayload) = zeros WOLFSPDM_MAX_TPM_MSG_SIZE.

Definition phase_of (r : WOLFSPDM_RESP_CTX) : phase :=
  if r.(rctx).(state) =? WOLFSPDM_STATE_VERSION then P_version
  else if r.(rctx).(state) =? WOLFSPDM_STATE_KEY_EX then P_keyex r.(rflags).(pendingAsym)
  else if r.(rctx).(state) =? WOLFSPDM_STATE_CONNECTED then P_connected r.(rflags).(sessionAsym)
  else P_init.

Definition abs_state {T} (s : WOLFSPDM_RESP_CTX * T) : spec_state T :=
  let r := s.1 in {|
  sp_phase := phase_of r;
  sp_lock := r.(rflags).(spdmOnlyLock);
  sp_psk := sub_bytes r.(pskStore) 0 r.(pskStoreSz);
  sp_clear := if r.(rflags).(clearAuthSet) then Some r.(clearAuthDigest) else None;
  sp_tpmt := sub_bytes r.(rctx).(reqPubKeyTPMT) 0 r.(rctx).(reqPubKeyTPMTLen);
  sp_tpm := s.2 |}.

(** ** The inner context under the handlers *)

Implicit Types c : WOLFSPDM_CTX.

(** What the abstraction sees of the inner context. *)
Definition rview c := (c.(state), sub_bytes c.(reqPubKeyTPMT) 0 c.(reqPubKeyTPMTLen)).

Definition frame_op {A} (m : M WOLFSPDM_CTX A) (P : A -> Prop) c : Prop :=
  wp m (fun a c' => ctx_wf c' /\ rview c' = rview c /\ P a)
    (fun rc c' => rc < 0 /\ ctx_wf c' /\ rview c' = rview c) c.

Lemma rv_tr_add c d : rview (tr_add c d) = rview c. Proof. by destruct c. Qed.
Lemma rv_tr_reset c : rview (tr_reset c) = rview c. Proof. by destruct c. Qed.
Lemma rv_rng c r : rview (set_rng r c) = rview c. Proof. by destruct c. Qed.
Lemma rv_shared c a n : rview (set_shared a n c) = rview c. Proof. by destruct c. Qed.
Lemma rv_clear_shared c : rview (clear_shared c) = rview c. Proof. by destruct c. Qed.
Lemma rv_th1 c h : rview (c <| th1 := h |>) = rview c. Proof. by destruct c. Qed.
Lemma rv_th2 c h : rview (c <| th2 := h |>) = rview c. Proof. by destruct c. Qed.
Lemma rv_hs c h : rview (c <| handshakeSecret := h |>) = rview c. Proof. by destruct c. Qed.
Lemma rv_install_hs c k : rview (install_hs k c) = rview c. Proof. by destruct c. Qed.
Lemma rv_wipe_hs c : rview (wipe_handshake_keys c) = rview c. Proof. by destruct c. Qed.
Lemma rv_wipe_psk c : rview (wipe_psk c) = rview c. Proof. by destruct c. Qed.
Lemma rv_install_app c k : rview (install_app k c) = rview c. Proof. by destruct c. Qed.
Lemma rv_sent c : rview (seq_sent c) = rview c. Proof. by destruct c. Qed.
Lemma rv_rcvd c : rview (seq_rcvd c) = rview c. Proof. by destruct c. Qed.
Lemma rv_eph c c' : eph_step c c' -> rview c' = rview c.
Proof. intros (r & e & i & k & ->). by destruct c. Qed.
Lemma rv_data c c' : only_data_keys c c' -> rview c' = rview c.
Proof. intros (k1 & i1 & k2 & i2 & ->). by destruct c. Qed.
Lemma rv_rng_step c c' : rng_step c c' -> rview c' = rview c.
Proof. intros [->|[r ->]]; [done|apply rv_rng]. Qed.
End RespWf.
#[export] Hint Rewrite @rv_tr_add @rv_tr_reset @rv_rng @rv_shared @rv_clear_shared @rv_th1 @rv_th2
  @rv_hs @rv_install_hs @rv_wipe_hs @rv_wipe_psk @rv_install_app @rv_sent @rv_rcvd : rview.
Ltac rviews := autorewrite with rview; try done.

Section RespCtx.
Context `{WolfCrypt} `{Config} `{!CryptSizes} `{!RecordFits} `{!TranscriptFits}.
Implicit Types c : WOLFSPDM_CTX.

(** Runs inside a frame. *)
Lemma frame_bind {A B} (m : M WOLFSPDM_CTX A) (k : A -> M WOLFSPDM_CTX B) (P : A -> Prop)
    (P' : B -> Prop) c :
  frame_op m P c ->
  (forall a c', ctx_wf c' -> rview c' = rview c -> P a -> frame_op (k a) P' c') ->
  frame_op (bind m k) P' c.
Proof.
  intros Hm Hk. apply wp_bind. eapply wp_mono; [exact Hm| |done].
  intros a c' (Hwf & Hv & Ha). eapply wp_mono; [by apply Hk| |].
  - intros b c2 (? & ? & ?). split_and!; [done|congruence|done].
  - intros rc c2 (? & ? & ?). split_and!; [done|done|congruence].
Qed.

Lemma swapped_wf c : ctx_wf c -> ctx_wf (swapped c).
Proof. intros Hwf. wf_facts Hwf. unfold swapped. wf_tac. Qed.
Lemma rv_swapped c : rview (swapped c) = rview c.
Proof. by destruct c. Qed.

Lemma RespEncrypt_frame plain n c : ctx_wf c -> frame_op (RespEncrypt plain n) (fun e => len e <= n) c.
Proof.
  intros Hwf. unfold frame_op, RespEncrypt, RespSwapDataDir. do 2 (wp_step; cbv beta).
  pose proof (swapped_wf _ Hwf) as Hwf1. pose proof (rv_swapped c) as Hv1.
  revert Hwf1 Hv1. generalize (swapped c). intros c1 Hwf1 Hv1.
  wp_step. wp_step. apply EncryptRecord_wp; [done| |].
  - intros rec c2 Hs _ Hl _. do 3 wp_step.
    split_and!; [|by rewrite rv_swapped, rv_sent, (rv_rng_step _ _ Hs), Hv1|done].
    apply swapped_wf, seq_sent_wf. by eapply rng_step_wf.
  - intros rc c2 ? Hs. wp_step. split_and!; [done|apply swapped_wf; by eapply rng_step_wf|
      by rewrite rv_swapped, (rv_rng_step _ _ Hs), Hv1].
Qed.

Lemma swapped_swapped c : swapped (swapped c) = c.
Proof. by destruct c. Qed.

Lemma RespDecrypt_wp enc n c (Q : bytes -> WOLFSPDM_CTX -> Prop) (E : Z -> WOLFSPDM_CTX -> Prop) :
  ctx_wf c -> is_bytes enc ->
  (forall p, is_bytes p -> len p <= n -> Q p (swapped (seq_rcvd (swapped c)))) ->
  (forall rc c', rc < 0 -> c' = c \/ c' = swapped (seq_rcvd (swapped c)) -> E rc c') ->
  wp (RespDecrypt enc n) Q E c.
Proof.
  intros Hwf Hb HQ HE. unfold RespDecrypt, RespSwapDataDir. do 2 (wp_step; cbv beta).
  pose proof (swapped_wf _ Hwf) as Hwf1. pose proof (swapped_swapped c) as Hss.
  revert Hwf1 Hss HQ HE. generalize (swapped c). intros c1 Hwf1 Hss HQ HE.
  wp_step. wp_step. apply DecryptRecord_wp; [done|done| |].
  - intros p Hp Hl _. do 3 wp_step. by apply HQ.
  - intros rc c2 ? Hc2. wp_step. destruct Hc2 as [->| ->]; [rewrite Hss|]; apply HE; auto.
Qed.

Lemma RespDecrypt_frame enc n c : ctx_wf c -> is_bytes enc ->
  frame_op (RespDecrypt enc n) (fun p => is_bytes p /\ len p <= n) c.
Proof.
  intros Hwf Hb.
  assert (ctx_wf (swapped (seq_rcvd (swapped c)))) by by apply swapped_wf, seq_rcvd_wf, swapped_wf.
  assert (rview (swapped (seq_rcvd (swapped c))) = rview c) by by rewrite !rv_swapped, rv_rcvd, rv_swapped.
  apply RespDecrypt_wp; [done|done|by intros; split_and!|].
  intros rc c' ? [-> | ->]; by split_and!.
Qed.

Lemma TranscriptAdd_frame d c : ctx_wf c -> frame_op (wolfSPDM_TranscriptAdd d) (fun _ => True) c.
Proof.
  intros Hwf. apply TranscriptAdd_wp; [done| |].
  - intros _ Hwf1. split_and!; rviews.
  - intros _. by split_and!.
Qed.

Lemma TranscriptHash_frame c : ctx_wf c ->
  frame_op wolfSPDM_TranscriptHash (fun h => len h = WOLFSPDM_HASH_SIZE) c.
Proof. intros Hwf. apply TranscriptHash_wp; [done| |]; intros; by split_and!. Qed.

Lemma GetRandom_frame n c : ctx_wf c -> 0 < n ->
  frame_op (wolfSPDM_GetRandom n) (fun b => len b = n) c.
Proof. intros Hwf Hn. apply GetRandom_wp; [done|done|..]; intros; split_and!; rviews. Qed.

Lemma ErrorClear_frame e d n c : ctx_wf c ->
  frame_op (RespBuildErrorClear e d n) (fun b => len b <= n) c.
Proof.
  intros Hwf. unfold frame_op, RespBuildErrorClear. wp_go; split_and!; try done.
  match goal with |- len ?l <= _ => change (len l) with 4 end. lia.
Qed.

Lemma EndSessionAck_frame n c : ctx_wf c ->
  frame_op (RespBuildEndSessionAck n) (fun b => len b <= n) c.
Proof.
  intros Hwf. unfold frame_op, RespBuildEndSessionAck. wp_go; split_and!; try done.
  match goal with |- len ?l <= _ => change (len l) with 4 end. lia.
Qed.

Lemma Capabilities_frame b n c : ctx_wf c ->
  frame_op (RespBuildCapabilities b n) (fun b => len b <= n) c.
Proof.
  intros Hwf. unfold frame_op, RespBuildCapabilities. wp_go; split_and!; try done.
  match goal with |- len ?l <= _ => change (len l) with 20 end. lia.
Qed.

Lemma Algorithms_frame n c : ctx_wf c -> frame_op (RespBuildAlgorithms n) (fun b => len b <= n) c.
Proof.
  intros Hwf. unfold frame_op, RespBuildAlgorithms. wp_go; split_and!; try done.
  match goal with |- len ?l <= _ => change (len l) with 52 end. lia.
Qed.

Lemma SelectVersion_frame v b c : ctx_wf c -> is_byte v ->
  frame_op (RespSelectVersion v b) (fun _ => True) c.
Proof.
  intros Hwf Hv. unfold is_byte in Hv. unfold frame_op, RespSelectVersion.
  wp_go; split_and!; try done; wf_tac.
Qed.
End RespCtx.

Section RespExchange.
Context `{WolfCrypt} `{Config} `{!CryptSizes} `{!RecordFits} `{!TranscriptFits}.
Implicit Types c : WOLFSPDM_CTX.

(** An operation that ends in state [s] when it succeeds. *)
Definition to_state {A} (m : M WOLFSPDM_CTX A) (s : Z) (P : A -> Prop) c : Prop :=
  wp m (fun a c' => ctx_wf c' /\ rview c' = (s, (rview c).2) /\ P a)
    (fun rc c' => rc < 0 /\ ctx_wf c' /\ rview c' = rview c) c.

Lemma to_state_bind {A B} (m : M WOLFSPDM_CTX A) (k : A -> M WOLFSPDM_CTX B) s (P : A -> Prop)
    (P' : B -> Prop) c :
  frame_op m P c ->
  (forall a c', ctx_wf c' -> rview c' = rview c -> P a -> to_state (k a) s P' c') ->
  to_state (bind m k) s P' c.
Proof.
  intros Hm Hk. apply wp_bind. eapply wp_mono; [exact Hm| |done].
  intros a c' (Hwf & Hv & Ha). eapply wp_mono; [by apply Hk| |].
  - intros b c2 (? & Hv2 & ?). split_and!; [done|congruence|done].
  - intros rc c2 (? & ? & ?). split_and!; [done|done|congruence].
Qed.

Lemma upd_frame (f : WOLFSPDM_CTX -> WOLFSPDM_CTX) c : ctx_wf (f c) -> rview (f c) = rview c ->
  frame_op (upd f) (fun _ => True) c.
Proof. intros. unfold frame_op. by wp_step. Qed.

Lemma get_frame {B} (k : WOLFSPDM_CTX -> M WOLFSPDM_CTX B) s P c :
  to_state (k c) s P c -> to_state (bind (@get WOLFSPDM_CTX) k) s P c.
Proof. done. Qed.

Lemma finish_state s (P : bytes -> Prop) out c :
  ctx_wf c -> 0 <= s <= WOLFSPDM_STATE_ERROR -> P out ->
  to_state (upd (fun c => c <| state := s |>) ;;; ret out) s P c.
Proof.
  intros Hwf Hs HP. unfold to_state. do 2 (wp_step; cbv beta). wp_step.
  split_and!; [wf_tac|by destruct c|done].
Qed.

Lemma open_session_frame inp c : ctx_wf c -> is_bytes inp -> 6 <= len inp ->
  frame_op (resp_open_session inp) (fun _ => True) c.
Proof.
  intros Hwf Hb Hl. unfold frame_op, resp_open_session. wp_step.
  apply wp_rd16le; [lia|lia|]. intros id _ Hid. wp_step.
  destruct (session_id_range id RESP_SESSION_ID) as [Hr _]; [done|unfold RESP_SESSION_ID; lia|].
  unfold RESP_SESSION_ID in *. split_and!; [wf_tac|by destruct c|done].
Qed.

Lemma VerifyData_frame key th c : WOLFSPDM_HASH_SIZE <= len key -> WOLFSPDM_HASH_SIZE <= len th ->
  ctx_wf c -> frame_op (wolfSPDM_ComputeVerifyData key th)
    (fun d => verify_data key th = Some d /\ len d = WOLFSPDM_HASH_SIZE /\ is_bytes d) c.
Proof. intros. apply ComputeVerifyData_wp; [done|done| |]; intros; by split_and!. Qed.

Lemma DerivePsk_frame th c : ctx_wf c -> len th = WOLFSPDM_HASH_SIZE ->
  frame_op (wolfSPDM_DeriveHandshakeKeysPsk th) (fun _ => True) c.
Proof.
  intros Hwf Hth. apply DeriveHandshakeKeysPsk_wp; [done|done|..].
  - intros. split_and!; rviews.
  - intros _. by split_and!.
  - intros c1 Hwf1 [-> | [hs ->]]; split_and!; rviews.
Qed.

(** One operation of a frame; the next ones see its context and its facts. *)
Tactic Notation "frame_step" tactic3(lem) :=
  eapply to_state_bind; [lem|]; cbv beta.

Lemma psk_exchange_rsp_state inp c : ctx_wf c -> is_bytes inp -> 12 <= len inp ->
  to_state (psk_exchange_rsp inp) WOLFSPDM_STATE_KEY_EX
    (fun out => len out = 12 + 32 + WOLFSPDM_HASH_SIZE) c.
Proof.
  intros Hwf Hb Hl. unfold psk_exchange_rsp.
  frame_step (apply open_session_frame; [done|done|lia]). intros _ c0 Hwf0 _ _. apply get_frame.
  frame_step (by apply GetRandom_frame). intros rnd c1 Hwf1 _ Hrnd. cbv zeta.
  frame_step (by apply TranscriptAdd_frame). intros _ c2 Hwf2 _ _.
  frame_step (by apply TranscriptHash_frame). intros th c3 Hwf3 _ Hth.
  frame_step (apply upd_frame; [wf_tac|by rviews]). intros _ c4 Hwf4 _ _.
  frame_step (by apply DerivePsk_frame). intros _ c5 Hwf5 _ _. apply get_frame.
  wf_facts Hwf5.
  frame_step (apply VerifyData_frame; [lia|lia|done]). intros d c6 Hwf6 _ (_ & Hd & _).
  frame_step (by apply TranscriptAdd_frame). intros _ c7 Hwf7 _ _.
  apply finish_state; [done|lia|]. rewrite !len_app, Hrnd, Hd. autorewrite with blen.
  change (len (SPDM_Set16LE _)) with 2. unfold WOLFSPDM_HASH_SIZE. lia.
Qed.

(** The context with the identity key in place of the requester's. *)
Definition with_key (priv pub : bytes) c : WOLFSPDM_CTX :=
  c <| reqPrivKey := priv |> <| reqPubKey := pub |> <| reqPrivKeyLen := WOLFSPDM_ECC_KEY_SIZE |>
    <| flags := c.(flags) <| hasReqKeyPair := true |> |>.

Lemma with_key_wf priv pub c : len priv = WOLFSPDM_ECC_KEY_SIZE -> len pub = WOLFSPDM_ECC_POINT_SIZE ->
  ctx_wf c -> ctx_wf (with_key priv pub c).
Proof. intros. unfold with_key. wf_tac. Qed.

(** A signature leaves the key of the inner context as it was. *)
Lemma resp_sign_frame priv pub hash c : ctx_wf c -> len priv = WOLFSPDM_ECC_KEY_SIZE ->
  len pub = WOLFSPDM_ECC_POINT_SIZE ->
  frame_op (resp_sign priv pub hash) (fun sig => len sig = WOLFSPDM_ECC_SIG_SIZE) c.
Proof.
  intros Hwf Hp Hq. unfold frame_op, resp_sign. do 2 (wp_step; cbv beta). cbv zeta.
  do 2 (wp_step; cbv beta). pose proof (with_key_wf _ _ _ Hp Hq Hwf) as Hwf1.
  unfold with_key in Hwf1. wp_step. wp_step. apply SignHash_wp; [done| |].
  - intros sig r Hl _ _. do 3 (wp_step; cbv beta). unfold set_rng.
    split_and!; [wf_tac; split; [by eexists|apply (wf_objects _ Hwf)]|by destruct c|done].
  - intros rc c1 ? _ Hc1. wp_step.
    destruct Hc1 as [-> | [r ->]]; unfold set_rng;
      (split_and!; [done|wf_tac|by destruct c]); split; [by eexists|apply (wf_objects _ Hwf)].
Qed.

Lemma GenerateEphemeralKey_frame c : ctx_wf c ->
  frame_op wolfSPDM_GenerateEphemeralKey (fun _ => True) c.
Proof.
  intros Hwf. apply GenerateEphemeralKey_wp; [done| |].
  - intros c' ? Hs _ _. split_and!; [done|by apply rv_eph|done].
  - intros rc c' [-> | ->] ? Hs; split_and!; try done; by apply rv_eph.
Qed.

Lemma ExportEphemeralPubKey_frame nx ny c : ctx_wf c ->
  frame_op (wolfSPDM_ExportEphemeralPubKey nx ny)
    (fun p => len p.1 = WOLFSPDM_ECC_KEY_SIZE /\ len p.2 = WOLFSPDM_ECC_KEY_SIZE) c.
Proof.
  intros Hwf. apply ExportEphemeralPubKey_wp; [done| |by intros].
  intros k x y _ Hexp. destruct (ecc_pub_size _ _ _ Hexp) as (Hx & Hy & _).
  split_and!; [done|done|by apply LeftPad_len|by apply LeftPad_len].
Qed.

Lemma BuildSignedHash_frame v lbl h c : ctx_wf c -> len lbl <= 36 -> len h = WOLFSPDM_HASH_SIZE ->
  frame_op (wolfSPDM_BuildSignedHash v lbl h) (fun d => len d = WOLFSPDM_HASH_SIZE) c.
Proof.
  intros Hwf Hl Hh. unfold frame_op, wp. rewrite BuildSignedHash_run by done. unfold lift_opt.
  destruct (sha384 _ [] []) as [d|] eqn:Hd; [|by split_and!].
  split_and!; [done|done|]. by destruct (sha384_size _ _ _ _ Hd).
Qed.

Lemma ComputeSharedSecret_frame x y c : ctx_wf c ->
  frame_op (wolfSPDM_ComputeSharedSecret x y) (fun _ => True) c.
Proof.
  intros Hwf. apply ComputeSharedSecret_wp; [done| |].
  - intros. split_and!; rviews.
  - intros rc c' ? ? [-> | [-> | [r ->]]]; split_and!; rviews.
Qed.

Lemma DeriveHandshakeKeys_frame th c : ctx_wf c -> len th = WOLFSPDM_HASH_SIZE ->
  frame_op (wolfSPDM_DeriveHandshakeKeys th) (fun _ => True) c.
Proof.
  intros Hwf Hth. apply DeriveHandshakeKeys_wp; [done|done| |].
  - intros. split_and!; rviews.
  - intros c' ? [-> | [hs ->]]; split_and!; rviews.
Qed.

Lemma rd_sub_frame b o n c : ctx_wf c -> 0 <= o -> 0 <= n -> o + n <= len b ->
  frame_op (rd_sub b o n) (fun d => d = sub_bytes b o n) c.
Proof. intros. unfold frame_op. wp_step. by split_and!. Qed.

Lemma key_exchange_rsp_state priv pub inp c : ctx_wf c -> is_bytes inp -> 136 <= len inp ->
  len priv = WOLFSPDM_ECC_KEY_SIZE -> len pub = WOLFSPDM_ECC_POINT_SIZE ->
  to_state (key_exchange_rsp priv pub inp) WOLFSPDM_STATE_KEY_EX
    (fun out => len out = 138 + WOLFSPDM_ECC_SIG_SIZE + WOLFSPDM_HASH_SIZE) c.
Proof.
  intros Hwf Hb Hl Hp Hq. unfold key_exchange_rsp.
  frame_step (by apply rd_sub_frame; unfold WOLFSPDM_ECC_KEY_SIZE; try lia).
  intros x c0 Hwf0 _ _.
  frame_step (by apply rd_sub_frame; unfold WOLFSPDM_ECC_KEY_SIZE; try lia).
  intros y c1 Hwf1 _ _.
  frame_step (apply open_session_frame; [done|done|lia]). intros _ c2 Hwf2 _ _. apply get_frame.
  frame_step (by apply GetRandom_frame). intros rnd c3 Hwf3 _ Hrnd.
  frame_step (by apply GenerateEphemeralKey_frame). intros _ c4 Hwf4 _ _.
  frame_step (by apply ExportEphemeralPubKey_frame). intros [mx my] c5 Hwf5 _ [Hmx Hmy].
  cbn [fst snd] in Hmx, Hmy. cbv zeta.
  frame_step (by apply TranscriptAdd_frame). intros _ c6 Hwf6 _ _.
  frame_step (by apply TranscriptHash_frame). intros th c7 Hwf7 _ Hth.
  frame_step (by apply BuildSignedHash_frame). intros sh c8 Hwf8 _ Hsh.
  frame_step (by apply resp_sign_frame). intros sig c9 Hwf9 _ Hsig.
  frame_step (by apply TranscriptAdd_frame). intros _ c10 Hwf10 _ _.
  frame_step (by apply ComputeSharedSecret_frame). intros _ c11 Hwf11 _ _.
  frame_step (by apply TranscriptHash_frame). intros h c12 Hwf12 _ Hh.
  frame_step (apply upd_frame; [wf_tac|by rviews]). intros _ c13 Hwf13 _ _.
  frame_step (by apply DeriveHandshakeKeys_frame). intros _ c14 Hwf14 _ _. apply get_frame.
  wf_facts Hwf14.
  frame_step (apply VerifyData_frame; [lia|lia|done]). intros d c15 Hwf15 _ (_ & Hd & _).
  frame_step (by apply TranscriptAdd_frame). intros _ c16 Hwf16 _ _.
  apply finish_state; [done|lia|]. rewrite !len_app, Hrnd, Hd, Hmx, Hmy, Hsig. autorewrite with blen.
  change (len (SPDM_Set16LE _)) with 2.
  unfold WOLFSPDM_HASH_SIZE, WOLFSPDM_RANDOM_SIZE, WOLFSPDM_ECC_KEY_SIZE. lia.
Qed.

(** The requester's verify data is checked before the session opens. *)
Definition finish_verified c (inp : bytes) : Prop :=
  exists th, sha384 (tr c ++ sub_bytes inp 0 4) [] [] = Some th /\
    verify_data c.(reqFinishedKey) th = Some (sub_bytes inp 4 WOLFSPDM_HASH_SIZE).

Lemma finish_rsp_state code inp n c : ctx_wf c -> is_bytes inp ->
  to_state (finish_rsp code inp n) WOLFSPDM_STATE_CONNECTED
    (fun out => len out <= n /\ out = [c.(spdmVersion); code; 0; 0] /\
       4 + WOLFSPDM_HASH_SIZE <= len inp /\ finish_verified c inp) c.
Proof.
  intros Hwf Hb. unfold to_state, finish_rsp.
  wp_step. wp_step; [by split_and!|]. wp_step. wp_step; [by split_and!|].
  unfold WOLFSPDM_HASH_SIZE in *. do 2 (wp_step; wp_step; cbv beta).
  wp_step. apply TranscriptAdd_wp; [done| |by intros; split_and!]. intros Hf1 Hwf1.
  pose proof (tr_tr_add _ _ Hwf Hf1) as Ht1.
  assert (reqFinishedKey (tr_add c (sub_bytes inp 0 4)) = reqFinishedKey c /\
    spdmVersion (tr_add c (sub_bytes inp 0 4)) = spdmVersion c) as [Hk1 Hs1] by (by destruct c).
  pose proof (rv_tr_add c (sub_bytes inp 0 4)) as Hv1.
  revert Hwf1 Ht1 Hk1 Hs1 Hv1. generalize (tr_add c (sub_bytes inp 0 4)).
  intros c1 Hwf1 Ht1 Hk1 Hs1 Hv1.
  wp_step. apply TranscriptHash_wp; [done| |by split_and!]. rewrite Ht1. intros th Hth Hthl _.
  do 2 (wp_step; cbv beta). do 2 (wp_step; cbv beta).
  assert (ctx_wf (c1 <| th2 := th |>)) as Hwf2 by wf_tac.
  assert (reqFinishedKey (c1 <| th2 := th |>) = reqFinishedKey c /\
    spdmVersion (c1 <| th2 := th |>) = spdmVersion c) as [Hk2 Hs2] by (rewrite <- Hk1, <- Hs1; by destruct c1).
  assert (rview (c1 <| th2 := th |>) = rview c) as Hv2 by (by rewrite rv_th2).
  revert Hwf2 Hk2 Hs2 Hv2. generalize (c1 <| th2 := th |>). intros c2 Hwf2 Hk2 Hs2 Hv2.
  wf_facts Hwf2. wp_step. apply ComputeVerifyData_wp; [lia|lia| |by split_and!].
  intros vd Hvd Hvl Hvb. wp_step. wp_step; [by split_and!|].
  assert (vd = sub_bytes inp 4 48) as ->.
  { assert (len (sub_bytes inp 4 48) = 48) by (apply len_sub_bytes; lia).
    assert (wolfSPDM_ConstCompare vd (sub_bytes inp 4 48) 48 = 0) as Hcc by lia.
    apply wolfSPDM_ConstCompare_eq in Hcc; [|done|by apply is_bytes_sub|done|lia|lia].
    by rewrite !sub_bytes_all in Hcc by done. }
  rewrite Hk2 in Hvd. wp_step. apply TranscriptAdd_wp; [done| |by intros; split_and!]. intros Hf3 Hwf3.
  cbv zeta. rewrite Hs2. pose proof (rv_tr_add c2 (sub_bytes inp 4 48)) as Hv3.
  revert Hwf3 Hv3. generalize (tr_add c2 (sub_bytes inp 4 48)). intros c3 Hwf3 Hv3.
  wp_step. apply TranscriptAdd_wp; [done| |intros; split_and!; [done|done|congruence]]. intros Hf4 Hwf4.
  pose proof (rv_tr_add c3 [spdmVersion c; code; 0; 0]) as Hv4.
  revert Hwf4 Hv4. generalize (tr_add c3 [spdmVersion c; code; 0; 0]). intros c4 Hwf4 Hv4.
  do 2 (wp_step; cbv beta). wp_step.
  assert (rview c4 = rview c) as Hv by congruence.
  split_and!; [wf_tac| |change (len [spdmVersion c; code; 0; 0]) with 4; lia|done|lia|by exists th].
  rewrite <- Hv. by destruct c4.
Qed.
End RespExchange.

(** ** The responder under the handlers *)

Section RespOps.
Context `{WolfCrypt} `{Config} `{!CryptSizes} `{!RecordFits} `{!TranscriptFits}
  {T : Type} `{!TpmCallback T}.
Notation RST := (WOLFSPDM_RESP_CTX * T)%type.
Implicit Types r : WOLFSPDM_RESP_CTX.

Definition sec_clean r : Prop :=
  r.(secureInPlain) = zeros WOLFSPDM_MAX_TPM_MSG_SIZE /\
  r.(secureOutPlain) = zeros WOLFSPDM_MAX_TPM_MSG_SIZE.
Definition vd_clean r : Prop :=
  r.(vdInPayload) = zeros WOLFSPDM_MAX_TPM_MSG_SIZE /\
  r.(vdOutPayload) = zeros WOLFSPDM_MAX_TPM_MSG_SIZE.
Definition tpm_of r := (r.(tpmCb), r.(tpmCbUserCtx)).

(** A run from [s] to [s']: a step of the abstract responder; [ks] and [kv]
    say whether it keeps the two pairs of working buffers clean. *)
Definition rel (st : spec_state T -> spec_state T -> Prop) (ks kv : bool) (s s' : RST) : Prop :=
  st (abs_state s) (abs_state s') /\ tpm_of s'.1 = tpm_of s.1 /\
  (ks = true -> sec_clean s.1 -> sec_clean s'.1) /\ (kv = true -> vd_clean s.1 -> vd_clean s'.1).

Definition rop {A} (st : spec_state T -> spec_state T -> Prop) (ks kv : bool) (m : M RST A)
    (P : A -> Prop) (s : RST) : Prop :=
  wp m (fun a s' => resp_wf s'.1 /\ rel st ks kv s s' /\ P a)
    (fun rc s' => rc < 0 /\ resp_wf s'.1 /\ rel st ks kv s s') s.

Lemma rel_eq_l st ks kv s1 s2 s3 : rel eq ks kv s1 s2 -> rel st ks kv s2 s3 -> rel st ks kv s1 s3.
Proof.
  intros (Ha & Ht & Hs & Hv) (Ha' & Ht' & Hs' & Hv').
  split_and!; [by rewrite Ha|congruence|auto|auto].
Qed.
Lemma rel_eq_r st ks kv s1 s2 s3 : rel st ks kv s1 s2 -> rel eq ks kv s2 s3 -> rel st ks kv s1 s3.
Proof.
  intros (Ha & Ht & Hs & Hv) (Ha' & Ht' & Hs' & Hv').
  split_and!; [by rewrite <- Ha'|congruence|auto|auto].
Qed.

(** A quiet run and then another; a step and then a quiet run. *)
Lemma rop_bind {A B} st ks kv (m : M RST A) (k : A -> M RST B) P P' s :
  rop eq ks kv m P s -> (forall x y, x = y -> st x y) ->
  (forall a s', resp_wf s'.1 -> rel eq ks kv s s' -> P a -> rop st ks kv (k a) P' s') ->
  rop st ks kv (bind m k) P' s.
Proof.
  intros Hm Hst Hk. apply wp_bind. eapply wp_mono; [exact Hm| |].
  - intros a s1 (Hwf & Hr & Ha). eapply wp_mono; [by apply Hk| |].
    + intros b s2 (? & ? & ?). split_and!; [done|by eapply rel_eq_l|done].
    + intros rc s2 (? & ? & ?). split_and!; [done|done|by eapply rel_eq_l].
  - intros rc s1 (? & ? & (? & ? & ? & ?)). split_and!; auto. split_and!; auto.
Qed.

Lemma rop_then {A B} st ks kv (m : M RST A) (k : A -> M RST B) P P' s :
  rop st ks kv m P s ->
  (forall a s', resp_wf s'.1 -> rel st ks kv s s' -> P a -> rop eq ks kv (k a) P' s') ->
  rop st ks kv (bind m k) P' s.
Proof.
  intros Hm Hk. apply wp_bind. eapply wp_mono; [exact Hm| |done].
  intros a s1 (Hwf & Hr & Ha). eapply wp_mono; [by apply Hk| |].
  - intros b s2 (? & ? & ?). split_and!; [done|by eapply rel_eq_r|done].
  - intros rc s2 (? & ? & ?). split_and!; [done|done|by eapply rel_eq_r].
Qed.

Lemma rop_weaken {A} st st' ks kv ks' kv' (m : M RST A) (P P' : A -> Prop) s :
  (forall x y, st x y -> st' x y) -> (ks' = true -> ks = true) -> (kv' = true -> kv = true) ->
  (forall a, P a -> P' a) -> rop st ks kv m P s -> rop st' ks' kv' m P' s.
Proof.
  intros Hst Hks Hkv HP Hm. eapply wp_mono; [exact Hm| |].
  - intros a s' (? & (? & ? & ? & ?) & ?). split_and!; auto. split_and!; auto.
  - intros rc s' (? & ? & (? & ? & ? & ?)). split_and!; auto. split_and!; auto.
Qed.

Lemma rop_ret {A} ks kv (a : A) (P : A -> Prop) s : resp_wf s.1 -> P a -> rop eq ks kv (ret a) P s.
Proof. intros. unfold rop. wp_step. split_and!; [done| |done]. by split_and!. Qed.

Lemma rop_fail {A} ks kv rc (P : A -> Prop) s : resp_wf s.1 -> rc < 0 -> rop eq ks kv (fail rc) P s.
Proof. intros. unfold rop. wp_step. split_and!; [done|done|]. by split_and!. Qed.

Lemma rop_check ks kv b rc s : resp_wf s.1 -> rc < 0 ->
  rop eq ks kv (check b rc) (fun _ => b = false) s.
Proof. intros. unfold rop. wp_step; split_and!; try done; by split_and!. Qed.

Lemma rop_get_r {A} st ks kv (k : WOLFSPDM_RESP_CTX -> M RST A) P s :
  rop st ks kv (k s.1) P s -> rop st ks kv (bind get_r k) P s.
Proof. intros Hk. unfold rop, get_r, on_r. wp_step. wp_step. wp_step. by destruct s. Qed.

(** The inner context. *)
Lemma abs_ctx r (t : T) c : rview c = rview r.(rctx) -> abs_state (r <| rctx := c |>, t) = abs_state (r, t).
Proof.
  unfold rview, abs_state, phase_of. cbn [fst snd]. intros [= Hs Ht]. destruct r; cbn in *.
  by rewrite Hs, Ht.
Qed.

Lemma resp_wf_ctx r c : resp_wf r -> ctx_wf c ->
  In c.(state) [WOLFSPDM_STATE_INIT; WOLFSPDM_STATE_VERSION; WOLFSPDM_STATE_KEY_EX;
    WOLFSPDM_STATE_CONNECTED] -> resp_wf (r <| rctx := c |>).
Proof. intros [] Hwf Hs. by split. Qed.

Lemma rel_ctx ks kv r c (t : T) : rview c = rview r.(rctx) -> rel eq ks kv (r, t) (r <| rctx := c |>, t).
Proof. intros Hv. split_and!; [by rewrite abs_ctx|by destruct r..]. Qed.

Lemma rop_ctx {A} ks kv (m : M WOLFSPDM_CTX A) P s : resp_wf s.1 ->
  frame_op m P s.1.(rctx) -> rop eq ks kv (on_r (in_ctx m)) P s.
Proof.
  destruct s as [r t]. intros Hwf Hm. cbn [fst] in *. unfold rop, on_r, in_ctx. do 2 wp_step. cbn [fst snd].
  eapply wp_mono; [exact Hm| |].
  - intros a c (Hc & Hv & Ha). split_and!; [|by apply rel_ctx|done].
    apply resp_wf_ctx; [done|done|]. replace (state c) with (rview c).1 by done. rewrite Hv. by apply rw_state.
  - intros rc c (Hrc & Hc & Hv). split_and!; [done| |by apply rel_ctx].
    apply resp_wf_ctx; [done|done|]. replace (state c) with (rview c).1 by done. rewrite Hv. by apply rw_state.
Qed.

(** A copy into a working buffer stays in the buffer. *)
Lemma resp_store_rop ks kv buf put d s :
  resp_wf s.1 -> len d <= len (buf s.1) ->
  (forall b, len b = len (buf s.1) -> resp_wf (put b s.1) /\ rel eq ks kv s (put b s.1, s.2)) ->
  rop eq ks kv (resp_store buf put d) (fun _ => True) s.
Proof.
  destruct s as [r t]. cbn [fst snd]. intros Hwf Hl Hput. unfold rop, resp_store, get_r, set_r, on_r.
  wp_step. wp_step. wp_step. cbn [fst snd]. wp_step. wp_step.
  wp_step. wp_step. cbn [fst snd]. destruct (Hput (splice (buf r) 0 d)); [|by split_and!].
  pose proof (len_nonneg d). by rewrite len_splice by lia.
Qed.

Lemma is_bytes_zeros n : is_bytes (zeros n).
Proof. unfold zeros. by apply Forall_replicate. Qed.

(** ** The vendor commands *)

Section Commands.
Variables (cb user : Z).

(** A command leaves the phase alone. *)
Definition command_step (ch : channel) (x y : spec_state T) : Prop :=
  spec_step cb user tpmRespCap ch x y /\ sp_phase y = sp_phase x.
Notation step := command_step.

Lemma step_eq ch x y : x = y -> step ch x y.
Proof. intros ->. split; [constructor|done]. Qed.

Lemma rel_stay ch ks kv s : rel (step ch) ks kv s s.
Proof. split_and!; [by apply step_eq|done..]. Qed.

(** Where the abstract responder may take a command of a channel. *)
Definition allowed (ch : channel) (vdCode : bytes) (s : spec_state T) : Prop :=
  match ch with
  | Clear => secured_only vdCode = false
  | Secured => (exists asym, sp_phase s = P_connected asym) \/
      (exists asym, sp_phase s = P_keyex asym) /\ vdCode = WOLFSPDM_VDCODE_GIVE_PUB
  end.

Lemma tpm2_cmd_rop payload s asym : resp_wf s.1 -> tpm_of s.1 = (cb, user) ->
  sp_phase (abs_state s) = P_connected asym ->
  rop (step Secured) true true (resp_tpm2_cmd payload)
    (fun out => len out <= WOLFSPDM_MAX_TPM_MSG_SIZE) s.
Proof.
  intros Hwf Htpm Hph. unfold resp_tpm2_cmd. apply rop_get_r.
  eapply rop_bind; [by apply rop_check|by apply step_eq|]. cbv beta. intros _ [r t] Hwf1 Hr1 _.
  destruct Hr1 as (Ha & Ht & _). cbn [fst] in *. rewrite Htpm in Ht. unfold tpm_of in Ht.
  injection Ht as Hcb Hus. rewrite Ha in Hph.
  eapply (rop_then _ _ _ _ _ (fun _ => True)).
  - unfold rop, wp, call_tpm. rewrite Hcb, Hus.
    assert (step Secured (abs_state (r, t))
      (abs_state (r, (tpm_call cb user payload tpmRespCap t).1))) as Hs
      by (split; [by apply (ss_tpm cb user tpmRespCap (abs_state (r, t)) asym payload)|done]).
    destruct (tpm_call cb user payload tpmRespCap t) as [t' [rsp|]]; cbn [fst snd] in *; by split_and!.
  - cbv beta. intros rsp [r1 t1] Hwf2 _ _. eapply rop_bind; [by apply rop_check|done|].
    cbv beta. intros _ s2 Hwf3 _ Hl. apply rop_ret; [done|].
    unfold tpmRespCap, WOLFSPDM_MAX_TPM_MSG_SIZE, WOLFSPDM_VDCODE_LEN in *. lia.
Qed.

Lemma get_pubk_rop s : resp_wf s.1 ->
  rop eq true true resp_get_pubk (fun out => len out <= WOLFSPDM_MAX_TPM_MSG_SIZE) s.
Proof.
  intros Hwf. unfold resp_get_pubk. apply rop_get_r.
  destruct (rw_keys _ Hwf) as (_ & Hk & Hl).
  eapply rop_bind; [by apply rop_check|done|]. cbv beta. intros _ s1 Hwf1 Hr1 _.
  eapply rop_bind; [by apply rop_check|done|]. cbv beta. intros _ s2 Hwf2 Hr2 Hle.
  unfold rop. wp_step. split_and!; [done|by split_and!|].
  rewrite len_sub_bytes by lia. unfold WOLFSPDM_MAX_TPM_MSG_SIZE in *. lia.
Qed.

Lemma get_sts_rop s : resp_wf s.1 ->
  rop eq true true resp_get_sts (fun out => len out <= WOLFSPDM_MAX_TPM_MSG_SIZE) s.
Proof.
  intros Hwf. unfold resp_get_sts. apply rop_get_r. apply rop_ret; [done|].
  match goal with |- len ?l <= _ => change (len l) with 4 end. pose proof cfg_dts.
  unfold WOLFSPDM_MAX_TPM_MSG_SIZE, SPDM_MIN_DATA_TRANSFER_SIZE in *. lia.
Qed.

(** An assignment that is a step. *)
Lemma set_r_rop st ks kv f (P : unit -> Prop) s : resp_wf (f s.1) -> rel st ks kv s (f s.1, s.2) ->
  P tt -> rop st ks kv (set_r f) P s.
Proof. intros. unfold rop, set_r, on_r. do 2 wp_step. by split_and!. Qed.

Lemma give_pub_rop payload s asym : resp_wf s.1 ->
  sp_phase (abs_state s) = P_keyex asym \/ sp_phase (abs_state s) = P_connected asym ->
  rop (step Secured) true true (resp_give_pub payload)
    (fun out => len out <= WOLFSPDM_MAX_TPM_MSG_SIZE) s.
Proof.
  destruct s as [r t]. cbn [fst]. intros Hwf Hph. unfold resp_give_pub. apply rop_get_r. cbn [fst].
  pose proof (rw_ctx _ Hwf) as Hc. wf_facts Hc. pose proof (len_nonneg payload).
  unfold rop. wp_step. wp_step; [split_and!; [done|done|apply rel_stay]|].
  wp_step. wp_step. wp_step. unfold on_r, in_ctx. do 3 wp_step. cbn [fst snd]. wp_step.
  match goal with |- context [r <| rctx := ?c |>] => set (c' := c) end.
  assert (len (splice (reqPubKeyTPMT (rctx r)) 0 payload) = len (reqPubKeyTPMT (rctx r))) as Hl
    by (rewrite len_splice; lia).
  assert (ctx_wf c') as Hwf' by (unfold c'; wf_tac).
  split_and!; [by apply resp_wf_ctx; [done|done|apply (rw_state _ Hwf)]| |].
  - split_and!; [|by destruct r..]. cbn [fst].
    assert (abs_state (r <| rctx := c' |>, t) = (abs_state (r, t)) <| sp_tpmt := payload |>) as ->.
    { unfold abs_state, c'. cbn. unfold set; cbn. f_equal.
      by rewrite sub_bytes_splice_head, sub_bytes_all by (lia || done). }
    split; [by apply (ss_give_pub _ _ _ _ asym)|done].
  - change (len []) with 0. pose proof cfg_dts.
    unfold WOLFSPDM_MAX_TPM_MSG_SIZE, SPDM_MIN_DATA_TRANSFER_SIZE in *. lia.
Qed.

Lemma empty_fits : len [] <= WOLFSPDM_MAX_TPM_MSG_SIZE.
Proof.
  change (len []) with 0. pose proof cfg_dts.
  unfold WOLFSPDM_MAX_TPM_MSG_SIZE, SPDM_MIN_DATA_TRANSFER_SIZE in *. lia.
Qed.

Lemma rd_rop ks kv b i s : resp_wf s.1 -> 0 <= i < len b ->
  rop eq ks kv (rd b i) (fun v => v = at_ b (Z.to_nat i)) s.
Proof. intros. unfold rop. wp_step. subst. split_and!; [done|by split_and!|done]. Qed.

Lemma rd_sub_rop ks kv b o n s : resp_wf s.1 -> 0 <= o -> 0 <= n -> o + n <= len b ->
  rop eq ks kv (rd_sub b o n) (fun d => d = sub_bytes b o n) s.
Proof. intros. unfold rop. wp_step. split_and!; [done|by split_and!|done]. Qed.

Lemma spdmonly_rop payload s asym : resp_wf s.1 -> sp_phase (abs_state s) = P_connected asym ->
  rop (step Secured) true true (resp_spdmonly payload)
    (fun out => len out <= WOLFSPDM_MAX_TPM_MSG_SIZE) s.
Proof.
  intros Hwf Hph. unfold resp_spdmonly.
  eapply rop_bind; [by apply rop_check|by apply step_eq|]. cbv beta. intros _ s1 Hwf1 (Ha1 & _) Hl.
  eapply rop_bind; [apply rd_rop; [done|lia]|by apply step_eq|]. cbv beta. intros b s2 Hwf2 (Ha2 & _) _.
  eapply rop_bind; [by apply rop_check|by apply step_eq|]. cbv beta.
  intros _ [r t] Hwf3 (Ha3 & _) _. cbn [fst] in *.
  eapply (rop_then _ _ _ _ _ (fun _ => True)); [|cbv beta; intros; apply rop_ret; [done|apply empty_fits]].
  apply set_r_rop; [by destruct Hwf3; split| |done]. cbn [fst snd].
  split_and!; [|by destruct r..].
  split; [|by destruct r]. apply (ss_lock _ _ _ (abs_state (r, t)) asym). by rewrite <- Ha3, <- Ha2, <- Ha1.
Qed.

(** A new key and an erased one. *)
Lemma ctx_psk_wf key n c : len key = WOLFSPDM_PSK_MAX_SIZE ->
  0 <= n <= WOLFSPDM_PSK_MAX_SIZE -> ctx_wf c -> ctx_wf (c <| psk := key |> <| pskSz := n |>).
Proof. intros. wf_tac. Qed.

Lemma psk_stored_wf key digest r : len key = WOLFSPDM_PSK_MAX_SIZE -> is_bytes key ->
  len digest = WOLFSPDM_HASH_SIZE -> is_bytes digest -> resp_wf r -> resp_wf (psk_stored key digest r).
Proof.
  intros Hk Hkb Hd Hdb [Hx ? Hp ? ? ?]. destruct Hp as (? & ? & ? & ? & ?).
  split; try done.
  apply (ctx_psk_wf key WOLFSPDM_PSK_MAX_SIZE (rctx r)); [done|lia|done].
Qed.

Lemma psk_cleared_wf r : resp_wf r -> resp_wf (psk_cleared r).
Proof.
  intros [Hx ? Hp ? ? ?]. destruct Hp as (? & ? & ? & ? & ?).
  pose proof (is_bytes_zeros WOLFSPDM_PSK_MAX_SIZE). pose proof (is_bytes_zeros WOLFSPDM_HASH_SIZE).
  split; try done.
  apply (ctx_psk_wf (zeros WOLFSPDM_PSK_MAX_SIZE) 0 (rctx r)); [done|lia|done].
Qed.

Lemma psk_stored_rel ch key digest r (t : T) : len key = WOLFSPDM_PSK_MAX_SIZE ->
  (ch = Secured -> exists asym, sp_phase (abs_state (r, t)) = P_connected asym) ->
  sp_clear (abs_state (r, t)) = None ->
  sp_psk (abs_state (r, t)) = [] \/ sp_psk (abs_state (r, t)) = key ->
  rel (step ch) true true (r, t) (psk_stored key digest r, t).
Proof.
  intros Hl Hph Hc Hk. split_and!; [|by destruct r..].
  replace (abs_state (psk_stored key digest r, t))
    with ((abs_state (r, t)) <| sp_psk := key |> <| sp_clear := Some digest |>); [split; [by apply ss_psk_set|done]|].
  destruct r as [c f ? ? ? ? ? ? ? ? ? ? ? ? ? ? ?]. destruct c, f.
  unfold abs_state, phase_of. cbn -[sub_bytes]. by rewrite (sub_bytes_all key WOLFSPDM_PSK_MAX_SIZE).
Qed.

Lemma psk_cleared_rel ch payload digest r (t : T) :
  (ch = Secured -> exists asym, sp_phase (abs_state (r, t)) = P_connected asym) ->
  sha384 payload [] [] = Some digest ->
  digest = default (zeros WOLFSPDM_HASH_SIZE) (sp_clear (abs_state (r, t))) ->
  rel (step ch) true true (r, t) (psk_cleared r, t).
Proof.
  intros Hph Hd Hdef. split_and!; [|by destruct r..].
  replace (abs_state (psk_cleared r, t))
    with ((abs_state (r, t)) <| sp_psk := [] |> <| sp_clear := None |>); [split; [by apply (ss_psk_clr _ _ _ _ _ payload digest)|done]|].
  destruct r as [c f ? ? ? ? ? ? ? ? ? ? ? ? ? ? ?]. by destruct c, f.
Qed.

Lemma two_guards x y n m : negb (x =? n) && negb (y =? m) = false -> x = n \/ y = m.
Proof. destruct (Z.eqb_spec x n), (Z.eqb_spec y m); by auto. Qed.

(** What the checks of PSK_SET_ establish. *)
Lemma psk_same (s : RST) key : resp_wf s.1 -> len key = WOLFSPDM_PSK_MAX_SIZE -> is_bytes key ->
  clearAuthSet (rflags s.1) = false ->
  negb (pskStoreSz s.1 =? 0) && negb (pskStoreSz s.1 =? WOLFSPDM_PSK_MAX_SIZE) = false ->
  negb (pskStoreSz s.1 =? 0) &&
    negb (wolfSPDM_ConstCompare (pskStore s.1) key WOLFSPDM_PSK_MAX_SIZE =? 0) = false ->
  sp_clear (abs_state s) = None /\ (sp_psk (abs_state s) = [] \/ sp_psk (abs_state s) = key).
Proof.
  intros Hwf Hkl Hkb Hclr Hsz Hcmp. destruct (rw_psk _ Hwf) as (Hs1 & Hb1 & _).
  unfold abs_state; cbn [sp_clear sp_psk]. rewrite Hclr. split; [done|].
  apply two_guards in Hsz, Hcmp. destruct Hcmp as [-> | Hcmp]; [by left|].
  destruct Hsz as [-> | Hsz]; [by left|]. right.
  apply wolfSPDM_ConstCompare_eq in Hcmp; [|done|done|done|lia|lia].
  rewrite Hsz, Hcmp. by apply sub_bytes_all.
Qed.

(** The identifiers of the inner key follow the store. *)
Lemma psk_set_rop ch payload s : resp_wf s.1 -> is_bytes payload ->
  (ch = Secured -> exists asym, sp_phase (abs_state s) = P_connected asym) ->
  rop (step ch) true true (resp_psk_set payload)
    (fun out => len out <= WOLFSPDM_MAX_TPM_MSG_SIZE) s.
Proof.
  intros Hwf Hpb Hph. unfold resp_psk_set. cbv zeta.
  eapply rop_bind; [by apply rop_check|by apply step_eq|]. cbv beta. intros _ s1 Hwf1 (Ha1 & _) Hl.
  apply rop_get_r. unfold WOLFSPDM_PSK_MAX_SIZE, WOLFSPDM_HASH_SIZE in Hl.
  eapply rop_bind; [by apply rop_check|by apply step_eq|]. cbv beta. intros _ s2 Hwf2 (Ha2 & _) Hclr.
  eapply rop_bind; [apply rd_sub_rop; [done|lia|done|unfold WOLFSPDM_PSK_MAX_SIZE; lia]|by apply step_eq|].
  cbv beta. intros key s3 Hwf3 (Ha3 & _) ->.
  eapply rop_bind; [apply rd_sub_rop; [done|done|done|unfold WOLFSPDM_PSK_MAX_SIZE, WOLFSPDM_HASH_SIZE; lia]
    |by apply step_eq|]. cbv beta. intros digest s4 Hwf4 (Ha4 & _) ->.
  eapply rop_bind; [by apply rop_check|by apply step_eq|]. cbv beta. intros _ s5 Hwf5 (Ha5 & _) Hsz.
  eapply rop_bind; [by apply rop_check|by apply step_eq|]. cbv beta.
  intros _ [r t] Hwf6 (Ha6 & _) Hcmp. cbn [fst] in *.
  assert (abs_state s1 = abs_state (r, t)) as Ha
    by (by rewrite Ha2, Ha3, Ha4, Ha5, Ha6).
  assert (abs_state s = abs_state (r, t)) as Has by congruence.
  set (key := sub_bytes payload 0 WOLFSPDM_PSK_MAX_SIZE) in *.
  set (digest := sub_bytes payload WOLFSPDM_PSK_MAX_SIZE WOLFSPDM_HASH_SIZE) in *.
  assert (len key = WOLFSPDM_PSK_MAX_SIZE /\ len digest = WOLFSPDM_HASH_SIZE) as [Hkl Hdl]
    by (unfold key, digest, WOLFSPDM_PSK_MAX_SIZE, WOLFSPDM_HASH_SIZE; rewrite !len_sub_bytes by lia; done).
  assert (is_bytes key /\ is_bytes digest) as [Hkb Hdb] by (split; by apply is_bytes_sub).
  clearbody key digest.
  destruct (psk_same s1 key Hwf1 Hkl Hkb Hclr Hsz Hcmp) as [Hc Hk].
  eapply (rop_then _ _ _ _ _ (fun _ => True)); [|cbv beta; intros; apply rop_ret; [done|apply empty_fits]].
  rewrite Ha in Hc, Hk. rewrite Has in Hph.
  apply set_r_rop; [by apply psk_stored_wf|by apply psk_stored_rel|done].
Qed.

Lemma psk_clr_rop ch payload s : resp_wf s.1 ->
  (ch = Secured -> exists asym, sp_phase (abs_state s) = P_connected asym) ->
  rop (step ch) true true (resp_psk_clr payload)
    (fun out => len out <= WOLFSPDM_MAX_TPM_MSG_SIZE) s.
Proof.
  intros Hwf Hph. unfold resp_psk_clr. apply rop_get_r.
  eapply rop_bind; [by apply rop_check|by apply step_eq|]. cbv beta. intros _ s1 Hwf1 (Ha1 & _) Hl.
  eapply (rop_bind _ _ _ _ _ (fun d => sha384 payload [] [] = Some d /\ len d = WOLFSPDM_HASH_SIZE /\ is_bytes d));
    [|by apply step_eq|].
  { unfold rop. apply Sha384Hash_wp; [|split_and!; [done|done|by split_and!]].
    intros. split_and!; try done; by split_and!. }
  intros d s2 Hwf2 (Ha2 & _) (Hd & Hdl & Hdb).
  eapply rop_bind; [by apply rop_check|by apply step_eq|]. cbv beta.
  intros _ [r t] Hwf3 (Ha3 & _) Hcmp. cbn [fst] in *.
  assert (abs_state s = abs_state (r, t)) as Has by congruence. rewrite Has in Hph.
  destruct (rw_clear _ Hwf) as (Hcl & Hcb & Hz).
  assert (d = clearAuthDigest s.1) as He.
  { assert (wolfSPDM_ConstCompare d (clearAuthDigest s.1) WOLFSPDM_HASH_SIZE = 0) as Hcc by lia.
    apply wolfSPDM_ConstCompare_eq in Hcc; [|done|done|done|lia|lia].
    by rewrite !sub_bytes_all in Hcc by done. }
  assert (d = default (zeros WOLFSPDM_HASH_SIZE) (sp_clear (abs_state (r, t)))) as Hdef.
  { rewrite <- Has. unfold abs_state; cbn [sp_clear].
    destruct (clearAuthSet (rflags s.1)) eqn:Hcs; [done|]. cbn. by rewrite He, Hz. }
  eapply (rop_then _ _ _ _ _ (fun _ => True)); [|cbv beta; intros; apply rop_ret; [done|apply empty_fits]].
  apply set_r_rop; [by apply psk_cleared_wf|by eapply psk_cleared_rel|done].
Qed.
End Commands.
End RespOps.
