(* ===== verification/RespRefine.v ===== *)
(** * The responder implements its specification

    The vendor commands, the two dispatchers and the message handler of
    spdm_responder.c as steps of the abstract responder of RespSpec. *)
From Stdlib Require Import ZArith Lia String.
From stdpp Require Import base tactics list numbers option relations.
From S2P Require Import Prelude Types Bytes Crypt Context Transcript Kdf CryptoOps Transport.
From S2P Require Import Secured Msg Chunk Cert Attest Session Standard Tcg Psk Connect Vendor.
From S2P Require Import Frame Responder RespSpec.

(** ** Vendor commands *)

Section Vendor.
Context `{WolfCrypt} `{Config} `{!CryptSizes} `{!RecordFits} `{!TranscriptFits}
  {T : Type} `{!TpmCallback T}.
Notation RST := (WOLFSPDM_RESP_CTX * T)%type.
Variables (cb user : Z).
Notation step := (command_step cb user).
Implicit Types (s : RST).

Lemma bytes_eqb_true a b : bytes_eqb a b = true -> a = b.
Proof. by intros ?%bytes_eqb_eq. Qed.

(** A run that changes nothing the abstraction sees. *)
Lemma rop_quiet_cmd {A} ch ks kv (m : M RST A) P s : rop eq ks kv m P s -> rop (step ch) ks kv m P s.
Proof. apply rop_weaken; try done. by apply step_eq. Qed.

Lemma rop_quiet {A} ch ks kv (m : M RST A) P s :
  rop eq ks kv m P s -> rop (spec_step cb user tpmRespCap ch) ks kv m P s.
Proof. apply rop_weaken; try done. intros x ? <-. constructor. Qed.

Lemma resp_command_rop ch vdCode payload s :
  resp_wf s.1 -> tpm_of s.1 = (cb, user) -> is_bytes payload ->
  allowed ch vdCode (abs_state s) ->
  rop (step ch) true true (resp_command vdCode payload)
    (fun out => len out <= WOLFSPDM_MAX_TPM_MSG_SIZE) s.
Proof.
  intros Hwf Htpm Hb Hall. unfold resp_command.
  assert (vdCode <> WOLFSPDM_VDCODE_GIVE_PUB -> ch = Secured ->
    exists asym, sp_phase (abs_state s) = P_connected asym) as Hconn.
  { intros Hne ->. by destruct Hall as [?|[_ ?]]. }
  assert (forall code, secured_only code = true -> vdCode = code -> ch = Secured) as Hsec.
  { intros code Hc ->. destruct ch; [|done]. cbn in Hall. congruence. }
  destruct (bytes_eqb vdCode WOLFSPDM_VDCODE_TPM2_CMD) eqn:E1.
  { apply bytes_eqb_true in E1. assert (ch = Secured) as -> by (by apply (Hsec WOLFSPDM_VDCODE_TPM2_CMD)).
    destruct Hconn as [asym Hp]; [by rewrite E1|done|]. by eapply tpm2_cmd_rop. }
  destruct (bytes_eqb vdCode WOLFSPDM_VDCODE_GET_PUBK) eqn:E2.
  { by apply rop_quiet_cmd, get_pubk_rop. }
  destruct (bytes_eqb vdCode WOLFSPDM_VDCODE_GIVE_PUB) eqn:E3.
  { apply bytes_eqb_true in E3. assert (ch = Secured) as -> by (by apply (Hsec WOLFSPDM_VDCODE_GIVE_PUB)).
    destruct Hall as [[asym Hp]|[[asym Hp] _]]; eapply (give_pub_rop _ _ _ _ asym); auto. }
  assert (vdCode <> WOLFSPDM_VDCODE_GIVE_PUB) as Hne.
  { intros ->. by rewrite (proj2 (bytes_eqb_eq _ _)) in E3. }
  destruct (bytes_eqb vdCode WOLFSPDM_VDCODE_GET_STS) eqn:E4.
  { by apply rop_quiet_cmd, get_sts_rop. }
  destruct (bytes_eqb vdCode WOLFSPDM_VDCODE_SPDMONLY) eqn:E5.
  { apply bytes_eqb_true in E5. assert (ch = Secured) as -> by (by apply (Hsec WOLFSPDM_VDCODE_SPDMONLY)).
    destruct Hconn as [asym Hp]; [done..|]. by eapply spdmonly_rop. }
  destruct (bytes_eqb vdCode VDCODE_PSK_SET); [apply psk_set_rop; auto|].
  destruct (bytes_eqb vdCode VDCODE_PSK_CLR); [apply psk_clr_rop; auto|].
  by apply rop_quiet_cmd, rop_fail.
Qed.

Ltac store_buf :=
  let Hwf := fresh in intros Hwf ?; destruct (rw_scratch _ Hwf) as (? & ? & ? & ?);
  apply resp_store_rop; [done|lia|]; let b := fresh in let Hb := fresh in intros b Hb;
  match goal with s : (_ * _)%type |- _ => destruct s end; cbn [fst snd] in *;
  split; [destruct Hwf; split; try done; split_and!; cbn; congruence|split_and!; match goal with r : WOLFSPDM_RESP_CTX |- _ => by destruct r end].

(** A command is a step. *)
Lemma rop_command {A} ch ks kv (m : M RST A) P s :
  rop (step ch) ks kv m P s -> rop (spec_step cb user tpmRespCap ch) ks kv m P s.
Proof. apply rop_weaken; try done. by intros x y [? _]. Qed.

(** A copy into one of the four working buffers. *)
Lemma store_vd_in_rop d s : resp_wf s.1 -> len d <= WOLFSPDM_MAX_TPM_MSG_SIZE ->
  rop eq true false (resp_store vdInPayload (fun b r => r <| vdInPayload := b |>) d) (fun _ => True) s.
Proof.
  store_buf.
Qed.

Lemma store_vd_out_rop d s : resp_wf s.1 -> len d <= WOLFSPDM_MAX_TPM_MSG_SIZE ->
  rop eq true false (resp_store vdOutPayload (fun b r => r <| vdOutPayload := b |>) d) (fun _ => True) s.
Proof.
  store_buf.
Qed.

Lemma store_sec_in_rop d s : resp_wf s.1 -> len d <= WOLFSPDM_MAX_TPM_MSG_SIZE ->
  rop eq false true (resp_store secureInPlain (fun b r => r <| secureInPlain := b |>) d) (fun _ => True) s.
Proof.
  store_buf.
Qed.

Lemma store_sec_out_rop d s : resp_wf s.1 -> len d <= WOLFSPDM_MAX_TPM_MSG_SIZE ->
  rop eq false true (resp_store secureOutPlain (fun b r => r <| secureOutPlain := b |>) d) (fun _ => True) s.
Proof.
  store_buf.
Qed.

(** What the checks before a command leave. *)
Lemma command_allowed (fromSecured : bool) vdCode s :
  (fromSecured = true -> (exists asym, sp_phase (abs_state s) = P_keyex asym) \/
     exists asym, sp_phase (abs_state s) = P_connected asym) ->
  negb fromSecured && secured_only vdCode = false ->
  fromSecured && negb (s.1.(rctx).(state) =? WOLFSPDM_STATE_CONNECTED) &&
    negb (bytes_eqb vdCode WOLFSPDM_VDCODE_GIVE_PUB) = false ->
  allowed (if fromSecured then Secured else Clear) vdCode (abs_state s).
Proof.
  intros Hph Hc1 Hc2. destruct fromSecured; [|done]. cbn [allowed].
  destruct (Z.eqb_spec (state (rctx s.1)) WOLFSPDM_STATE_CONNECTED) as [Hc|Hc].
  { left. exists (sessionAsym (rflags s.1)). unfold abs_state, phase_of. cbn [sp_phase]. by rewrite Hc. }
  destruct (Hph eq_refl) as [Hk|Hk]; [|by left]. right. split; [done|].
  destruct (bytes_eqb vdCode WOLFSPDM_VDCODE_GIVE_PUB) eqn:E; [by apply bytes_eqb_true|done].
Qed.

Lemma vendor_inner_rop inp outSz fromSecured s :
  resp_wf s.1 -> tpm_of s.1 = (cb, user) -> is_bytes inp ->
  (fromSecured = true -> (exists asym, sp_phase (abs_state s) = P_keyex asym) \/
     exists asym, sp_phase (abs_state s) = P_connected asym) ->
  rop (step (if fromSecured then Secured else Clear)) true false
    (RespHandleVendorDefinedInner inp outSz fromSecured) (fun out => len out.1 <= outSz) s.
Proof.
  intros Hwf Htpm Hb Hph. unfold RespHandleVendorDefinedInner.
  eapply rop_bind; [|by apply step_eq|].
  { unfold rop. apply (ParseVendorDefined_wp _ _ _ (fun a s' => resp_wf s'.1 /\ rel eq true false s s' /\
      is_bytes a.2 /\ len a.1 = WOLFSPDM_VDCODE_LEN /\ len a.2 <= WOLFSPDM_MAX_TPM_MSG_SIZE)); [done|..];
      intros; split_and!; done || by split_and!. }
  cbv beta. intros [vdCode payload] s1 Hwf1 (Ha1 & Ht1 & _) (Hpb & Hcl & Hpl). cbn [fst snd] in Hpb, Hcl, Hpl.
  eapply rop_bind; [by apply store_vd_in_rop|by apply step_eq|]. cbv beta. intros _ s2 Hwf2 (Ha2 & Ht2 & _) _.
  eapply rop_bind; [by apply rop_check|by apply step_eq|]. cbv beta. intros _ s3 Hwf3 (Ha3 & Ht3 & _) Hc3.
  apply rop_get_r.
  assert (abs_state s = abs_state s3) as Ha by congruence. rewrite Ha in Hph.
  assert (tpm_of s3.1 = (cb, user)) as Ht by congruence.
  eapply rop_bind; [by apply rop_check|by apply step_eq|]. cbv beta. intros _ s4 Hwf4 (Ha4 & Ht4 & _) Hc4.
  pose proof (command_allowed _ _ s3 Hph Hc3 Hc4) as Hall. rewrite Ha4 in Hall. rewrite <- Ht4 in Ht.
  eapply (rop_then _ _ _ _ _ (fun out => len out <= WOLFSPDM_MAX_TPM_MSG_SIZE)).
  { eapply rop_weaken; [| | | |by eapply resp_command_rop]; done. }
  cbv beta. intros rsp s5 Hwf5 _ Hrl.
  eapply rop_bind; [by apply store_vd_out_rop|done|]. cbv beta zeta. intros _ s6 Hwf6 _ _.
  eapply rop_bind; [by apply rop_check|done|]. cbv beta. intros _ s7 Hwf7 _ Hsz.
  apply rop_get_r, rop_ret; [done|]. cbn [fst]. rewrite !len_app, Hcl.
  change (len (SPDM_Set16LE _)) with 2. change (len [_; _; _; _]) with 4. change (len [_]) with 1.
  unfold WOLFSPDM_VDCODE_LEN in *. lia.
Qed.
End Vendor.

(** ** The reset of a session *)

Section Reset.
Context `{WolfCrypt} `{Config} `{!CryptSizes} `{!RecordFits} `{!TranscriptFits}
  {T : Type} `{!TpmCallback T}.
Notation RST := (WOLFSPDM_RESP_CTX * T)%type.
Implicit Types (c : WOLFSPDM_CTX) (r : WOLFSPDM_RESP_CTX) (s : RST).

(** The inner context without keys and secrets, and then without a session. *)
Definition keyless c : WOLFSPDM_CTX :=
  c <| reqDataKey := zeros WOLFSPDM_AEAD_KEY_SIZE |> <| rspDataKey := zeros WOLFSPDM_AEAD_KEY_SIZE |>
    <| reqDataIv := zeros WOLFSPDM_AEAD_IV_SIZE |> <| rspDataIv := zeros WOLFSPDM_AEAD_IV_SIZE |>
    <| handshakeSecret := zeros WOLFSPDM_HASH_SIZE |>
    <| reqHsSecret := zeros WOLFSPDM_HASH_SIZE |> <| rspHsSecret := zeros WOLFSPDM_HASH_SIZE |>
    <| reqFinishedKey := zeros WOLFSPDM_HASH_SIZE |> <| rspFinishedKey := zeros WOLFSPDM_HASH_SIZE |>
    <| sharedSecret := zeros WOLFSPDM_ECC_KEY_SIZE |> <| sharedSecretSz := 0 |>
    <| reqAppSecret := zeros WOLFSPDM_HASH_SIZE |> <| rspAppSecret := zeros WOLFSPDM_HASH_SIZE |>.

Definition sessionless c : WOLFSPDM_CTX :=
  c <| reqSeqNum := 0 |> <| rspSeqNum := 0 |> <| sessionId := 0 |> <| state := WOLFSPDM_STATE_INIT |>.

Lemma keyless_wf c : ctx_wf c -> ctx_wf (keyless c).
Proof. intros. unfold keyless. wf_tac. Qed.
Lemma sessionless_wf c : ctx_wf c -> ctx_wf (sessionless c).
Proof. intros. unfold sessionless. wf_tac. Qed.
Lemma rv_keyless c : rview (keyless c) = rview c. Proof. by destruct c. Qed.
Lemma rv_freed c : rview (eph_freed c) = rview c.
Proof. unfold eph_freed. repeat case_match; by destruct c. Qed.
Lemma rv_sessionless c : rview (sessionless c) = (WOLFSPDM_STATE_INIT, (rview c).2).
Proof. by destruct c. Qed.

(** No key or secret of a session is left. *)
Definition no_keys c : Prop :=
  c.(reqDataKey) = zeros WOLFSPDM_AEAD_KEY_SIZE /\ c.(rspDataKey) = zeros WOLFSPDM_AEAD_KEY_SIZE /\
  c.(handshakeSecret) = zeros WOLFSPDM_HASH_SIZE /\ c.(sharedSecret) = zeros WOLFSPDM_ECC_KEY_SIZE /\
  c.(reqHsSecret) = zeros WOLFSPDM_HASH_SIZE /\ c.(rspHsSecret) = zeros WOLFSPDM_HASH_SIZE /\
  c.(reqFinishedKey) = zeros WOLFSPDM_HASH_SIZE /\ c.(rspFinishedKey) = zeros WOLFSPDM_HASH_SIZE /\
  c.(reqAppSecret) = zeros WOLFSPDM_HASH_SIZE /\ c.(rspAppSecret) = zeros WOLFSPDM_HASH_SIZE /\
  c.(flags).(ephemeralKeyInit) = false /\ tr c = [] /\ c.(sessionId) = 0 /\ c.(state) = WOLFSPDM_STATE_INIT.

Lemma keyless_no_keys c : no_keys (sessionless (tr_reset (eph_freed (keyless c)))).
Proof.
  unfold no_keys. split_and!; unfold eph_freed; case_match; by destruct c.
Qed.

Lemma len_scratch : len (zeros WOLFSPDM_MAX_TPM_MSG_SIZE) = WOLFSPDM_MAX_TPM_MSG_SIZE.
Proof.
  rewrite len_zeros. pose proof cfg_dts.
  unfold WOLFSPDM_MAX_TPM_MSG_SIZE, SPDM_MIN_DATA_TRANSFER_SIZE in *. lia.
Qed.

Definition reset_r r : WOLFSPDM_RESP_CTX :=
  wipe_scratch_vd (wipe_scratch_secure
    ((r <| rctx := sessionless (tr_reset (eph_freed (keyless r.(rctx)))) |>)
       <| rflags := r.(rflags) <| sessionAsym := false |> <| pendingAsym := false |> |>)).

Lemma reset_r_wf r : resp_wf r -> resp_wf (reset_r r).
Proof.
  intros [Hx ? ? ? ? ?].
  assert (ctx_wf (sessionless (tr_reset (eph_freed (keyless (rctx r)))))) as Hc.
  { apply sessionless_wf. pose proof (eph_freed_wf _ (keyless_wf _ Hx)) as Hwf.
    revert Hwf. generalize (eph_freed (keyless (rctx r))). intros c Hwf. unfold tr_reset. wf_tac. }
  unfold reset_r. revert Hc. generalize (keyless_no_keys (rctx r)).
  generalize (sessionless (tr_reset (eph_freed (keyless (rctx r))))). intros c Hk Hc.
  split; try done.
  - replace (state _) with (state c) by by destruct r.
    destruct Hk as (_ & _ & _ & _ & _ & _ & _ & _ & _ & _ & _ & _ & _ & ->). by left.
  - pose proof len_scratch as Hz. split_and!; exact Hz.
Qed.

Lemma rv_reset c : rview (sessionless (tr_reset (eph_freed (keyless c)))) =
  (WOLFSPDM_STATE_INIT, (rview c).2).
Proof. by rewrite rv_sessionless, rv_tr_reset, rv_freed, rv_keyless. Qed.

Lemma reset_r_no_keys r : no_keys (reset_r r).(rctx).
Proof.
  unfold reset_r. generalize (keyless_no_keys (rctx r)).
  generalize (sessionless (tr_reset (eph_freed (keyless (rctx r))))). intros c Hk. by destruct r.
Qed.

Lemma reset_r_abs r (t : T) :
  abs_state (reset_r r, t) = (abs_state (r, t)) <| sp_phase := P_init |>.
Proof.
  unfold reset_r. generalize (rv_reset (rctx r)).
  generalize (sessionless (tr_reset (eph_freed (keyless (rctx r))))). intros c [= Hs Ht].
  unfold abs_state, phase_of. destruct r as [c0 f ? ? ? ? ? ? ? ? ? ? ? ? ? ? ?]. destruct f.
  cbn in *. by rewrite Hs, Ht.
Qed.

Lemma RespReset_wp r (Q : unit -> WOLFSPDM_RESP_CTX -> Prop) E :
  resp_wf r -> Q tt (reset_r r) -> wp wolfSPDM_RespReset Q E r.
Proof.
  intros Hwf HQ. unfold wolfSPDM_RespReset, in_ctx. do 2 wp_step. do 2 (wp_step; cbv beta).
  fold (keyless (rctx r)). pose proof (keyless_wf _ (rw_ctx _ Hwf)) as Hk.
  wp_step. apply FreeEphemeralKey_wp; [apply Hk|]. wp_step.
  apply TranscriptReset_wp; [by apply eph_freed_wf|]. intros _. wp_step.
  fold (sessionless (tr_reset (eph_freed (keyless (rctx r))))).
  do 2 (wp_step; cbv beta). do 3 (wp_step; cbv beta). exact HQ.
Qed.
End Reset.

(** ** Clear requests *)

Section ClearRequests.
Context `{WolfCrypt} `{Config} `{!CryptSizes} `{!RecordFits} `{!TranscriptFits}
  {T : Type} `{!TpmCallback T}.
Notation RST := (WOLFSPDM_RESP_CTX * T)%type.
Variables (cb user : Z).
Notation step := (spec_step cb user tpmRespCap).
Implicit Types (c : WOLFSPDM_CTX) (r : WOLFSPDM_RESP_CTX) (s : RST).

Lemma stays ch x y : x = y -> step ch x y.
Proof. intros ->. constructor. Qed.

Lemma rop_try {A} ks kv (m : M RST A) P s : rop eq ks kv m P s ->
  rop eq ks kv (try m) (fun x => match x with inl a => P a | inr rc => rc < 0 end) s.
Proof.
  intros Hm. unfold rop. wp_step. eapply wp_mono; [exact Hm|by auto|].
  intros rc s' (? & ? & ?). by split_and!.
Qed.

(** The working buffers are wiped whatever became of the handler. *)
Lemma always_rop {A} st ks kv f (m : M RST A) P s :
  (forall s', resp_wf s'.1 -> rel st ks kv s s' ->
     resp_wf (f s'.1) /\ rel st true true s (f s'.1, s'.2)) ->
  rop st ks kv m P s -> rop st true true (always m (set_r f)) P s.
Proof.
  intros Hw Hm. unfold always, rop. wp_step. wp_step. eapply wp_mono; [exact Hm| |].
  - intros a s' (Hwf & Hr & Ha). destruct (Hw s' Hwf Hr). wp_step. unfold set_r, on_r. do 2 wp_step.
    wp_step. by split_and!.
  - intros rc s' (Hrc & Hwf & Hr). destruct (Hw s' Hwf Hr). unfold set_r, on_r. do 2 wp_step. by split_and!.
Qed.

Lemma wipes_wf r : resp_wf r -> resp_wf (wipe_scratch_vd r) /\ resp_wf (wipe_scratch_secure r).
Proof.
  intros [? ? ? ? ? Hscr]. pose proof len_scratch. destruct_and! Hscr.
  split; split; try done; by split_and!.
Qed.

Lemma wipes_abs r (t : T) : abs_state (wipe_scratch_vd r, t) = abs_state (r, t) /\
  abs_state (wipe_scratch_secure r, t) = abs_state (r, t).
Proof. by destruct r. Qed.

Lemma wiped_vd_rop {A} st (m : M RST A) P s :
  rop st true false m P s -> rop st true true (always m (set_r wipe_scratch_vd)) P s.
Proof.
  apply always_rop. intros [r t] Hwf (Ha & Ht & Hs & _). cbn [fst snd] in *.
  split; [by apply wipes_wf|]. destruct (wipes_abs r t) as [Hv _].
  split_and!; cbn [fst]; [by rewrite Hv|by destruct r..].
Qed.

Lemma wiped_sec_rop {A} st (m : M RST A) P s :
  rop st false true m P s -> rop st true true (always m (set_r wipe_scratch_secure)) P s.
Proof.
  apply always_rop. intros [r t] Hwf (Ha & Ht & _ & Hs). cbn [fst snd] in *.
  split; [by apply wipes_wf|]. destruct (wipes_abs r t) as [_ Hv].
  split_and!; cbn [fst]; [by rewrite Hv|by destruct r..].
Qed.

Lemma vendor_rop inp outSz (fromSecured : bool) s :
  resp_wf s.1 -> tpm_of s.1 = (cb, user) -> is_bytes inp ->
  (fromSecured = true -> (exists asym, sp_phase (abs_state s) = P_keyex asym) \/
     exists asym, sp_phase (abs_state s) = P_connected asym) ->
  rop (command_step cb user (if fromSecured then Secured else Clear)) true true
    (RespHandleVendorDefined inp outSz fromSecured) (fun out => len out.1 <= outSz) s.
Proof.
  intros. apply wiped_vd_rop. by apply vendor_inner_rop.
Qed.

Lemma resp_record_rop m n s : resp_wf s.1 -> frame_op m (fun out => len out <= n) s.1.(rctx) ->
  rop eq true true (resp_record m) (fun out => len out <= n) s.
Proof.
  intros Hwf Hm. unfold resp_record. eapply rop_bind; [by apply rop_ctx|done|].
  cbv beta. intros out s1 Hwf1 _ Hl.
  eapply rop_bind; [apply rop_ctx; [done|apply TranscriptAdd_frame, (rw_ctx _ Hwf1)]|done|].
  cbv beta. intros _ s2 Hwf2 _ _. by apply rop_ret.
Qed.

Lemma resp_error_rop e d n s : resp_wf s.1 ->
  rop eq true true (resp_error e d n) (fun out => len out <= n) s.
Proof. intros Hwf. apply rop_ctx; [done|]. apply ErrorClear_frame, (rw_ctx _ Hwf). Qed.

(** An exchange opens a session of its kind. *)
Lemma abs_keyex r (t : T) c b : rview c = (WOLFSPDM_STATE_KEY_EX, (rview r.(rctx)).2) ->
  abs_state ((r <| rctx := c |>) <| rflags := r.(rflags) <| pendingAsym := b |> |>, t) =
    (abs_state (r, t)) <| sp_phase := P_keyex b |>.
Proof.
  intros [= Hs Ht]. unfold abs_state, phase_of.
  destruct r as [c0 f ? ? ? ? ? ? ? ? ? ? ? ? ? ? ?]. destruct f. cbn in *. by rewrite Hs, Ht.
Qed.

Lemma resp_wf_flags r (f : RESP_FLAGS) : resp_wf r ->
  f.(clearAuthSet) = r.(rflags).(clearAuthSet) -> resp_wf (r <| rflags := f |>).
Proof.
  intros [? ? ? Hc ? ?] Hf. split; try done. destruct Hc as (? & ? & Hz). split_and!; try done.
  intros Hn. apply Hz. rewrite <- Hf. by destruct r.
Qed.

Lemma keyex_rel r (t : T) c b :
  sp_phase (abs_state (r, t)) = P_init \/ sp_phase (abs_state (r, t)) = P_version ->
  rview c = (WOLFSPDM_STATE_KEY_EX, (rview r.(rctx)).2) -> resp_wf r -> ctx_wf c ->
  resp_wf ((r <| rctx := c |>) <| rflags := r.(rflags) <| pendingAsym := b |> |>) /\
  rel (step Clear) true true (r, t)
    ((r <| rctx := c |>) <| rflags := r.(rflags) <| pendingAsym := b |> |>, t).
Proof.
  intros Hph Hv Hwf Hc. split.
  - apply (resp_wf_flags (r <| rctx := c |>)); [|by destruct r as [? []]].
    apply resp_wf_ctx; [done|done|]. replace (state c) with (rview c).1 by done. rewrite Hv.
    right. right. by left.
  - split_and!; [|by destruct r..]. cbn [fst]. rewrite abs_keyex by done. by apply ss_exchange.
Qed.

(** The inner context with the stored key back in it. *)
Definition reloaded r c : Prop :=
  exists h n, c = r.(rctx) <| psk := splice r.(rctx).(psk) 0 (sub_bytes r.(pskStore) 0 r.(pskStoreSz)) |>
    <| pskSz := r.(pskStoreSz) |> <| pskHint := h |> <| pskHintSz := n |>.

Lemma reload_psk_wp r (Q : unit -> WOLFSPDM_RESP_CTX -> Prop) E : resp_wf r ->
  (forall c, ctx_wf c -> rview c = rview r.(rctx) -> reloaded r c -> Q tt (r <| rctx := c |>)) ->
  wp resp_reload_psk Q E r.
Proof.
  intros Hwf HQ. pose proof (rw_ctx _ Hwf) as Hc. destruct (rw_psk _ Hwf) as (Hpl & Hpb & Hps & Hhl & Hhs).
  wf_facts Hc. unfold resp_reload_psk. do 2 (wp_step; cbv beta).
  wp_step. wp_step.
  assert (len (sub_bytes (pskStore r) 0 (pskStoreSz r)) = pskStoreSz r) as Hkl by (apply len_sub_bytes; lia).
  wp_step. wp_step. wp_step. unfold in_ctx at 1. do 2 (wp_step; cbv beta).
  set (c1 := (rctx r) <| psk := splice (psk (rctx r)) 0 (sub_bytes (pskStore r) 0 (pskStoreSz r)) |>
    <| pskSz := pskStoreSz r |>).
  assert (ctx_wf c1) as Hc1.
  { apply (ctx_psk_wf _ _ (rctx r)); [rewrite len_splice; lia|lia|done]. }
  assert (rview c1 = rview (rctx r)) as Hv1 by (unfold c1; by destruct (rctx r)).
  assert (len (pskHint c1) = len (pskHint (rctx r))) as Hh1 by (unfold c1; by destruct (rctx r)).
  assert (forall h n, reloaded r (c1 <| pskHint := h |> <| pskHintSz := n |>)) as Hre by (intros h n; by exists h, n).
  assert (reloaded r c1) as Hre1
    by (exists c1.(pskHint), c1.(pskHintSz); unfold c1; by destruct (rctx r)).
  clearbody c1. wp_step; [|by apply HQ].
  wp_step. wp_step.
  assert (len (sub_bytes (pskHintStore r) 0 (pskHintStoreSz r)) = pskHintStoreSz r) as Hl2
    by (apply len_sub_bytes; lia).
  wp_step. wp_step. unfold in_ctx. do 2 (wp_step; cbv beta).
  match goal with |- Q tt ?x => replace x with (r <| rctx := c1 <| pskHint := splice (pskHint (rctx r)) 0
    (sub_bytes (pskHintStore r) 0 (pskHintStoreSz r)) |> <| pskHintSz := pskHintStoreSz r |> |>)
    by by destruct r end.
  wf_facts Hc1. apply HQ; [wf_tac|by rewrite <- Hv1; destruct c1|done].
Qed.

Lemma rel_self st ks kv s : (forall x, st x x) -> rel st ks kv s s.
Proof. intros. by split_and!. Qed.

Lemma psk_exchange_rop inp n s : resp_wf s.1 -> is_bytes inp ->
  sp_phase (abs_state s) = P_init \/ sp_phase (abs_state s) = P_version ->
  rop (step Clear) true true (on_r (RespBuildPskExchangeRsp inp n)) (fun out => len out <= n) s.
Proof.
  destruct s as [r t]. intros Hwf Hb Hph. unfold rop, on_r, RespBuildPskExchangeRsp. wp_step. cbn [fst snd] in *.
  assert (forall rc, rc < 0 -> rc < 0 /\ resp_wf (r, t).1 /\ rel (step Clear) true true (r, t) (r, t)) as Hself.
  { intros. split_and!; [done|done|]. apply rel_self. constructor. }
  wp_step. wp_step. wp_step. wp_step; [by apply Hself|]. wp_step. wp_step; [by apply Hself|].
  wp_step. apply wp_rd16le; [lia|lia|]. intros hl _ Hhl. wp_step. apply wp_rd16le; [lia|lia|]. intros cl _ Hcl.
  wp_step. apply wp_rd16le; [lia|lia|]. intros ol _ Hol.
  wp_step. wp_step; [by apply Hself|]. wp_step. apply reload_psk_wp; [done|]. intros c Hc Hv _.
  wp_step. unfold in_ctx. wp_step.
  eapply wp_mono; [apply (psk_exchange_rsp_state inp c); [done|done|lia]| |].
  - intros out c1 (Hc1 & Hv1 & Hl). do 3 (wp_step; cbv beta).
    replace ((r <| rctx := c |>) <| rctx := c1 |>) with (r <| rctx := c1 |>) by by destruct r.
    destruct (keyex_rel r t c1 false) as [Hwf1 Hr]; [done|by rewrite Hv1, Hv|done..|].
    split_and!; [exact Hwf1|exact Hr|]. unfold WOLFSPDM_HASH_SIZE in *. lia.
  - intros rc c1 (Hrc & Hc1 & Hv1).
    replace ((r <| rctx := c |>) <| rctx := c1 |>) with (r <| rctx := c1 |>) by by destruct r.
    rewrite Hv in Hv1. split_and!; [done| |].
    + apply resp_wf_ctx; [done|done|]. replace (state c1) with (rview c1).1 by done. rewrite Hv1. by apply rw_state.
    + destruct (rel_ctx true true r c1 t Hv1) as (Ha & ?). split; [rewrite <- Ha; constructor|done].
Qed.

Lemma key_exchange_rop inp n s : resp_wf s.1 -> is_bytes inp ->
  sp_phase (abs_state s) = P_init \/ sp_phase (abs_state s) = P_version ->
  rop (step Clear) true true (on_r (RespBuildKeyExchangeRsp inp n)) (fun out => len out <= n) s.
Proof.
  destruct s as [r t]. intros Hwf Hb Hph. unfold rop, on_r, RespBuildKeyExchangeRsp. wp_step. cbn [fst snd] in *.
  assert (forall rc, rc < 0 -> rc < 0 /\ resp_wf (r, t).1 /\ rel (step Clear) true true (r, t) (r, t)) as Hself.
  { intros. split_and!; [done|done|]. apply rel_self. constructor. }
  destruct (rw_keys _ Hwf) as (Hp & Hq & _).
  wp_step. wp_step. wp_step. wp_step; [by apply Hself|]. wp_step. wp_step; [by apply Hself|].
  wp_step. unfold in_ctx. wp_step.
  eapply wp_mono; [apply (key_exchange_rsp_state (idPrivKey r) (idPubKey r) inp (rctx r));
    [apply (rw_ctx _ Hwf)|done|lia|done|done]| |].
  - intros out c1 (Hc1 & Hv1 & Hl). do 3 (wp_step; cbv beta).
    destruct (keyex_rel r t c1 true) as [Hwf1 Hr]; [done..|].
    split_and!; [exact Hwf1|exact Hr|]. lia.
  - intros rc c1 (Hrc & Hc1 & Hv1). split_and!; [done| |].
    + apply resp_wf_ctx; [done|done|]. replace (state c1) with (rview c1).1 by done. rewrite Hv1. by apply rw_state.
    + destruct (rel_ctx true true r c1 t Hv1) as (Ha & ?). split; [rewrite <- Ha; constructor|done].
Qed.

Lemma sha_rop ks kv d s : resp_wf s.1 ->
  rop eq ks kv (wolfSPDM_Sha384Hash d [] []) (fun h => len h = WOLFSPDM_HASH_SIZE) s.
Proof.
  intros Hwf. unfold rop. apply Sha384Hash_wp; [|split_and!; [done|done|by split_and!]].
  intros. split_and!; [done|by split_and!|done].
Qed.

(** Every request but GET_VERSION. *)
Lemma clear_handler_rop code inp n s : resp_wf s.1 -> tpm_of s.1 = (cb, user) -> is_bytes inp ->
  code <> SPDM_GET_VERSION ->
  ((code =? SPDM_KEY_EXCHANGE) || (code =? SPDM_PSK_EXCHANGE) = true ->
     sp_phase (abs_state s) = P_init \/ sp_phase (abs_state s) = P_version) ->
  rop (step Clear) true true (resp_clear_handler code inp n) (fun out => len out <= n) s.
Proof.
  intros Hwf Htpm Hb Hne Hex. pose proof (rw_ctx _ Hwf) as Hc. unfold resp_clear_handler.
  destruct (Z.eqb_spec code SPDM_GET_VERSION) as [->|_]; [done|].
  destruct (code =? SPDM_GET_CAPABILITIES).
  { apply rop_quiet, rop_get_r, resp_record_rop; [done|by apply Capabilities_frame]. }
  destruct (code =? SPDM_NEGOTIATE_ALGORITHMS).
  { by apply rop_quiet, resp_record_rop; [|apply Algorithms_frame]. }
  destruct (code =? SPDM_PSK_EXCHANGE). { apply psk_exchange_rop; [done|done|apply Hex, orb_true_r]. }
  destruct (code =? SPDM_KEY_EXCHANGE). { by apply key_exchange_rop; [| |apply Hex]. }
  destruct (code =? SPDM_VENDOR_DEFINED_REQUEST); [|by apply rop_quiet, resp_error_rop].
  eapply rop_then; [by apply rop_command, (vendor_rop inp n false)|]. cbv beta iota.
  intros [out vdCode] s1 Hwf1 _ Hl. cbn [fst] in Hl.
  destruct (bytes_eqb vdCode WOLFSPDM_VDCODE_GET_PUBK); cbn [when].
  - eapply rop_bind; [|done|cbv beta; intros _ s2 Hwf2 _ _; by apply rop_ret].
    apply rop_get_r. destruct (rw_keys _ Hwf1) as (_ & ? & ?).
    eapply rop_bind; [apply rd_sub_rop; [done|lia..]|done|]. cbv beta. intros pub s2 Hwf2 _ _.
    eapply rop_bind; [by apply sha_rop|done|]. cbv beta. intros ct s3 Hwf3 _ _.
    apply rop_ctx; [done|]. apply TranscriptAdd_frame, (rw_ctx _ Hwf3).
  - eapply rop_bind; [by apply (rop_ret _ _ tt (fun _ => True))|done|]. cbv beta. intros _ s2 Hwf2 _ _.
    by apply rop_ret.
Qed.

(** GET_VERSION drops the session before anything else. *)
Lemma len_version_entries n v : len (version_entries n v) = 2 * Z.of_nat n.
Proof.
  revert v. induction n as [|n IH]; intros v; cbn [version_entries]; [done|].
  rewrite len_app, IH. change (len [_; _]) with 2. lia.
Qed.

Lemma abs_version r (t : T) : abs_state (r <| rctx := r.(rctx) <| spdmVersion := 0 |>
    <| state := WOLFSPDM_STATE_VERSION |> |>, t) = (abs_state (r, t)) <| sp_phase := P_version |>.
Proof. destruct r as [c f ? ? ? ? ? ? ? ? ? ? ? ? ? ? ?]. by destruct c. Qed.

Definition to_version (x y : spec_state T) : Prop := y = x \/ y = x <| sp_phase := P_version |>.

Lemma build_version_rop n s : resp_wf s.1 ->
  rop to_version true true (resp_record (RespBuildVersion n)) (fun out => len out <= n) s.
Proof.
  destruct s as [r t]. intros Hwf. unfold resp_record.
  eapply (rop_then _ _ _ _ _ (fun out => len out <= n)).
  - unfold rop, on_r, in_ctx, RespBuildVersion. cbn [fst] in *. do 2 wp_step. cbn [fst snd].
    wp_step. wp_step; [split_and!; [done|by destruct r|]|].
    { destruct r. apply rel_self. by left. }
    cbv zeta. do 2 (wp_step; cbv beta). wp_step. pose proof (rw_ctx _ Hwf) as Hc.
    assert (0 <= WOLFSPDM_RESP_VERSION_COUNT) by done.
    split_and!; [| |rewrite len_app, len_version_entries; change (len [_; _; _; _; _; _]) with 6; lia].
    + apply resp_wf_ctx; [done|wf_tac|]. right. by left.
    + split_and!; [|by destruct r..]. right. cbn [fst]. by rewrite abs_version.
  - cbv beta. intros out s1 Hwf1 _ Hl.
    eapply rop_bind; [apply rop_ctx; [done|apply TranscriptAdd_frame, (rw_ctx _ Hwf1)]|done|].
    cbv beta. intros _ s2 Hwf2 _ _. by apply rop_ret.
Qed.

Lemma version_step x y z : y = x <| sp_phase := P_init |> -> to_version y z -> step Clear x z.
Proof.
  intros -> [-> | ->]; [apply ss_restart|].
  replace (_ <| sp_phase := P_version |>) with (x <| sp_phase := P_version |>) by by destruct x.
  apply ss_version.
Qed.

Lemma restart_wp s Q E : resp_wf s.1 ->
  (forall s', resp_wf s'.1 -> abs_state s' = (abs_state s) <| sp_phase := P_init |> ->
     tpm_of s'.1 = tpm_of s.1 -> sec_clean s'.1 -> vd_clean s'.1 -> no_keys s'.1.(rctx) ->
     Q tt s') ->
  wp (on_r (in_ctx wolfSPDM_TranscriptReset ;;; wolfSPDM_RespReset)) Q E s.
Proof.
  destruct s as [r t]. cbn [fst]. intros Hwf HQ. pose proof (rw_ctx _ Hwf) as Hc.
  unfold on_r. wp_step. cbn [fst snd]. wp_step. unfold in_ctx at 1. wp_step.
  apply TranscriptReset_wp; [done|]. intros Hc1.
  assert (resp_wf (r <| rctx := tr_reset (rctx r) |>)) as Hwf1.
  { apply resp_wf_ctx; [done|done|]. replace (state _) with (state (rctx r)) by by destruct (rctx r).
    by apply rw_state. }
  apply RespReset_wp; [done|]. apply HQ; cbn [fst].
  - by apply reset_r_wf.
  - rewrite reset_r_abs, abs_ctx; [done|]. apply rv_tr_reset.
  - by destruct r.
  - done.
  - done.
  - apply reset_r_no_keys.
Qed.

Lemma dispatch_version_rop inp n s : resp_wf s.1 -> tpm_of s.1 = (cb, user) -> is_bytes inp ->
  2 <= len inp -> at_ inp 1 = SPDM_GET_VERSION ->
  rop (step Clear) true true (RespDispatchClear inp n) (fun out => len out <= n) s.
Proof.
  intros Hwf Htpm Hb Hl Hcode. unfold rop, RespDispatchClear.
  wp_step. wp_step; [lia|]. wp_step. apply wp_rd; [lia|]. intros code Hc.
  assert (code = SPDM_GET_VERSION) as -> by (rewrite <- Hcode, Hc; reflexivity).
  wp_step. apply wp_rd; [lia|]. intros ver _.
  change (SPDM_GET_VERSION =? SPDM_GET_VERSION) with true. cbv iota. wp_step. wp_step.
  apply restart_wp; [done|]. intros s1 Hwf1 Ha1 Ht1 Hs1 Hv1 _. wp_step. cbv iota.
  assert (rop to_version true true
    (on_r (in_ctx (wolfSPDM_TranscriptAdd inp)) ;;; resp_record (RespBuildVersion n))
    (fun out => len out <= n) s1) as Hrest.
  { eapply rop_bind; [apply rop_ctx; [done|apply TranscriptAdd_frame, (rw_ctx _ Hwf1)]|by left|].
    cbv beta. intros _ s2 Hwf2 _ _. by apply build_version_rop. }
  unfold get_r, on_r at 1. do 3 wp_step.
  change (SPDM_GET_VERSION =? SPDM_KEY_EXCHANGE) with false.
  change (SPDM_GET_VERSION =? SPDM_PSK_EXCHANGE) with false. cbn [orb andb].
  replace (s1.1, s1.2) with s1 by by destruct s1.
  assert (forall s2, rel to_version true true s1 s2 -> rel (step Clear) true true s s2) as Hrel.
  { intros s2 (Ha2 & Ht2 & Hs2 & Hv2). split_and!; [by eapply version_step|congruence|auto|auto]. }
  eapply wp_mono; [exact Hrest| |].
  - intros out s2 (? & ? & ?). split_and!; [done|by apply Hrel|done].
  - intros rc s2 (? & ? & ?). split_and!; [done|done|by apply Hrel].
Qed.

Lemma select_rop ver b s : resp_wf s.1 -> is_byte ver ->
  rop eq true true (try (on_r (in_ctx (RespSelectVersion ver b))))
    (fun _ => True) s.
Proof.
  intros Hwf Hv. eapply rop_weaken; [| | | |apply rop_try, rop_ctx; [done|by apply SelectVersion_frame, Hv;
    apply (rw_ctx _ Hwf)]]; done.
Qed.

Lemma phase_free s : resp_wf s.1 ->
  (state (rctx s.1) =? WOLFSPDM_STATE_KEY_EX) || (state (rctx s.1) =? WOLFSPDM_STATE_CONNECTED) = false ->
  sp_phase (abs_state s) = P_init \/ sp_phase (abs_state s) = P_version.
Proof.
  intros Hwf Hst. unfold abs_state, phase_of. cbn [sp_phase].
  apply orb_false_iff in Hst as [-> ->]. case_match; auto.
Qed.

Lemma dispatch_clear_rop inp n s : resp_wf s.1 -> tpm_of s.1 = (cb, user) -> is_bytes inp ->
  rop (step Clear) true true (RespDispatchClear inp n) (fun out => len out <= n) s.
Proof.
  intros Hwf Htpm Hb.
  destruct (decide (2 <= len inp /\ at_ inp 1 = SPDM_GET_VERSION)) as [[Hl Hc]|Hnv].
  { by apply dispatch_version_rop. }
  unfold RespDispatchClear.
  eapply rop_bind; [by apply rop_check|by apply stays|]. cbv beta. intros _ s1 Hwf1 (Ha1 & Ht1 & _) Hl.
  eapply rop_bind; [apply rd_rop; [done|lia]|by apply stays|]. cbv beta. intros code s2 Hwf2 (Ha2 & Ht2 & _) Hcode.
  eapply rop_bind; [apply rd_rop; [done|lia]|by apply stays|]. cbv beta. intros ver s3 Hwf3 (Ha3 & Ht3 & _) Hver.
  assert (code <> SPDM_GET_VERSION) as Hne.
  { intros Heq. apply Hnv. split; [lia|]. rewrite <- Heq, Hcode. reflexivity. }
  destruct (Z.eqb_spec code SPDM_GET_VERSION) as [|_]; [done|].
  eapply rop_bind; [apply select_rop; [done|by subst; apply is_bytes_nth]|by apply stays|].
  cbv beta. intros rc s4 Hwf4 (Ha4 & Ht4 & _) _.
  destruct rc as [[]|rc]; [|destruct (rc =? WOLFSPDM_E_BAD_STATE); by apply rop_quiet, resp_error_rop].
  apply rop_get_r. cbv zeta.
  destruct (((code =? SPDM_KEY_EXCHANGE) || (code =? SPDM_PSK_EXCHANGE)) &&
    ((code =? SPDM_KEY_EXCHANGE) && negb (useTcg (rflags s4.1))
     || (code =? SPDM_PSK_EXCHANGE) && negb (usePsk (rflags s4.1)))); [by apply rop_quiet, resp_error_rop|].
  destruct (((code =? SPDM_KEY_EXCHANGE) || (code =? SPDM_PSK_EXCHANGE)) &&
    ((state (rctx s4.1) =? WOLFSPDM_STATE_KEY_EX) || (state (rctx s4.1) =? WOLFSPDM_STATE_CONNECTED)))
    eqn:Hbusy; [by apply rop_quiet, resp_error_rop|].
  assert ((code =? SPDM_KEY_EXCHANGE) || (code =? SPDM_PSK_EXCHANGE) = true ->
    sp_phase (abs_state s4) = P_init \/ sp_phase (abs_state s4) = P_version) as Hfree.
  { intros Hex. rewrite Hex in Hbusy. by apply phase_free. }
  assert (tpm_of s4.1 = (cb, user)) as Htp by congruence.
  eapply rop_bind; [|by apply stays|].
  { destruct (negb (code =? SPDM_VENDOR_DEFINED_REQUEST)); cbn [when].
    - apply rop_ctx; [done|apply TranscriptAdd_frame, (rw_ctx _ Hwf4)].
    - by apply (rop_ret _ _ tt (fun _ => True)). }
  cbv beta. intros _ s5 Hwf5 (Ha5 & Ht5 & _) _.
  apply clear_handler_rop; [done|congruence|done|done|by rewrite <- Ha5].
Qed.
End ClearRequests.

(** ** Secured requests *)

Section SecuredRequests.
Context `{WolfCrypt} `{Config} `{!CryptSizes} `{!RecordFits} `{!TranscriptFits}
  {T : Type} `{!TpmCallback T}.
Notation RST := (WOLFSPDM_RESP_CTX * T)%type.
Variables (cb user : Z).
Notation step := (spec_step cb user tpmRespCap).
Implicit Types (c : WOLFSPDM_CTX) (r : WOLFSPDM_RESP_CTX) (s : RST).

(** What a FINISH message is checked against. *)
Definition fview c := (tr c, c.(reqFinishedKey)).

Lemma finish_verified_view c c' inp : fview c = fview c' -> finish_verified c inp -> finish_verified c' inp.
Proof. unfold finish_verified. by intros [= -> ->]. Qed.

(** A secured message is a step, and it opens a session only as the right
    FINISH message and if [V]: if its verify data holds. *)
Definition sec_step (plain : bytes) (V : Prop) (x y : spec_state T) : Prop :=
  step Secured x y /\
  forall asym, sp_phase y = P_connected asym ->
    sp_phase x = P_connected asym \/
    (at_ plain 1 = (if asym then SPDM_FINISH else SPDM_PSK_FINISH) /\ V).

Lemma sec_step_eq plain V x y : x = y -> sec_step plain V x y.
Proof. intros ->. split; [constructor|by left]. Qed.

Lemma sec_step_command plain V x y : command_step cb user Secured x y -> sec_step plain V x y.
Proof. intros [? Hp]. split; [done|]. intros asym. rewrite Hp. by left. Qed.

Lemma sec_quiet {A} plain V ks kv (m : M RST A) P s :
  rop eq ks kv m P s -> rop (sec_step plain V) ks kv m P s.
Proof. apply rop_weaken; try done. intros ? ? ?. by apply sec_step_eq. Qed.

Lemma abs_connected r (t : T) c b : rview c = (WOLFSPDM_STATE_CONNECTED, (rview r.(rctx)).2) ->
  abs_state ((r <| rctx := c |>) <| rflags := r.(rflags) <| sessionAsym := b |> |>, t) =
    (abs_state (r, t)) <| sp_phase := P_connected b |>.
Proof.
  intros [= Hs Ht]. unfold abs_state, phase_of.
  destruct r as [c0 f ? ? ? ? ? ? ? ? ? ? ? ? ? ? ?]. destruct f. cbn in *. by rewrite Hs, Ht.
Qed.

Lemma phase_keyex s : state (rctx s.1) = WOLFSPDM_STATE_KEY_EX ->
  sp_phase (abs_state s) = P_keyex (pendingAsym (rflags s.1)).
Proof. intros Hst. unfold abs_state, phase_of. cbn [sp_phase]. by rewrite Hst. Qed.

(** The two FINISH handlers. *)
Definition finish_handler (asym : bool) (inp : bytes) (n : Z) : M WOLFSPDM_RESP_CTX bytes :=
  if asym then RespHandleFinish inp n else RespHandlePskFinish inp n.

Lemma finish_handler_rop (asym : bool) inp n s (V : Prop) : resp_wf s.1 -> is_bytes inp ->
  at_ inp 1 = (if asym then SPDM_FINISH else SPDM_PSK_FINISH) ->
  sp_phase (abs_state s) = P_keyex asym -> (finish_verified s.1.(rctx) inp -> V) ->
  rop (sec_step inp V) true true (on_r (finish_handler asym inp n))
    (fun out => len out = 4) s.
Proof.
  destruct s as [r t]. intros Hwf Hb Hcode Hph HV. pose proof (rw_ctx _ Hwf) as Hc. cbn [fst] in *.
  assert (finish_handler asym inp n =
    (let* out := in_ctx (finish_rsp (if asym then SPDM_FINISH_RSP else SPDM_PSK_FINISH_RSP) inp n) in
     upd_r (fun r => r <| rflags := r.(rflags) <| sessionAsym := asym |> |>) ;;; ret out)) as ->
    by by destruct asym.
  unfold rop, on_r, in_ctx. wp_step. cbn [fst snd]. wp_step. wp_step.
  eapply wp_mono; [by apply finish_rsp_state| |].
  - intros out c1 (Hc1 & Hv1 & _ & Hout & _ & Hver). do 3 (wp_step; cbv beta).
    split_and!; [| |by rewrite Hout].
    + apply (resp_wf_flags (r <| rctx := c1 |>)); [|by destruct r as [? []]].
      apply resp_wf_ctx; [done|done|]. replace (state c1) with (rview c1).1 by done. rewrite Hv1.
      right. right. right. by left.
    + split_and!; [|by destruct r..]. cbn [fst].
      change (rflags (r <| rctx := c1 |>)) with (rflags r). rewrite abs_connected by done.
      split; [by apply ss_finish|]. cbn. intros b [= <-]. right. auto.
  - intros rc c1 (Hrc & Hc1 & Hv1). split_and!; [done| |].
    + apply resp_wf_ctx; [done|done|]. replace (state c1) with (rview c1).1 by done. rewrite Hv1. by apply rw_state.
    + destruct (rel_ctx true true r c1 t Hv1) as (Ha & ?). split; [by apply sec_step_eq|done].
Qed.

(** A request other than END_SESSION. *)
Definition live s : Prop :=
  (exists asym, sp_phase (abs_state s) = P_keyex asym) \/
  exists asym, sp_phase (abs_state s) = P_connected asym.

Definition answer_fits (ended : bool) (x : bytes * bool * bool) : Prop :=
  len x.1.1 <= WOLFSPDM_MAX_MSG_SIZE /\ x.2 = ended.

Lemma four_fits : 4 <= WOLFSPDM_MAX_MSG_SIZE.
Proof. pose proof cfg_dts. unfold SPDM_MIN_DATA_TRANSFER_SIZE in *. lia. Qed.

Lemma finish_request_rop (asym d : bool) plain s (V : Prop) : resp_wf s.1 -> is_bytes plain ->
  at_ plain 1 = (if asym then SPDM_FINISH else SPDM_PSK_FINISH) ->
  (finish_verified s.1.(rctx) plain -> V) ->
  rop (sec_step plain V) true true
    (check (negb (s.1.(rctx).(state) =? WOLFSPDM_STATE_KEY_EX) ||
            (if asym then negb s.1.(rflags).(pendingAsym) else s.1.(rflags).(pendingAsym)))
       WOLFSPDM_E_BAD_STATE ;;;
     let* out := on_r (finish_handler asym plain WOLFSPDM_MAX_MSG_SIZE) in
     ret (out, d, false)) (answer_fits false) s.
Proof.
  intros Hwf Hb Hcode HV.
  assert (forall x y, x = y -> sec_step plain V x y) as Heq by (intros; by apply sec_step_eq).
  unfold rop. wp_step. wp_step; [split_and!; [done|done|by apply rel_self; intros; apply Heq]|].
  match goal with H : _ || _ = false |- _ => apply orb_false_iff in H; destruct H as [Hst Hpa] end.
  assert (sp_phase (abs_state s) = P_keyex asym) as Hph.
  { rewrite phase_keyex by lia. f_equal. by destruct asym, (pendingAsym _). }
  eapply (rop_then _ _ _ _ _ (fun out => len out = 4)); [by apply finish_handler_rop|].
  cbv beta. intros out s1 Hwf1 _ Hl. apply rop_ret; [done|]. split; [|done].
  pose proof four_fits. cbn. lia.
Qed.

Lemma secured_handler_rop code plain s (V : Prop) : resp_wf s.1 -> tpm_of s.1 = (cb, user) ->
  is_bytes plain -> live s -> code = at_ plain 1 -> code <> SPDM_END_SESSION ->
  (finish_verified s.1.(rctx) plain -> V) ->
  rop (sec_step plain V) true true (resp_secured_handler code plain) (answer_fits false) s.
Proof.
  intros Hwf Htpm Hb Hlive Hcode Hne HV. unfold resp_secured_handler. apply rop_get_r.
  destruct (Z.eqb_spec code SPDM_PSK_FINISH) as [He|_].
  { by apply (finish_request_rop false true); [| |rewrite <- Hcode|]. }
  destruct (Z.eqb_spec code SPDM_FINISH) as [He|_].
  { by apply (finish_request_rop true true); [| |rewrite <- Hcode|]. }
  destruct (Z.eqb_spec code SPDM_END_SESSION) as [He|_]; [done|].
  destruct (code =? SPDM_VENDOR_DEFINED_REQUEST).
  - eapply (rop_then _ _ _ _ _ (fun out => len out.1 <= WOLFSPDM_MAX_MSG_SIZE)).
    + eapply rop_weaken; [| | | |by apply (vendor_rop cb user plain WOLFSPDM_MAX_MSG_SIZE true)];
        [by apply sec_step_command|done..].
    + cbv beta iota. intros [out vd] s1 Hwf1 _ Hl. by apply rop_ret.
  - apply sec_quiet. eapply rop_bind; [by apply resp_error_rop|done|]. cbv beta.
    intros out s1 Hwf1 _ Hl. by apply rop_ret.
Qed.

Lemma end_handler_rop plain s : resp_wf s.1 ->
  rop eq true true (resp_secured_handler SPDM_END_SESSION plain)
    (fun x => answer_fits true x /\ x.1.2 = false) s.
Proof.
  intros Hwf. unfold resp_secured_handler. apply rop_get_r.
  change (SPDM_END_SESSION =? SPDM_PSK_FINISH) with false. change (SPDM_END_SESSION =? SPDM_FINISH) with false.
  change (SPDM_END_SESSION =? SPDM_END_SESSION) with true. cbv iota.
  eapply rop_bind; [apply rop_ctx; [done|apply EndSessionAck_frame, (rw_ctx _ Hwf)]|done|].
  cbv beta. intros out s1 Hwf1 _ Hl. by apply rop_ret.
Qed.

Lemma DeriveAppDataKeys_frame c : ctx_wf c -> frame_op wolfSPDM_DeriveAppDataKeys (fun _ => True) c.
Proof.
  intros Hwf. apply DeriveAppDataKeys_wp; [done|..].
  - intros. split_and!; rviews.
  - intros c' ? ?. split_and!; [done|done|by apply rv_data].
Qed.

(** What follows the handler: the answer is encrypted, and then the data keys
    are derived or the session ends. *)
Definition send_answer (out : bytes) (derived ended : bool) (n : Z) : M RST bytes :=
  resp_store secureOutPlain (fun b r => r <| secureOutPlain := b |>) out ;;;
  let* enc := on_r (in_ctx (RespEncrypt out n)) in
  when derived (on_r (in_ctx wolfSPDM_DeriveAppDataKeys)) ;;;
  when ended (on_r wolfSPDM_RespReset) ;;;
  ret enc.

Definition to_init (x y : spec_state T) : Prop := y = x \/ y = x <| sp_phase := P_init |>.

Lemma skip_rop ks kv s : resp_wf s.1 -> rop eq ks kv (@ret RST unit tt) (fun _ => True) s.
Proof. intros. by apply rop_ret. Qed.

Lemma reset_rop ks kv s : resp_wf s.1 -> rop to_init ks kv (on_r wolfSPDM_RespReset) (fun _ => True) s.
Proof.
  destruct s as [r t]. intros Hwf. cbn [fst] in *. unfold rop, on_r. wp_step. cbn [fst snd].
  apply RespReset_wp; [done|]. split_and!; [by apply reset_r_wf| |done].
  split_and!; [|by destruct r|done|done]. right. cbn [fst]. by rewrite reset_r_abs.
Qed.

Lemma send_answer_rop out (derived ended : bool) n s : resp_wf s.1 -> len out <= WOLFSPDM_MAX_MSG_SIZE ->
  rop (if ended then to_init else eq) false true (send_answer out derived ended n)
    (fun enc => len enc <= n) s.
Proof.
  intros Hwf Hl. unfold send_answer.
  assert (forall x y, x = y -> (if ended then to_init else eq) x y) as Hst by (intros ? ? <-; destruct ended; [by left|done]).
  eapply rop_bind; [by apply store_sec_out_rop|done|]. cbv beta. intros _ s1 Hwf1 _ _.
  eapply rop_bind; [apply rop_ctx; [done|apply RespEncrypt_frame, (rw_ctx _ Hwf1)]|done|].
  cbv beta. intros enc s2 Hwf2 _ Hle.
  eapply rop_bind; [|done|].
  { destruct derived; cbn [when]; [|by apply skip_rop].
    apply rop_ctx; [done|apply DeriveAppDataKeys_frame, (rw_ctx _ Hwf2)]. }
  cbv beta. intros _ s3 Hwf3 _ _.
  eapply rop_then; [destruct ended; cbn [when]; [by apply reset_rop|by apply skip_rop]|].
  cbv beta. intros _ s4 Hwf4 _ _. by apply rop_ret.
Qed.

Lemma swapped_fview c : fview (swapped (seq_rcvd (swapped c))) = fview c.
Proof. by destruct c. Qed.

Lemma decrypt_rop enc n s : resp_wf s.1 -> is_bytes enc ->
  wp (on_r (in_ctx (RespDecrypt enc n)))
    (fun p s' => resp_wf s'.1 /\ rel eq true true s s' /\ fview s'.1.(rctx) = fview s.1.(rctx) /\
       is_bytes p /\ len p <= n /\ exists c, RespDecrypt enc n s.1.(rctx) = Ok p c)
    (fun rc s' => rc < 0 /\ resp_wf s'.1 /\ rel eq true true s s') s.
Proof.
  destruct s as [r t]. intros Hwf Hb. pose proof (rw_ctx _ Hwf) as Hc. cbn [fst] in *.
  assert (forall c, c = rctx r \/ c = swapped (seq_rcvd (swapped (rctx r))) ->
    resp_wf (r <| rctx := c |>) /\ rel eq true true (r, t) (r <| rctx := c |>, t)) as Hkeep.
  { intros c Hcc. assert (ctx_wf c /\ rview c = rview (rctx r)) as [Hc' Hv'].
    { destruct Hcc as [-> | ->]; [done|].
      split; [by apply swapped_wf, seq_rcvd_wf, swapped_wf|by rewrite rv_swapped, rv_rcvd, rv_swapped]. }
    split; [|by apply rel_ctx]. apply resp_wf_ctx; [done|done|].
    replace (state c) with (rview c).1 by done. rewrite Hv'. by apply rw_state. }
  unfold on_r, in_ctx. do 2 wp_step. cbn [fst snd]. apply wp_intro.
  - eapply wp_no_ub. by apply (RespDecrypt_frame enc n).
  - intros p c Hrun.
    pose proof (RespDecrypt_wp enc n (rctx r)
      (fun p c => is_bytes p /\ len p <= n /\ c = swapped (seq_rcvd (swapped (rctx r))))
      (fun _ _ => True) Hc Hb ltac:(by intros) ltac:(done)) as Hw.
    destruct (wp_ok _ _ _ _ _ _ Hw Hrun) as (Hp & Hpl & ->).
    destruct (Hkeep _ (or_intror eq_refl)). split_and!; try done; by eexists.
  - intros rc c Hrun.
    pose proof (RespDecrypt_wp enc n (rctx r) (fun _ _ => True)
      (fun rc c => rc < 0 /\ (c = rctx r \/ c = swapped (seq_rcvd (swapped (rctx r)))))
      Hc Hb ltac:(by intros) ltac:(by intros)) as Hw.
    destruct (wp_err _ _ _ _ _ _ Hw Hrun) as (Hrc & Hcc). by destruct (Hkeep _ Hcc).
Qed.

(** The session is opened by a message that decrypts to a FINISH whose verify
    data holds. *)
Definition opening s (enc : bytes) (asym : bool) : Prop :=
  exists plain c, RespDecrypt enc WOLFSPDM_MAX_MSG_SIZE s.1.(rctx) = Ok plain c /\
    at_ plain 1 = (if asym then SPDM_FINISH else SPDM_PSK_FINISH) /\
    finish_verified s.1.(rctx) plain.

Definition secured_step s (enc : bytes) (x y : spec_state T) : Prop :=
  step Secured x y /\
  forall asym, sp_phase y = P_connected asym -> sp_phase x = P_connected asym \/ opening s enc asym.

Lemma live_phase s : resp_wf s.1 ->
  (negb (state (rctx s.1) =? WOLFSPDM_STATE_KEY_EX) &&
   negb (state (rctx s.1) =? WOLFSPDM_STATE_CONNECTED)) || (sessionId (rctx s.1) =? 0) = false ->
  live s.
Proof.
  intros Hwf [Hst _]%orb_false_iff. unfold live, abs_state, phase_of. cbn [sp_phase].
  destruct (Z.eqb_spec (state (rctx s.1)) WOLFSPDM_STATE_KEY_EX) as [-> |]; [left; by eexists|].
  destruct (Z.eqb_spec (state (rctx s.1)) WOLFSPDM_STATE_CONNECTED) as [-> |]; [right; by eexists|done].
Qed.

Lemma end_step s x y : live s -> abs_state s = x -> to_init x y ->
  step Secured x y /\ forall asym, sp_phase y = P_connected asym -> sp_phase x = P_connected asym.
Proof.
  intros Hlive Hx [-> | ->]; [split; [constructor|done]|]. split; [|done].
  subst x. by destruct Hlive as [[asym ?]|[asym ?]]; apply (ss_end _ _ _ _ asym); auto.
Qed.

Lemma store_sec_in_ctx d s : len d <= len s.1.(secureInPlain) ->
  wp (resp_store secureInPlain (fun b r => r <| secureInPlain := b |>) d)
    (fun _ s' => s'.1.(rctx) = s.1.(rctx)) (fun _ _ => True) s.
Proof.
  destruct s as [r t]. cbn [fst]. intros Hl. unfold resp_store, get_r, set_r, on_r. pose proof (len_nonneg d).
  wp_step. wp_step. wp_step. cbn [fst snd]. do 4 wp_step. cbn [fst snd]. by destruct r.
Qed.

(** A run from a state that looks the same. *)
Lemma rop_from {A} st ks kv (m : M RST A) P s s1 : rel eq ks kv s s1 -> rop st ks kv m P s1 ->
  wp m (fun a s' => resp_wf s'.1 /\ rel st ks kv s s' /\ P a)
    (fun rc s' => rc < 0 /\ resp_wf s'.1 /\ rel st ks kv s s') s1.
Proof.
  intros Hr Hm. eapply wp_mono; [exact Hm| |].
  - intros a s' (? & ? & ?). split_and!; [done|by eapply rel_eq_l|done].
  - intros rc s' (? & ? & ?). split_and!; [done|done|by eapply rel_eq_l].
Qed.

Lemma rop_weaken_at {A} (st st' : spec_state T -> spec_state T -> Prop) ks kv (m : M RST A) P s :
  (forall y, st (abs_state s) y -> st' (abs_state s) y) -> rop st ks kv m P s -> rop st' ks kv m P s.
Proof.
  intros Hst Hm. eapply wp_mono; [exact Hm| |].
  - intros a s' (? & (? & ?) & ?). split_and!; [done|split; auto|done].
  - intros rc s' (? & ? & (? & ?)). split_and!; [done|done|split; auto].
Qed.

(** A decrypted request, from the copy into the working buffer on. *)
Definition serve_plain (plain : bytes) (n : Z) : M RST bytes :=
  resp_store secureInPlain (fun b r => r <| secureInPlain := b |>) plain ;;;
  check (len plain <? 2) WOLFSPDM_E_FRAMING ;;;
  let* code := rd plain 1 in
  let* (respPlain, derivedAppKeys, sessionEnded) := resp_secured_handler code plain in
  send_answer respPlain derivedAppKeys sessionEnded n.

Definition plain_step (plain : bytes) (V : Prop) : spec_state T -> spec_state T -> Prop :=
  if at_ plain 1 =? SPDM_END_SESSION then to_init else sec_step plain V.

Lemma serve_plain_rop plain n s (V : Prop) : resp_wf s.1 -> tpm_of s.1 = (cb, user) ->
  is_bytes plain -> len plain <= WOLFSPDM_MAX_MSG_SIZE -> live s ->
  (finish_verified s.1.(rctx) plain -> V) ->
  rop (plain_step plain V) false true (serve_plain plain n) (fun out => len out <= n) s.
Proof.
  intros Hwf Htpm Hb Hl Hlive HV. unfold serve_plain.
  assert (forall x y, x = y -> plain_step plain V x y) as Heq.
  { intros x y Hxy. unfold plain_step. case_match; [by left|by apply sec_step_eq]. }
  destruct (rw_scratch _ Hwf) as (Hsc & _). change WOLFSPDM_MAX_TPM_MSG_SIZE with WOLFSPDM_MAX_MSG_SIZE in Hsc.
  apply wp_bind. eapply wp_mono; [apply wp_conj; [by apply store_sec_in_rop|apply store_sec_in_ctx; by rewrite Hsc]| |].
  2: { intros rc s1 ((Hrc & Hwf1 & (Ha1 & ? & ? & ?)) & _). split_and!; [done|done|]. by split_and!; [apply Heq|..]. }
  intros _ s1 ((Hwf1 & Hr1 & _) & Hc1). apply (rop_from _ _ _ _ _ _ s1 Hr1).
  destruct Hr1 as (Ha1 & Ht1 & _). rewrite <- Ht1 in Htpm. rewrite <- Hc1 in HV.
  assert (live s1) as Hlive1 by (unfold live; by rewrite <- Ha1).
  clear s Hwf Hlive Hc1 Ha1 Ht1 Hsc.
  unfold rop. wp_step. wp_step; [split_and!; [done|done|by apply rel_self; intros; apply Heq]|].
  wp_step. apply wp_rd; [lia|]. intros code Hcode. change (code = at_ plain 1) in Hcode.
  unfold plain_step in *. destruct (Z.eqb_spec (at_ plain 1) SPDM_END_SESSION) as [He|He].
  - apply (rop_bind to_init false true _ _ (fun x => answer_fits true x /\ x.1.2 = false)); [|done|].
    { rewrite Hcode, He. eapply rop_weaken; [| | | |by apply end_handler_rop]; done. }
    cbv beta. intros [[out d] e] s2 Hwf2 _ ([Ho ?] & ?). cbn in *. subst.
    by apply (send_answer_rop out false true).
  - apply (rop_then (sec_step plain V) false true _ _ (answer_fits false)).
    { eapply rop_weaken; [| | | |by apply (secured_handler_rop code plain s1 V); [..|rewrite Hcode|]]; done. }
    cbv beta. intros [[out d] e] s2 Hwf2 _ [Ho ?]. cbn in *. subst.
    by apply (send_answer_rop out d false).
Qed.

Lemma dispatch_secured_inner_rop enc n s : resp_wf s.1 -> tpm_of s.1 = (cb, user) -> is_bytes enc ->
  rop (secured_step s enc) false true (RespDispatchSecuredInner enc n) (fun out => len out <= n) s.
Proof.
  intros Hwf Htpm Hb. unfold RespDispatchSecuredInner. apply rop_get_r.
  assert (forall x y, x = y -> secured_step s enc x y) as Heq.
  { intros x ? <-. split; [constructor|by left]. }
  unfold rop. wp_step. wp_step; [split_and!; [done|done|by apply rel_self; intros; apply Heq]|].
  assert (live s) as Hlive by by apply live_phase.
  wp_step. eapply wp_mono; [by apply decrypt_rop| |].
  2: { intros rc s1 (Hrc & Hwf1 & (Ha1 & Ht1 & Hs1 & Hv1)). split_and!; [done|done|].
    split_and!; [by apply Heq|done|done|auto]. }
  intros plain s1 (Hwf1 & Hr1 & Hf1 & Hpb & Hpl & c & Hdec).
  apply (rop_from _ _ _ _ _ _ s1); [destruct Hr1 as (? & ? & ? & ?); by split_and!|].
  destruct Hr1 as (Ha1 & Ht1 & _). rewrite <- Ht1 in Htpm.
  assert (live s1) as Hlive1 by (unfold live; by rewrite <- Ha1).
  change (rop (secured_step s enc) false true (serve_plain plain n) (fun out => len out <= n) s1).
  eapply rop_weaken_at; [|apply (serve_plain_rop plain n s1 (finish_verified s.1.(rctx) plain));
    [done..|by apply finish_verified_view]].
  intros y. unfold plain_step. destruct (Z.eqb_spec (at_ plain 1) SPDM_END_SESSION) as [He|He].
  - intros Hy. destruct (end_step s1 _ y Hlive1 eq_refl Hy) as [? Hp]. split; [done|]. intros asym Ha.
    left. by apply Hp.
  - intros [? Hp]. split; [done|]. intros asym Ha. destruct (Hp asym Ha) as [?|[? ?]]; [by left|].
    right. by exists plain, c.
Qed.

Lemma dispatch_secured_rop enc n s : resp_wf s.1 -> tpm_of s.1 = (cb, user) -> is_bytes enc ->
  rop (secured_step s enc) true true (RespDispatchSecured enc n) (fun out => len out <= n) s.
Proof. intros. by apply wiped_sec_rop, dispatch_secured_inner_rop. Qed.
End SecuredRequests.

(** ** Messages *)

Section Messages.
Context `{WolfCrypt} `{Config} `{!CryptSizes} `{!RecordFits} `{!TranscriptFits}
  {T : Type} `{!TpmCallback T}.
Notation RST := (WOLFSPDM_RESP_CTX * T)%type.
Implicit Types (c : WOLFSPDM_CTX) (r : WOLFSPDM_RESP_CTX) (s : RST).

(** The channel a frame names; a frame with another tag is refused. *)
Definition frame_channel (inBuf : bytes) : channel :=
  if SPDM_Get16BE (sub_bytes inBuf 0 2) =? WOLFSPDM_TCG_TAG_SECURED then Secured else Clear.

Definition frame_payload (inBuf : bytes) : bytes :=
  sub_bytes inBuf WOLFSPDM_TCG_HEADER_SIZE
    (SPDM_Get32BE (sub_bytes inBuf 2 4) - WOLFSPDM_TCG_HEADER_SIZE).

Lemma opens_from cb user ch (x y : spec_state T) asym : spec_step cb user tpmRespCap ch x y ->
  sp_phase y = P_connected asym -> sp_phase x <> P_connected asym -> sp_phase x = P_keyex asym.
Proof. inversion 1; subst; cbn; congruence. Qed.

(** The responder with the connection fields of a frame. *)
Definition framed (conn fips : Z) r : WOLFSPDM_RESP_CTX :=
  r <| rctx := r.(rctx) <| connectionHandle := conn |> <| fipsIndicator := fips |> |>.

Definition received s (inBuf : bytes) : RST :=
  (framed (SPDM_Get32BE (sub_bytes inBuf 6 4)) (SPDM_Get16BE (sub_bytes inBuf 10 2)) s.1, s.2).

(** The step of one message, and what it takes to open a session. *)
Definition message_step s (inBuf : bytes) (x y : spec_state T) : Prop :=
  spec_step s.1.(tpmCb) s.1.(tpmCbUserCtx) tpmRespCap (frame_channel inBuf) x y /\
  forall asym, sp_phase y = P_connected asym ->
    sp_phase x = P_connected asym \/
    (frame_channel inBuf = Secured /\ opening (received s inBuf) (frame_payload inBuf) asym).

Lemma clear_never_opens cb user (x y : spec_state T) asym : spec_step cb user tpmRespCap Clear x y ->
  sp_phase y = P_connected asym -> sp_phase x = P_connected asym.
Proof. inversion 1; subst; try done. Qed.

Lemma framed_wf conn fips r : resp_wf r -> 0 <= conn < 2 ^ 32 -> 0 <= fips < 2 ^ 16 ->
  resp_wf (framed conn fips r).
Proof.
  intros Hwf Hc Hf. pose proof (rw_ctx _ Hwf). unfold framed. apply resp_wf_ctx; [done|wf_tac|].
  replace (state _) with (state (rctx r)) by by destruct (rctx r). by apply rw_state.
Qed.

Lemma framed_rel ks kv conn fips s : rel eq ks kv s (framed conn fips s.1, s.2).
Proof.
  destruct s as [r t]. unfold framed. cbn [fst snd].
  apply (rel_ctx ks kv r ((rctx r) <| connectionHandle := conn |> <| fipsIndicator := fips |>)).
  by destruct (rctx r).
Qed.

(** The dispatcher that the tag selects. *)
Definition dispatch (tag : Z) (payload : bytes) (n : Z) : M RST bytes :=
  if tag =? WOLFSPDM_TCG_TAG_CLEAR then RespDispatchClear payload n else RespDispatchSecured payload n.

Lemma dispatch_rop inBuf n s : resp_wf s.1 -> is_bytes inBuf ->
  let tag := SPDM_Get16BE (sub_bytes inBuf 0 2) in
  negb (tag =? WOLFSPDM_TCG_TAG_CLEAR) && negb (tag =? WOLFSPDM_TCG_TAG_SECURED) = false ->
  rop (message_step s inBuf) true true (dispatch tag (frame_payload inBuf) n) (fun out => len out <= n)
    (received s inBuf).
Proof.
  intros Hwf Hb tag Htag. unfold dispatch. subst tag. apply two_guards in Htag.
  assert (resp_wf (received s inBuf).1) as Hwf1.
  { apply framed_wf; [done|by apply Get32BE_range, is_bytes_sub|apply w16_range]. }
  assert (tpm_of (received s inBuf).1 = (tpmCb s.1, tpmCbUserCtx s.1)) as Ht1 by by destruct s as [[] ?].
  assert (is_bytes (frame_payload inBuf)) as Hp by by apply is_bytes_sub.
  unfold frame_channel, message_step in *.
  destruct (Z.eqb_spec (SPDM_Get16BE (sub_bytes inBuf 0 2)) WOLFSPDM_TCG_TAG_CLEAR) as [He|He].
  - unfold frame_channel. rewrite He. change (WOLFSPDM_TCG_TAG_CLEAR =? WOLFSPDM_TCG_TAG_SECURED) with false.
    eapply rop_weaken; [| | | |by apply dispatch_clear_rop]; [|done..].
    intros x y Hs. split; [done|]. intros asym Ha. left. by eapply clear_never_opens.
  - unfold frame_channel. destruct Htag as [?| ->]; [done|].
    change (WOLFSPDM_TCG_TAG_SECURED =? WOLFSPDM_TCG_TAG_SECURED) with true. cbv iota.
    eapply rop_weaken; [| | | |by apply dispatch_secured_rop]; [|done..].
    intros x y [Hs Ho]. split; [done|]. intros asym Ha. destruct (Ho asym Ha); auto.
Qed.

Lemma handle_message_rop inBuf outSz s : resp_wf s.1 -> is_bytes inBuf ->
  rop (message_step s inBuf) true true (wolfSPDM_RespHandleMessage inBuf outSz)
    (fun out => len out <= outSz) s.
Proof.
  intros Hwf Hb. unfold wolfSPDM_RespHandleMessage. apply rop_get_r.
  assert (forall x y, x = y -> message_step s inBuf x y) as Heq.
  { intros x ? <-. split; [constructor|by left]. }
  assert (forall rc, rc < 0 -> rc < 0 /\ resp_wf s.1 /\ rel (message_step s inBuf) true true s s) as Hself.
  { intros. split_and!; [done|done|]. apply rel_self. intros. by apply Heq. }
  unfold rop, WOLFSPDM_TCG_HEADER_SIZE in *.
  wp_step. wp_step; [by apply Hself|]. wp_step. wp_step; [by apply Hself|].
  wp_step. wp_step; [by apply Hself|]. wp_step. apply wp_rd16be; [lia|lia|]. intros tag Htag _.
  wp_step. wp_step; [by apply Hself|].
  wp_step. apply wp_rd32be; [done|lia|lia|]. intros size Hsize _. wp_step. wp_step; [by apply Hself|].
  wp_step. apply wp_rd32be; [done|lia|lia|]. intros conn Hconn Hcr. wp_step. apply wp_rd16be; [lia|lia|].
  intros fips Hfips Hfr. fold (framed conn fips).
  wp_step. unfold set_r, on_r at 1. do 2 wp_step.
  pose proof (framed_wf conn fips _ Hwf Hcr Hfr) as Hwf1. pose proof (framed_rel true true conn fips s) as Hr1.
  assert ((framed conn fips s.1, s.2) = received s inBuf) as Hrec by (unfold received; by rewrite Hconn, Hfips).
  change (framed conn fips s.1) with ((framed conn fips s.1, s.2).1) in Hwf1.
  rewrite Hrec in Hwf1, Hr1 |- *.
  eapply rop_from; [exact Hr1|]. destruct Hr1 as (_ & Ht1 & _).
  unfold rop. wp_step. wp_step; [split_and!; [done|done|by apply rel_self; intros; apply Heq]|].
  wp_step. wp_step. rewrite Hsize, Htag. rewrite Htag in H7.
  change (rop (message_step s inBuf) true true
    (let* out := dispatch (SPDM_Get16BE (sub_bytes inBuf 0 2)) (frame_payload inBuf) (outSz - 16) in
     let* r := get_r in
     ret (wolfSPDM_WriteTcgHeader (SPDM_Get16BE (sub_bytes inBuf 0 2)) (16 + len out)
       (connectionHandle (rctx r)) (fipsIndicator (rctx r)) ++ out))
    (fun out => len out <= outSz) (received s inBuf)).
  eapply rop_then; [by apply dispatch_rop|]. cbv beta. intros out s2 Hwf2 _ Hl.
  apply rop_get_r, rop_ret; [done|]. rewrite len_app, len_WriteTcgHeader. unfold WOLFSPDM_TCG_HEADER_SIZE. lia.
Qed.

Lemma clean_split r : scratch_clean r <-> sec_clean r /\ vd_clean r.
Proof. unfold scratch_clean, sec_clean, vd_clean. tauto. Qed.

Lemma rel_clean st s s' : rel st true true s s' -> scratch_clean s.1 -> scratch_clean s'.1.
Proof. rewrite !clean_split. intros (_ & _ & Hs & Hv) [? ?]. auto. Qed.

(** C2: the responder implements its abstract specification on every input
    whatever: one message makes one step of the abstract responder - on the
    clear channel only what a clear message may do, on the secured channel only
    what the phase of the session allows - or fails with an error code, in
    which case it has still made such a step; it never reads or writes outside
    its buffers, the answer fits the caller's buffer, the context stays
    well-formed, and no plaintext is left in the working buffers, on any path. *)
Theorem responder_refines_spec inBuf outSz r (t : T) :
  resp_wf r -> scratch_clean r -> is_bytes inBuf ->
  let good s' := resp_wf s'.1 /\ scratch_clean s'.1 /\
    spec_step r.(tpmCb) r.(tpmCbUserCtx) tpmRespCap (frame_channel inBuf)
      (abs_state (r, t)) (abs_state s') in
  match wolfSPDM_RespHandleMessage inBuf outSz (r, t) with
  | Ok out s' => len out <= outSz /\ good s'
  | Err rc s' => rc < 0 /\ good s'
  | Ub => False
  end.
Proof.
  intros Hwf Hc Hb good. pose proof (handle_message_rop inBuf outSz (r, t) Hwf Hb) as Hm.
  unfold rop, wp in Hm. destruct (wolfSPDM_RespHandleMessage inBuf outSz (r, t)) as [out s'|rc s'|]; [| |done].
  - destruct Hm as (? & Hr & ?). split; [done|]. split_and!; [done|by eapply rel_clean|apply Hr].
  - destruct Hm as (? & ? & Hr). split; [done|]. split_and!; [done|by eapply rel_clean|apply Hr].
Qed.

(** C6: a session becomes active in one way only: whatever arrives, a responder
    without an active session has one afterwards only when the message was a
    secured record that decrypted under the handshake keys to a FINISH - a
    PSK_FINISH for a session opened by PSK_EXCHANGE, a FINISH for one opened by
    KEY_EXCHANGE, the one never stands in for the other - and the requester's
    verify data was the HMAC of the whole transcript under the finished key. *)
Theorem session_opens_by_finish inBuf outSz r (t : T) asym :
  resp_wf r -> is_bytes inBuf -> phase_of r <> P_connected asym ->
  match wolfSPDM_RespHandleMessage inBuf outSz (r, t) with
  | Ok _ (r', _) | Err _ (r', _) => phase_of r' = P_connected asym ->
      phase_of r = P_keyex asym /\ frame_channel inBuf = Secured /\
      exists plain c,
        RespDecrypt (frame_payload inBuf) WOLFSPDM_MAX_MSG_SIZE (received (r, t) inBuf).1.(rctx) = Ok plain c /\
        at_ plain 1 = (if asym then SPDM_FINISH else SPDM_PSK_FINISH) /\
        finish_verified r.(rctx) plain
  | Ub => False
  end.
Proof.
  intros Hwf Hb Hnc. pose proof (handle_message_rop inBuf outSz (r, t) Hwf Hb) as Hm.
  assert (forall s', message_step (r, t) inBuf (abs_state (r, t)) (abs_state s') ->
    phase_of s'.1 = P_connected asym ->
    phase_of r = P_keyex asym /\ frame_channel inBuf = Secured /\
    opening (received (r, t) inBuf) (frame_payload inBuf) asym) as Hopen.
  { intros s' [Hs Ho] Hp. destruct (Ho asym Hp) as [?|[Hch ?]]; [done|]. split_and!; [|done|done].
    change (phase_of s'.1) with (sp_phase (abs_state s')) in Hp.
    change (phase_of r) with (sp_phase (abs_state (r, t))) in Hnc |- *.
    by eapply opens_from. }
  assert (forall plain, finish_verified (rctx (received (r, t) inBuf).1) plain ->
    finish_verified (rctx r) plain) as Hview.
  { intros plain. apply finish_verified_view. unfold received, framed. cbn [fst].
    by destruct r as [[] ? ? ? ? ? ? ? ? ? ? ? ? ? ? ? ?]. }
  unfold rop, wp in Hm. destruct (wolfSPDM_RespHandleMessage inBuf outSz (r, t)) as [out [r' t']|rc [r' t']|];
    [| |done]; intros Hp.
  - destruct Hm as (_ & (Hs & _) & _). destruct (Hopen _ Hs Hp) as (? & ? & (plain & c & ? & ? & ?)).
    split_and!; [done|done|]. exists plain, c. auto.
  - destruct Hm as (_ & _ & (Hs & _)). destruct (Hopen _ Hs Hp) as (? & ? & (plain & c & ? & ? & ?)).
    split_and!; [done|done|]. exists plain, c. auto.
Qed.

(** A responder answers one frame after the other, whatever becomes of each. *)
Fixpoint serve (frames : list (bytes * Z)) s : option RST :=
  match frames with
  | [] => Some s
  | (inBuf, outSz) :: frames =>
      match wolfSPDM_RespHandleMessage inBuf outSz s with
      | Ok _ s' | Err _ s' => serve frames s'
      | Ub => None
      end
  end.

(** What no clear message may change, and the phase, which can only fall. *)
Definition kept (x y : spec_state T) : Prop :=
  sp_lock y = sp_lock x /\ sp_tpmt y = sp_tpmt x /\ sp_tpm y = sp_tpm x /\
  forall asym, sp_phase y = P_connected asym -> sp_phase x = P_connected asym.

Lemma clear_kept cb user (x y : spec_state T) : spec_step cb user tpmRespCap Clear x y -> kept x y.
Proof. unfold kept. inversion 1; subst; by split_and!. Qed.

(** C10: a peer that sends clear messages only gets nowhere: no sequence of
    clear frames, well-formed or not, with any buffer sizes, makes the
    responder execute a TPM command, change the lock of the SPDM-only mode,
    replace the stored requester key or activate a session. *)
Theorem clear_messages_powerless frames r (t : T) :
  resp_wf r -> Forall (fun f => is_bytes f.1 /\ frame_channel f.1 = Clear) frames ->
  exists r' t', serve frames (r, t) = Some (r', t') /\ resp_wf r' /\ t' = t /\
    r'.(rflags).(spdmOnlyLock) = r.(rflags).(spdmOnlyLock) /\
    sub_bytes r'.(rctx).(reqPubKeyTPMT) 0 r'.(rctx).(reqPubKeyTPMTLen) =
      sub_bytes r.(rctx).(reqPubKeyTPMT) 0 r.(rctx).(reqPubKeyTPMTLen) /\
    forall asym, phase_of r' = P_connected asym -> phase_of r = P_connected asym.
Proof.
  intros Hwf Hall.
  assert (forall s, resp_wf s.1 -> exists s', serve frames s = Some s' /\ resp_wf s'.1 /\
    kept (abs_state s) (abs_state s')) as Hserve.
  { induction Hall as [|[inBuf n] frames [Hb Hch] _ IH]; intros s Hs; cbn [serve]; cbn [fst] in *.
    { exists s. unfold kept. by split_and!. }
    pose proof (handle_message_rop inBuf n s Hs Hb) as Hm. unfold rop, wp in Hm.
    assert (forall s1, resp_wf s1.1 -> message_step s inBuf (abs_state s) (abs_state s1) ->
      exists s', serve frames s1 = Some s' /\ resp_wf s'.1 /\ kept (abs_state s) (abs_state s')) as Hnext.
    { intros s1 Hs1 [Hst _]. rewrite Hch in Hst. apply clear_kept in Hst as (? & ? & ? & Hp).
      destruct (IH s1 Hs1) as (s' & Hrun & Hs' & (? & ? & ? & Hp')). exists s'.
      unfold kept. split_and!; [done|done|congruence|congruence|congruence|auto]. }
    destruct (wolfSPDM_RespHandleMessage inBuf n s) as [out s1|rc s1|]; [| |done].
    - destruct Hm as (? & (? & _) & _). by apply Hnext.
    - destruct Hm as (_ & ? & (? & _)). by apply Hnext. }
  destruct (Hserve (r, t) Hwf) as ([r' t'] & Hrun & Hwf' & (Hl & Hk & Ht & Hp)). exists r', t'.
  by split_and!.
Qed.
End Messages.

(** ** Records between the two sides *)

Section Records.
Context `{WolfCrypt} `{Config} `{!CryptSizes} `{!RecordFits} `{!TranscriptFits} `{!GcmRoundTrip}.
Implicit Types (q c : WOLFSPDM_CTX).

(** A requester and a responder in one session: what one sends with, the other
    receives with.  The responder's directions are the swapped ones. *)
Definition linked q c : Prop := receives_from q (swapped c) /\ receives_from (swapped c) q.

(** A record under way from [c] to [c']. *)
Lemma record_delivered plain encSz n rec c c1 c' :
  ctx_wf c -> receives_from c c' -> len plain <= n ->
  wolfSPDM_EncryptInternal plain encSz c = Ok rec c1 ->
  wolfSPDM_DecryptInternal rec n c' = Ok plain (seq_rcvd c') /\
  exists c2, rng_step c c2 /\ c1 = seq_sent c2.
Proof.
  intros Hwf Hrf Hn Henc. unfold wolfSPDM_EncryptInternal in Henc.
  eapply wp_ok in Henc; [|apply (EncryptRecord_wp _ _ _ _ (fun rec c1 =>
    len plain <= WOLFSPDM_MAX_MSG_SIZE /\ is_record false c plain rec /\
    exists c2, rng_step c c2 /\ c1 = seq_sent c2) (fun _ _ => True)); eauto].
  destruct Henc as (Hm & Hrec & Hs). split; [|done]. by eapply decrypt_record.
Qed.

Lemma sent_receives c c1 c' : receives_from c c' -> rng_step c c1 ->
  receives_from (seq_sent c1) (seq_rcvd c').
Proof. intros [? ? ? ? Hs] [->|[r ->]]; split; try done; cbn; by rewrite Hs. Qed.

Lemma sent_keeps c c1 c' : receives_from c' c -> rng_step c c1 ->
  receives_from (seq_rcvd c') (seq_sent c1).
Proof. by intros [] [->|[r ->]]; split. Qed.

Definition answered_by c : WOLFSPDM_CTX := swapped (seq_rcvd (swapped c)).

(** A request reaches the responder; an answer reaches the requester. *)
Lemma request_delivered plain encSz n rec q q1 c :
  ctx_wf q -> linked q c -> len plain <= n ->
  wolfSPDM_EncryptInternal plain encSz q = Ok rec q1 ->
  RespDecrypt rec n c = Ok plain (answered_by c) /\ linked q1 (answered_by c).
Proof.
  intros Hq [Hqc Hcq] Hn Henc.
  destruct (record_delivered plain encSz n rec q q1 (swapped c)) as [Hdec (q2 & Hs & ->)]; [done..|].
  split; [unfold RespDecrypt, RespSwapDataDir, on_err, bind, modify; by rewrite Hdec|].
  unfold linked, answered_by. rewrite swapped_swapped. split; [by eapply sent_receives|by eapply sent_keeps].
Qed.

Lemma answer_delivered plain encSz n rec q c c1 :
  ctx_wf c -> linked q c -> len plain <= n -> RespEncrypt plain encSz c = Ok rec c1 ->
  wolfSPDM_DecryptInternal rec n q = Ok plain (seq_rcvd q) /\ linked (seq_rcvd q) c1.
Proof.
  intros Hc [Hqc Hcq] Hn Henc. unfold RespEncrypt, RespSwapDataDir, on_err, bind, modify in Henc.
  destruct (wolfSPDM_EncryptInternal plain encSz (swapped c)) as [rec' c2| |] eqn:E; [|done|done].
  injection Henc as -> <-.
  destruct (record_delivered plain encSz n rec (swapped c) c2 q) as [Hdec (c3 & Hs & ->)];
    [by apply swapped_wf|done..|].
  split; [done|]. unfold linked. rewrite swapped_swapped.
  split; [by eapply sent_keeps|by eapply sent_receives].
Qed.

(** C25: requester and responder stay in step: as long as each side's record
    layer is linked to the other's, whatever record the requester encrypts the
    responder decrypts to the same message, whatever answer the responder
    encrypts - with its directions swapped, and swapped back on every path -
    the requester decrypts to the same answer, and the link holds afterwards,
    so it holds along any alternation of requests and answers. *)
Theorem session_records_in_step plain encSz n q c :
  ctx_wf q -> ctx_wf c -> linked q c -> len plain <= n ->
  (forall rec q1, wolfSPDM_EncryptInternal plain encSz q = Ok rec q1 ->
     exists c1, RespDecrypt rec n c = Ok plain c1 /\ linked q1 c1) /\
  (forall rec c1, RespEncrypt plain encSz c = Ok rec c1 ->
     exists q1, wolfSPDM_DecryptInternal rec n q = Ok plain q1 /\ linked q1 c1).
Proof.
  intros Hq Hc Hl Hn. split.
  - intros rec q1 Henc. exists (answered_by c). by apply (request_delivered plain encSz n rec q q1 c).
  - intros rec c1 Henc. exists (seq_rcvd q). by apply (answer_delivered plain encSz n rec q c c1).
Qed.
End Records.

(** ** An answer that is lost *)

Section LostAnswer.
Context `{WolfCrypt} `{Config} `{!CryptSizes} `{!RecordFits} `{!TranscriptFits}
  {T : Type} `{!TpmCallback T}.
Notation RST := (WOLFSPDM_RESP_CTX * T)%type.
Implicit Types (c : WOLFSPDM_CTX) (r : WOLFSPDM_RESP_CTX) (s : RST).

(** The keys and IVs of the two directions. *)
Definition data_keys c := (c.(reqDataKey), c.(rspDataKey), c.(reqDataIv), c.(rspDataIv)).

Lemma finish_rsp_keys code inp n c out c1 :
  finish_rsp code inp n c = Ok out c1 -> data_keys c1 = data_keys c.
Proof.
  intros Hrun. assert (keeps data_keys (finish_rsp code inp n)) as Hk by (unfold finish_rsp; keeps_go).
  specialize (Hk c). by rewrite Hrun in Hk.
Qed.

Lemma RespEncrypt_fails plain n c rc c2 : ctx_wf c ->
  RespEncrypt plain n c = Err rc c2 -> data_keys c2 = data_keys c /\ rview c2 = rview c.
Proof.
  intros Hwf Hrun. eapply (wp_err _ (fun _ _ => True) (fun _ c2 => data_keys c2 = data_keys c /\ rview c2 = rview c)); [|exact Hrun].
  unfold RespEncrypt, RespSwapDataDir. do 2 (wp_step; cbv beta). pose proof (swapped_wf _ Hwf).
  wp_step. wp_step. apply EncryptRecord_wp; [done|intros; by do 3 wp_step|].
  intros e c3 _ [->|[rng ->]]; wp_step; by destruct c.
Qed.

(** A frame the responder takes for a secured message. *)
Definition secured_frame r (inBuf : bytes) : Prop :=
  let size := SPDM_Get32BE (sub_bytes inBuf 2 4) in
  r.(rflags).(resp_initialized) = true /\ r.(rflags).(useTcg) || r.(rflags).(usePsk) = true /\
  frame_channel inBuf = Secured /\ WOLFSPDM_TCG_HEADER_SIZE <= size <= len inBuf.

(** The frame carries the FINISH the handshake waits for and its handler
    accepts it, with the answer [out] and the inner context [c1]. *)
Definition finish_accepted (asym : bool) s (inBuf out : bytes) c1 : Prop :=
  exists plain c0,
    s.1.(rctx).(state) = WOLFSPDM_STATE_KEY_EX /\ s.1.(rctx).(sessionId) <> 0 /\
    s.1.(rflags).(pendingAsym) = asym /\
    RespDecrypt (frame_payload inBuf) WOLFSPDM_MAX_MSG_SIZE (received s inBuf).1.(rctx) = Ok plain c0 /\
    at_ plain 1 = (if asym then SPDM_FINISH else SPDM_PSK_FINISH) /\
    finish_rsp (if asym then SPDM_FINISH_RSP else SPDM_PSK_FINISH_RSP) plain WOLFSPDM_MAX_MSG_SIZE c0
      = Ok out c1.

(** The responder once the handler is done, [b] being the working buffer. *)
Definition finishing (asym : bool) r (b : bytes) c1 : WOLFSPDM_RESP_CTX :=
  r <| secureInPlain := b |> <| rctx := c1 |> <| rflags := r.(rflags) <| sessionAsym := asym |> |>.

Lemma serve_finish asym plain n r (t : T) c0 out c1 b :
  r.(rctx) = c0 -> c0.(state) = WOLFSPDM_STATE_KEY_EX -> r.(rflags).(pendingAsym) = asym ->
  len plain <= len r.(secureInPlain) -> 2 <= len plain ->
  at_ plain 1 = (if asym then SPDM_FINISH else SPDM_PSK_FINISH) ->
  finish_rsp (if asym then SPDM_FINISH_RSP else SPDM_PSK_FINISH_RSP) plain WOLFSPDM_MAX_MSG_SIZE c0 = Ok out c1 ->
  b = splice r.(secureInPlain) 0 plain ->
  serve_plain plain n (r, t) = send_answer out true false n (finishing asym r b c1, t).
Proof.
  intros Hc Hst Hpa Hl Hl2 Hcode Hrun ->. subst c0. unfold serve_plain. pose proof (len_nonneg plain).
  erewrite bind_run; [|unfold resp_store, get_r, set_r, on_r, zoom, wr, bind, get, modify; cbn [fst snd];
    replace ((0 <=? 0) && (0 + len plain <=? len (secureInPlain r))) with true by lia; reflexivity].
  replace (len plain <? 2) with false by lia.
  erewrite bind_run; [|reflexivity].
  erewrite bind_run; [|unfold rd; replace ((0 <=? 1) && (1 <? len plain)) with true by lia; reflexivity].
  change (nth (Z.to_nat 1) plain 0) with (at_ plain 1). rewrite Hcode.
  etransitivity; [apply (bind_run _ _ _ (out, true, false)
    (finishing asym r (splice (secureInPlain r) 0 plain) c1, t))|reflexivity].
  unfold resp_secured_handler. erewrite bind_run; [|reflexivity]. cbn [fst].
  destruct asym;
    [change (SPDM_FINISH =? SPDM_PSK_FINISH) with false; change (SPDM_FINISH =? SPDM_FINISH) with true
    |change (SPDM_PSK_FINISH =? SPDM_PSK_FINISH) with true];
    cbv iota; unfold RespHandleFinish, RespHandlePskFinish, in_ctx, on_r, zoom, bind, check, ret;
    cbn -[finish_rsp]; rewrite Hst, Hpa; cbn -[finish_rsp]; by rewrite Hrun.
Qed.

Lemma in_ctx_run {A} (m : M WOLFSPDM_CTX A) r (t : T) a c : m r.(rctx) = Ok a c ->
  on_r (in_ctx m) (r, t) = Ok a (r <| rctx := c |>, t).
Proof. unfold on_r, in_ctx, zoom. cbn [fst snd]. by intros ->. Qed.

Lemma in_ctx_stops {A} (m : M WOLFSPDM_CTX A) r (t : T) rc c : m r.(rctx) = Err rc c ->
  on_r (in_ctx m) (r, t) = Err rc (r <| rctx := c |>, t).
Proof. unfold on_r, in_ctx, zoom. cbn [fst snd]. by intros ->. Qed.

(** The dispatcher on an accepted FINISH is left with sending the answer. *)
Lemma dispatch_accepted asym s inBuf out c1 n :
  resp_wf s.1 -> is_bytes inBuf -> finish_accepted asym s inBuf out c1 ->
  exists b, len b = WOLFSPDM_MAX_TPM_MSG_SIZE /\
    RespDispatchSecuredInner (frame_payload inBuf) n (received s inBuf) =
      send_answer out true false n (finishing asym (received s inBuf).1 b c1, s.2).
Proof.
  destruct s as [r t]. intros Hwf Hb (plain & c0 & Hst & Hid & Hpa & Hdec & Hcode & Hrun).
  assert (resp_wf (received (r, t) inBuf).1) as Hwf1.
  { apply framed_wf; [done|by apply Get32BE_range, is_bytes_sub|apply w16_range]. }
  destruct (received (r, t) inBuf) as [r1 t1] eqn:Hr1. cbn [fst snd] in *.
  assert (t1 = t /\ state (rctx r1) = state (rctx r) /\ sessionId (rctx r1) = sessionId (rctx r) /\
    rflags r1 = rflags r) as (-> & Hst1 & Hid1 & Hf1) by (injection Hr1 as <- <-; by destruct r as [[]]).
  pose proof (RespDecrypt_wp (frame_payload inBuf) WOLFSPDM_MAX_MSG_SIZE (rctx r1)
    (fun p c => len p <= WOLFSPDM_MAX_MSG_SIZE /\ c = answered_by (rctx r1)) (fun _ _ => True)
    (rw_ctx _ Hwf1) (is_bytes_sub _ _ _ Hb) ltac:(by intros) ltac:(done)) as Hd.
  destruct (wp_ok _ _ _ _ _ _ Hd Hdec) as (Hpl & Hc0).
  assert (2 <= len plain) as Hl2.
  { unfold finish_rsp in Hrun. apply bind_ok in Hrun as (? & ? & [Hl ->]%check_ok & _).
    unfold WOLFSPDM_HASH_SIZE in *. lia. }
  destruct (rw_scratch _ Hwf1) as (Hsc & _).
  exists (splice r1.(secureInPlain) 0 plain). pose proof (len_nonneg plain).
  assert (len plain <= len (secureInPlain r1)) by by rewrite Hsc.
  split; [rewrite len_splice by lia; done|]. unfold RespDispatchSecuredInner.
  erewrite bind_run; [|reflexivity]. cbn [fst]. rewrite Hst1, Hst, Hid1.
  erewrite bind_run; [|unfold check; replace (sessionId (rctx r) =? 0) with false by lia; reflexivity].
  erewrite bind_run; [|by apply in_ctx_run].
  change (serve_plain plain n (r1 <| rctx := c0 |>, t) =
    send_answer out true false n (finishing asym r1 (splice (secureInPlain r1) 0 plain) c1, t)).
  rewrite (serve_finish asym plain n (r1 <| rctx := c0 |>) t c0 out c1
    (splice (secureInPlain r1) 0 plain)); try done.
  - subst c0. rewrite <- Hst, <- Hst1. by destruct (rctx r1).
  - change (pendingAsym (rflags r1) = asym). by rewrite Hf1.
Qed.

(** The inner context an accepted FINISH leaves. *)
Lemma finish_accepted_ctx asym s inBuf out c1 : resp_wf s.1 -> is_bytes inBuf ->
  finish_accepted asym s inBuf out c1 ->
  ctx_wf c1 /\ c1.(state) = WOLFSPDM_STATE_CONNECTED /\
  data_keys c1 = data_keys s.1.(rctx) /\ len out <= WOLFSPDM_MAX_MSG_SIZE.
Proof.
  destruct s as [r t]. intros Hwf Hb (plain & c0 & _ & _ & _ & Hdec & _ & Hrun).
  assert (resp_wf (received (r, t) inBuf).1) as Hwf1.
  { apply framed_wf; [done|by apply Get32BE_range, is_bytes_sub|apply w16_range]. }
  pose proof (RespDecrypt_wp (frame_payload inBuf) WOLFSPDM_MAX_MSG_SIZE (received (r, t) inBuf).1.(rctx)
    (fun p c => is_bytes p /\ c = answered_by (received (r, t) inBuf).1.(rctx)) (fun _ _ => True)
    (rw_ctx _ Hwf1) (is_bytes_sub _ _ _ Hb) ltac:(by intros) ltac:(done)) as Hd.
  destruct (wp_ok _ _ _ _ _ _ Hd Hdec) as (Hpb & Hc0).
  assert (ctx_wf c0) as Hwf0 by (subst; apply swapped_wf, seq_rcvd_wf, swapped_wf, Hwf1).
  pose proof (finish_rsp_keys _ _ _ _ _ _ Hrun) as Hk.
  pose proof (wp_ok _ _ _ _ _ _ (finish_rsp_state _ _ _ _ Hwf0 Hpb) Hrun) as (Hc1 & Hv1 & Hl & _).
  split_and!; [done|by injection Hv1| |done]. rewrite Hk, Hc0. by destruct r as [[]].
Qed.

(** Sending the answer fails with the encryption, or with the derivation. *)
Lemma send_answer_fails out n r (t : T) : resp_wf r -> len out <= WOLFSPDM_MAX_MSG_SIZE ->
  (forall rc c2, RespEncrypt out n r.(rctx) = Err rc c2 ->
     exists r', send_answer out true false n (r, t) = Err rc (r', t) /\
       r'.(rctx) = c2 /\ r'.(rflags) = r.(rflags)) /\
  (forall enc c2 rc c3, RespEncrypt out n r.(rctx) = Ok enc c2 -> wolfSPDM_DeriveAppDataKeys c2 = Err rc c3 ->
     exists r', send_answer out true false n (r, t) = Err rc (r', t) /\
       r'.(rctx) = c3 /\ r'.(rflags) = r.(rflags)).
Proof.
  intros Hwf Hl. destruct (rw_scratch _ Hwf) as (_ & Hsc & _). pose proof (len_nonneg out).
  change WOLFSPDM_MAX_TPM_MSG_SIZE with WOLFSPDM_MAX_MSG_SIZE in Hsc.
  assert (resp_store secureOutPlain (fun b r => r <| secureOutPlain := b |>) out (r, t) =
    Ok tt (r <| secureOutPlain := splice (secureOutPlain r) 0 out |>, t)) as Hstore.
  { unfold resp_store, get_r, set_r, on_r, zoom, wr, bind, get, modify. cbn [fst snd].
    by replace ((0 <=? 0) && (0 + len out <=? len (secureOutPlain r))) with true by lia. }
  unfold send_answer. rewrite (bind_run _ _ _ _ _ Hstore). split.
  - intros rc c2 He. eexists. split; [by eapply bind_stops, in_ctx_stops|]. by destruct r.
  - intros enc c2 rc c3 He Hd. eexists. split.
    + erewrite bind_run by by apply in_ctx_run. eapply bind_stops, in_ctx_stops. exact Hd.
    + by destruct r.
Qed.

(** A message whose dispatch fails, and the responder it leaves. *)
Lemma message_fails s inBuf outSz rc r' (t' : T) :
  secured_frame s.1 inBuf -> WOLFSPDM_TCG_HEADER_SIZE <= outSz ->
  RespDispatchSecuredInner (frame_payload inBuf) (outSz - WOLFSPDM_TCG_HEADER_SIZE) (received s inBuf)
    = Err rc (r', t') ->
  wolfSPDM_RespHandleMessage inBuf outSz s = Err rc (wipe_scratch_secure r', t').
Proof.
  destruct s as [r t]. unfold secured_frame, frame_channel. cbn [fst]. cbv zeta.
  intros (Hi & Hm & Hch & Hsz) Ho Hrun. unfold wolfSPDM_RespHandleMessage.
  unfold WOLFSPDM_TCG_HEADER_SIZE in *.
  destruct (Z.eqb_spec (SPDM_Get16BE (sub_bytes inBuf 0 2)) WOLFSPDM_TCG_TAG_SECURED) as [Htag|]; [|done].
  erewrite bind_run; [|reflexivity]. cbn [fst]. rewrite Hi. erewrite bind_run; [|reflexivity].
  replace (negb (useTcg (rflags r)) && negb (usePsk (rflags r))) with false by (by destruct (useTcg _), (usePsk _)).
  erewrite bind_run; [|reflexivity]. replace (len inBuf <? 16) with false by lia.
  erewrite bind_run; [|reflexivity].
  erewrite bind_run by (apply rd16be_run; lia). rewrite Htag. erewrite bind_run; [|reflexivity].
  erewrite bind_run by (apply rd32be_run; lia).
  set (size := SPDM_Get32BE (sub_bytes inBuf 2 4)) in *.
  replace ((size <? 16) || (size >? len inBuf)) with false by lia. erewrite bind_run; [|reflexivity].
  erewrite bind_run by (apply rd32be_run; lia). erewrite bind_run by (apply rd16be_run; lia).
  erewrite bind_run; [|reflexivity]. replace (outSz <? 16) with false by lia.
  erewrite bind_run; [|reflexivity]. erewrite bind_run by (apply rd_sub_run; lia).
  apply bind_stops. change (WOLFSPDM_TCG_TAG_SECURED =? WOLFSPDM_TCG_TAG_CLEAR) with false. cbv iota.
  unfold RespDispatchSecured, always. apply bind_stops. unfold on_err.
  change (RespDispatchSecuredInner (sub_bytes inBuf 16 (size - 16)) (outSz - 16)) with
    (RespDispatchSecuredInner (T := T) (frame_payload inBuf) (outSz - 16)).
  match goal with |- context [RespDispatchSecuredInner _ _ ?s] => change s with (received (r, t) inBuf) end.
  by rewrite Hrun.
Qed.

Lemma finishing_wf asym s inBuf b c1 : resp_wf s.1 -> is_bytes inBuf -> ctx_wf c1 ->
  c1.(state) = WOLFSPDM_STATE_CONNECTED -> len b = WOLFSPDM_MAX_TPM_MSG_SIZE ->
  resp_wf (finishing asym (received s inBuf).1 b c1).
Proof.
  intros Hwf Hb Hc1 Hst Hbl. destruct s as [r t]. cbn [fst] in *.
  destruct Hwf as [Hc Hk Hp Hcl Hs (H1' & H2' & H3' & H4')]. unfold finishing, received, framed. cbn [fst].
  split; [done|by destruct r|by destruct r|by destruct r as [? []]|right; right; right; by left|by split_and!].
Qed.

(** C39: an answer that is lost leaves the responder connected under handshake
    keys.  Whatever the frame that brought the FINISH (or PSK_FINISH) the
    handshake was waiting for, once its handler has accepted it: when the
    answer cannot be encrypted - the caller's buffer takes the frame header but
    not the record, or wolfCrypt fails - the message fails with that error and
    the session counts as connected all the same, while the keys and IVs are
    still those of the handshake; when the answer is encrypted but the
    application keys cannot be derived, the message fails too, the answer is
    lost, and the session counts as connected. *)
Theorem finish_answer_lost asym r (t : T) inBuf outSz out c1 :
  resp_wf r -> is_bytes inBuf -> secured_frame r inBuf -> WOLFSPDM_TCG_HEADER_SIZE <= outSz ->
  finish_accepted asym (r, t) inBuf out c1 ->
  let recSz := outSz - WOLFSPDM_TCG_HEADER_SIZE in
  (forall rc c2, RespEncrypt out recSz c1 = Err rc c2 ->
     exists r', wolfSPDM_RespHandleMessage inBuf outSz (r, t) = Err rc (r', t) /\
       phase_of r' = P_connected asym /\ data_keys r'.(rctx) = data_keys r.(rctx)) /\
  (forall rec c2 rc c3, RespEncrypt out recSz c1 = Ok rec c2 -> wolfSPDM_DeriveAppDataKeys c2 = Err rc c3 ->
     exists r', wolfSPDM_RespHandleMessage inBuf outSz (r, t) = Err rc (r', t) /\
       phase_of r' = P_connected asym).
Proof.
  intros Hwf Hb Hfr Ho Hacc recSz.
  destruct (finish_accepted_ctx asym (r, t) inBuf out c1 Hwf Hb Hacc) as (Hc1 & Hst1 & Hk1 & Hl).
  destruct (dispatch_accepted asym (r, t) inBuf out c1 recSz Hwf Hb Hacc) as (b & Hbl & Hrun).
  cbn [snd] in Hrun. set (r1 := finishing asym (received (r, t) inBuf).1 b c1) in *.
  assert (resp_wf r1) as Hwf1 by by apply (finishing_wf asym (r, t)).
  destruct (send_answer_fails out recSz r1 t Hwf1 Hl) as [He Hd].
  assert (forall r' rc, send_answer out true false recSz (r1, t) = Err rc (r', t) ->
    rflags r' = rflags r1 -> state (rctx r') = WOLFSPDM_STATE_CONNECTED ->
    wolfSPDM_RespHandleMessage inBuf outSz (r, t) = Err rc (wipe_scratch_secure r', t) /\
    phase_of (wipe_scratch_secure r') = P_connected asym) as Hlost.
  { intros r' rc Hsend Hf Hst'. rewrite <- Hrun in Hsend. split; [by apply message_fails|].
    unfold phase_of. change (rctx (wipe_scratch_secure r')) with (rctx r').
    change (rflags (wipe_scratch_secure r')) with (rflags r'). rewrite Hst', Hf. by destruct r as [? []]. }
  split.
  - intros rc c2 Henc. destruct (He rc c2 Henc) as (r' & Hsend & Hc2 & Hf).
    destruct (RespEncrypt_fails _ _ _ _ _ Hc1 Henc) as [Hk2 Hv2].
    destruct (Hlost r' rc Hsend Hf) as [Hh Hp]; [rewrite Hc2, <- Hst1; by injection Hv2|].
    exists (wipe_scratch_secure r'). split_and!; [done|done|].
    change (rctx (wipe_scratch_secure r')) with (rctx r'). by rewrite Hc2, Hk2.
  - intros rec c2 rc c3 Henc Hder. destruct (Hd rec c2 rc c3 Henc Hder) as (r' & Hsend & Hc3 & Hf).
    destruct (wp_ok _ _ _ _ _ _ (RespEncrypt_frame out recSz c1 Hc1) Henc) as (Hwf2 & Hv2 & _).
    destruct (wp_err _ _ _ _ _ _ (DeriveAppDataKeys_frame c2 Hwf2) Hder) as (_ & _ & Hv3).
    destruct (Hlost r' rc Hsend Hf) as [Hh Hp].
    + rewrite Hc3, <- Hst1. rewrite Hv2 in Hv3. by injection Hv3.
    + by exists (wipe_scratch_secure r').
Qed.
End LostAnswer.
