(* ===== verification/Wire.v ===== *)
(** * Requester and responder on a wire

    The two sides of this repository composed: the requester's transport hands
    every frame to [wolfSPDM_RespHandleMessage] and returns its answer.  The
    functions of wolfCrypt, the sizes and the TPM stay parameters.  The
    theorems follow a vendor command from the caller of the requester to the
    responder's state and back. *)
From Stdlib Require Import ZArith Lia String.
From stdpp Require Import base tactics list numbers option.
From S2P Require Import Prelude Types Bytes Crypt Context Transcript Kdf CryptoOps Transport.
From S2P Require Import Secured Msg Chunk Cert Attest Session Standard Tcg Psk Vendor.
From S2P Require Import Responder RespSpec RespRefine.

Lemma wp_run {S A} (m : M S A) (Q : A -> S -> Prop) E s a s' :
  m s = Ok a s' -> Q a s' -> wp m Q E s.
Proof. unfold wp. by intros ->. Qed.

Lemma ctx_wf_link `{WolfCrypt} `{Config} (c : WOLFSPDM_CTX) : ctx_wf c ->
  0 <= c.(connectionHandle) < 2 ^ 32 /\ 0 <= c.(fipsIndicator) < 2 ^ 16 /\ is_byte c.(spdmVersion).
Proof. intros [_ Hb _ _]. unfold bounds_ok in Hb. destruct_and? Hb. unfold is_byte. lia. Qed.

Lemma parse_vendor_wp {S} v cmd code data cap (s : S) (Q : bytes * bytes -> S -> Prop) E :
  len code = WOLFSPDM_VDCODE_LEN -> len data <= 0xFFFF - WOLFSPDM_VDCODE_LEN -> len data <= cap ->
  Q (code, data) s -> wp (wolfSPDM_ParseVendorDefined (vendor_msg v cmd code data) cap) Q E s.
Proof.
  intros. unfold wp. rewrite ParseVendorDefined_run by done.
  by replace (cap <? len data) with false by lia.
Qed.

Lemma is_bytes_app a b : is_bytes a -> is_bytes b -> is_bytes (a ++ b).
Proof. intros. by apply Forall_app_2. Qed.

Lemma is_bytes_header tag sz conn fips : is_bytes (wolfSPDM_WriteTcgHeader tag sz conn fips).
Proof.
  unfold wolfSPDM_WriteTcgHeader.
  repeat apply is_bytes_app; first [apply is_bytes_Set16BE|apply is_bytes_Set32BE|apply is_bytes_zeros].
Qed.

Lemma wp_total {S A} (m : M S A) (Q : A -> S -> Prop) s :
  wp m Q (fun _ _ => False) s -> exists a s', m s = Ok a s' /\ Q a s'.
Proof. unfold wp. destruct (m s); [eauto|done..]. Qed.

Section Wire.
Context `{WolfCrypt} `{Config} `{!CryptSizes} `{!RecordFits} `{!TranscriptFits}
  {T : Type} `{!TpmCallback T}.
Notation SIDE := (WOLFSPDM_RESP_CTX * T)%type.
Implicit Types (c : WOLFSPDM_CTX) (r : WOLFSPDM_RESP_CTX) (s : SIDE).

#[global] Instance wire : Transport SIDE := fun cb user ctx tx cap s =>
  match wolfSPDM_RespHandleMessage tx cap s with
  | Ok rx s' => (s', Some (map w8 rx))
  | Err _ s' => (s', None)
  | Ub => (s, None)
  end.

#[global] Instance wire_bytes : TransportBytes.
Proof.
  intros cb user ctx tx cap s w' rx. unfold io_call, wire.
  destruct (wolfSPDM_RespHandleMessage tx cap s); intros [= _ <-].
  apply List.Forall_map, List.Forall_forall. intros. apply is_byte_w8.
Qed.

Lemma call_io_wire tx cap c s (Q : bytes -> WOLFSPDM_CTX * SIDE -> Prop) E :
  wp (wolfSPDM_RespHandleMessage tx cap)
    (fun rx s' => is_bytes rx /\ len rx <= cap /\ Q rx (c, s'))
    (fun _ s' => E WOLFSPDM_E_IO_FAIL (c, s')) s ->
  wp (call_io tx cap) Q E (c, s).
Proof.
  unfold wp, call_io, io_call, wire.
  destruct (wolfSPDM_RespHandleMessage tx cap s) as [rx s'|rc s'|]; [|done|done].
  intros (Hb & Hl & HQ). rewrite Script.map_w8 by done. by replace (len rx >? cap) with false by lia.
Qed.

(** ** Frames *)

(** A responder that has been initialised and given a mode. *)
Definition serving r : Prop :=
  r.(rflags).(resp_initialized) = true /\ (r.(rflags).(useTcg) || r.(rflags).(usePsk)) = true.

Lemma handle_frame tag conn fips payload n s Q E :
  In tag [WOLFSPDM_TCG_TAG_CLEAR; WOLFSPDM_TCG_TAG_SECURED] ->
  0 <= conn < 2 ^ 32 -> 0 <= fips < 2 ^ 16 -> WOLFSPDM_TCG_HEADER_SIZE + len payload < 2 ^ 32 ->
  serving s.1 -> WOLFSPDM_TCG_HEADER_SIZE <= n ->
  wp (dispatch tag payload (n - WOLFSPDM_TCG_HEADER_SIZE))
    (fun out s' => Q (wolfSPDM_WriteTcgHeader tag (WOLFSPDM_TCG_HEADER_SIZE + len out)
       s'.1.(rctx).(connectionHandle) s'.1.(rctx).(fipsIndicator) ++ out) s') E
    (framed conn fips s.1, s.2) ->
  wp (wolfSPDM_RespHandleMessage (wolfSPDM_WriteTcgHeader tag
        (WOLFSPDM_TCG_HEADER_SIZE + len payload) conn fips ++ payload) n) Q E s.
Proof.
  intros Htag Hc Hf Hp [Hi Hm] Hn Hd. pose proof (len_nonneg payload).
  assert (0 <= tag < 2 ^ 16) as Ht by (destruct Htag as [<-|[<-|[]]]; split; reflexivity || discriminate).
  pose proof (fun s => read_header tag (WOLFSPDM_TCG_HEADER_SIZE + len payload) conn fips payload
    Ht ltac:(lia) Hc Hf (S := SIDE) s) as R.
  set (m := wolfSPDM_WriteTcgHeader tag _ conn fips ++ payload) in *.
  assert (len m = WOLFSPDM_TCG_HEADER_SIZE + len payload) as Hl by apply len_frame.
  clearbody m. unfold wolfSPDM_RespHandleMessage, get_r, set_r, on_r. rewrite Hl.
  do 3 wp_step. wp_step. rewrite Hi. wp_step; [done|]. wp_step. wp_step.
  { by destruct (useTcg _), (usePsk _). }
  wp_step. wp_step; [lia|]. wp_step. eapply wp_run; [apply R|]. wp_step. wp_step.
  { destruct Htag as [<-|[<-|[]]]; done. }
  wp_step. eapply wp_run; [apply R|]. wp_step. wp_step; [lia|].
  wp_step. eapply wp_run; [apply R|]. wp_step. eapply wp_run; [apply R|].
  do 3 wp_step. wp_step. wp_step; [lia|].
  replace (WOLFSPDM_TCG_HEADER_SIZE + len payload - WOLFSPDM_TCG_HEADER_SIZE)
    with (len payload) by lia.
  wp_step. eapply wp_run; [apply R|]. wp_step.
  eapply wp_mono; [exact Hd| |done]. intros out [r' t'] HQ. do 3 wp_step. wp_step. exact HQ.
Qed.

(** An exchange of a TCG-mode requester: the dispatcher of the tag answers
    within the room, and leaves the connection fields as the frame set them. *)
Lemma SendReceive_wire tx cap c s Q E :
  ctx_wf c -> c.(ioCb) <> 0 -> wolfSPDM_IsTcgMode c = true -> serving s.1 ->
  WOLFSPDM_TCG_HEADER_SIZE + len tx <= TCG_BUF_SZ ->
  wp (dispatch (if is_clear_msg tx then WOLFSPDM_TCG_TAG_CLEAR else WOLFSPDM_TCG_TAG_SECURED) tx
        (TCG_BUF_SZ - WOLFSPDM_TCG_HEADER_SIZE))
    (fun out s' => is_bytes out /\ len out <= cap /\ WOLFSPDM_TCG_HEADER_SIZE + len out <= TCG_BUF_SZ /\
       s'.1.(rctx).(connectionHandle) = c.(connectionHandle) /\
       s'.1.(rctx).(fipsIndicator) = c.(fipsIndicator) /\ Q out (c, s'))
    (fun _ s' => E WOLFSPDM_E_IO_FAIL (c, s'))
    (framed c.(connectionHandle) c.(fipsIndicator) s.1, s.2) ->
  wp (wolfSPDM_SendReceive tx cap) Q E (c, s).
Proof.
  intros Hwf Hio Hmode Hsrv Hl Hd. destruct (ctx_wf_link c Hwf) as (Hc & Hf & _).
  pose proof record_fits as Hfit. unfold RecordFits in Hfit. pose proof (len_nonneg tx).
  assert (TCG_BUF_SZ < 2 ^ 32) as Hbuf by (unfold TCG_BUF_SZ, WOLFSPDM_AEAD_OVERHEAD in *; lia).
  unfold wolfSPDM_SendReceive. do 3 io_step. io_step; [lia|]. rewrite Hmode.
  unfold wolfSPDM_TcgSendReceive. do 2 io_step. io_step.
  set (tag := if is_clear_msg tx then _ else _) in *.
  apply (wp_mono _ (fun tcgTx x => tcgTx = wolfSPDM_WriteTcgHeader tag (WOLFSPDM_TCG_HEADER_SIZE + len tx)
    (connectionHandle c) (fipsIndicator c) ++ tx /\ x = (c, s)) _ (fun _ _ => False)); [| |done].
  { unfold tag. destruct (is_clear_msg tx).
    - unfold wolfSPDM_BuildTcgClearMessage. rewrite w32_id by lia. io_go; try lia. done.
    - io_go; [lia|]. done. }
  intros ? ? [-> ->]. io_step. apply call_io_wire.
  apply handle_frame; [destruct (is_clear_msg tx); cbn; tauto|done|done|lia|done|
    unfold TCG_BUF_SZ, WOLFSPDM_AEAD_OVERHEAD in *; lia|].
  eapply wp_mono; [exact Hd| |done].
  cbv beta. intros out s' (Hb & Hcap & Hroom & Hc' & Hf' & HQ). rewrite Hc', Hf'. pose proof (len_nonneg out).
  split; [by apply is_bytes_app, Hb; apply is_bytes_header|]. split; [by rewrite len_frame|].
  assert (0 <= tag < 2 ^ 16) as Ht by (unfold tag; destruct (is_clear_msg tx); split; reflexivity || discriminate).
  pose proof (fun x => read_header tag (WOLFSPDM_TCG_HEADER_SIZE + len out) (connectionHandle c)
    (fipsIndicator c) out Ht ltac:(lia) Hc Hf (S := WOLFSPDM_CTX * SIDE) x) as R.
  pose proof (len_frame tag (WOLFSPDM_TCG_HEADER_SIZE + len out) (connectionHandle c) (fipsIndicator c) out) as Hlf.
  set (m := wolfSPDM_WriteTcgHeader tag _ _ _ ++ out) in *. clearbody m. rewrite Hlf.
  io_step. io_step; [lia|]. io_step. eapply wp_run; [apply R|]. io_step. io_step.
  { unfold tag in *. by destruct (is_clear_msg tx). }
  io_step. eapply wp_run; [apply R|]. io_step.
  apply (wp_mono _ (fun _ x => x = (c, s')) _ (fun _ _ => False)); [| |done].
  { io_step; [|done]. io_step. f_equal. by destruct c. }
  intros _ ? ->. io_step. eapply wp_run; [apply R|]. io_step. io_step; [lia|].
  replace (WOLFSPDM_TCG_HEADER_SIZE + len out - WOLFSPDM_TCG_HEADER_SIZE) with (len out) by lia.
  io_step. io_step; [lia|]. eapply wp_run; [apply R|]. exact HQ.
Qed.

(** ** A vendor command outside a session *)

(** What a command can see or change of the responder: flags, stored key,
    digest, TPM callback, session state and requester key. *)
Definition pview r :=
  (r.(rflags), (r.(pskStore), r.(pskStoreSz)), r.(clearAuthDigest), tpm_of r, rview r.(rctx)).
Definition conn_view r := (r.(rctx).(connectionHandle), r.(rctx).(fipsIndicator)).

(** What the record layer works with. *)
Definition rec_view c :=
  (wolfSPDM_IsTcgMode c, c.(sessionId), (c.(reqDataKey), c.(reqDataIv), c.(reqSeqNum)),
   (c.(rspDataKey), c.(rspDataIv), c.(rspSeqNum))).

Lemma abs_pview r r' (t : T) : pview r' = pview r -> abs_state (r', t) = abs_state (r, t).
Proof.
  unfold pview, rview, abs_state, phase_of. intros [= Hf Hp Hn Hc _ _ Hs Ht]. cbn [fst snd].
  by rewrite Hf, Hp, Hn, Hc, Hs, Ht.
Qed.

Lemma pview_ctx r c : rview c = rview r.(rctx) -> pview (r <| rctx := c |>) = pview r.
Proof. unfold pview. intros Hv. destruct r. cbn in *. by rewrite Hv. Qed.

(** The requester's version is one the responder can speak, and the one it
    has settled on if it has. *)
Definition speaks c r : Prop :=
  WOLFSPDM_MIN_SPDM_VERSION <= vendor_ver c <= WOLFSPDM_RESP_MAX_VERSION /\
  (r.(rctx).(spdmVersion) = 0 \/ r.(rctx).(spdmVersion) = vendor_ver c).

(** The responder as before, up to the working buffers and the version. *)
Definition calm c r r' : Prop :=
  resp_wf r' /\ pview r' = pview r /\ conn_view r' = conn_view r /\
  rec_view r'.(rctx) = rec_view r.(rctx) /\ speaks c r'.

Lemma calm_refl c r : resp_wf r -> speaks c r -> calm c r r.
Proof. intros. unfold calm. by split_and!. Qed.

Lemma calm_trans c r1 r2 r3 : calm c r1 r2 -> calm c r2 r3 -> calm c r1 r3.
Proof. intros (_ & ? & ? & ? & _) (? & ? & ? & ? & ?). split_and!; [done|congruence..|done]. Qed.

Lemma RESP_MAX_range : WOLFSPDM_RESP_MAX_VERSION <= 0x14.
Proof. vm_compute. discriminate. Qed.

Lemma select_wp c r (t : T) Q E : resp_wf r -> speaks c r ->
  (forall r', calm c r r' -> Q (inl tt) (r', t)) ->
  wp (try (on_r (in_ctx (RespSelectVersion (vendor_ver c) true)))) Q E (r, t).
Proof.
  intros Hwf [Hv Hs] HQ. unfold RespSelectVersion, on_r, in_ctx.
  assert (Q (inl tt) (r, t)) as Hstay by by apply HQ, calm_refl.
  pose proof (rw_ctx _ Hwf) as Hcwf. pose proof RESP_MAX_range.
  wp_step. wp_step. wp_step. cbn [fst snd]. wp_step. wp_step.
  wp_step; [apply wp_check; intros; [lia|by destruct r]|].
  wp_step; [apply wp_check; intros; [done|by destruct r]|].
  wp_step. apply wp_check; intros; [lia|]. wp_step. apply HQ. split_and!.
  - apply resp_wf_ctx; [done|wf_tac|]. pose proof (rw_state _ Hwf) as Hst. by destruct (rctx r).
  - apply pview_ctx. by destruct (rctx r).
  - by destruct r as [[]].
  - by destruct r as [[]].
  - split; [done|right; by destruct r as [[]]].
Qed.

Lemma framed_calm c conn fips r : resp_wf r -> speaks c r -> 0 <= conn < 2 ^ 32 -> 0 <= fips < 2 ^ 16 ->
  let r' := framed conn fips r in
  resp_wf r' /\ pview r' = pview r /\ conn_view r' = (conn, fips) /\ speaks c r'.
Proof.
  intros Hwf Hs Hc Hf. cbv zeta.
  split_and!; [by apply framed_wf|apply pview_ctx; by destruct (rctx r)|by destruct r as [[]]|].
  unfold speaks in *. by destruct r as [[]].
Qed.

Lemma store_in_calm c r b : resp_wf r -> speaks c r -> len b = WOLFSPDM_MAX_TPM_MSG_SIZE ->
  calm c r (r <| vdInPayload := b |>).
Proof.
  intros [? ? ? ? ? Hscr] Hs Hb. destruct_and! Hscr.
  split; [split; try done; by split_and!|by split_and!].
Qed.

Lemma wipe_calm c r : resp_wf r -> speaks c r -> calm c r (wipe_scratch_vd r).
Proof. intros Hwf Hs. split; [by apply wipes_wf|]. by destruct r. Qed.

Lemma wipe_stored r b : wipe_scratch_vd (r <| vdOutPayload := b |>) = wipe_scratch_vd r.
Proof. by destruct r. Qed.

Lemma store_wp buf put d s (Q : unit -> SIDE -> Prop) E :
  len d <= len (buf s.1) ->
  (forall b, len b = len (buf s.1) -> Q tt (put b s.1, s.2)) -> wp (resp_store buf put d) Q E s.
Proof.
  intros Hl HQ. pose proof (len_nonneg d). unfold resp_store, get_r, set_r, on_r.
  wp_step. wp_step. wp_step. cbn [fst snd]. wp_step. wp_step. wp_step. wp_step. cbn [fst snd].
  apply HQ. by rewrite len_splice by lia.
Qed.

(** The handler of a vendor command around the command itself. *)
Lemma vendor_served c v code data n (sec : bool) s Q E :
  resp_wf s.1 -> speaks c s.1 -> len code = WOLFSPDM_VDCODE_LEN ->
  len data <= WOLFSPDM_MAX_TPM_MSG_SIZE -> len data <= 0xFFFF - WOLFSPDM_VDCODE_LEN ->
  negb sec && secured_only code = false ->
  (sec = true -> s.1.(rctx).(state) = WOLFSPDM_STATE_CONNECTED) ->
  (forall r1, calm c s.1 r1 -> wp (resp_command code data)
    (fun out s' => resp_wf s'.1 /\ speaks c s'.1 /\ len out <= WOLFSPDM_MAX_TPM_MSG_SIZE /\
       len out <= 0xFFFF - WOLFSPDM_VDCODE_LEN /\ 17 + len out <= n /\ forall r2, calm c s'.1 r2 ->
         Q (vendor_msg r2.(rctx).(spdmVersion) WOLFSPDM_VENDOR_DEFINED_RSP code out, code) (r2, s'.2))
    (fun rc s' => resp_wf s'.1 /\ speaks c s'.1 /\ forall r2, calm c s'.1 r2 -> E rc (r2, s'.2))
    (r1, s.2)) ->
  wp (RespHandleVendorDefined (vendor_msg v SPDM_VENDOR_DEFINED_REQUEST code data) n sec) Q E s.
Proof.
  destruct s as [r t]. cbn [fst snd]. intros Hwf Hs Hc Hd Hd' Hsec Hst Hcmd.
  unfold RespHandleVendorDefined, always, RespHandleVendorDefinedInner. do 3 wp_step.
  apply parse_vendor_wp; [done..|]. wp_step.
  pose proof (rw_scratch _ Hwf) as (_ & _ & Hin & _).
  apply store_wp; [cbn [fst]; by rewrite Hin|]. intros b Hb. cbn [fst snd] in *.
  pose proof (store_in_calm c r b Hwf Hs ltac:(by rewrite Hb)) as Hcalm.
  set (r1 := r <| vdInPayload := b |>) in *. clearbody r1. 
  wp_step. wp_step; [by rewrite Hsec in *|]. unfold get_r, set_r, on_r.
  do 3 wp_step. cbn [fst snd]. wp_step. wp_step.
  { destruct sec; [|done]. replace (state (rctx r1)) with WOLFSPDM_STATE_CONNECTED in *; [done|].
    destruct Hcalm as (_ & Hv & _). unfold pview, rview in Hv. injection Hv as _ _ _ _ _ _ Hv _.
    rewrite Hv. symmetry. by apply Hst. }
  wp_step. eapply wp_mono; [by apply Hcmd| |].
  - intros out [r2 t2]. cbn [fst snd]. intros (Hwf2 & Hs2 & Hl1 & Hl2 & Hl3 & HQ).
    pose proof (rw_scratch _ Hwf2) as (_ & _ & _ & Hout). pose proof (len_nonneg out).
    wp_step. apply store_wp; [cbn [fst]; by rewrite Hout|]. intros b' _. cbn [fst snd].
    wp_step. wp_step; [lia|]. do 3 wp_step. cbn [fst snd]. do 4 wp_step. cbn [fst snd]. wp_step.
    rewrite wipe_stored, w16_id by lia.
    specialize (HQ _ (wipe_calm c r2 Hwf2 Hs2)). by destruct r2 as [[]].
  - intros rc [r2 t2]. cbn [fst snd]. intros (Hwf2 & Hs2 & HE). do 2 wp_step. cbn [fst snd].
    apply HE. by apply wipe_calm.
Qed.

Lemma rd_head v cmd code data i (Q : Z -> SIDE -> Prop) E s :
  len code = WOLFSPDM_VDCODE_LEN -> i = 0 \/ i = 1 ->
  Q (if i =? 0 then v else cmd) s -> wp (rd (vendor_msg v cmd code data) i) Q E s.
Proof.
  intros Hc Hi HQ. pose proof (len_vendor_msg v cmd code data Hc). pose proof (len_nonneg data).
  apply wp_rd; [lia|]. intros x ->. by destruct Hi as [-> | ->].
Qed.

(** A clear vendor request of the requester reaches the command. *)
Lemma dispatch_vendor c code data n s Q E :
  resp_wf s.1 -> speaks c s.1 -> len code = WOLFSPDM_VDCODE_LEN ->
  len data <= WOLFSPDM_MAX_TPM_MSG_SIZE -> len data <= 0xFFFF - WOLFSPDM_VDCODE_LEN ->
  secured_only code = false -> bytes_eqb code WOLFSPDM_VDCODE_GET_PUBK = false ->
  (forall r1, calm c s.1 r1 -> wp (resp_command code data)
    (fun out s' => resp_wf s'.1 /\ speaks c s'.1 /\ len out <= WOLFSPDM_MAX_TPM_MSG_SIZE /\
       len out <= 0xFFFF - WOLFSPDM_VDCODE_LEN /\ 17 + len out <= n /\ forall r2, calm c s'.1 r2 ->
         Q (vendor_msg r2.(rctx).(spdmVersion) WOLFSPDM_VENDOR_DEFINED_RSP code out) (r2, s'.2))
    (fun rc s' => resp_wf s'.1 /\ speaks c s'.1 /\ forall r2, calm c s'.1 r2 -> E rc (r2, s'.2))
    (r1, s.2)) ->
  wp (dispatch WOLFSPDM_TCG_TAG_CLEAR
        (vendor_msg (vendor_ver c) SPDM_VENDOR_DEFINED_REQUEST code data) n) Q E s.
Proof.
  destruct s as [r t]. cbn [fst snd]. intros Hwf Hs Hc Hd Hd' Hsec Hpub Hcmd.
  pose proof (len_vendor_msg (vendor_ver c) SPDM_VENDOR_DEFINED_REQUEST code data Hc) as Hl.
  pose proof (len_nonneg data).
  change (dispatch WOLFSPDM_TCG_TAG_CLEAR) with (RespDispatchClear (T := T)).
  unfold RespDispatchClear. rewrite Hl.
  wp_step. wp_step; [lia|]. wp_step. apply rd_head; [done|by right|]. wp_step. apply rd_head; [done|by left|].
  cbn [Z.eqb]. change (SPDM_VENDOR_DEFINED_REQUEST =? SPDM_GET_VERSION) with false.
  change (SPDM_VENDOR_DEFINED_REQUEST =? SPDM_VENDOR_DEFINED_REQUEST) with true. cbv iota.
  wp_step. apply select_wp; [done|done|]. intros r1 Hcalm. pose proof Hcalm as (Hwf1 & _ & _ & _ & Hs1).
  unfold get_r, on_r. do 2 wp_step. wp_step. cbn [fst snd].
  change (SPDM_VENDOR_DEFINED_REQUEST =? SPDM_KEY_EXCHANGE) with false.
  change (SPDM_VENDOR_DEFINED_REQUEST =? SPDM_PSK_EXCHANGE) with false. cbn [negb andb orb].
  wp_step. wp_step; [done|]. unfold resp_clear_handler.
  change (SPDM_VENDOR_DEFINED_REQUEST =? SPDM_GET_VERSION) with false.
  change (SPDM_VENDOR_DEFINED_REQUEST =? SPDM_GET_CAPABILITIES) with false.
  change (SPDM_VENDOR_DEFINED_REQUEST =? SPDM_NEGOTIATE_ALGORITHMS) with false.
  change (SPDM_VENDOR_DEFINED_REQUEST =? SPDM_PSK_EXCHANGE) with false.
  change (SPDM_VENDOR_DEFINED_REQUEST =? SPDM_KEY_EXCHANGE) with false.
  change (SPDM_VENDOR_DEFINED_REQUEST =? SPDM_VENDOR_DEFINED_REQUEST) with true. cbv iota.
  wp_step. apply (vendor_served c); [done..|].
  intros r2 Hcalm2. eapply wp_mono; [apply Hcmd; by eapply calm_trans| |done].
  cbv beta. intros out [r3 t3]. cbn [fst snd]. intros (? & ? & ? & ? & ? & HQ).
  split_and!; [done..|]. intros r4 Hcalm4. rewrite Hpub. wp_step. wp_step; [done|]. wp_step. by apply HQ.
Qed.

Lemma at_vendor_msg v cmd code data : at_ (vendor_msg v cmd code data) 1 = cmd.
Proof. done. Qed.

Lemma vendor_msg_clear c r cmd code data : speaks c r ->
  is_clear_msg (vendor_msg (vendor_ver c) cmd code data) = true.
Proof.
  intros [Hv _]. pose proof RESP_MAX_range. unfold is_clear_msg.
  change (at_ (vendor_msg (vendor_ver c) cmd code data) 0) with (vendor_ver c).
  replace (0 <? len _) with true; [lia|].
  symmetry. apply Z.ltb_lt. unfold vendor_msg. rewrite len_app. pose proof (len_nonneg
    (SPDM_Set16LE 1 ++ [0] ++ SPDM_Set16LE (WOLFSPDM_VDCODE_LEN + len data) ++ code ++ data)).
  change (len [_; _; _; _]) with 4. lia.
Qed.

Lemma is_bytes_vendor_msg v cmd code data : is_byte v -> is_byte cmd -> is_bytes code -> is_bytes data ->
  is_bytes (vendor_msg v cmd code data).
Proof.
  intros Hv Hcmd Hc Hd. unfold vendor_msg.
  repeat apply is_bytes_app; try done; try apply is_bytes_Set16LE;
    repeat (apply List.Forall_cons; [done|]); apply List.Forall_nil.
Qed.

(** The requester end of a clear vendor command, over the wire. *)
Lemma VendorCmdClear_wire code payload (wanted : bool) c s Q E :
  let data := opt_bytes payload in
  ctx_wf c -> c.(ioCb) <> 0 -> wolfSPDM_IsTcgMode c = true ->
  resp_wf s.1 -> serving s.1 -> speaks c s.1 ->
  len code = WOLFSPDM_VDCODE_LEN -> is_bytes code -> Forall (fun b => b <> 0) code ->
  17 + len data <= WOLFSPDM_VENDOR_BUF_SZ -> len data <= WOLFSPDM_MAX_TPM_MSG_SIZE ->
  secured_only code = false -> bytes_eqb code WOLFSPDM_VDCODE_GET_PUBK = false ->
  (forall r1, resp_wf r1 -> pview r1 = pview s.1 ->
     conn_view r1 = (c.(connectionHandle), c.(fipsIndicator)) -> speaks c r1 ->
     wp (resp_command code data)
       (fun out s' => resp_wf s'.1 /\ speaks c s'.1 /\ conn_view s'.1 = conn_view r1 /\
          is_bytes out /\ len out <= WOLFSPDM_MAX_TPM_MSG_SIZE /\ len out <= WOLFSPDM_VENDOR_BUF_SZ /\
          forall r2, calm c s'.1 r2 -> Q (if wanted then (code, out) else ([], [])) (c, (r2, s'.2)))
       (fun rc s' => resp_wf s'.1 /\ speaks c s'.1 /\
          forall r2, calm c s'.1 r2 -> E WOLFSPDM_E_IO_FAIL (c, (r2, s'.2))) (r1, s.2)) ->
  wp (wolfSPDM_TCG_VendorCmdClear code payload (len data) wanted) Q E (c, s).
Proof.
  intros data. destruct s as [r t]. cbn [fst snd]. intros Hwf Hio Hmode Hrwf Hsrv Hsp Hc Hcb Hnz Hd Hdm Hsec Hpub Hcmd.
  destruct (ctx_wf_link c Hwf) as (Hcn & Hfp & _). pose proof (len_nonneg data).
  pose proof (len_vendor_msg (vendor_ver c) SPDM_VENDOR_DEFINED_REQUEST code data Hc) as Hl.
  assert (WOLFSPDM_MAX_TPM_MSG_SIZE = WOLFSPDM_MAX_MSG_SIZE) as Hmax by done.
  unfold wolfSPDM_TCG_VendorCmdClear. do 3 io_step.
  eapply wp_run; [apply BuildVendorDefined_run; [done|done|fold data; lia|fold data; lia]|]. fold data. io_step.
  apply SendReceive_wire; [done..|rewrite Hl; unfold TCG_BUF_SZ, WOLFSPDM_AEAD_OVERHEAD in *; lia|].
  rewrite (vendor_msg_clear c r) by done.
  destruct (framed_calm c _ _ r Hrwf Hsp Hcn Hfp) as (Hwf1 & Hv1 & Hcv1 & Hs1). cbn [fst snd].
  apply (dispatch_vendor c); [done..|lia|done|done|]. cbn [fst snd].
  intros r1 (Hwf2 & Hv2 & Hcv2 & _ & Hs2).
  eapply wp_mono; [apply Hcmd; [done|congruence|congruence|done]| |].
  - cbv beta. intros out [r3 t3]. cbn [fst snd]. intros (? & ? & Hcv3 & Hob & Ho1 & Ho2 & HQ).
    split_and!; [done..|lia|unfold TCG_BUF_SZ, WOLFSPDM_AEAD_OVERHEAD in *; lia|].
    intros r4 Hcalm. pose proof Hcalm as (Hwf4 & _ & Hcv4 & _ & Hs4).
    assert (conn_view r4 = (connectionHandle c, fipsIndicator c)) as Hcv by congruence.
    unfold conn_view in Hcv. injection Hcv as Hcv Hfv. cbn [fst snd].
    pose proof (len_vendor_msg (spdmVersion (rctx r4)) WOLFSPDM_VENDOR_DEFINED_RSP code out Hc) as Hlr.
    destruct (ctx_wf_link _ (rw_ctx _ Hwf4)) as (_ & _ & Hvb).
    split_and!; [by apply is_bytes_vendor_msg; [..|done|done]|lia|unfold TCG_BUF_SZ, WOLFSPDM_AEAD_OVERHEAD in *; lia
      |done|done|].
    rewrite at_vendor_msg. change (WOLFSPDM_VENDOR_DEFINED_RSP =? SPDM_ERROR) with false.
    rewrite andb_false_r. io_step. io_step; [done|].
    destruct wanted; [|io_step; by apply HQ].
    io_step. apply parse_vendor_wp; [done|lia|lia|]. io_step. io_step; [|io_step; by apply HQ].
    rewrite sub_bytes_all, bytes_eqb_refl in * by done. done.
  - cbv beta. intros rc [r3 t3]. cbn [fst snd]. intros (? & ? & HE). split_and!; [done..|].
    intros r4 Hcalm. by apply HE.
Qed.

(** ** Provisioning *)

Lemma get_sts_wp data s (Q : bytes -> SIDE -> Prop) E :
  Q [0; 4; if s.1.(rflags).(pskProvisioned) then 1 else 0;
     if s.1.(rflags).(spdmOnlyLock) then 1 else 0] s ->
  wp (resp_command WOLFSPDM_VDCODE_GET_STS data) Q E s.
Proof.
  intros HQ. change (resp_command WOLFSPDM_VDCODE_GET_STS data) with (resp_get_sts (T := T)).
  unfold resp_get_sts, get_r, on_r. do 3 wp_step. destruct s. by wp_step.
Qed.

Lemma psk_set_wp key digest s (Q : bytes -> SIDE -> Prop) E :
  len key = WOLFSPDM_PSK_MAX_SIZE -> len digest = WOLFSPDM_HASH_SIZE ->
  s.1.(rflags).(clearAuthSet) = false -> s.1.(pskStoreSz) = 0 ->
  Q [] (psk_stored key digest s.1, s.2) ->
  wp (resp_command VDCODE_PSK_SET (key ++ digest)) Q E s.
Proof.
  destruct s as [r t]. cbn [fst snd]. intros Hk Hd Hset Hsz HQ.
  change (resp_command VDCODE_PSK_SET (key ++ digest)) with (resp_psk_set (T := T) (key ++ digest)).
  assert (len (key ++ digest) = WOLFSPDM_PSK_MAX_SIZE + WOLFSPDM_HASH_SIZE) as Hl
    by (rewrite len_app; lia).
  unfold resp_psk_set, get_r, set_r, on_r. rewrite Hl. cbv zeta.
  wp_step. wp_step; [lia|]. do 3 wp_step. cbn [fst snd]. wp_step. rewrite Hset. wp_step; [done|].
  do 4 wp_step.
  rewrite sub_bytes_app_l, sub_bytes_app_r by lia. rewrite Hsz.
  wp_step. wp_step; [done|]. wp_step. wp_step; [done|]. do 3 wp_step. wp_step. exact HQ.
Qed.

Lemma psk_clr_wp auth digest s (Q : bytes -> SIDE -> Prop) E :
  len auth = 32 -> sha384 auth [] [] = Some digest ->
  s.1.(rflags).(pskProvisioned) = true -> s.1.(clearAuthDigest) = digest ->
  Q [] (psk_cleared s.1, s.2) -> wp (resp_command VDCODE_PSK_CLR auth) Q E s.
Proof.
  destruct s as [r t]. cbn [fst snd]. intros Ha Hd Hset Hdig HQ.
  change (resp_command VDCODE_PSK_CLR auth) with (resp_psk_clr (T := T) auth).
  unfold resp_psk_clr, get_r, set_r, on_r. rewrite Ha. do 3 wp_step. cbn [fst snd]. rewrite Hset.
  wp_step. wp_step; [done|]. wp_step. destruct (sha384_size _ _ _ _ Hd) as [Hdl Hdb].
  eapply wp_run; [by rewrite Sha384Hash_run, Hd|]. rewrite Hdig.
  replace (wolfSPDM_ConstCompare digest digest WOLFSPDM_HASH_SIZE) with 0.
  2: { symmetry. apply wolfSPDM_ConstCompare_eq; done || lia. }
  wp_step. wp_step; [done|]. do 3 wp_step. wp_step. exact HQ.
Qed.

Lemma pview_flags r r' : pview r' = pview r -> rflags r' = rflags r.
Proof. unfold pview. congruence. Qed.

(** A TCG-mode requester and a responder that can talk. *)
Definition ready c r : Prop :=
  (ctx_wf c /\ c.(ioCb) <> 0 /\ wolfSPDM_IsTcgMode c = true) /\ resp_wf r /\ serving r /\ speaks c r.

Lemma ready_calm c r r' : ready c r -> pview r' = pview r -> resp_wf r' -> speaks c r' -> ready c r'.
Proof.
  intros (? & ? & ? & ?) Hf%pview_flags ? ?. unfold ready, serving. by rewrite Hf.
Qed.

Definition nations_status (psk lock : bool) : Nations.WOLFSPDM_NATIONS_STATUS := {|
  Nations.spdmEnabled := true; Nations.sessionActive := false;
  Nations.spdmOnlyLocked := lock; Nations.spdmOnlyPending := false;
  Nations.pskProvisioned := psk; Nations.identityKeyProvisioned := false |}.
Definition infineon_status (psk lock : bool) : Infineon.WOLFSPDM_INFINEON_STATUS := {|
  Infineon.spdmEnabled := true; Infineon.sessionActive := false; Infineon.spdmOnlyLocked := lock;
  Infineon.spdmOnlyPending := false; Infineon.pskProvisioned := psk |}.
Definition nuvoton_status (lock : bool) : Nuvoton.WOLFSPDM_NUVOTON_STATUS := {|
  Nuvoton.spdmEnabled := true; Nuvoton.sessionActive := false; Nuvoton.spdmOnlyLocked := lock;
  Nuvoton.specVersionMajor := 0; Nuvoton.specVersionMinor := 4 |}.
Definition status_of r := nations_status r.(rflags).(pskProvisioned) r.(rflags).(spdmOnlyLock).

(** What GET_STATUS answers. *)
Definition status_payload r : bytes :=
  [0; 4; if r.(rflags).(pskProvisioned) then 1 else 0; if r.(rflags).(spdmOnlyLock) then 1 else 0].

Lemma get_sts_wire payload c s Q E : ready c s.1 -> len (opt_bytes payload) <= 4 ->
  4 <= WOLFSPDM_MAX_TPM_MSG_SIZE ->
  (forall r1, ready c r1 -> pview r1 = pview s.1 ->
     Q (WOLFSPDM_VDCODE_GET_STS, status_payload s.1) (c, (r1, s.2))) ->
  wp (wolfSPDM_TCG_VendorCmdClear WOLFSPDM_VDCODE_GET_STS payload (len (opt_bytes payload)) true)
    Q E (c, s).
Proof.
  intros Hr Hp Hm HQ. pose proof Hr as ((Hwf & Hio & Hmode) & Hrwf & Hsrv & Hsp).
  apply VendorCmdClear_wire; try done.
  1, 2: repeat (apply List.Forall_cons; [done|]); apply List.Forall_nil.
  1, 2: lia.
  intros r1 Hwf1 Hv1 Hc1 Hs1. apply get_sts_wp. cbn [fst snd].
  pose proof (pview_flags _ _ Hv1) as Hf1. split_and!; try done.
  { destruct (pskProvisioned _), (spdmOnlyLock _); repeat (apply List.Forall_cons; [done|]); apply List.Forall_nil. }
  intros r2 (Hwf2 & Hv2 & Hc2 & _ & Hs2). rewrite Hf1.
  assert (pview r2 = pview s.1) as Hv by (by rewrite Hv2). apply HQ; [by eapply ready_calm|done].
Qed.

Lemma Nations_GetStatus_wire c s Q E : ready c s.1 -> 4 <= WOLFSPDM_MAX_TPM_MSG_SIZE ->
  (forall r1, ready c r1 -> pview r1 = pview s.1 -> Q (status_of s.1) (c, (r1, s.2))) ->
  wp Nations.wolfSPDM_Nations_GetStatus Q E (c, s).
Proof.
  intros Hr Hm HQ. unfold Nations.wolfSPDM_Nations_GetStatus. io_step.
  apply (get_sts_wire None); [done|done|done|]. intros r1 Hr1 Hv1. specialize (HQ r1 Hr1 Hv1).
  unfold status_of, nations_status in HQ. unfold status_payload.
  by destruct (pskProvisioned (rflags s.1)), (spdmOnlyLock (rflags s.1)).
Qed.

Lemma Infineon_GetStatus_wire c s Q E : ready c s.1 -> 4 <= WOLFSPDM_MAX_TPM_MSG_SIZE ->
  (forall r1, ready c r1 -> pview r1 = pview s.1 ->
     Q (infineon_status s.1.(rflags).(pskProvisioned) s.1.(rflags).(spdmOnlyLock)) (c, (r1, s.2))) ->
  wp Infineon.wolfSPDM_Infineon_GetStatus Q E (c, s).
Proof.
  intros Hr Hm HQ. unfold Infineon.wolfSPDM_Infineon_GetStatus. io_step.
  apply (get_sts_wire None); [done|done|done|]. intros r1 Hr1 Hv1. specialize (HQ r1 Hr1 Hv1).
  unfold status_payload. by destruct (pskProvisioned (rflags s.1)), (spdmOnlyLock (rflags s.1)).
Qed.

(** The minor version is the responder's second status byte. *)
Lemma Nuvoton_GetStatus_wire c s Q E : ready c s.1 -> 4 <= WOLFSPDM_MAX_TPM_MSG_SIZE ->
  (forall r1, ready c r1 -> pview r1 = pview s.1 ->
     Q (nuvoton_status s.1.(rflags).(spdmOnlyLock)) (c, (r1, s.2))) ->
  wp Nuvoton.wolfSPDM_Nuvoton_GetStatus Q E (c, s).
Proof.
  intros Hr Hm HQ. unfold Nuvoton.wolfSPDM_Nuvoton_GetStatus. io_step.
  apply (get_sts_wire (Some [0; 0; 0; 0])); [done|done|done|]. intros r1 Hr1 Hv1. specialize (HQ r1 Hr1 Hv1).
  unfold status_payload. by destruct (pskProvisioned (rflags s.1)), (spdmOnlyLock (rflags s.1)).
Qed.

Lemma pview_stored key digest r : pview (psk_stored key digest r) =
  let '(f, _, _, t, v) := pview r in
  (f <| pskProvisioned := true |> <| clearAuthSet := true |>, (key, WOLFSPDM_PSK_MAX_SIZE), digest, t, v).
Proof. by destruct r as [[]]. Qed.

Lemma pview_cleared r : pview (psk_cleared r) =
  let '(f, _, _, t, v) := pview r in
  (f <| pskProvisioned := false |> <| clearAuthSet := false |>, (zeros WOLFSPDM_PSK_MAX_SIZE, 0),
   zeros WOLFSPDM_HASH_SIZE, t, v).
Proof. by destruct r as [[]]. Qed.

Lemma provision_link c (f : WOLFSPDM_RESP_CTX -> WOLFSPDM_RESP_CTX) r :
  (exists key digest, f = psk_stored key digest) \/ f = psk_cleared ->
  conn_view (f r) = conn_view r /\ (speaks c r -> speaks c (f r)) /\ (serving r -> serving (f r)).
Proof.
  intros [(key & digest & ->)| ->]; destruct r as [[]]; cbn; unfold speaks, serving; by split_and!.
Qed.

(** A command that answers with no payload and leaves [f] of the responder. *)
Lemma silent_command_wire code data f c s Q E :
  ready c s.1 -> 0 < len data -> len data <= WOLFSPDM_MAX_TPM_MSG_SIZE ->
  17 + len data <= WOLFSPDM_VENDOR_BUF_SZ ->
  code = VDCODE_PSK_SET \/ code = VDCODE_PSK_CLR ->
  (exists key digest, f = psk_stored key digest) \/ f = psk_cleared ->
  (forall r1, resp_wf r1 -> pview r1 = pview s.1 -> resp_wf (f r1) /\
     forall Q' E', Q' [] (f r1, s.2) -> wp (resp_command code data) Q' E' (r1, s.2)) ->
  (forall r2, ready c r2 -> pview r2 = pview (f s.1) -> Q tt (c, (r2, s.2))) ->
  wp (wolfSPDM_TCG_VendorCmdClear code (Some data) (len data) false ;;; ret tt) Q E (c, s).
Proof.
  intros Hr Hpos Hm Hd Hcode Hf Hcmd HQ. pose proof Hr as ((Hwf & Hio & Hmode) & Hrwf & Hsrv & Hsp).
  io_step. apply (VendorCmdClear_wire code (Some data)); try done.
  1-5: destruct Hcode as [-> | ->]; try done; repeat (apply List.Forall_cons; [done|]); apply List.Forall_nil.
  intros r1 Hwf1 Hv1 Hc1 Hs1. destruct (Hcmd r1 Hwf1 Hv1) as [Hwff Hrun].
  destruct (provision_link c f r1 Hf) as (Hcf & Hsf & Hsvf). cbn [opt_bytes default from_option].
  apply Hrun. cbn [fst snd]. pose proof (len_nonneg data).
  split_and!; [done|by apply Hsf|done|apply List.Forall_nil|change (len []) with 0; lia|done|].
  intros r2 (Hwf2 & Hv2 & Hc2 & _ & Hs2). wp_step. apply HQ.
  - unfold ready. split_and!; try done; unfold serving in *; rewrite (pview_flags _ _ Hv2);
      apply Hsvf; by rewrite (pview_flags _ _ Hv1).
  - rewrite Hv2. destruct Hf as [(key & digest & ->)| ->]; rewrite ?pview_stored, ?pview_cleared; by rewrite Hv1.
Qed.

Lemma PskSet_wire key digest c s Q E :
  ready c s.1 -> len key = WOLFSPDM_PSK_MAX_SIZE -> is_bytes key ->
  len digest = WOLFSPDM_HASH_SIZE -> is_bytes digest ->
  WOLFSPDM_PSK_MAX_SIZE + WOLFSPDM_HASH_SIZE <= WOLFSPDM_MAX_TPM_MSG_SIZE ->
  s.1.(rflags).(clearAuthSet) = false -> s.1.(pskStoreSz) = 0 ->
  (forall r2, ready c r2 -> pview r2 = pview (psk_stored key digest s.1) -> Q tt (c, (r2, s.2))) ->
  wp (Nations.wolfSPDM_Nations_PskSet (key ++ digest)) Q E (c, s).
Proof.
  intros Hr Hk Hkb Hd Hdb Hm Hset Hsz HQ. unfold Nations.wolfSPDM_Nations_PskSet.
  assert (len (key ++ digest) = WOLFSPDM_PSK_MAX_SIZE + WOLFSPDM_HASH_SIZE) as Hl by (rewrite len_app; lia).
  io_step. io_step; [lia|].
  apply (silent_command_wire _ _ (psk_stored key digest)); [done|lia|lia|lia|by left|left; eauto| |done].
  intros r1 Hwf1 Hv1. split; [by apply psk_stored_wf|]. intros Q' E' HQ'.
  apply psk_set_wp; cbn [fst snd]; [done|done|by rewrite (pview_flags _ _ Hv1)| |done].
  unfold pview in Hv1. congruence.
Qed.

Lemma PskClear_wire auth digest c s Q E :
  ready c s.1 -> len auth = 32 -> sha384 auth [] [] = Some digest -> 32 <= WOLFSPDM_MAX_TPM_MSG_SIZE ->
  s.1.(rflags).(pskProvisioned) = true -> s.1.(clearAuthDigest) = digest ->
  (forall r2, ready c r2 -> pview r2 = pview (psk_cleared s.1) -> Q tt (c, (r2, s.2))) ->
  wp (Nations.wolfSPDM_Nations_PskClear auth) Q E (c, s).
Proof.
  intros Hr Ha Hd Hm Hset Hdig HQ. unfold Nations.wolfSPDM_Nations_PskClear.
  io_step. io_step; [lia|].
  apply (silent_command_wire _ _ psk_cleared); [done|lia|lia|lia|by right|by right| |done].
  intros r1 Hwf1 Hv1. split; [by apply psk_cleared_wf|]. intros Q' E' HQ'.
  eapply psk_clr_wp; cbn [fst snd]; [done|done|by rewrite (pview_flags _ _ Hv1)| |done].
  unfold pview in Hv1. congruence.
Qed.

Lemma abs_stored key digest r (t : T) : len key = WOLFSPDM_PSK_MAX_SIZE ->
  abs_state (psk_stored key digest r, t) =
  (abs_state (r, t)) <| sp_psk := key |> <| sp_clear := Some digest |>.
Proof.
  intros Hk. pose proof (sub_bytes_all key WOLFSPDM_PSK_MAX_SIZE ltac:(done)) as Hs. destruct r as [[]].
  unfold abs_state, psk_stored. cbn [fst snd]. field_simpl.
  change (sub_bytes _ _ _) with (sub_bytes key 0 WOLFSPDM_PSK_MAX_SIZE) at 1. by rewrite Hs.
Qed.

Lemma abs_cleared r (t : T) :
  abs_state (psk_cleared r, t) = (abs_state (r, t)) <| sp_psk := [] |> <| sp_clear := None |>.
Proof. by destruct r as [[]]. Qed.

Lemma abs_unset r (t : T) : r.(rflags).(clearAuthSet) = false -> r.(pskStoreSz) = 0 ->
  (abs_state (r, t)) <| sp_psk := [] |> <| sp_clear := None |> = abs_state (r, t).
Proof. unfold abs_state. cbn [fst snd]. by intros -> ->. Qed.

(** The three queries, as runs. *)
Lemma status_reported c r (t : T) : ready c r -> 4 <= WOLFSPDM_MAX_TPM_MSG_SIZE ->
  (exists r', Nations.wolfSPDM_Nations_GetStatus (c, (r, t)) = Ok (status_of r) (c, (r', t)) /\
     ready c r' /\ pview r' = pview r) /\
  (exists r', Infineon.wolfSPDM_Infineon_GetStatus (c, (r, t)) =
     Ok (infineon_status r.(rflags).(pskProvisioned) r.(rflags).(spdmOnlyLock)) (c, (r', t))) /\
  (exists r', Nuvoton.wolfSPDM_Nuvoton_GetStatus (c, (r, t)) =
     Ok (nuvoton_status r.(rflags).(spdmOnlyLock)) (c, (r', t))).
Proof.
  intros Hr Hm. split_and!.
  - destruct (wp_total Nations.wolfSPDM_Nations_GetStatus (fun st x => exists r',
      (st = status_of r /\ x = (c, (r', t))) /\ ready c r' /\ pview r' = pview r) (c, (r, t)))
      as (st & ? & R & r' & [-> ->] & Hr' & Hv'); [|by exists r'].
    apply Nations_GetStatus_wire; [done|done|]. intros r' ? ?. by exists r'.
  - destruct (wp_total Infineon.wolfSPDM_Infineon_GetStatus (fun st x => exists r',
      st = infineon_status r.(rflags).(pskProvisioned) r.(rflags).(spdmOnlyLock) /\ x = (c, (r', t)))
      (c, (r, t))) as (st & ? & R & r' & -> & ->); [|by exists r'].
    apply Infineon_GetStatus_wire; [done|done|]. intros r' ? ?. by exists r'.
  - destruct (wp_total Nuvoton.wolfSPDM_Nuvoton_GetStatus (fun st x => exists r',
      st = nuvoton_status r.(rflags).(spdmOnlyLock) /\ x = (c, (r', t))) (c, (r, t)))
      as (st & ? & R & r' & -> & ->); [|by exists r'].
    apply Nuvoton_GetStatus_wire; [done|done|]. intros r' ? ?. by exists r'.
Qed.

(** C12: a pre-shared key makes the whole round.  A TCG-mode requester and this
    repository's responder, whatever the cryptographic functions, the session
    state and the TPM: over a responder without a key, PSK_SET with a 64-byte
    key and the digest of a clearing secret succeeds and stores exactly these;
    GET_STATUS then answers and reports the key as provisioned, and the lock
    as it is, to the functions of the three vendors; PSK_CLEAR with the secret
    succeeds, and the next status reports no key.  Every command gets its
    answer, the requester's context is not touched, and the responder ends as
    it began. *)
Theorem psk_provisioning_cycle key digest auth c r (t : T) :
  ready c r -> WOLFSPDM_PSK_MAX_SIZE + WOLFSPDM_HASH_SIZE <= WOLFSPDM_MAX_TPM_MSG_SIZE ->
  len key = WOLFSPDM_PSK_MAX_SIZE -> is_bytes key -> len auth = 32 ->
  sha384 auth [] [] = Some digest ->
  r.(rflags).(clearAuthSet) = false -> r.(pskStoreSz) = 0 ->
  exists r1 r2 r3 r4,
    Nations.wolfSPDM_Nations_PskSet (key ++ digest) (c, (r, t)) = Ok tt (c, (r1, t)) /\
    Nations.wolfSPDM_Nations_GetStatus (c, (r1, t)) =
      Ok (nations_status true r.(rflags).(spdmOnlyLock)) (c, (r2, t)) /\
    (exists r5, Infineon.wolfSPDM_Infineon_GetStatus (c, (r1, t)) =
      Ok (infineon_status true r.(rflags).(spdmOnlyLock)) (c, (r5, t))) /\
    (exists r5, Nuvoton.wolfSPDM_Nuvoton_GetStatus (c, (r1, t)) =
      Ok (nuvoton_status r.(rflags).(spdmOnlyLock)) (c, (r5, t))) /\
    Nations.wolfSPDM_Nations_PskClear auth (c, (r2, t)) = Ok tt (c, (r3, t)) /\
    Nations.wolfSPDM_Nations_GetStatus (c, (r3, t)) =
      Ok (nations_status false r.(rflags).(spdmOnlyLock)) (c, (r4, t)) /\
    abs_state (r1, t) = (abs_state (r, t)) <| sp_psk := key |> <| sp_clear := Some digest |> /\
    abs_state (r4, t) = abs_state (r, t).
Proof.
  intros Hr Hm Hk Hkb Ha Hd Hset Hsz. destruct (sha384_size _ _ _ _ Hd) as [Hdl Hdb].
  assert (4 <= WOLFSPDM_MAX_TPM_MSG_SIZE) as Hm4 by lia.
  destruct (wp_total (Nations.wolfSPDM_Nations_PskSet (key ++ digest)) (fun _ x => exists r1,
    x = (c, (r1, t)) /\ ready c r1 /\ pview r1 = pview (psk_stored key digest r)) (c, (r, t)))
    as ([] & ? & R1 & r1 & -> & Hr1 & Hv1).
  { apply PskSet_wire; try done. intros r1 ? ?. by exists r1. }
  destruct (status_reported c r1 t Hr1 Hm4) as ((r2 & R2 & Hr2 & Hv2) & Ri & Rn).
  destruct (wp_total (Nations.wolfSPDM_Nations_PskClear auth) (fun _ x => exists r3,
    x = (c, (r3, t)) /\ ready c r3 /\ pview r3 = pview (psk_cleared r2)) (c, (r2, t)))
    as ([] & ? & R3 & r3 & -> & Hr3 & Hv3).
  { rewrite Hv1 in Hv2. apply (PskClear_wire _ digest); try done; cbn [fst snd]; [lia|..].
    - by rewrite (pview_flags _ _ Hv2).
    - rewrite pview_stored in Hv2. unfold pview in Hv2. cbn [fst snd]. congruence.
    - intros r3 ? ?. by exists r3. }
  destruct (status_reported c r3 t Hr3 Hm4) as ((r4 & R4 & Hr4 & Hv4) & _).
  rewrite Hv1 in Hv2. rewrite pview_cleared, Hv2, <- (pview_cleared (psk_stored key digest r)) in Hv3.
  rewrite Hv3 in Hv4. exists r1, r2, r3, r4. split; [exact R1|].
  pose proof (pview_flags _ _ Hv1) as Hf1. pose proof (pview_flags _ _ Hv3) as Hf3.
  split; [rewrite R2; unfold status_of; by rewrite Hf1|].
  split; [by rewrite Hf1 in Ri|]. split; [by rewrite Hf1 in Rn|].
  split; [exact R3|].
  split; [rewrite R4; unfold status_of; by rewrite Hf3|].
  split; [by rewrite (abs_pview _ _ t Hv1), abs_stored|].
  by rewrite (abs_pview _ _ t Hv4), abs_cleared, abs_stored, <- (abs_unset r).
Qed.
End Wire.
