(* ===== verification/WireSession.v ===== *)
(** * Vendor commands inside a session

    The composition of Wire.v continued for secured messages: the SPDM-only
    switch from the requester's call through the record layers of both sides
    to the responder's lock, and its answer back. *)
From Stdlib Require Import ZArith Lia String.
From stdpp Require Import base tactics list numbers option.
From S2P Require Import Prelude Types Bytes Crypt Context Transcript Kdf CryptoOps Transport.
From S2P Require Import Secured Msg Chunk Cert Attest Session Standard Tcg Psk Vendor.
From S2P Require Import Responder RespSpec RespRefine Wire.

Section Link.
Context `{WolfCrypt} `{Config} `{!CryptSizes} `{!RecordFits} `{!TranscriptFits} `{!GcmRoundTrip}.
Implicit Types (q c : WOLFSPDM_CTX).

(** What records leave alone on either side. *)
Definition side_view c :=
  (c.(connectionHandle), c.(fipsIndicator), c.(spdmVersion), rview c, c.(ioCb), c.(ioUserCtx)).

Lemma linked_views q c : linked q c <-> rec_view c = rec_view q.
Proof.
  unfold linked, rec_view. destruct c, q. split.
  - intros [[? ? ? ? ?] [? ? ? ? ?]]. unfold wolfSPDM_IsTcgMode in *. cbn in *. congruence.
  - unfold wolfSPDM_IsTcgMode. cbn. intros [=]. split; split; unfold wolfSPDM_IsTcgMode; cbn; congruence.
Qed.

Lemma rng_rec_view c c' : rng_step c c' -> rec_view c' = rec_view c /\ side_view c' = side_view c.
Proof. intros [->|[r ->]]; [done|by destruct c]. Qed.

Lemma sent_side c : side_view (seq_sent c) = side_view c.
Proof. by destruct c. Qed.
Lemma rcvd_side c : side_view (seq_rcvd c) = side_view c.
Proof. by destruct c. Qed.
Lemma swapped_side c : side_view (swapped c) = side_view c.
Proof. by destruct c. Qed.

(** A record of a TCG session starts with the low byte of the session number. *)
Lemma record_first c plain rec : wolfSPDM_IsTcgMode c = true -> is_record false c plain rec ->
  is_bytes rec /\ at_ rec 0 = Z.land c.(sessionId) 0xFF.
Proof.
  intros Ht (rnd & aes & cipher & tag & Hrec). cbv zeta in Hrec. destruct Hrec as (_ & _ & Henc & -> & _).
  destruct (gcm_enc_size _ _ _ _ _ _ Henc) as (_ & _ & Hc & Htag). unfold rec_hdr. rewrite Ht. split.
  - repeat apply is_bytes_app; try done;
      first [apply is_bytes_Set32LE|apply is_bytes_Set64LE|apply is_bytes_Set16LE].
  - done.
Qed.

(** The requester's half: the record goes out, and the responder can read it. *)
Lemma send_request_wp plain n c q Q E :
  ctx_wf q -> linked q c -> wolfSPDM_IsTcgMode q = true ->
  (forall rec q', ctx_wf q' -> side_view q' = side_view q -> wolfSPDM_IsTcgMode q' = true ->
     q'.(sessionId) = q.(sessionId) -> q'.(state) = q.(state) ->
     is_bytes rec -> at_ rec 0 = Z.land q.(sessionId) 0xFF -> len rec <= n ->
     (forall m, len plain <= m -> RespDecrypt rec m c = Ok plain (answered_by c)) ->
     linked q' (answered_by c) -> Q rec q') ->
  (forall rc q', rc < 0 -> ctx_wf q' -> side_view q' = side_view q -> rec_view q' = rec_view q -> E rc q') ->
  wp (wolfSPDM_EncryptInternal plain n) Q E q.
Proof.
  intros Hwf Hl Ht HQ HE.
  assert (forall rec q', wolfSPDM_EncryptInternal plain n q = Ok rec q' -> forall m, len plain <= m ->
    RespDecrypt rec m c = Ok plain (answered_by c) /\ linked q' (answered_by c)) as Hdel.
  { intros rec q' Henc m Hm. by apply (request_delivered plain n m rec q q' c). }
  apply wp_intro.
  - eapply wp_no_ub. by apply (EncryptRecord_wp _ _ _ _ (fun _ _ => True) (fun _ _ => True)).
  - intros rec q' Henc. pose proof (Hdel rec q' Henc) as Hd.
    eapply wp_ok in Henc; [|apply (EncryptRecord_wp _ _ _ _ (fun rec q' => len rec <= n /\
      is_record false q plain rec /\ exists q2, rng_step q q2 /\ q' = seq_sent q2) (fun _ _ => True)); eauto].
    destruct Henc as (Hn & Hrec & q2 & Hs & ->). destruct (rng_rec_view _ _ Hs) as [Hr Hv].
    destruct (record_first q plain rec Ht Hrec) as [Hb Hf].
    assert (wolfSPDM_IsTcgMode q2 = true /\ q2.(sessionId) = q.(sessionId)) as [Ht2 Hi2]
      by (unfold rec_view in Hr; split; congruence).
    apply HQ; try done.
    + by eapply seq_sent_wf, rng_step_wf.
    + unfold side_view, rview in Hv. change (state q2 = state q). congruence.
    + intros m Hm. by apply Hd.
    + by apply (Hd (len plain)).
  - intros rc q' Henc.
    eapply wp_err in Henc; [|apply (EncryptRecord_wp _ _ _ _ (fun _ _ => True)
      (fun rc q' => rc < 0 /\ rng_step q q')); eauto].
    destruct Henc as [? Hs]. destruct (rng_rec_view _ _ Hs). apply HE; try done. by eapply rng_step_wf.
Qed.

Lemma answered_side c : side_view (answered_by c) = side_view c.
Proof. by destruct c. Qed.
Lemma answered_wf c : ctx_wf c -> ctx_wf (answered_by c).
Proof. intros. by apply swapped_wf, seq_rcvd_wf, swapped_wf. Qed.

(** The responder's half: its answer can be read by the requester, and a
    failure to encrypt it leaves the records in step. *)
Lemma send_answer_wp plain n c q Q E :
  ctx_wf c -> linked q c -> wolfSPDM_IsTcgMode q = true ->
  (forall rec c', ctx_wf c' -> side_view c' = side_view c -> is_bytes rec -> len rec <= n ->
     (forall m, len plain <= m -> wolfSPDM_DecryptInternal rec m q = Ok plain (seq_rcvd q)) ->
     linked (seq_rcvd q) c' -> Q rec c') ->
  (forall rc c', rc < 0 -> ctx_wf c' -> side_view c' = side_view c -> linked q c' -> E rc c') ->
  wp (RespEncrypt plain n) Q E c.
Proof.
  intros Hwf Hl Ht HQ HE. pose proof (swapped_wf c Hwf) as Hswf.
  assert (wolfSPDM_IsTcgMode (swapped c) = true) as Hts.
  { apply linked_views in Hl. unfold rec_view in Hl. replace (wolfSPDM_IsTcgMode (swapped c))
      with (wolfSPDM_IsTcgMode c) by (by destruct c). congruence. }
  assert (forall rec c', RespEncrypt plain n c = Ok rec c' -> forall m, len plain <= m ->
    wolfSPDM_DecryptInternal rec m q = Ok plain (seq_rcvd q) /\ linked (seq_rcvd q) c') as Hdel.
  { intros rec c' Henc m Hm. by apply (answer_delivered plain n m rec q c c'). }
  pose proof (EncryptRecord_wp false plain n (swapped c) (fun rec c2 => len rec <= n /\
    is_record false (swapped c) plain rec /\ exists c1, rng_step (swapped c) c1 /\ c2 = seq_sent c1)
    (fun rc c1 => rc < 0 /\ rng_step (swapped c) c1) Hswf) as Hrun.
  unfold wp in Hrun |- *. unfold RespEncrypt, RespSwapDataDir, wolfSPDM_EncryptInternal, bind, modify, on_err, ret
    in Hdel |- *.
  destruct (wolfSPDM_EncryptRecord false plain n (swapped c)) as [rec c2|rc c1|].
  - destruct Hrun as (Hn & Hrec & c1 & Hs & ->); [eauto 10|done|].
    destruct (rng_rec_view _ _ Hs) as [_ Hv]. destruct (record_first _ _ _ Hts Hrec) as [Hb _].
    destruct (Hdel _ _ eq_refl (len plain) ltac:(lia)) as [_ Hl'].
    apply HQ; [| |done|done|by intros m Hm; apply (Hdel _ _ eq_refl m Hm)|done].
    + by eapply swapped_wf, seq_sent_wf, rng_step_wf.
    + by rewrite swapped_side, sent_side, Hv, swapped_side.
  - destruct Hrun as [Hrc Hs]; [eauto 10|done|]. destruct (rng_rec_view _ _ Hs) as [Hr Hv].
    apply HE; [done|by eapply swapped_wf, rng_step_wf|by rewrite swapped_side, Hv, swapped_side|].
    apply linked_views in Hl. apply linked_views. rewrite <- Hl. clear - Hr.
    unfold rec_view, wolfSPDM_IsTcgMode in *. destruct c, c1. cbn in *. congruence.
  - by destruct Hrun; eauto 10.
Qed.
End Link.

Section Lock.
Context `{WolfCrypt} `{Config} `{!CryptSizes} `{!RecordFits} `{!TranscriptFits} `{!GcmRoundTrip}
  {T : Type} `{!TpmCallback T}.
Notation SIDE := (WOLFSPDM_RESP_CTX * T)%type.
Implicit Types (c q : WOLFSPDM_CTX) (r : WOLFSPDM_RESP_CTX) (s : SIDE).

(** As [calm], but records may have gone by. *)
Definition mild c r r' : Prop :=
  resp_wf r' /\ pview r' = pview r /\ conn_view r' = conn_view r /\ speaks c r'.

Lemma mild_calm c r r' : calm c r r' -> mild c r r' /\ rec_view r'.(rctx) = rec_view r.(rctx).
Proof. unfold calm, mild. tauto. Qed.

Lemma mild_trans c r1 r2 r3 : mild c r1 r2 -> mild c r2 r3 -> mild c r1 r3.
Proof. intros (_ & ? & ? & _) (? & ? & ? & ?). split_and!; [done|congruence..|done]. Qed.

Lemma mild_ctx c r c' : resp_wf r -> speaks c r -> ctx_wf c' -> side_view c' = side_view r.(rctx) ->
  mild c r (r <| rctx := c' |>).
Proof.
  intros Hwf Hs Hc Hv. unfold side_view in Hv. injection Hv as ? ? Hver Hst Htp ? ?.
  assert (rview c' = rview (rctx r)) as Hrv by (unfold rview; congruence).
  split; [apply resp_wf_ctx; [done|done|]; rewrite Hst; by apply rw_state|].
  split; [by apply pview_ctx|]. split; [unfold conn_view; destruct r; cbn in *; congruence|].
  unfold speaks in *. replace (rctx (r <| rctx := c' |>)) with c' by (by destruct r).
  by rewrite Hver.
Qed.

Lemma secure_scratch_mild c r b : resp_wf r -> speaks c r -> len b = WOLFSPDM_MAX_TPM_MSG_SIZE ->
  mild c r (r <| secureInPlain := b |>) /\ mild c r (r <| secureOutPlain := b |>).
Proof.
  intros [? ? ? ? ? Hscr] Hs Hb. destruct_and! Hscr.
  split; (split; [split; try done; by split_and!|by split_and!]).
Qed.

Lemma wipe_secure_mild c r : resp_wf r -> speaks c r -> mild c r (wipe_scratch_secure r).
Proof. intros Hwf Hs. split; [by apply wipes_wf|]. by destruct r. Qed.

(** The lock of the SPDM-only mode. *)
Definition locked (b : bool) r : WOLFSPDM_RESP_CTX :=
  r <| rflags := r.(rflags) <| spdmOnlyLock := b |> |>.

Lemma pview_locked b r : pview (locked b r) =
  let '(f, p, d, t, v) := pview r in (f <| spdmOnlyLock := b |>, p, d, t, v).
Proof. by destruct r as [[]]. Qed.

Lemma locked_mild c b r1 r2 : mild c r1 r2 -> mild c (locked b r1) (locked b r2).
Proof.
  intros ([] & Hv & Hc & Hs). split; [by split|]. rewrite !pview_locked, Hv. split; [done|].
  by destruct r1, r2.
Qed.

Lemma conn_locked b r : conn_view (locked b r) = conn_view r.
Proof. by destruct r. Qed.

Definition lock_byte (b : bool) : Z := if b then WOLFSPDM_SPDMONLY_LOCK else WOLFSPDM_SPDMONLY_UNLOCK.

Lemma spdmonly_wp (b : bool) s (Q : bytes -> SIDE -> Prop) E :
  Q [] (locked b s.1, s.2) -> wp (resp_command WOLFSPDM_VDCODE_SPDMONLY [lock_byte b]) Q E s.
Proof.
  destruct s as [r t]. cbn [fst snd]. intros HQ.
  change (resp_command WOLFSPDM_VDCODE_SPDMONLY [lock_byte b]) with (resp_spdmonly (T := T) [lock_byte b]).
  unfold resp_spdmonly, set_r, on_r. wp_step. wp_step; [done|]. wp_step. apply wp_rd; [done|]. intros x ->.
  cbn [nth Z.to_nat]. wp_step. wp_step; [by destruct b|]. do 3 wp_step. wp_step. by destruct b.
Qed.

Definition lock_msg v (b : bool) : bytes :=
  vendor_msg v SPDM_VENDOR_DEFINED_REQUEST WOLFSPDM_VDCODE_SPDMONLY [lock_byte b].

Lemma len_lock_msg v b : len (lock_msg v b) = 18.
Proof. unfold lock_msg. by rewrite len_vendor_msg. Qed.

(** The handler behind the record layer. *)
Lemma lock_handled c v b r (t : T) Q E :
  resp_wf r -> speaks c r -> r.(rctx).(state) = WOLFSPDM_STATE_CONNECTED ->
  18 <= WOLFSPDM_MAX_MSG_SIZE ->
  (forall r', mild c (locked b r) r' -> rec_view r'.(rctx) = rec_view r.(rctx) ->
     Q (vendor_msg r'.(rctx).(spdmVersion) WOLFSPDM_VENDOR_DEFINED_RSP WOLFSPDM_VDCODE_SPDMONLY [], false, false)
       (r', t)) ->
  wp (resp_secured_handler SPDM_VENDOR_DEFINED_REQUEST (lock_msg v b)) Q E (r, t).
Proof.
  intros Hwf Hs Hst Hm HQ. unfold resp_secured_handler, get_r, on_r.
  change (SPDM_VENDOR_DEFINED_REQUEST =? SPDM_PSK_FINISH) with false.
  change (SPDM_VENDOR_DEFINED_REQUEST =? SPDM_FINISH) with false.
  change (SPDM_VENDOR_DEFINED_REQUEST =? SPDM_END_SESSION) with false.
  change (SPDM_VENDOR_DEFINED_REQUEST =? SPDM_VENDOR_DEFINED_REQUEST) with true. cbv zeta iota.
  do 3 wp_step. cbn [fst snd]. wp_step.
  assert (len [lock_byte b] = 1) as Hl1 by done.
  apply (vendor_served c); [done|done|done|rewrite Hl1; unfold WOLFSPDM_MAX_TPM_MSG_SIZE; lia|done|done|done|].
  intros r1 Hcalm. apply spdmonly_wp. cbn [fst snd]. apply mild_calm in Hcalm as [Hmild Hrec].
  destruct (locked_mild c b _ _ Hmild) as (Hwf1 & Hv1 & Hc1 & Hs1).
  split_and!; [done|done|change (len []) with 0; unfold WOLFSPDM_MAX_TPM_MSG_SIZE; lia|done|change (len []) with 0; lia|].
  intros r2 Hcalm2. apply mild_calm in Hcalm2 as [Hmild2 Hrec2]. cbn [fst snd] in *. wp_step. apply HQ.
  - by apply (mild_trans c _ (locked b r1)).
  - rewrite Hrec2, <- Hrec. by destruct r1.
Qed.

(** The responder's whole work on the record. *)
Lemma dispatch_lock c v b rec n q r (t : T) Q E :
  resp_wf r -> speaks c r -> r.(rctx).(state) = WOLFSPDM_STATE_CONNECTED -> r.(rctx).(sessionId) <> 0 ->
  18 <= WOLFSPDM_MAX_MSG_SIZE -> wolfSPDM_IsTcgMode q = true ->
  (forall m, 18 <= m -> RespDecrypt rec m r.(rctx) = Ok (lock_msg v b) (answered_by r.(rctx))) ->
  linked q (answered_by r.(rctx)) ->
  (forall enc rsp r', mild c (locked b r) r' -> linked (seq_rcvd q) r'.(rctx) -> is_bytes enc ->
     len enc <= n -> len rsp = 17 -> at_ rsp 1 = WOLFSPDM_VENDOR_DEFINED_RSP ->
     (forall m, 17 <= m -> wolfSPDM_DecryptInternal enc m q = Ok rsp (seq_rcvd q)) ->
     Q enc (r', t)) ->
  (forall rc r', mild c (locked b r) r' -> linked q r'.(rctx) -> E rc (r', t)) ->
  wp (dispatch WOLFSPDM_TCG_TAG_SECURED rec n) Q E (r, t).
Proof.
  intros Hwf Hs Hst Hid Hm Ht Hdec Hl HQ HE.
  change (dispatch WOLFSPDM_TCG_TAG_SECURED rec n) with (RespDispatchSecured (T := T) rec n).
  unfold RespDispatchSecured, always, RespDispatchSecuredInner, get_r, set_r, on_r, in_ctx.
  do 3 wp_step. do 2 wp_step. cbn [fst snd]. wp_step. rewrite Hst.
  wp_step; [exfalso; apply Z.eqb_neq in Hid; rewrite Hid in *; done|]. wp_step. do 2 wp_step. cbn [fst snd].
  eapply wp_run; [apply Hdec; lia|]. cbn [fst snd].
  pose proof (mild_ctx c r (answered_by (rctx r)) Hwf Hs (answered_wf _ (rw_ctx _ Hwf)) (answered_side _)) as Hm1.
  assert (rctx (r <| rctx := answered_by (rctx r) |>) = answered_by (rctx r)) as Hc1 by (by destruct r).
  set (r1 := r <| rctx := answered_by (rctx r) |>) in *. clearbody r1. pose proof Hm1 as (Hwf1 & _ & _ & Hs1).
  wp_step. pose proof (rw_scratch _ Hwf1) as (Hin & _).
  pose proof (len_lock_msg v b) as Hlm.
  apply store_wp; [cbn [fst]; rewrite Hin, Hlm; unfold WOLFSPDM_MAX_TPM_MSG_SIZE; lia|]. cbn [fst snd].
  intros d Hd. destruct (secure_scratch_mild c r1 d Hwf1 Hs1 ltac:(by rewrite Hd)) as [Hm2 _].
  assert (rctx (r1 <| secureInPlain := d |>) = answered_by (rctx r)) as Hc2 by (by destruct r1).
  pose proof (mild_trans _ _ _ _ Hm1 Hm2) as Hm12.
  set (r2 := r1 <| secureInPlain := d |>) in *. clearbody r2. pose proof Hm12 as (Hwf2 & _ & _ & Hs2).
  wp_step. wp_step; [lia|]. wp_step. apply rd_head; [done|by right|]. change (1 =? 0) with false. cbv iota.
  assert (state (rctx r2) = WOLFSPDM_STATE_CONNECTED) as Hst2 by (rewrite Hc2, <- Hst; by destruct (rctx r)).
  wp_step. apply (lock_handled c); [done..|]. intros r3 Hm3 Hrec3. cbv beta iota.
  pose proof (mild_trans _ _ _ _ (locked_mild c b _ _ Hm12) Hm3) as Hm13. pose proof Hm3 as (Hwf3 & _ & _ & Hs3).
  pose proof (rw_scratch _ Hwf3) as (_ & Hout & _).
  set (rsp := vendor_msg (spdmVersion (rctx r3)) WOLFSPDM_VENDOR_DEFINED_RSP WOLFSPDM_VDCODE_SPDMONLY []).
  assert (len rsp = 17) as Hrl by (unfold rsp; by rewrite len_vendor_msg).
  assert (at_ rsp 1 = WOLFSPDM_VENDOR_DEFINED_RSP) as Hat by done. clearbody rsp.
  wp_step. apply store_wp; [cbn [fst]; rewrite Hout, Hrl; unfold WOLFSPDM_MAX_TPM_MSG_SIZE; lia|]. cbn [fst snd].
  intros d' Hd'. destruct (secure_scratch_mild c r3 d' Hwf3 Hs3 ltac:(by rewrite Hd')) as [_ Hm4].
  assert (linked q (rctx (r3 <| secureOutPlain := d' |>))) as Hl4.
  { apply linked_views in Hl. apply linked_views. rewrite <- Hl, <- Hc2, <- Hrec3. by destruct r3. }
  pose proof (mild_trans _ _ _ _ Hm13 Hm4) as Hm14.
  set (r4 := r3 <| secureOutPlain := d' |>) in *. clearbody r4. pose proof Hm4 as (Hwf4 & _ & _ & Hs4).
  assert (forall c', ctx_wf c' -> side_view c' = side_view (rctx r4) ->
    mild c (locked b r) (wipe_scratch_secure (r4 <| rctx := c' |>)) /\
    rctx (wipe_scratch_secure (r4 <| rctx := c' |>)) = c') as Hend.
  { intros c' Hc' Hv'. pose proof (mild_ctx c r4 c' Hwf4 Hs4 Hc' Hv') as Hm5.
    split; [|by destruct r4]. eapply mild_trans; [|apply wipe_secure_mild; apply Hm5].
    by eapply mild_trans. }
  do 3 wp_step. cbn [fst snd].
  apply (send_answer_wp rsp n (rctx r4) q); [by apply rw_ctx|done|done| |].
  - intros enc c' Hc' Hv' Hb Hn Hread Hl'. destruct (Hend c' Hc' Hv') as [Hm5 Hx].
    do 2 (wp_step; wp_step; [done|]). wp_step. do 3 wp_step. cbn [fst snd]. wp_step.
    apply (HQ enc rsp); [done|by rewrite Hx|done|done|done|done|]. intros m Hge. apply Hread. lia.
  - intros rc c' Hrc Hc' Hv' Hl'. destruct (Hend c' Hc' Hv') as [Hm5 Hx].
    do 2 wp_step. cbn [fst snd]. apply HE; [done|by rewrite Hx].
Qed.

(** ** One command in a session *)

(** Both sides connected and in step; the low byte of the session number does
    not read as the version byte of a clear message, which
    [wolfSPDM_SetRequesterSessionId] guarantees. *)
Record in_session c r : Prop := {
  is_req : ctx_wf c /\ c.(ioCb) <> 0 /\ wolfSPDM_IsTcgMode c = true /\ c.(state) = WOLFSPDM_STATE_CONNECTED;
  is_rsp : resp_wf r /\ serving r /\ r.(rctx).(state) = WOLFSPDM_STATE_CONNECTED;
  is_speaks : speaks c r;
  is_linked : linked c r.(rctx);
  is_id : c.(sessionId) <> 0 /\ ~ 0x10 <= Z.land c.(sessionId) 0xFF <= 0x1F
}.

Lemma speaks_version c c' r : c'.(spdmVersion) = c.(spdmVersion) -> speaks c r -> speaks c' r.
Proof. unfold speaks, vendor_ver. by intros ->. Qed.

Lemma pview_state r r' : pview r' = pview r -> r'.(rctx).(state) = r.(rctx).(state).
Proof. unfold pview, rview. congruence. Qed.

Lemma in_session_next c r q r' b : in_session c r ->
  ctx_wf q -> side_view q = side_view c -> wolfSPDM_IsTcgMode q = true -> q.(sessionId) = c.(sessionId) ->
  q.(state) = c.(state) -> linked q r'.(rctx) -> resp_wf r' -> speaks c r' ->
  pview r' = pview r \/ pview r' = pview (locked b r) -> in_session q r'.
Proof.
  intros [(? & ? & ? & ?) (? & [Hi Hu] & Hst) ? ? ?] Hwf Hv Ht Hid Hqs Hl Hwf' Hs' Hp.
  unfold side_view in Hv. injection Hv as ? ? Hver ? ? Hio ?.
  assert (resp_initialized (rflags r') = resp_initialized (rflags r) /\ useTcg (rflags r') = useTcg (rflags r) /\
    usePsk (rflags r') = usePsk (rflags r) /\ state (rctx r') = WOLFSPDM_STATE_CONNECTED) as (Hi' & Ht' & Hu' & Hst').
  { destruct Hp as [Hp|Hp]; rewrite (pview_flags _ _ Hp), (pview_state _ _ Hp), <- Hst; by destruct r. }
  split; [split_and!; congruence| |by apply (speaks_version c)|done|by rewrite Hid].
  split; [done|]. split; [|done]. unfold serving. by rewrite Hi', Ht', Hu'.
Qed.

(** What a run of the command may leave: the session in step, and the lock as
    it was or as asked. *)
Definition lock_left c r (t : T) (b : bool) (x : WOLFSPDM_CTX * SIDE) : Prop :=
  let '(c', (r', t')) := x in
  t' = t /\ in_session c' r' /\ (pview r' = pview r \/ pview r' = pview (locked b r)).
Definition lock_done r (t : T) (b : bool) (x : WOLFSPDM_CTX * SIDE) : Prop :=
  let '(c', (r', t')) := x in t' = t /\ in_session c' r' /\ pview r' = pview (locked b r).

Lemma secured_xfer_lock v b cap c r (t : T) : in_session c r -> 18 <= WOLFSPDM_MAX_MSG_SIZE -> 17 <= cap ->
  wp (wolfSPDM_SecuredXfer (lock_msg v b) cap)
    (fun dec x => at_ dec 1 = WOLFSPDM_VENDOR_DEFINED_RSP /\ lock_done r t b x)
    (fun rc x => rc < 0 /\ lock_left c r t b x) (c, (r, t)).
Proof.
  intros Hin Hm Hcap. pose proof Hin as [(Hwf & Hio & Ht & Hst) (Hrwf & Hsrv & Hrst) Hs Hl (Hid0 & Hid)].
  destruct (ctx_wf_link c Hwf) as (Hcn & Hfp & _).
  destruct (framed_calm c _ _ r Hrwf Hs Hcn Hfp) as (Hwf1 & Hv1 & Hc1 & Hs1).
  assert (rec_view (rctx (framed (connectionHandle c) (fipsIndicator c) r)) = rec_view (rctx r)) as Hr1
    by by destruct r as [[]].
  set (r1 := framed (connectionHandle c) (fipsIndicator c) r) in *.
  assert (linked c (rctx r1)) as Hl1 by (apply linked_views; rewrite Hr1; by apply linked_views).
  pose proof Hl1 as Hlv. apply linked_views in Hlv.
  assert (state (rctx r1) = WOLFSPDM_STATE_CONNECTED) as Hst1 by (by rewrite (pview_state _ _ Hv1)).
  assert (sessionId (rctx r1) <> 0) as Hid1 by (unfold rec_view in Hlv; congruence).
  unfold wolfSPDM_SecuredXfer. do 2 io_step.
  apply (send_request_wp _ _ (rctx r1)); [done|done|done| |].
  2: { intros rc q Hrc Hqwf Hqv Hqr. split; [done|]. split; [done|]. split; [|by left].
       apply linked_views in Hl. 
       assert (wolfSPDM_IsTcgMode q = true /\ sessionId q = sessionId c) as [? ?]
         by (unfold rec_view in Hqr; split; congruence).
       assert (state q = state c) by (unfold side_view, rview in Hqv; congruence).
       apply (in_session_next c r q r b); try done; [apply linked_views; congruence|by left]. }
  intros rec q Hqwf Hqv Hqt Hqid Hqs Hb Hfirst Hlen Hdec Hlq.
  assert (ioCb q <> 0 /\ connectionHandle q = connectionHandle c /\ fipsIndicator q = fipsIndicator c)
    as (Hqio & Hqc & Hqf) by (unfold side_view in Hqv; split_and!; congruence).
  io_step. apply SendReceive_wire; [done|done|done|done| |].
  { unfold SECURED_BUF_SZ, TCG_BUF_SZ, WOLFSPDM_XFER_MSG_SIZE, WOLFSPDM_TCG_HEADER_SIZE in *. lia. }
  replace (is_clear_msg rec) with false by (unfold is_clear_msg; rewrite Hfirst; lia).
  cbn [fst snd]. rewrite Hqc, Hqf. fold r1.
  assert (pview (locked b r1) = pview (locked b r)) as Hvl by (by rewrite !pview_locked, Hv1).
  assert (forall q' r', ctx_wf q' -> side_view q' = side_view c -> wolfSPDM_IsTcgMode q' = true ->
    sessionId q' = sessionId c -> state q' = state c -> linked q' (rctx r') ->
    mild c (locked b r1) r' -> in_session q' r' /\ pview r' = pview (locked b r)) as Hafter.
  { intros q' r' ? ? ? ? ? ? (? & Hv' & _ & ?). rewrite Hvl in Hv'. split; [|done].
    apply (in_session_next c r q' r' b); try done. by right. }
  apply (dispatch_lock c v b rec _ q r1 t); try done.
  - intros enc rsp r' Hmild Hl' Heb Hel Hrl Hat Hread. pose proof Hmild as (_ & _ & Hc' & _).
    rewrite conn_locked, Hc1 in Hc'. unfold conn_view in Hc'. injection Hc' as Hcc Hcf.
    split; [done|]. split; [unfold SECURED_BUF_SZ, TCG_BUF_SZ, WOLFSPDM_XFER_MSG_SIZE in *; lia|].
    split; [lia|]. split; [done|]. split; [done|].
    io_step. eapply wp_run; [by apply Hread|]. cbn [fst snd]. split; [done|]. split; [done|].
    apply Hafter; try done. by apply seq_rcvd_wf.
  - intros rc r' Hmild Hl'. split; [done|]. split; [done|].
    destruct (Hafter q r') as [? ?]; try done. split; [done|by right].
Qed.

Lemma set_only_mode_wire lock c r (t : T) : in_session c r -> 18 <= WOLFSPDM_MAX_MSG_SIZE ->
  let b := negb (lock =? 0) in
  wp (set_only_mode lock) (fun _ => lock_done r t b) (fun rc x => rc < 0 /\ lock_left c r t b x)
    (c, (r, t)).
Proof.
  intros Hin Hm b. pose proof Hin as [(Hwf & Hio & Ht & Hst) (Hrwf & Hsrv & Hrst) Hs Hl (Hid0 & Hid)].
  unfold set_only_mode. do 3 io_step. io_step; [by rewrite Hst in *|]. cbv zeta. fold b.
  change (if b then WOLFSPDM_SPDMONLY_LOCK else WOLFSPDM_SPDMONLY_UNLOCK) with (lock_byte b).
  unfold wolfSPDM_TCG_VendorCmdSecured. do 3 io_step.
  eapply wp_run; [apply (BuildVendorDefined_run _ WOLFSPDM_VDCODE_SPDMONLY (Some [lock_byte b]));
    [done|repeat (apply List.Forall_cons; [done|]); apply List.Forall_nil|by vm_compute|by vm_compute]|].
  change (opt_bytes (Some [lock_byte b])) with [lock_byte b]. fold (lock_msg (vendor_ver c) b).
  io_step. unfold wolfSPDM_SecuredExchange. do 3 io_step. io_step.
  { exfalso. apply Z.eqb_neq in Hid0. rewrite Hst, Ht, Hid0 in *. done. }
  io_step. apply (wp_mono _ (fun _ x => exists q, x = (q, (r, t)) /\ in_session q r) _ (fun _ _ => False));
    [| |done].
  { io_step; [io_step|by exists c]. eexists; split; [done|].
    eapply (in_session_next c r _ r b); try done; [apply l1l2_live_wf; [lia|done]|..|by left].
    apply linked_views. apply linked_views in Hl. rewrite Hl. by destruct c. }
  intros _ ? (q & -> & Hin'). replace (wolfSPDM_ChunkOn c) with false by (unfold wolfSPDM_ChunkOn; by rewrite Ht).
  eapply wp_mono; [apply (secured_xfer_lock _ b); [done|done|by vm_compute]| |].
  - intros dec x [Hat Hx]. rewrite Hat. change (WOLFSPDM_VENDOR_DEFINED_RSP =? SPDM_ERROR) with false.
    rewrite andb_false_r. io_step; [done|done].
  - intros rc [c' [r' t']] [? (? & ? & ?)]. by split_and!.
Qed.

Lemma abs_locked b r (t : T) : abs_state (locked b r, t) = (abs_state (r, t)) <| sp_lock := b |>.
Proof. by destruct r as [[]]. Qed.

(** C11: the SPDM-only switch works from end to end, for the three vendors and
    whatever the cryptographic functions and the TPM: in an established
    session, a call that succeeds has set the responder's lock to what was
    asked and changed nothing else of it; a call that fails has left the lock
    as it was or set it (when only the answer was lost), and nothing else; and
    after either the two sides are still in step, so the session can be used
    on.  Outside a session the command is refused and nothing is sent. *)
Theorem only_mode_switched lock c r (t : T) cmd :
  In cmd [Nuvoton.wolfSPDM_Nuvoton_SetOnlyMode lock; Nations.wolfSPDM_Nations_SetOnlyMode lock;
    Infineon.wolfSPDM_Infineon_SetOnlyMode lock] ->
  (in_session c r ->
   let asked := (abs_state (r, t)) <| sp_lock := negb (lock =? 0) |> in
   match cmd (c, (r, t)) with
   | Ok _ (c', (r', t')) => t' = t /\ in_session c' r' /\ abs_state (r', t) = asked
   | Err rc (c', (r', t')) => rc < 0 /\ t' = t /\ in_session c' r' /\
       (abs_state (r', t) = abs_state (r, t) \/ abs_state (r', t) = asked)
   | Ub => False
   end) /\
  (c.(state) <> WOLFSPDM_STATE_CONNECTED ->
   cmd (c, (r, t)) = Err WOLFSPDM_E_NOT_CONNECTED (c, (r, t))).
Proof.
  intros Hcmd. assert (cmd = set_only_mode lock) as -> by (destruct Hcmd as [<-|[<-|[<-|[]]]]; done).
  clear Hcmd. split.
  - intros Hin. cbv zeta.
    assert (18 <= WOLFSPDM_MAX_MSG_SIZE) as Hm by (pose proof cfg_dts; lia).
    pose proof (set_only_mode_wire lock c r t Hin Hm) as Hrun. cbv zeta in Hrun. unfold wp in Hrun.
    destruct (set_only_mode lock (c, (r, t))) as [[] [c' [r' t']]|rc [c' [r' t']]|]; [| |done].
    + destruct Hrun as (-> & Hin' & Hv). rewrite <- (abs_locked _ r). by rewrite (abs_pview _ _ t Hv).
    + destruct Hrun as (Hrc & -> & Hin' & Hv). rewrite <- (abs_locked _ r). split_and!; try done.
      destruct Hv as [Hv|Hv]; rewrite (abs_pview _ _ t Hv); auto.
  - intros Hst. apply Z.eqb_neq in Hst. unfold set_only_mode, get_ctx, on_ctx. run. cbn [fst snd].
    by rewrite Hst.
Qed.
End Lock.
