(* ===== verification/Total.v ===== *)
(** * Operations that fail only with wolfCrypt

    The derivations, the transcript and the record layer, each with its error
    branches accounted for: on arguments within the buffers every one of them
    is a call of wolfCrypt on valid arguments that failed, so that the branch
    ends in [~ CryptTotal]. *)
From Stdlib Require Import ZArith Lia String.
From stdpp Require Import base tactics list numbers option.
From S2P Require Import Prelude Types Bytes Crypt Context Transcript Kdf CryptoOps Transport.
From S2P Require Import Secured Msg Attest Session Psk Responder RespSpec.

Lemma is_bytes_splice b o d : is_bytes b -> is_bytes d -> is_bytes (splice b o d).
Proof. intros. unfold splice. repeat apply Forall_app_2; auto using Forall_take, Forall_drop. Qed.

Create HintDb total.
#[export] Hint Resolve sha_init_total sha_final_total hmac_init_total hmac_key_total hmac_update_total
  hmac_final_total extract_total aes_init_total : total.

(** A call of wolfCrypt that gave nothing. *)
Ltac no_total :=
  intros ?; match goal with
  | Hn : ?o = None |- _ => assert (is_Some o) as [? ?] by (auto with total); congruence
  end.

Section Sure.
Context `{WolfCrypt} `{Config} `{!CryptSizes} `{!RecordFits} `{!TranscriptFits}.
Implicit Types c : WOLFSPDM_CTX.

Definition broken {S} (rc : Z) (s : S) : Prop := ~ CryptTotal.

Lemma wp_broken {S A} (m : M S A) (Q : A -> S -> Prop) E E' s :
  wp m Q E s -> wp m (fun _ _ => True) broken s -> (forall rc s', ~ CryptTotal -> E' rc s') -> wp m Q E' s.
Proof. unfold wp. destruct (m s); eauto. Qed.

Definition rng_on c : Prop := c.(flags).(rngInitialized) = true.

Lemma GetRandom_sure n c (Q : bytes -> WOLFSPDM_CTX -> Prop) E : ctx_wf c -> rng_on c -> 0 < n ->
  (forall r b, len b = n -> is_bytes b -> ctx_wf (set_rng r c) -> Q b (set_rng r c)) ->
  (forall rc c', ~ CryptTotal -> E rc c') -> wp (wolfSPDM_GetRandom n) Q E c.
Proof.
  intros Hwf Hr Hn HQ HE. eapply wp_broken; [by apply (GetRandom_wp _ _ _ (fun _ _ => True))| |done].
  pose proof (wf_objects _ Hwf) as [[r Hrng] _]. unfold wolfSPDM_GetRandom, with_rng, rng_on in *.
  wp_step. wp_step; [lia|]. do 2 (wp_step; cbv beta). wp_step. wp_step; [by rewrite Hr in *|].
  do 2 (wp_step; cbv beta). rewrite Hrng.
  destruct (wc_RNG_GenerateBlock r n) as [r' o] eqn:Hg. do 3 (wp_step; cbv beta); [done|].
  intros Htot. pose proof (rng_total r n Hn) as [b Hb]. rewrite Hg in Hb. cbn in Hb. congruence.
Qed.

Lemma TranscriptAdd_sure d c (Q : unit -> WOLFSPDM_CTX -> Prop) E : ctx_wf c ->
  len (tr c) + len d <= WOLFSPDM_MAX_TRANSCRIPT ->
  (ctx_wf (tr_add c d) -> tr (tr_add c d) = tr c ++ d -> Q tt (tr_add c d)) ->
  wp (wolfSPDM_TranscriptAdd d) Q E c.
Proof.
  intros Hwf Hl HQ. assert (len (tr c) = c.(transcriptLen)) as Ht by (wf_facts Hwf; apply len_sub_bytes; lia).
  apply TranscriptAdd_wp; [done| |lia]. intros Hf Hwf'. apply HQ; [done|by apply tr_tr_add].
Qed.

Lemma sha384_total `{!CryptTotal} d1 d2 d3 : is_Some (sha384 d1 d2 d3).
Proof.
  assert (forall h d, is_Some (sha_step h d)) as Hs.
  { intros h d. unfold sha_step. case_match; [|done]. pose proof (sha_update_total h d) as Hu.
    destruct (wc_Sha384Update h d). cbn in Hu. subst. by eexists. }
  unfold sha384. destruct sha_init_total as [h0 ->]. cbn.
  destruct (Hs h0 d1) as [h1 ->]. cbn. destruct (Hs h1 d2) as [h2 ->]. cbn.
  destruct (Hs h2 d3) as [h3 ->]. cbn. apply sha_final_total.
Qed.

Lemma TranscriptHash_sure c (Q : bytes -> WOLFSPDM_CTX -> Prop) E : ctx_wf c ->
  (forall h, sha384 (tr c) [] [] = Some h -> len h = WOLFSPDM_HASH_SIZE -> is_bytes h -> Q h c) ->
  (forall rc c', ~ CryptTotal -> E rc c') -> wp wolfSPDM_TranscriptHash Q E c.
Proof.
  intros Hwf HQ HE. unfold wp. rewrite TranscriptHash_run by done.
  destruct (sha384 _ _ _) eqn:Hh; [destruct (sha384_size _ _ _ _ Hh); by apply HQ|].
  apply HE. intros Htot. destruct (sha384_total (tr c) [] []). congruence.
Qed.

Lemma verify_data_total `{!CryptTotal} k th : is_Some (verify_data k th).
Proof.
  unfold verify_data. destruct hmac_init_total as [h0 ->]. cbn.
  destruct (hmac_key_total h0 (sub_bytes k 0 WOLFSPDM_HASH_SIZE)) as [h1 ->]. cbn.
  destruct (hmac_update_total h1 (sub_bytes th 0 WOLFSPDM_HASH_SIZE)) as [h2 ->]. apply hmac_final_total.
Qed.

Lemma ComputeVerifyData_sure {S} key th (Q : bytes -> S -> Prop) (E : Z -> S -> Prop) s :
  WOLFSPDM_HASH_SIZE <= len key -> WOLFSPDM_HASH_SIZE <= len th ->
  (forall d, verify_data key th = Some d -> len d = WOLFSPDM_HASH_SIZE -> is_bytes d -> Q d s) ->
  (forall rc s', ~ CryptTotal -> E rc s') -> wp (wolfSPDM_ComputeVerifyData key th) Q E s.
Proof.
  intros Hk Ht HQ HE.
  eapply wp_broken; [by apply (ComputeVerifyData_wp _ _ _ (fun _ _ => True))| |done].
  unfold wolfSPDM_ComputeVerifyData, broken. wp_go; first [done|no_total].
Qed.

Lemma expand_total' `{!CryptTotal} v k l x n : 0 <= n <= WOLFSPDM_HASH_SIZE -> is_Some (expand v k l x n).
Proof. apply expand_total. Qed.

Lemma traffic_total `{!CryptTotal} v k : is_Some (traffic v k).
Proof.
  unfold traffic. destruct (expand_total' v k SPDM_LABEL_KEY [] WOLFSPDM_AEAD_KEY_SIZE) as [x ->]; [done|].
  cbn. destruct (expand_total' v k SPDM_LABEL_IV [] WOLFSPDM_AEAD_IV_SIZE) as [y ->]; [done|]. by eexists.
Qed.

Lemma hs_schedule_total `{!CryptTotal} v hs th : is_Some (hs_schedule v hs th).
Proof.
  pose proof (fun k l x => expand_total' v k l x WOLFSPDM_HASH_SIZE ltac:(done)) as Hx. unfold hs_schedule.
  destruct (Hx hs SPDM_LABEL_REQ_HS_DATA th) as [a ->]. cbn.
  destruct (Hx hs SPDM_LABEL_RSP_HS_DATA th) as [b ->]. cbn.
  destruct (Hx a SPDM_LABEL_FINISHED []) as [d ->]. cbn.
  destruct (Hx b SPDM_LABEL_FINISHED []) as [e ->]. cbn.
  destruct (traffic_total v a) as [f ->]. cbn. destruct (traffic_total v b) as [g ->]. by eexists.
Qed.

Lemma app_schedule_total `{!CryptTotal} v hs th : is_Some (app_schedule v hs th).
Proof.
  pose proof (fun k l x => expand_total' v k l x WOLFSPDM_HASH_SIZE ltac:(done)) as Hx. unfold app_schedule.
  destruct (Hx hs (str "derived") []) as [a ->]. cbn.
  destruct (extract_total a (zeros WOLFSPDM_HASH_SIZE)) as [m ->]. cbn.
  destruct (Hx m SPDM_LABEL_REQ_DATA th) as [d ->]. cbn.
  destruct (Hx m SPDM_LABEL_RSP_DATA th) as [e ->]. cbn.
  destruct (traffic_total v d) as [f ->]. cbn. destruct (traffic_total v e) as [g ->]. by eexists.
Qed.

Lemma ExpandLabel_sure {S} v k l x n (Q : bytes -> S -> Prop) s : 0 <= n <= WOLFSPDM_HASH_SIZE ->
  2 + SPDM_BIN_CONCAT_PREFIX_LEN + len l + len x <= HKDF_INFO_SZ ->
  (forall b, Q b s) -> wp (wolfSPDM_HkdfExpandLabel v k l x n) Q broken s.
Proof.
  intros Hn Hf HQ. unfold wp. rewrite HkdfExpandLabel_run by done.
  destruct (expand v k l x n) eqn:Hx; cbn; [done|]. intros Htot. destruct (expand_total' v k l x n Hn). congruence.
Qed.

Lemma KeyIvPair_sure v k fk fi c (Q : unit -> WOLFSPDM_CTX -> Prop) :
  (forall c', Q tt c') -> wp (wolfSPDM_DeriveKeyIvPair v k fk fi) Q broken c.
Proof.
  intros HQ. unfold wolfSPDM_DeriveKeyIvPair. wp_step. apply ExpandLabel_sure; [done|done|]. intros x.
  do 2 (wp_step; cbv beta). wp_step. apply ExpandLabel_sure; [done|done|]. intros y. by wp_step.
Qed.

Lemma DeriveAppDataKeys_sure c (Q : unit -> WOLFSPDM_CTX -> Prop) E : ctx_wf c ->
  (forall th k, sha384 (tr c) [] [] = Some th ->
     app_schedule c.(spdmVersion) c.(handshakeSecret) th = Some k ->
     ctx_wf (install_app k c) -> Q tt (install_app k c)) ->
  (forall rc c', ~ CryptTotal -> E rc c') -> wp wolfSPDM_DeriveAppDataKeys Q E c.
Proof.
  intros Hwf HQ HE. eapply wp_broken; [by apply (DeriveAppDataKeys_wp _ _ (fun _ _ => True))| |done].
  unfold wolfSPDM_DeriveAppDataKeys. do 2 (wp_step; cbv beta). wp_step.
  apply TranscriptHash_sure; [done| |done]. intros th _ Hl _.
  wp_step. apply ExpandLabel_sure; [done|done|]. intros salt. wp_step. wp_step; [|unfold broken; no_total].
  wp_step. apply ExpandLabel_sure; [done|by rewrite Hl|]. intros x. wp_step.
  apply ExpandLabel_sure; [done|by rewrite Hl|]. intros y.
  do 2 (wp_step; apply KeyIvPair_sure; intros ?). by do 3 (wp_step; cbv beta).
Qed.

(** The keys of the handshake from the pre-shared key. *)
Lemma DeriveHandshakeKeysPsk_sure th c (Q : unit -> WOLFSPDM_CTX -> Prop) E :
  ctx_wf c -> len th = WOLFSPDM_HASH_SIZE -> c.(pskSz) <> 0 ->
  (forall hs k, psk_secret c = Some hs -> hs_schedule c.(spdmVersion) hs th = Some k ->
     ctx_wf (psk_derived hs k c) -> Q tt (psk_derived hs k c)) ->
  (forall rc c', ~ CryptTotal -> E rc c') -> wp (wolfSPDM_DeriveHandshakeKeysPsk th) Q E c.
Proof.
  intros Hwf Hth Hsz HQ HE.
  eapply wp_broken; [by apply (DeriveHandshakeKeysPsk_wp _ _ Q (fun _ _ => True)); try done; intros; apply HQ| |done].
  wf_facts Hwf. unfold wolfSPDM_DeriveHandshakeKeysPsk.
  do 2 (wp_step; cbv beta). wp_step. wp_step; [lia|]. wp_step. wp_step. wp_step. wp_step. wp_step.
  wp_step; cbv beta.
  - do 2 (wp_step; cbv beta). set (c1 := c <| handshakeSecret := _ |>). unfold wp.
    rewrite DeriveFromHandshakeSecret_run by done.
    destruct (hs_schedule _ _ _) eqn:Hk; cbn; [done|]. intros Htot.
    destruct (hs_schedule_total (spdmVersion c1) (handshakeSecret c1) th). congruence.
  - wp_step. cbv beta. unfold broken. no_total.
Qed.

(** ** Encryption *)

Lemma tcg_plain_sure plain n c : ctx_wf c -> rng_on c -> is_bytes plain ->
  len plain <= WOLFSPDM_MAX_MSG_SIZE -> len plain + 48 <= n ->
  wp (tcg_plain plain n) (fun x _ => is_bytes x.2) broken c.
Proof.
  intros Hwf Hr Hb Hlen Hn. pose proof (len_nonneg plain). pose proof record_fits as Hfit.
  set (pad := (16 - (2 + len plain) mod 16) mod 16).
  assert (0 <= pad < 16) as Hpad by (unfold pad; mlia).
  assert (len (zeros plainBuf_size) = WOLFSPDM_MAX_MSG_SIZE + 18) as Hz
    by (rewrite len_zeros; unfold plainBuf_size, WOLFSPDM_XFER_MSG_SIZE; lia).
  assert (len (SPDM_Set16LE (len plain)) = 2) as Hh2 by done.
  assert (is_bytes (splice (splice (zeros plainBuf_size) 0 (SPDM_Set16LE (len plain))) 2 plain)) as Hb2
    by (repeat apply is_bytes_splice; auto using is_bytes_zeros, is_bytes_Set16LE).
  unfold tcg_plain. rewrite !(w16_id (len plain)) by lia.
  rewrite !(w16_id (2 + len plain)) by lia. fold pad.
  rewrite !(w16_id pad) by lia. rewrite !(w16_id (2 + len plain + pad)) by lia.
  rewrite !(w16_id (2 + len plain + pad + WOLFSPDM_AEAD_TAG_SIZE)) by lia.
  do 2 wp_step. cbv beta. wp_step; wp_step; [unfold WOLFSPDM_AEAD_TAG_SIZE in *; lia|].
  wp_step. apply wp_wr; [lia|lia|]. wp_step. apply wp_wr; [lia|buf_lia|]. wp_step.
  assert (forall b c', is_bytes b -> len b = WOLFSPDM_MAX_MSG_SIZE + 18 ->
    wp (let* p := rd_sub b 0 (2 + len plain + pad) in
        ret (SPDM_Set32LE (sessionId c) ++ SPDM_Set64LE (reqSeqNum c) ++
             SPDM_Set16LE (2 + len plain + pad + WOLFSPDM_AEAD_TAG_SIZE), p))
      (fun x _ => is_bytes x.2) broken c') as Hrest.
  { intros b c' Hbb Hbl. wp_step. apply wp_rd_sub; [lia|lia|lia|]. wp_step. by apply is_bytes_sub. }
  wp_step; [wp_step|wp_step; apply Hrest; [done|buf_lia]].
  apply GetRandom_sure; [done|done|lia| |done]. intros r rnd Hrl Hrb Hwf'. wp_step; [buf_lia|].
  apply Hrest; [by apply is_bytes_splice|buf_lia].
Qed.

Lemma Encrypt_sure plain n c : ctx_wf c -> wolfSPDM_IsTcgMode c = true -> rng_on c -> is_bytes plain ->
  len plain <= WOLFSPDM_MAX_MSG_SIZE -> len plain + 48 <= n ->
  wp (wolfSPDM_EncryptInternal plain n) (fun _ _ => True) broken c.
Proof.
  intros Hwf Ht Hr Hb Hlen Hn. unfold wolfSPDM_EncryptInternal, wolfSPDM_EncryptRecord, WOLFSPDM_XFER_MSG_SIZE.
  wp_step. wp_step; [lia|]. do 2 wp_step. cbv beta. rewrite Ht. wp_step.
  eapply wp_mono; [by apply tcg_plain_sure| |done]. intros [hdr p] c' Hp. cbn [snd] in Hp.
  wp_step. wp_step; [destruct a; by do 3 (wp_step; cbv beta)|]. intros Htot.
  match goal with Hx : _ ≫= _ = None |- _ => revert Hx end. unfold aes_key.
  destruct aes_init_total as [a0 ->]. cbn. wf_facts Hwf.
  destruct (aes_key_total a0 (reqDataKey c)) as [a1 ->]; [done|]. cbn.
  by destruct (gcm_enc_total a1 p (wolfSPDM_BuildIV (reqDataIv c) (reqSeqNum c)) hdr Hp) as [x ->].
Qed.

Lemma RespEncrypt_sure plain n c : ctx_wf c -> wolfSPDM_IsTcgMode c = true -> rng_on c -> is_bytes plain ->
  len plain <= WOLFSPDM_MAX_MSG_SIZE -> len plain + 48 <= n ->
  wp (RespEncrypt plain n) (fun _ _ => True) broken c.
Proof.
  intros Hwf Ht Hr ? ? ?. unfold RespEncrypt, RespSwapDataDir. do 2 (wp_step; cbv beta). wp_step. wp_step.
  eapply wp_mono; [apply (Encrypt_sure plain n (swapped c)); try done; [by apply swapped_wf|by destruct c..]| |].
  - intros. by do 3 (wp_step; cbv beta).
  - intros. by wp_step.
Qed.
End Sure.
