(* ===== verification/PskSession.v ===== *)
(** * The first half of a PSK session, over the wire

    GET_VERSION and PSK_EXCHANGE of the requester over the responder of Wire.v,
    message by message.  Each part follows one request through the responder's
    dispatcher, then the answer through the requester's parser, and states what
    the two sides then share.  The failures left are those of wolfCrypt. *)
From Stdlib Require Import ZArith Lia String.
From stdpp Require Import base tactics list numbers option.
From S2P Require Import Prelude Types Bytes Crypt Context Transcript Kdf CryptoOps Transport.
From S2P Require Import Secured Msg Chunk Cert Attest Session Standard Tcg Psk Connect Vendor.
From S2P Require Import Responder RespSpec RespRefine Wire WireSession Total.


(** What a step wrote of the responder's context. *)
Ltac puts := autorewrite with put in *.

Section Session.
Context `{WolfCrypt} `{Config} `{!CryptSizes} `{!RecordFits} `{!TranscriptFits} `{!GcmRoundTrip}
  {T : Type} `{!TpmCallback T}.
Notation SIDE := (WOLFSPDM_RESP_CTX * T)%type.
Implicit Types (c q : WOLFSPDM_CTX) (r : WOLFSPDM_RESP_CTX) (s : SIDE).

(** A responder that is provisioned with [key] and serves PSK sessions. *)
Record offers (key : bytes) r : Prop := {
  of_wf : resp_wf r;
  of_serving : serving r /\ r.(rflags).(usePsk) = true;
  of_ctx : wolfSPDM_IsTcgMode r.(rctx) = true /\ rng_on r.(rctx);
  of_key : r.(pskStoreSz) <> 0 /\ sub_bytes r.(pskStore) 0 r.(pskStoreSz) = key
}.

(** What the handlers change of the responder is its inner context. *)
Lemma offers_ctx key r c : offers key r -> ctx_wf c -> In c.(state) [WOLFSPDM_STATE_INIT;
    WOLFSPDM_STATE_VERSION; WOLFSPDM_STATE_KEY_EX; WOLFSPDM_STATE_CONNECTED] ->
  (mode c, flags c) = (mode r.(rctx), flags r.(rctx)) -> offers key (r <| rctx := c |>).
Proof.
  intros [? ? [Hm Hr] ?] Hwf Hst [= Hcm Hcf]. split; [by apply resp_wf_ctx|done| |done].
  unfold wolfSPDM_IsTcgMode, rng_on in *. replace (rctx (r <| rctx := c |>)) with c by by destruct r.
  by rewrite Hcm, Hcf.
Qed.

Lemma rctx_put r c : rctx (r <| rctx := c |>) = c.
Proof. by destruct r. Qed.
Lemma put_put r c c' : (r <| rctx := c |>) <| rctx := c' |> = r <| rctx := c' |>.
Proof. by destruct r. Qed.
Lemma conn_put r c : conn_view (r <| rctx := c |>) = (connectionHandle c, fipsIndicator c).
Proof. by destruct r. Qed.
Hint Rewrite rctx_put put_put conn_put : put.

(** ** Version *)

Definition get_version_msg : bytes := [SPDM_VERSION_10; SPDM_GET_VERSION; 0x00; 0x00].
Definition version_msg : bytes :=
  [SPDM_VERSION_10; SPDM_VERSION; 0x00; 0x00; 0x00; WOLFSPDM_RESP_VERSION_COUNT] ++
  version_entries (Z.to_nat WOLFSPDM_RESP_VERSION_COUNT) WOLFSPDM_MIN_SPDM_VERSION.

(** The responder after GET_VERSION: a fresh session, the version open. *)
Definition versioned r : Prop :=
  tr r.(rctx) = get_version_msg ++ version_msg /\ r.(rctx).(spdmVersion) = 0 /\
  r.(rctx).(state) = WOLFSPDM_STATE_VERSION /\ r.(rctx).(reqSeqNum) = 0 /\ r.(rctx).(rspSeqNum) = 0.

Lemma reset_offers key r : offers key r -> offers key (reset_r r).
Proof.
  intros [Hwf ? [Hm Hr] ?]. split; [by apply reset_r_wf|by destruct r as [? []]| |by destruct r].
  unfold reset_r. split; [|unfold rng_on in *]; revert Hm Hr; unfold wolfSPDM_IsTcgMode;
    generalize (rctx r); intros c; unfold eph_freed; case_match; by destruct c as [? []].
Qed.

Lemma reset_fields r : tr (reset_r r).(rctx) = [] /\ conn_view (reset_r r) = conn_view r /\
  (reset_r r).(rctx).(reqSeqNum) = 0 /\ (reset_r r).(rctx).(rspSeqNum) = 0.
Proof.
  unfold reset_r, conn_view. assert (forall c, let c' := sessionless (tr_reset (eph_freed (keyless c))) in
    tr c' = [] /\ (connectionHandle c', fipsIndicator c') = (connectionHandle c, fipsIndicator c) /\
    reqSeqNum c' = 0 /\ rspSeqNum c' = 0) as Hx.
  { intros c. unfold eph_freed. case_match; by destruct c. }
  specialize (Hx (rctx r)). revert Hx. cbv zeta.
  generalize (sessionless (tr_reset (eph_freed (keyless (rctx r))))). intros c Hx. by destruct r.
Qed.

(** A copy of a message into the transcript of the responder. *)
Lemma resp_add_sure d r (t : T) (Q : unit -> SIDE -> Prop) E : ctx_wf r.(rctx) ->
  len (tr r.(rctx)) + len d <= WOLFSPDM_MAX_TRANSCRIPT ->
  (ctx_wf (tr_add r.(rctx) d) -> tr (tr_add r.(rctx) d) = tr r.(rctx) ++ d ->
     Q tt (r <| rctx := tr_add r.(rctx) d |>, t)) ->
  wp (on_r (in_ctx (wolfSPDM_TranscriptAdd d))) Q E (r, t).
Proof. intros Hwf Hl HQ. unfold on_r, in_ctx. do 2 wp_step. by apply TranscriptAdd_sure. Qed.

Lemma tr_add_fields c d : let c' := tr_add c d in
  (mode c', flags c', state c', spdmVersion c', (reqSeqNum c', rspSeqNum c'),
   (connectionHandle c', fipsIndicator c'), (psk c', pskSz c'), reqSessionId c') =
  (mode c, flags c, state c, spdmVersion c, (reqSeqNum c, rspSeqNum c),
   (connectionHandle c, fipsIndicator c), (psk c, pskSz c), reqSessionId c).
Proof. by destruct c. Qed.

Lemma rd_is {S} b i v (Q : Z -> S -> Prop) E (x : S) : 0 <= i < len b -> nth (Z.to_nat i) b 0 = v -> Q v x ->
  wp (rd b i) Q E x.
Proof. intros. apply wp_rd; [done|]. by intros y ->; subst. Qed.

(** The answer to GET_VERSION, already recorded. *)
Lemma version_answered key n r (t : T) Q E : offers key r -> 16 <= n -> 64 <= WOLFSPDM_MAX_TRANSCRIPT ->
  tr r.(rctx) = get_version_msg -> r.(rctx).(reqSeqNum) = 0 /\ r.(rctx).(rspSeqNum) = 0 ->
  (forall r', offers key r' -> versioned r' -> conn_view r' = conn_view r -> Q version_msg (r', t)) ->
  wp (resp_record (RespBuildVersion n)) Q E (r, t).
Proof.
  intros Hof Hn Hmax Ht [Hq Hs] HQ. pose proof (rw_ctx _ (of_wf _ _ Hof)) as Hc.
  unfold resp_record, on_r at 1, in_ctx at 1. do 3 wp_step. cbn [fst snd]. unfold RespBuildVersion. wp_step.
  wp_step; [change (6 + 2 * WOLFSPDM_RESP_VERSION_COUNT) with 10 in *; lia|]. cbv zeta. fold version_msg.
  do 2 (wp_step; cbv beta). wp_step. set (c1 := (rctx r) <| spdmVersion := 0 |> <| state := _ |>).
  assert (ctx_wf c1) as Hc1 by (unfold c1; wf_tac).
  assert (tr c1 = get_version_msg) as Ht1 by (rewrite <- Ht; by unfold c1; destruct (rctx r)).
  wp_step. apply (resp_add_sure version_msg (r <| rctx := c1 |>)); puts; [done| |].
  { rewrite Ht1. change (len get_version_msg + len version_msg) with 14. lia. }
  intros Hc2 Ht2. rewrite Ht1 in Ht2. wp_step. apply HQ.
  - apply offers_ctx; [done|done|right; by left|by unfold c1; destruct (rctx r)].
  - unfold versioned. puts. split; [done|]. unfold c1. by destruct (rctx r).
  - puts. unfold c1, conn_view. by destruct (rctx r).
Qed.

Lemma version_served key n r (t : T) Q E : offers key r -> 16 <= n -> 64 <= WOLFSPDM_MAX_TRANSCRIPT ->
  (forall r', offers key r' -> versioned r' -> conn_view r' = conn_view r -> Q version_msg (r', t)) ->
  wp (dispatch WOLFSPDM_TCG_TAG_CLEAR get_version_msg n) Q E (r, t).
Proof.
  intros Hof Hn Hmax HQ. pose proof (rw_ctx _ (of_wf _ _ Hof)) as Hc.
  change (dispatch WOLFSPDM_TCG_TAG_CLEAR) with (RespDispatchClear (T := T)).
  unfold RespDispatchClear. wp_step. wp_step; [done|]. wp_step. apply (rd_is _ _ SPDM_GET_VERSION); [done|done|].
  wp_step. apply (rd_is _ _ SPDM_VERSION_10); [done|done|].
  change (SPDM_GET_VERSION =? SPDM_GET_VERSION) with true. cbv iota.
  wp_step. wp_step. unfold on_r at 1. wp_step. cbn [fst snd]. wp_step. unfold in_ctx at 1. wp_step.
  apply TranscriptReset_wp; [done|]. intros Hc1.
  assert (offers key (r <| rctx := tr_reset (rctx r) |>)) as Hof1.
  { apply offers_ctx; [done|done| |by destruct (rctx r)].
    replace (state _) with (state (rctx r)) by by destruct (rctx r). apply rw_state, Hof. }
  assert (conn_view (r <| rctx := tr_reset (rctx r) |>) = conn_view r) as Hv1 by by destruct r as [[]].
  revert Hof1 Hv1. generalize (r <| rctx := tr_reset (rctx r) |>). intros r1 Hof1 Hv1.
  apply RespReset_wp; [apply Hof1|]. wp_step. cbv iota.
  destruct (reset_fields r1) as (Ht2 & Hv2 & Hq2 & Hs2). pose proof (reset_offers _ _ Hof1) as Hof2.
  revert Ht2 Hv2 Hq2 Hs2 Hof2. generalize (reset_r r1). intros r2 Ht2 Hv2 Hq2 Hs2 Hof2.
  unfold get_r, on_r at 1. do 3 wp_step. cbn [fst snd].
  change (SPDM_GET_VERSION =? SPDM_KEY_EXCHANGE) with false.
  change (SPDM_GET_VERSION =? SPDM_PSK_EXCHANGE) with false.
  change (SPDM_GET_VERSION =? SPDM_VENDOR_DEFINED_REQUEST) with false. cbn [orb andb negb when].
  wp_step. apply resp_add_sure; [apply (rw_ctx _ (of_wf _ _ Hof2))|rewrite Ht2; change (0 + 4 <= WOLFSPDM_MAX_TRANSCRIPT); lia|].
  intros Hc3 Ht3. rewrite Ht2 in Ht3. unfold resp_clear_handler.
  change (SPDM_GET_VERSION =? SPDM_GET_VERSION) with true. cbv iota.
  rewrite <- Hv1, <- Hv2 in HQ.
  apply (version_answered key); puts; try done.
  apply offers_ctx; [done|done| |by destruct (rctx r2)].
  replace (state _) with (state (rctx r2)) by by destruct (rctx r2). apply rw_state, Hof2.
Qed.

(** A requester that is configured with [key] on a TCG binding; its session
    identifier cannot be taken for a clear message. *)
Record asks (key : bytes) c : Prop := {
  ak_wf : ctx_wf c;
  ak_ctx : wolfSPDM_IsTcgMode c = true /\ rng_on c /\ c.(ioCb) <> 0;
  ak_key : c.(pskSz) <> 0 /\ sub_bytes c.(psk) 0 c.(pskSz) = key;
  ak_id : ~ 0x10 <= Z.land c.(reqSessionId) 0xFF <= 0x1F;
  ak_version : WOLFSPDM_MIN_SPDM_VERSION <= max_version c
}.

Definition ask_view c :=
  (c.(mode), c.(flags), c.(ioCb), (c.(psk), c.(pskSz)), c.(reqSessionId), c.(maxVersion)).

Lemma asks_keep key c c' : asks key c -> ctx_wf c' -> ask_view c' = ask_view c -> asks key c'.
Proof.
  intros [Hwf (? & ? & ?) [? ?] ? ?] Hwf' [= Hm Hf Hio Hp Hz Hi Hv].
  unfold wolfSPDM_IsTcgMode, rng_on, max_version in *.
  split; unfold wolfSPDM_IsTcgMode, rng_on, max_version; rewrite ?Hm, ?Hf, ?Hio, ?Hp, ?Hz, ?Hi, ?Hv;
    by split_and?.
Qed.

Lemma framed_offers key conn fips r : offers key r -> 0 <= conn < 2 ^ 32 -> 0 <= fips < 2 ^ 16 ->
  offers key (framed conn fips r).
Proof.
  intros Hof Hc Hf. unfold framed. apply offers_ctx; [done| | |by destruct (rctx r)].
  - apply (rw_ctx _ (framed_wf conn fips r (of_wf _ _ Hof) Hc Hf)).
  - replace (state _) with (state (rctx r)) by by destruct (rctx r). apply rw_state, Hof.
Qed.

(** One request of the requester: the responder's dispatcher answers within
    the room of both sides. *)
Lemma ask_wire tx cap c r (t : T) (Q : bytes -> WOLFSPDM_CTX * SIDE -> Prop) E :
  ctx_wf c -> c.(ioCb) <> 0 -> wolfSPDM_IsTcgMode c = true -> serving r ->
  128 <= WOLFSPDM_MAX_MSG_SIZE -> len tx <= 108 ->
  let tag := if is_clear_msg tx then WOLFSPDM_TCG_TAG_CLEAR else WOLFSPDM_TCG_TAG_SECURED in
  wp (dispatch tag tx (TCG_BUF_SZ - WOLFSPDM_TCG_HEADER_SIZE))
    (fun out s' => is_bytes out /\ len out <= cap /\ len out <= 108 /\
       conn_view s'.1 = (c.(connectionHandle), c.(fipsIndicator)) /\ Q out (c, s'))
    (fun _ s' => E WOLFSPDM_E_IO_FAIL (c, s')) (framed c.(connectionHandle) c.(fipsIndicator) r, t) ->
  wp (wolfSPDM_SendReceive tx cap) Q E (c, (r, t)).
Proof.
  intros Hwf Hio Ht Hsrv Hm Hl tag Hd.
  assert (WOLFSPDM_TCG_HEADER_SIZE + 108 <= TCG_BUF_SZ) as Hroom
    by (unfold TCG_BUF_SZ, WOLFSPDM_TCG_HEADER_SIZE, WOLFSPDM_AEAD_OVERHEAD in *; lia).
  apply SendReceive_wire; [done..|lia|]. eapply wp_mono; [exact Hd| |done].
  intros out [r' t'] (? & ? & ? & Hv & ?). unfold conn_view in Hv. injection Hv as ? ?.
  split_and!; [done|done|lia|done|done|done].
Qed.

(** What the requester knows after VERSION. *)
Definition knows_version c : Prop :=
  tr c = get_version_msg ++ version_msg /\
  WOLFSPDM_MIN_SPDM_VERSION <= c.(spdmVersion) <= WOLFSPDM_RESP_MAX_VERSION.

Lemma version_parsed c (Q : unit -> WOLFSPDM_CTX -> Prop) E : WOLFSPDM_MIN_SPDM_VERSION <= max_version c ->
  (forall v, WOLFSPDM_MIN_SPDM_VERSION <= v <= WOLFSPDM_RESP_MAX_VERSION ->
     Q tt (c <| spdmVersion := v |> <| state := WOLFSPDM_STATE_VERSION |>)) ->
  wp (wolfSPDM_ParseVersion version_msg) Q E c.
Proof.
  intros Hmax HQ.
  assert (is_bytes version_msg) as Hb by (repeat constructor; by vm_compute).
  assert (offered version_msg = [0x12; 0x13]) as Ho by done.
  apply ParseVersion_wp; [done| |].
  - intros v Hv [[?|[Hin _]] _]; [done|]. apply HQ. rewrite Ho in Hin.
    change (0x12 <= v <= 0x13). destruct Hin as [<-|[<-|[]]]; lia.
  - intros rc c' _ _ [Hbad|[Hbad|Hbad]]; exfalso; [by vm_compute in Hbad|by apply Hbad|].
    apply (Hbad 0x12); [rewrite Ho; by left|]. split; [done|exact Hmax].
Qed.

Lemma GetVersion_wire key c r (t : T) (Q : unit -> WOLFSPDM_CTX * SIDE -> Prop) E :
  asks key c -> offers key r -> tr c = [] -> 128 <= WOLFSPDM_MAX_MSG_SIZE -> 64 <= WOLFSPDM_MAX_TRANSCRIPT ->
  (forall c' r', asks key c' -> offers key r' -> versioned r' -> knows_version c' ->
     (c'.(reqSeqNum), c'.(rspSeqNum)) = (c.(reqSeqNum), c.(rspSeqNum)) -> Q tt (c', (r', t))) ->
  wp wolfSPDM_GetVersion Q E (c, (r, t)).
Proof.
  intros Hak Hof Htr Hm Hmax HQ. pose proof Hak as [Hwf (Ht & Hrng & Hio) Hkey Hid Hver].
  unfold wolfSPDM_GetVersion, wolfSPDM_ExchangeMsg. do 2 io_step. io_step. io_step.
  unfold wolfSPDM_BuildGetVersion at 1. io_step. io_step. io_step; [done|]. io_step. fold get_version_msg.
  io_step. io_step. apply TranscriptAdd_sure; [done|rewrite Htr; change (0 + 4 <= WOLFSPDM_MAX_TRANSCRIPT); lia|].
  rewrite Htr. intros Hwf1 Ht1.
  assert (asks key (tr_add c get_version_msg)) as Hak1 by (apply (asks_keep _ c); [done|done|by destruct c]).
  assert (forall c', c' = tr_add c get_version_msg -> reqSeqNum c' = reqSeqNum c /\ rspSeqNum c' = rspSeqNum c)
    as Hsq by (intros ? ->; by destruct c).
  specialize (Hsq _ eq_refl). revert Hwf1 Ht1 Hak1 Hsq. generalize (tr_add c get_version_msg).
  intros c1 Hwf1 Ht1 Hak1 Hsq. pose proof Hak1 as [_ (Ht1' & _) _ _ Hver1]. wf_facts Hwf1.
  io_step. unfold wolfSPDM_ClearExchange. do 2 io_step.
  replace (wolfSPDM_ChunkOn c1) with false by (unfold wolfSPDM_ChunkOn; by rewrite Ht1'). rewrite Ht1'.
  io_step. io_step; [done|]. apply ask_wire; [done|apply Hak1|done|apply Hof|done|done|].
  change (is_clear_msg get_version_msg) with true. cbv iota zeta.
  assert (16 <= TCG_BUF_SZ - WOLFSPDM_TCG_HEADER_SIZE) as Hroom
    by (unfold TCG_BUF_SZ, WOLFSPDM_TCG_HEADER_SIZE, WOLFSPDM_AEAD_OVERHEAD in *; lia).
  apply (version_served key); [apply framed_offers; [done|lia..]|done|done|].
  intros r2 Hof2 Hv2 Hc2. split; [repeat constructor; by vm_compute|]. split; [done|]. split; [done|].
  split; [cbn [fst]; rewrite Hc2; by destruct r as [[]]|].
  io_step. io_step. apply TranscriptAdd_sure; [done|rewrite Ht1; change (4 + 10 <= WOLFSPDM_MAX_TRANSCRIPT); lia|].
  rewrite Ht1. intros Hwf3 Ht3. io_step. apply version_parsed; [by destruct c1|]. intros v Hv.
  apply HQ; try done.
  - apply (asks_keep _ c1); [done| |by destruct c1]. change (0x12 <= v <= 0x13) in Hv. wf_tac.
  - destruct Hsq as [<- <-]. by destruct c1.
Qed.

(** ** PSK_EXCHANGE at the responder *)

(** What the handlers of a handshake leave alone in a context. *)
Definition steady c :=
  (c.(mode), c.(flags), c.(spdmVersion), (c.(reqSeqNum), c.(rspSeqNum)),
   (c.(connectionHandle), c.(fipsIndicator)), rview c).

Definition psk_partial v (rnd : bytes) : bytes :=
  [v; SPDM_PSK_EXCHANGE_RSP; 0x00; 0x00] ++ SPDM_Set16LE RESP_SESSION_ID ++ [0x00; 0x00] ++
  SPDM_Set16LE 32 ++ SPDM_Set16LE 0 ++ rnd.

Lemma len_psk_partial v rnd : len rnd = 32 -> len (psk_partial v rnd) = 44.
Proof.
  intros Hr. unfold psk_partial. rewrite !len_app, Hr. change (len (SPDM_Set16LE _)) with 2.
  by autorewrite with blen.
Qed.

Lemma is_bytes_psk_partial v rnd : is_byte v -> is_bytes rnd -> is_bytes (psk_partial v rnd).
Proof.
  intros Hv Hr. unfold psk_partial.
  repeat apply is_bytes_app; try apply is_bytes_Set16LE; try done;
    repeat (apply List.Forall_cons; [done|]); apply List.Forall_nil.
Qed.

(** The traffic keys of one direction pair, and the secrets the end of the
    handshake needs. *)
Definition keyed v (tr1 key : bytes) c : Prop :=
  exists hs th k, wc_HKDF_Extract pskSalt key = Some hs /\ sha384 tr1 [] [] = Some th /\
    hs_schedule v hs th = Some k /\ c.(handshakeSecret) = hs /\ c.(reqFinishedKey) = k_req_fin k /\
    (c.(reqDataKey), c.(reqDataIv), (c.(rspDataKey), c.(rspDataIv))) = (k_req k, k_rsp k).

Lemma keyed_same v tr1 key c q : keyed v tr1 key c -> keyed v tr1 key q ->
  c.(handshakeSecret) = q.(handshakeSecret) /\ c.(reqFinishedKey) = q.(reqFinishedKey) /\
  (c.(reqDataKey), c.(reqDataIv), (c.(rspDataKey), c.(rspDataIv))) =
  (q.(reqDataKey), q.(reqDataIv), (q.(rspDataKey), q.(rspDataIv))).
Proof.
  intros (hs & th & k & He & Ht & Hk & -> & -> & ->) (hs' & th' & k' & He' & Ht' & Hk' & -> & -> & ->).
  by simplify_eq.
Qed.

(** The verify data of the responder over the same keys. *)
Definition rsp_verify v (tr1 key vd : bytes) : Prop :=
  exists hs th k, wc_HKDF_Extract pskSalt key = Some hs /\ sha384 tr1 [] [] = Some th /\
    hs_schedule v hs th = Some k /\ verify_data (k_rsp_fin k) th = Some vd.

Lemma steady_psk_derived hs k c : steady (psk_derived hs k c) = steady c.
Proof. by destruct c. Qed.
Lemma steady_tr_add d c : steady (tr_add c d) = steady c.
Proof. by destruct c. Qed.
Lemma steady_th1 h c : steady (c <| th1 := h |>) = steady c.
Proof. by destruct c. Qed.
Lemma steady_rng x c : steady (set_rng x c) = steady c.
Proof. by destruct c. Qed.
Lemma tr_psk_derived hs k c : tr (psk_derived hs k c) = tr c.
Proof. by destruct c. Qed.
Hint Rewrite steady_psk_derived steady_tr_add steady_th1 steady_rng tr_psk_derived tr_th1 tr_rng : steady.

Definition psk_done c : Prop := c.(psk) = zeros WOLFSPDM_PSK_MAX_SIZE /\ c.(pskSz) = 0.

(** The middle of both sides' handlers: record the response as far as its
    verify data, derive the keys over it, compute the verify data. *)
Lemma psk_keys_sure {A} p key c (k : bytes -> M WOLFSPDM_CTX A) Q E :
  ctx_wf c -> c.(pskSz) <> 0 -> sub_bytes c.(psk) 0 c.(pskSz) = key ->
  len (tr c) + len p <= WOLFSPDM_MAX_TRANSCRIPT ->
  (forall vd c', len vd = WOLFSPDM_HASH_SIZE -> is_bytes vd ->
     rsp_verify c.(spdmVersion) (tr c ++ p) key vd -> keyed c.(spdmVersion) (tr c ++ p) key c' ->
     ctx_wf c' -> tr c' = tr c ++ p -> (c'.(sessionId), c'.(reqSessionId), c'.(ioCb)) =
       (c.(sessionId), c.(reqSessionId), c.(ioCb)) ->
     psk_done c' -> steady c' = steady c -> wp (k vd) Q E c') ->
  (forall rc c', ~ CryptTotal -> E rc c') ->
  wp (wolfSPDM_TranscriptAdd p ;;;
      let* th1Hash := wolfSPDM_TranscriptHash in
      upd (fun c => c <| th1 := th1Hash |>) ;;;
      wolfSPDM_DeriveHandshakeKeysPsk th1Hash ;;;
      let* ctx := @get WOLFSPDM_CTX in
      let* verifyData := wolfSPDM_ComputeVerifyData ctx.(rspFinishedKey) th1Hash in k verifyData) Q E c.
Proof.
  intros Hwf Hz Hkey Hmax HQ HE.
  wp_step. apply TranscriptAdd_sure; [done|done|]. intros Hwf1 Ht1.
  wp_step. apply TranscriptHash_sure; [done| |done]. rewrite Ht1. intros th Hth Hthl _.
  do 2 (wp_step; cbv beta). wp_step. set (c3 := (tr_add c p) <| th1 := th |>).
  set (ids := fun c => (sessionId c, reqSessionId c, ioCb c)).
  assert (ctx_wf c3 /\ steady c3 = steady c /\ tr c3 = tr c ++ p /\ ids c3 = ids c /\
    pskSz c3 = pskSz c /\ psk_secret c3 = psk_secret c /\ spdmVersion c3 = spdmVersion c)
    as (Hwf4 & Hv4 & Ht4 & Hs4 & Hz4 & Hk4 & Hver4).
  { unfold c3. split_and!; [wf_tac|by autorewrite with steady|by autorewrite with steady|by destruct c..]. }
  unfold psk_secret in Hk4 at 2. rewrite Hkey in Hk4. clearbody c3.
  apply DeriveHandshakeKeysPsk_sure; [done|done|by rewrite Hz4| |done].
  intros hs x Hhs Hk Hwf5. rewrite Hk4 in Hhs. rewrite Hver4 in Hk.
  destruct (psk_derived_fields hs x c3) as (_ & Hf1 & Hf2 & Hf3 & Hf4 & _).
  assert (steady (psk_derived hs x c3) = steady c /\ tr (psk_derived hs x c3) = tr c ++ p /\
    ids (psk_derived hs x c3) = ids c3) as (Hv5 & Ht5 & Hs5)
    by (split_and!; [by autorewrite with steady..|by destruct c3]).
  rewrite Hs4 in Hs5. wf_facts Hwf5. do 2 (wp_step; cbv beta). wp_step.
  apply ComputeVerifyData_sure; [lia|lia| |done]. intros vd Hvd Hvl Hvb. rewrite Hf3 in Hvd.
  apply HQ; try done; by exists hs, th, x.
Qed.

(** The end of the responder's answer. *)
Lemma psk_verify_sure p key c (Q : bytes -> WOLFSPDM_CTX -> Prop) E :
  ctx_wf c -> c.(pskSz) <> 0 -> sub_bytes c.(psk) 0 c.(pskSz) = key ->
  len (tr c) + len p + WOLFSPDM_HASH_SIZE <= WOLFSPDM_MAX_TRANSCRIPT ->
  (forall vd c', len vd = WOLFSPDM_HASH_SIZE -> is_bytes vd ->
     rsp_verify c.(spdmVersion) (tr c ++ p) key vd -> keyed c.(spdmVersion) (tr c ++ p) key c' ->
     ctx_wf c' -> tr c' = tr c ++ p ++ vd -> c'.(sessionId) = c.(sessionId) ->
     steady c' = steady (c <| state := WOLFSPDM_STATE_KEY_EX |>) -> Q (p ++ vd) c') ->
  (forall rc c', ~ CryptTotal -> E rc c') ->
  wp (wolfSPDM_TranscriptAdd p ;;;
      let* th1Hash := wolfSPDM_TranscriptHash in
      upd (fun c => c <| th1 := th1Hash |>) ;;;
      wolfSPDM_DeriveHandshakeKeysPsk th1Hash ;;;
      let* ctx := @get WOLFSPDM_CTX in
      let* verifyData := wolfSPDM_ComputeVerifyData ctx.(rspFinishedKey) th1Hash in
      wolfSPDM_TranscriptAdd verifyData ;;;
      upd (fun c => c <| state := WOLFSPDM_STATE_KEY_EX |>) ;;;
      ret (p ++ verifyData)) Q E c.
Proof.
  intros Hwf Hz Hkey Hmax HQ HE. pose proof (len_nonneg p).
  apply (psk_keys_sure p key); [done..|unfold WOLFSPDM_HASH_SIZE in *; lia| |done].
  intros vd c5 Hvl Hvb Hvd Hk Hwf5 Ht5 Hs5 _ Hv5. injection Hs5 as Hs5 _ _.
  wp_step. apply TranscriptAdd_sure; [done|rewrite Ht5, len_app; lia|].
  rewrite Ht5, <- app_assoc. intros Hwf6 Ht6. do 3 (wp_step; cbv beta). apply HQ; try done.
  - wf_tac.
  - revert Hv5. rewrite <- (steady_tr_add vd c5). generalize (tr_add c5 vd). intros c6 Hv6.
    unfold steady, rview in *. destruct c6, c. cbn in *. congruence.
Qed.

(** From the open session to the verify data. *)
Lemma psk_exchange_rsp_sure inp key c (Q : bytes -> WOLFSPDM_CTX -> Prop) E :
  ctx_wf c -> rng_on c -> 12 <= len inp -> c.(pskSz) <> 0 ->
  sub_bytes c.(psk) 0 c.(pskSz) = key -> len (tr c) + 92 <= WOLFSPDM_MAX_TRANSCRIPT ->
  (forall rnd vd c', let p := psk_partial c.(spdmVersion) rnd in
     len rnd = 32 -> is_bytes rnd -> len vd = WOLFSPDM_HASH_SIZE -> is_bytes vd ->
     rsp_verify c.(spdmVersion) (tr c ++ p) key vd -> keyed c.(spdmVersion) (tr c ++ p) key c' ->
     ctx_wf c' -> tr c' = tr c ++ p ++ vd ->
     c'.(sessionId) = SPDM_Get16LE (sub_bytes inp 4 2) + RESP_SESSION_ID * 2 ^ 16 ->
     steady c' = steady (c <| state := WOLFSPDM_STATE_KEY_EX |>) -> Q (p ++ vd) c') ->
  (forall rc c', ~ CryptTotal -> E rc c') -> wp (psk_exchange_rsp inp) Q E c.
Proof.
  intros Hwf Hr Hl Hsz Hkey Hmax HQ HE. unfold psk_exchange_rsp, resp_open_session.
  wp_step. wp_step. apply wp_rd16le; [lia|lia|]. intros id Hid Hidr. wp_step.
  destruct (session_id_range id RESP_SESSION_ID) as [Hsr Hsid]; [done|done|].
  set (c1 := c <| reqSessionId := id |> <| rspSessionId := RESP_SESSION_ID |> <| sessionId := _ |>).
  assert (ctx_wf c1 /\ rng_on c1 /\ steady c1 = steady c /\ tr c1 = tr c /\ spdmVersion c1 = spdmVersion c /\
    rspSessionId c1 = RESP_SESSION_ID /\ sessionId c1 = id + RESP_SESSION_ID * 2 ^ 16 /\ pskSz c1 <> 0 /\
    sub_bytes (psk c1) 0 (pskSz c1) = key) as (Hwf1 & Hr1 & Hv1 & Ht1 & Hver1 & Hrs1 & Hs1 & Hz1 & Hk1).
  { unfold c1. split_and!; try (by destruct c). unfold RESP_SESSION_ID in *. wf_tac. }
  clearbody c1. rewrite <- Hid in HQ.
  do 2 (wp_step; cbv beta). wp_step. apply GetRandom_sure; [done|done|done| |done].
  intros rs rnd Hrl Hrb Hwf2. cbv zeta. rewrite Hver1, Hrs1. fold (psk_partial (spdmVersion c) rnd).
  set (p := psk_partial (spdmVersion c) rnd) in *.
  pose proof (len_psk_partial (spdmVersion c) rnd Hrl) as Hpl. fold p in Hpl.
  specialize (HQ rnd). cbv zeta in HQ. fold p in HQ. clearbody p.
  assert (steady (set_rng rs c1) = steady c /\ tr (set_rng rs c1) = tr c /\
    spdmVersion (set_rng rs c1) = spdmVersion c /\ sessionId (set_rng rs c1) = sessionId c1 /\
    pskSz (set_rng rs c1) <> 0 /\ sub_bytes (psk (set_rng rs c1)) 0 (pskSz (set_rng rs c1)) = key)
    as (Hv2 & Ht2 & Hver2 & Hs2 & Hz2 & Hk2) by (by destruct c1). rewrite Hs1 in Hs2.
  revert Hwf2 Hv2 Ht2 Hver2 Hs2 Hz2 Hk2. generalize (set_rng rs c1). clear c1 Hwf1 Hr1 Hv1 Ht1 Hver1 Hrs1 Hs1 Hz1 Hk1.
  intros c2 Hwf2 Hv2 Ht2 Hver2 Hs2 Hz2 Hk2.
  eapply (psk_verify_sure p key c2); try done; rewrite ?Ht2, ?Hver2, ?Hpl, ?Hs2;
    [unfold WOLFSPDM_HASH_SIZE; lia|].
  intros vd c' Hvl Hvb Hvd Hk Hwf' Ht' Hs' Hv'. apply HQ; try done. rewrite Hv'.
  unfold steady, rview in *. destruct c2, c. cbn in *. congruence.
Qed.

(** What the responder has done with an accepted PSK_EXCHANGE. *)
Record psk_answered (key inp : bytes) c rsp c' : Prop := {
  pa_rsp : exists rnd vd, let p := psk_partial c.(spdmVersion) rnd in rsp = p ++ vd /\
    len rnd = 32 /\ is_bytes rnd /\ len vd = WOLFSPDM_HASH_SIZE /\ is_bytes vd /\
    rsp_verify c.(spdmVersion) (tr c ++ p) key vd /\ keyed c.(spdmVersion) (tr c ++ p) key c';
  pa_tr : tr c' = tr c ++ rsp;
  pa_id : c'.(sessionId) = SPDM_Get16LE (sub_bytes inp 4 2) + RESP_SESSION_ID * 2 ^ 16;
  pa_steady : steady c' = steady (c <| state := WOLFSPDM_STATE_KEY_EX |>)
}.

Lemma psk_exchange_handled key inp n r (Q : bytes -> WOLFSPDM_RESP_CTX -> Prop) E :
  offers key r -> 12 <= len inp -> 92 <= n -> len (tr r.(rctx)) + 92 <= WOLFSPDM_MAX_TRANSCRIPT ->
  12 + SPDM_Get16LE (sub_bytes inp 6 2) + SPDM_Get16LE (sub_bytes inp 8 2) +
    SPDM_Get16LE (sub_bytes inp 10 2) <= len inp ->
  (forall rsp r', psk_answered key inp r.(rctx) rsp r'.(rctx) -> offers key r' ->
     r'.(rflags).(pendingAsym) = false -> Q rsp r') ->
  (forall rc r', ~ CryptTotal -> E rc r') -> wp (RespBuildPskExchangeRsp inp n) Q E r.
Proof.
  intros Hof Hl Hn Hmax Hlen HQ HE. pose proof Hof as [Hwf _ [_ Hr] [Hz Hkey]]. pose proof (rw_ctx _ Hwf) as Hc.
  unfold RespBuildPskExchangeRsp. do 3 (wp_step; cbv beta). wp_step; [lia|]. wp_step. wp_step.
  { unfold WOLFSPDM_HASH_SIZE in *. lia. }
  do 3 (wp_step; apply wp_rd16le; [lia|lia|]; intros ? -> _). wp_step. wp_step; [lia|].
  wp_step. apply reload_psk_wp; [done|]. intros c Hcwf _ (h & m & Hre).
  destruct (rw_psk _ Hwf) as (Hpl & _ & Hps & _). wf_facts Hc.
  assert (steady c = steady (rctx r) /\ tr c = tr (rctx r) /\ rng_on c /\ pskSz c = pskStoreSz r /\
    spdmVersion c = spdmVersion (rctx r) /\
    sub_bytes (psk c) 0 (pskSz c) = key) as (Hv & Ht & Hrc & Hzc & Hver & Hkc).
  { subst c. split_and!; try (by destruct (rctx r)). ctx_simpl.
    rewrite sub_bytes_splice; rewrite ?len_sub_bytes by lia; try lia. done. }
  clear Hre. wp_step. unfold in_ctx. wp_step. rewrite rctx_put.
  apply (psk_exchange_rsp_sure inp key c); try done; [by rewrite Hzc|by rewrite Ht| |by intros; apply HE].
  rewrite Hver, Ht. intros rnd vd c' p Hrl Hrb Hvl Hvb Hvd Hk Hwf' Ht' Hs' Hv'.
  do 3 (wp_step; cbv beta). rewrite put_put.
  assert (steady c' = steady ((rctx r) <| state := WOLFSPDM_STATE_KEY_EX |>)) as Hst.
  { rewrite Hv'. unfold steady, rview in *. destruct c, (rctx r). cbn in *. congruence. }
  assert (offers key (r <| rctx := c' |>)) as Hof'.
  { unfold steady, rview in Hst. apply offers_ctx; [done|done| |destruct (rctx r); cbn in *; congruence].
    right; right; left. destruct (rctx r); cbn in *; congruence. }
  apply HQ; [| |by destruct r as [? []]].
  - match goal with |- psk_answered _ _ _ _ (rctx ?x) => replace (rctx x) with c' by by destruct r end.
    split; try done. exists rnd, vd. by split_and!.
  - destruct Hof' as [? ? ? ?]. split; [|by destruct r as [? []]..].
    by apply (resp_wf_flags (r <| rctx := c' |>)); [|by destruct r as [? []]].
Qed.

(** The first request with a version settles it. *)
Lemma select_fresh v r (t : T) (Q : unit + Z -> SIDE -> Prop) E :
  WOLFSPDM_MIN_SPDM_VERSION <= v <= WOLFSPDM_RESP_MAX_VERSION ->
  r.(rctx).(spdmVersion) = 0 -> r.(rctx).(state) = WOLFSPDM_STATE_VERSION ->
  Q (inl tt) (r <| rctx := r.(rctx) <| spdmVersion := v |> |>, t) ->
  wp (try (on_r (in_ctx (RespSelectVersion v false)))) Q E (r, t).
Proof.
  intros Hv Hz Hst HQ. wp_step. unfold on_r, in_ctx, RespSelectVersion. do 2 wp_step. do 2 (wp_step; cbv beta).
  cbn [fst]. rewrite Hz, Hst. cbn [negb Z.eqb Pos.eqb WOLFSPDM_STATE_VERSION]. wp_step.
  apply wp_check; [lia|]. intros _. by wp_step.
Qed.

Lemma exchange_served key v m n r (t : T) (Q : bytes -> SIDE -> Prop) E :
  offers key r -> versioned r -> WOLFSPDM_MIN_SPDM_VERSION <= v <= WOLFSPDM_RESP_MAX_VERSION ->
  at_ m 0 = v -> at_ m 1 = SPDM_PSK_EXCHANGE -> 12 <= len m <= 100 -> 92 <= n ->
  12 + SPDM_Get16LE (sub_bytes m 6 2) + SPDM_Get16LE (sub_bytes m 8 2) +
    SPDM_Get16LE (sub_bytes m 10 2) <= len m ->
  256 <= WOLFSPDM_MAX_TRANSCRIPT ->
  (forall c1 rsp r', tr c1 = (get_version_msg ++ version_msg) ++ m -> c1.(spdmVersion) = v ->
     c1.(reqSeqNum) = 0 /\ c1.(rspSeqNum) = 0 -> conn_view r = (connectionHandle c1, fipsIndicator c1) ->
     psk_answered key m c1 rsp r'.(rctx) -> offers key r' -> r'.(rflags).(pendingAsym) = false ->
     Q rsp (r', t)) ->
  (forall rc s, ~ CryptTotal -> E rc s) -> wp (dispatch WOLFSPDM_TCG_TAG_CLEAR m n) Q E (r, t).
Proof.
  intros Hof (Htr & Hver & Hst & Hq & Hs) Hv Hm0 Hm1 Hl Hn Hlen Hmax HQ HE.
  pose proof (rw_ctx _ (of_wf _ _ Hof)) as Hc. pose proof (of_serving _ _ Hof) as [_ Hpsk].
  change (dispatch WOLFSPDM_TCG_TAG_CLEAR) with (RespDispatchClear (T := T)).
  unfold RespDispatchClear. wp_step. wp_step; [lia|]. wp_step. apply (rd_is _ _ SPDM_PSK_EXCHANGE); [lia|done|].
  wp_step. apply (rd_is _ _ v); [lia|done|].
  change (SPDM_PSK_EXCHANGE =? SPDM_GET_VERSION) with false.
  change (SPDM_PSK_EXCHANGE =? SPDM_VENDOR_DEFINED_REQUEST) with false. cbv iota.
  wp_step. apply select_fresh; [done..|].
  set (c0 := (rctx r) <| spdmVersion := v |>).
  assert (ctx_wf c0) as Hc0 by (change (0x12 <= v <= 0x13) in Hv; unfold c0; wf_tac).
  assert (tr c0 = get_version_msg ++ version_msg) as Ht0 by (rewrite <- Htr; by unfold c0; destruct (rctx r)).
  assert (offers key (r <| rctx := c0 |>)) as Hof0.
  { apply offers_ctx; [done|done| |by unfold c0; destruct (rctx r)].
    replace (state c0) with WOLFSPDM_STATE_VERSION by by unfold c0; destruct (rctx r). right; by left. }
  assert (steady c0 = steady ((rctx r) <| spdmVersion := v |>)) as Hs0 by done.
  assert (c0.(state) = WOLFSPDM_STATE_VERSION) as Hst0 by (unfold c0; by destruct (rctx r)).
  clearbody c0. unfold get_r, on_r at 1. do 3 wp_step. cbn [fst snd].
  change (SPDM_PSK_EXCHANGE =? SPDM_KEY_EXCHANGE) with false.
  change (SPDM_PSK_EXCHANGE =? SPDM_PSK_EXCHANGE) with true.
  replace (usePsk (rflags (r <| rctx := c0 |>))) with true by by destruct r. rewrite rctx_put, Hst0.
  cbn [orb andb negb when Z.eqb Pos.eqb WOLFSPDM_STATE_VERSION WOLFSPDM_STATE_KEY_EX WOLFSPDM_STATE_CONNECTED].
  wp_step. apply resp_add_sure; puts; [done|rewrite Ht0; change (14 + len m <= WOLFSPDM_MAX_TRANSCRIPT); lia|].
  rewrite Ht0. intros Hc1 Ht1.
  assert (offers key (r <| rctx := tr_add c0 m |>)) as Hof1.
  { rewrite <- (put_put r c0). apply offers_ctx; [done|done| |by puts; destruct c0].
    replace (state (tr_add c0 m)) with (state c0) by by destruct c0. rewrite Hst0. right; by left. }
  assert (steady (tr_add c0 m) = steady ((rctx r) <| spdmVersion := v |>)) as Hs1
    by (by autorewrite with steady).
  change (resp_clear_handler SPDM_PSK_EXCHANGE m n) with (on_r (T := T) (RespBuildPskExchangeRsp m n)).
  unfold on_r. wp_step. cbn [fst snd].
  apply (psk_exchange_handled key); puts; try done; [lia| | |intros; by apply HE].
  { rewrite Ht1, len_app. change (14 + len m + 92 <= WOLFSPDM_MAX_TRANSCRIPT). lia. }
  intros rsp r' Ha Hof' Hp. unfold steady in Hs1. injection Hs1 as _ _ Hv1 Hq1 Hs1 Hcn Hfp _.
  apply (HQ (tr_add c0 m)); try done; [destruct c0, (rctx r); cbn in *; split; congruence|].
  unfold conn_view. destruct c0, (rctx r). cbn in *. congruence.
Qed.

(** ** PSK_EXCHANGE at the requester *)

Lemma psk_answer_fields v rnd vd : len rnd = 32 ->
  let b := psk_partial v rnd ++ vd in
  at_ b 1 = SPDM_PSK_EXCHANGE_RSP /\ SPDM_Get16LE (sub_bytes b 4 2) = RESP_SESSION_ID /\
  SPDM_Get16LE (sub_bytes b 8 2) = 32 /\ SPDM_Get16LE (sub_bytes b 10 2) = 0 /\
  sub_bytes b 0 44 = psk_partial v rnd /\ (len vd = WOLFSPDM_HASH_SIZE -> sub_bytes b 44 WOLFSPDM_HASH_SIZE = vd).
Proof.
  intros Hr b. pose proof (len_psk_partial v rnd Hr) as Hp. split_and!; [done..| |].
  - by apply sub_bytes_app_l.
  - intros. by apply sub_bytes_app_r.
Qed.

(** The requester derives the keys the responder derived, so it finds its
    verify data right. *)
Lemma psk_answer_parsed key v rnd vd c (Q : unit -> WOLFSPDM_CTX -> Prop) E :
  asks key c -> c.(spdmVersion) = v -> len rnd = 32 -> len vd = WOLFSPDM_HASH_SIZE -> is_bytes vd ->
  let p := psk_partial v rnd in
  rsp_verify v (tr c ++ p) key vd -> len (tr c) + 92 <= WOLFSPDM_MAX_TRANSCRIPT ->
  (forall c', ctx_wf c' -> keyed v (tr c ++ p) key c' -> tr c' = tr c ++ p ++ vd ->
     c'.(sessionId) = c.(reqSessionId) + RESP_SESSION_ID * 2 ^ 16 -> psk_done c' ->
     steady c' = steady (c <| state := WOLFSPDM_STATE_KEY_EX |>) -> c'.(ioCb) = c.(ioCb) -> Q tt c') ->
  (forall rc c', ~ CryptTotal -> E rc c') ->
  wp (wolfSPDM_ParsePskExchangeRsp (p ++ vd)) Q E c.
Proof.
  intros Hak Hv Hrl Hvl Hvb p Hvd Hmax HQ HE. pose proof Hak as [Hwf _ [Hz Hkey] _ _].
  pose proof (psk_answer_fields v rnd vd Hrl) as (Hcode & Hid & Hl8 & Hl10 & Hpart & Hvdat).
  specialize (Hvdat Hvl). fold p in Hcode, Hid, Hl8, Hl10, Hpart, Hvdat.
  pose proof (len_psk_partial v rnd Hrl) as Hpl. fold p in Hpl. clearbody p.
  assert (len (p ++ vd) = 92) as Hl by (rewrite len_app, Hpl, Hvl; done).
  remember (p ++ vd) as buf eqn:Hbuf. rewrite Hbuf in HQ. clear Hbuf. unfold wolfSPDM_ParsePskExchangeRsp.
  wp_step. apply CHECK_PARSE_OR_ERROR_wp; [|lia]. intros _ _. wp_step. apply CHECK_RESPONSE_wp; [lia| | |].
  2: { intros e He. by rewrite He in Hcode. }
  2: { intros Hne. by destruct Hne. }
  intros _. wp_step. apply wp_rd16le; [lia|lia|]. intros n1 -> _. rewrite Hl8.
  wp_step. apply wp_rd16le; [lia|lia|]. intros n2 -> _. rewrite Hl10. cbv zeta.
  change (12 + 32 + 0) with 44. wp_step; wp_step; [unfold WOLFSPDM_HASH_SIZE in *; lia|].
  do 2 (wp_step; wp_step; try (unfold WOLFSPDM_HASH_SIZE in *; lia)). rewrite Hpart, Hvdat.
  apply (psk_keys_sure p key); [done..|lia| |done].
  rewrite Hv. intros vd' c5 Hvl' Hvb' Hvd' Hk Hwf5 Ht5 Hs5 Hd5 Hv5. injection Hs5 as _ Hi5 Hio5.
  assert (vd' = vd) as ->.
  { destruct Hvd as (? & ? & ? & ? & ? & ? & ?), Hvd' as (? & ? & ? & ? & ? & ? & ?). by simplify_eq. }
  assert (wolfSPDM_ConstCompare vd vd WOLFSPDM_HASH_SIZE = 0) as Hcc
    by (apply wolfSPDM_ConstCompare_eq; [done|done|done|lia|lia|done]).
  wp_step. rewrite Hcc. wp_step; [done|].
  wp_step. apply TranscriptAdd_sure; [done|rewrite Ht5, len_app; unfold WOLFSPDM_HASH_SIZE in *; lia|].
  rewrite Ht5, <- app_assoc. intros Hwf6 Ht6. wp_step. apply wp_rd16le; [lia|lia|]. rewrite Hid. intros id -> _.
  wp_step. fold (psk_commit RESP_SESSION_ID (tr_add c5 vd)).
  destruct (session_id_range (reqSessionId c) RESP_SESSION_ID) as [_ Hsid]; [wf_facts Hwf; lia|done|].
  apply HQ.
  - by apply psk_commit_wf.
  - by destruct c5.
  - by rewrite tr_psk_commit.
  - rewrite <- Hsid, <- Hi5. by destruct c5.
  - by destruct c5.
  - revert Hv5. clear. unfold steady, rview. destruct c5, c. cbn. congruence.
  - rewrite <- Hio5. by destruct c5.
Qed.

Lemma BuildPskExchange_sure c (Q : bytes -> WOLFSPDM_CTX -> Prop) E : ctx_wf c -> rng_on c -> c.(pskSz) <> 0 ->
  (forall rnd x, len rnd = WOLFSPDM_RANDOM_SIZE -> ctx_wf (set_rng x c) -> Q (psk_request c rnd) (set_rng x c)) ->
  (forall rc c', ~ CryptTotal -> E rc c') -> wp (wolfSPDM_BuildPskExchange 128) Q E c.
Proof.
  intros Hwf Hr Hz HQ HE. wf_facts Hwf. unfold WOLFSPDM_PSK_HINT_MAX in *.
  unfold wolfSPDM_BuildPskExchange, SPDM_CHECK_BUILD_ARGS.
  wp_step. wp_step; [done|]. do 2 (wp_step; cbv beta). wp_step. wp_step; [lia|].
  cbv zeta. wp_step. wp_step; [lia|]. wp_step. wp_step. wp_step.
  wp_step; [unfold WOLFSPDM_RANDOM_SIZE in *; lia|].
  wp_step. apply GetRandom_sure; [done..| |done]. intros x rnd Hl Hb Hwf1. wp_step. by apply HQ.
Qed.

Lemma psk_request_fields c rnd : ctx_wf c -> len rnd = WOLFSPDM_RANDOM_SIZE ->
  let m := psk_request c rnd in
  at_ m 0 = c.(spdmVersion) /\ at_ m 1 = SPDM_PSK_EXCHANGE /\
  SPDM_Get16LE (sub_bytes m 4 2) = c.(reqSessionId) /\
  12 + SPDM_Get16LE (sub_bytes m 6 2) + SPDM_Get16LE (sub_bytes m 8 2) + SPDM_Get16LE (sub_bytes m 10 2) = len m /\
  44 <= len m <= 76.
Proof.
  intros Hwf Hl m. wf_facts Hwf. unfold WOLFSPDM_PSK_HINT_MAX, WOLFSPDM_RANDOM_SIZE in *.
  assert (len m = 44 + pskHintSz c) as Hm.
  { unfold m, psk_request. rewrite !len_app, Hl, len_sub_bytes by lia. autorewrite with blen.
    change (len (SPDM_Set16LE _)) with 2. lia. }
  assert (SPDM_Get16LE (sub_bytes m 4 2) = SPDM_Get16LE (SPDM_Set16LE (reqSessionId c))) as -> by done.
  assert (SPDM_Get16LE (sub_bytes m 6 2) = SPDM_Get16LE (SPDM_Set16LE (w16 (pskHintSz c)))) as -> by done.
  assert (SPDM_Get16LE (sub_bytes m 8 2) = 32) as -> by done.
  assert (SPDM_Get16LE (sub_bytes m 10 2) = 0) as -> by done.
  rewrite (w16_id (pskHintSz c)), !Get16LE_Set16LE by lia. split_and!; [done..|lia|lia|lia].
Qed.

(** ** Both sides after PSK_EXCHANGE *)

(** The same keys, transcript and session on both sides, before PSK_FINISH. *)
Record paired (key : bytes) c r : Prop := {
  pr_req : ctx_wf c /\ c.(ioCb) <> 0 /\ wolfSPDM_IsTcgMode c = true /\ rng_on c;
  pr_rsp : offers key r;
  pr_open : r.(rctx).(state) = WOLFSPDM_STATE_KEY_EX /\ r.(rflags).(pendingAsym) = false;
  pr_tr : tr r.(rctx) = tr c /\ len (tr c) <= 182;
  pr_version : r.(rctx).(spdmVersion) = c.(spdmVersion) /\
    WOLFSPDM_MIN_SPDM_VERSION <= c.(spdmVersion) <= WOLFSPDM_RESP_MAX_VERSION;
  pr_secrets : r.(rctx).(handshakeSecret) = c.(handshakeSecret) /\
    r.(rctx).(reqFinishedKey) = c.(reqFinishedKey);
  pr_linked : linked c r.(rctx);
  pr_id : c.(sessionId) <> 0 /\ ~ 0x10 <= Z.land c.(sessionId) 0xFF <= 0x1F;
  pr_done : psk_done c
}.

Lemma low_byte_session a b : 0 <= a -> 0 <= b -> Z.land (a + b * 2 ^ 16) 0xFF = Z.land a 0xFF.
Proof.
  intros. change 0xFF with (Z.ones 8). rewrite !Z.land_ones by done.
  replace (a + b * 2 ^ 16) with (a + (b * 2 ^ 8) * 2 ^ 8) by lia. by rewrite Z_mod_plus_full.
Qed.

(** The two ends of the exchange, put together. *)
Lemma exchange_pairs key m c c1 rnd vd c' r : let p := psk_partial c.(spdmVersion) rnd in
  asks key c -> WOLFSPDM_MIN_SPDM_VERSION <= c.(spdmVersion) <= WOLFSPDM_RESP_MAX_VERSION ->
  c.(reqSeqNum) = 0 /\ c.(rspSeqNum) = 0 -> len (tr c ++ p ++ vd) <= 182 ->
  ctx_wf c' -> keyed c.(spdmVersion) (tr c ++ p) key c' -> tr c' = tr c ++ p ++ vd ->
  c'.(sessionId) = c.(reqSessionId) + RESP_SESSION_ID * 2 ^ 16 -> psk_done c' ->
  steady c' = steady (c <| state := WOLFSPDM_STATE_KEY_EX |>) -> c'.(ioCb) = c.(ioCb) ->
  tr c1 = tr c -> c1.(spdmVersion) = c.(spdmVersion) -> c1.(reqSeqNum) = 0 /\ c1.(rspSeqNum) = 0 ->
  psk_answered key m c1 (p ++ vd) r.(rctx) -> keyed c.(spdmVersion) (tr c ++ p) key r.(rctx) ->
  SPDM_Get16LE (sub_bytes m 4 2) = c.(reqSessionId) ->
  offers key r -> r.(rflags).(pendingAsym) = false -> paired key c' r.
Proof.
  intros p [Hwf (Ht & Hr & Hio) _ Hid _] Hv [Hq1 Hq2] Hl Hwf' Hk Htr' Hs Hd Hst Hio' Htr1 Hv1 [Hq3 Hq4]
    [_ Htrr Hsr Hstr] Hkr Hm Hof Hp.
  pose proof (keyed_same _ _ _ _ _ Hkr Hk) as (Hk1 & Hk2 & Hk3). injection Hk3 as Hk3 Hk4 Hk5 Hk6.
  unfold steady in Hst, Hstr. injection Hst as Hm2 Hf2 Hv2 Hq5 Hq6 _ _ Hst2 _.
  injection Hstr as Hm3 Hf3 Hv3 Hq7 Hq8 _ _ Hst3 _. ctx_simpl_in Hm2.
  rewrite Hm in Hsr. destruct (of_ctx _ _ Hof) as [Htr _]. wf_facts Hwf.
  assert (wolfSPDM_IsTcgMode c' = true) as Ht' by (unfold wolfSPDM_IsTcgMode in *; by rewrite Hm2).
  split; try done.
  - split_and!; [done|congruence|done|]. unfold rng_on in *. by rewrite Hf2.
  - rewrite Htrr, Htr', Htr1. done.
  - split; [|by rewrite Hv2]. rewrite Hv3, Hv2. done.
  - apply linked_views. unfold rec_view. rewrite Ht', Htr, Hs, Hsr. destruct c, c1. cbn in *. congruence.
  - rewrite Hs. unfold RESP_SESSION_ID in *. split; [lia|]. by rewrite low_byte_session by lia.
Qed.

Lemma exchange_wire key c r (t : T) {A} (k : M (WOLFSPDM_CTX * SIDE) A) Q E :
  asks key c -> knows_version c -> c.(reqSeqNum) = 0 /\ c.(rspSeqNum) = 0 -> offers key r -> versioned r ->
  128 <= WOLFSPDM_MAX_MSG_SIZE -> 256 <= WOLFSPDM_MAX_TRANSCRIPT ->
  (forall c' r', paired key c' r' -> wp k Q E (c', (r', t))) ->
  (forall rc x, ~ CryptTotal -> E rc x) ->
  wp (let* txBuf := on_ctx (wolfSPDM_BuildPskExchange 128) in
      on_ctx (wolfSPDM_TranscriptAdd txBuf) ;;;
      let* rxBuf := wolfSPDM_SendReceive txBuf (WOLFSPDM_MAX_MSG_SIZE + WOLFSPDM_AEAD_OVERHEAD) in
      on_ctx (wolfSPDM_ParsePskExchangeRsp rxBuf) ;;; k) Q E (c, (r, t)).
Proof.
  intros Hak [Htr Hv] Hq Hof Hver Hm Hmax HQ HE. pose proof Hak as [Hwf (Ht & Hr & Hio) [Hz _] _ _].
  io_step. io_step. apply BuildPskExchange_sure; [done..| |by intros; apply HE]. intros rnd x Hrl Hwf1.
  destruct (psk_request_fields c rnd Hwf Hrl) as (Hm0 & Hm1 & Hm4 & Hlen & Hml).
  set (m := psk_request c rnd) in *. clearbody m.
  io_step. io_step.
  assert (len (tr c) = 14) as Htl by (by rewrite Htr).
  apply TranscriptAdd_sure; [done|rewrite tr_rng, Htl; lia|]. rewrite tr_rng. intros Hwf2 Ht2.
  set (c2 := tr_add (set_rng x c) m) in *.
  assert (asks key c2) as Hak2 by (apply (asks_keep _ c); [done|done|by unfold c2; destruct c]).
  assert (spdmVersion c2 = spdmVersion c /\ reqSessionId c2 = reqSessionId c /\ reqSeqNum c2 = reqSeqNum c /\
    rspSeqNum c2 = rspSeqNum c) as (Hv2 & Hi2 & Hq2 & Hq2') by (unfold c2; by destruct c).
  clearbody c2. rewrite <- Hv2 in Hv, Hm0. rewrite <- Hi2 in Hm4. rewrite <- Hq2, <- Hq2' in Hq.
  io_step. pose proof Hak2 as [_ (Ht2' & _ & Hio2) _ _ _]. wf_facts Hwf2.
  apply ask_wire; [done..|apply Hof|done|lia|].
  assert (is_clear_msg m = true) as -> by (change (0x12 <= spdmVersion c2 <= 0x13) in Hv; unfold is_clear_msg; lia).
  cbv iota zeta. rewrite Htr in Ht2.
  apply (exchange_served key (spdmVersion c2)); [apply framed_offers; [done|lia..]| |done|done|done|lia| |lia|done| |by intros; apply HE].
  { unfold versioned in *. by destruct r as [[]]. }
  { unfold TCG_BUF_SZ, WOLFSPDM_TCG_HEADER_SIZE, WOLFSPDM_AEAD_OVERHEAD in *; lia. }
  intros c1 rsp r' Ht1 Hv1 Hq1 Hcn Ha Hof' Hp.
  pose proof Ha as [(nonce & vd & Hrsp & Hnl & Hnb & Hvl & Hvb & Hvd & Hk) _ _ Hst].
  rewrite Hv1, Ht1, <- Ht2 in *. subst rsp. set (p := psk_partial (spdmVersion c2) nonce) in *.
  assert (len (p ++ vd) = 92) as Hpl by (unfold p; by rewrite len_app, len_psk_partial, Hvl).
  assert (is_bytes (p ++ vd)) as Hpb.
  { apply is_bytes_app; [|done]. apply is_bytes_psk_partial; [|done].
    change (0x12 <= spdmVersion c2 <= 0x13) in Hv. unfold is_byte. lia. }
  split; [done|]. split; [unfold WOLFSPDM_AEAD_OVERHEAD; lia|]. split; [lia|]. split.
  { unfold steady in Hst. injection Hst as _ _ _ _ _ Hc1 Hf1 _ _. cbn [fst]. unfold conn_view at 1.
    rewrite Hc1, Hf1. transitivity (connectionHandle c1, fipsIndicator c1); [by destruct c1|].
    rewrite <- Hcn. by destruct r as [[]]. }
  assert (len (tr c2) <= 90) as Htl2.
  { rewrite Ht2, len_app. change (14 + len m <= 90). lia. }
  io_step. io_step. apply (psk_answer_parsed key); [done..|lia| |by intros; apply HE].
  intros c' Hwf' Hk' Htr' Hs' Hd' Hst' Hio'. apply HQ.
  apply (exchange_pairs key m c2 c1 nonce vd); try done. fold p. rewrite len_app, Hpl. lia.
Qed.
End Session.

#[export] Hint Rewrite @rctx_put @put_put @conn_put : put.
#[export] Hint Rewrite @steady_psk_derived @steady_tr_add @steady_th1 @steady_rng @tr_psk_derived @tr_th1 @tr_rng : steady.
