(* ===== verification/PskFinish.v ===== *)
(** * PSK_FINISH and the PSK session

    The secured PSK_FINISH of the requester through the responder's record
    layer and handlers, the answer back, and the application keys of both
    sides; then [wolfSPDM_ConnectPsk] from its first message to its last. *)
From Stdlib Require Import ZArith Lia String.
From stdpp Require Import base tactics list numbers option.
From S2P Require Import Prelude Types Bytes Crypt Context Transcript Kdf CryptoOps Transport.
From S2P Require Import Secured Msg Chunk Cert Attest Session Standard Tcg Psk Connect Vendor.
From S2P Require Import Responder RespSpec RespRefine Wire WireSession Total PskSession.


Section Finish.
Context `{WolfCrypt} `{Config} `{!CryptSizes} `{!RecordFits} `{!TranscriptFits} `{!GcmRoundTrip}
  {T : Type} `{!TpmCallback T}.
Notation SIDE := (WOLFSPDM_RESP_CTX * T)%type.
Implicit Types (c q : WOLFSPDM_CTX) (r : WOLFSPDM_RESP_CTX) (s : SIDE).

Lemma BuildPskFinish_sure c (Q : bytes -> WOLFSPDM_CTX -> Prop) E : ctx_wf c ->
  len (tr c) + 52 <= WOLFSPDM_MAX_TRANSCRIPT ->
  (forall m c', len m = 52 -> is_bytes m -> ctx_wf c' -> fin_core c' = fin_core c ->
     psk_finish_sent c m c' -> Q m c') ->
  (forall rc c', ~ CryptTotal -> E rc c') -> wp (wolfSPDM_BuildPskFinish 64) Q E c.
Proof.
  intros Hwf Hmax HQ HE. unfold wolfSPDM_BuildPskFinish. wp_step. wp_step; [done|].
  do 2 (wp_step; cbv beta). cbv zeta. set (hdr := [spdmVersion c; _; _; _]).
  assert (is_bytes hdr) as Hhb.
  { destruct (ctx_wf_link c Hwf) as (_ & _ & ?).
    repeat (apply List.Forall_cons; [done|]); apply List.Forall_nil. }
  assert (len hdr = 4) as Hhl by done.
  wp_step. apply TranscriptAdd_sure; [done|lia|]. intros Hwf1 Ht1.
  wp_step. apply TranscriptHash_sure; [done| |done]. rewrite Ht1. intros th Hth Hthl _.
  do 2 (wp_step; cbv beta).
  assert (ctx_wf ((tr_add c hdr) <| th2 := th |>)) as Hwf2 by wf_tac.
  assert (tr ((tr_add c hdr) <| th2 := th |>) = tr c ++ hdr) as Ht2 by (by rewrite tr_th2).
  assert (fin_core ((tr_add c hdr) <| th2 := th |>) = fin_core c /\
    th2 ((tr_add c hdr) <| th2 := th |>) = th) as [Hc2 Hth2] by (split; by destruct c).
  revert Hwf2 Ht2 Hc2 Hth2. generalize ((tr_add c hdr) <| th2 := th |>). intros c2 Hwf2 Ht2 Hc2 Hth2.
  wf_facts Hwf. wp_step. apply ComputeVerifyData_sure; [lia|lia| |done].
  intros vd Hvd Hvl Hvb. wp_step.
  apply TranscriptAdd_sure; [done|rewrite Ht2, len_app; unfold WOLFSPDM_HASH_SIZE in *; lia|].
  rewrite Ht2. intros Hwf3 Ht3. wp_step.
  apply HQ; [by rewrite len_app, Hvl|by apply is_bytes_app|done|by rewrite fin_tr_add|].
  assert (th2 (tr_add c2 vd) = th) as Hth3 by (rewrite <- Hth2; by destruct c2).
  exists vd. cbv zeta. rewrite Hth3. split_and!; [done|by rewrite Ht3, <- app_assoc|done|done].
Qed.

(** The responder finds the verify data right and records as the requester. *)
Lemma finish_rsp_sure m n q q' c (Q : bytes -> WOLFSPDM_CTX -> Prop) E :
  ctx_wf c -> psk_finish_sent q m q' -> len m = 52 -> is_bytes m -> 4 <= n ->
  tr c = tr q -> c.(reqFinishedKey) = q.(reqFinishedKey) -> len (tr c) + 56 <= WOLFSPDM_MAX_TRANSCRIPT ->
  (forall c', let out := [c.(spdmVersion); SPDM_PSK_FINISH_RSP; 0x00; 0x00] in ctx_wf c' ->
     tr c' = tr c ++ m ++ out -> fin_core c' = fin_core (c <| state := WOLFSPDM_STATE_CONNECTED |>) -> Q out c') ->
  (forall rc c', ~ CryptTotal -> E rc c') -> wp (finish_rsp SPDM_PSK_FINISH_RSP m n) Q E c.
Proof.
  intros Hwf (vd & Hsent) Hl Hb Hn Htr Hkey Hmax HQ HE. cbv zeta in Hsent.
  set (hdr := [spdmVersion q; _; _; _]) in *. destruct Hsent as (-> & _ & Hth & Hvd).
  assert (len hdr = 4) as Hhl by done. assert (len vd = 48) as Hvl by (rewrite len_app in Hl; lia).
  assert (is_bytes vd) as Hvb by (by apply Forall_app in Hb as [_ ?]).
  assert (sub_bytes (hdr ++ vd) 0 4 = hdr) as Hs0 by (by apply sub_bytes_app_l).
  assert (sub_bytes (hdr ++ vd) 4 48 = vd) as Hs4 by (by apply sub_bytes_app_r).
  unfold finish_rsp, WOLFSPDM_HASH_SIZE. clearbody hdr.
  wp_step. wp_step; [lia|]. wp_step. wp_step; [lia|]. do 2 (wp_step; wp_step). rewrite Hs0, Hs4.
  wp_step. apply TranscriptAdd_sure; [done|lia|]. intros Hwf1 Ht1.
  wp_step. apply TranscriptHash_sure; [done| |done]. rewrite Ht1, Htr. intros th' Hth' Hthl _.
  assert (th' = th2 q') as -> by (by simplify_eq). do 4 (wp_step; cbv beta).
  set (c2 := (tr_add c hdr) <| th2 := _ |>).
  assert (ctx_wf c2 /\ tr c2 = tr c ++ hdr /\ fin_core c2 = fin_core c /\ reqFinishedKey c2 = reqFinishedKey c)
    as (Hwf2 & Ht2 & Hc2 & Hk2) by (unfold c2; split_and!; [wf_tac|by rewrite tr_th2|by destruct c..]).
  clearbody c2. wf_facts Hwf2. wp_step. apply ComputeVerifyData_sure; [lia|lia| |done].
  rewrite Hk2, Hkey. intros vd' Hvd' _ _. assert (vd' = vd) as -> by (by simplify_eq).
  assert (wolfSPDM_ConstCompare vd vd 48 = 0) as Hcc by (apply wolfSPDM_ConstCompare_eq; [done|done|done|lia|lia|done]).
  wp_step. rewrite Hcc. wp_step; [done|].
  wp_step. apply TranscriptAdd_sure; [done|rewrite Ht2, len_app; lia|].
  rewrite Ht2, <- app_assoc. intros Hwf3 Ht3. cbv zeta.
  assert (spdmVersion c2 = spdmVersion c) as -> by (by apply (f_equal spdmVersion) in Hc2).
  set (out := [spdmVersion c; _; _; _]). rewrite <- (fin_tr_add c2 vd) in Hc2.
  revert Hwf3 Ht3 Hc2. generalize (tr_add c2 vd). intros c3 Hwf3 Ht3 Hc3.
  wp_step. apply TranscriptAdd_sure; [done|rewrite Ht3, !len_app; change (len out) with 4; lia|].
  rewrite Ht3, <- app_assoc. intros Hwf4 Ht4. do 3 (wp_step; cbv beta). apply HQ.
  - wf_tac.
  - transitivity (tr (tr_add c3 out)); [by destruct c3|]. by rewrite Ht4, <- !app_assoc.
  - revert Hc3. unfold fin_core. destruct c3, c. cbn. intros [=]. by subst.
Qed.

(** ** The records of the handshake *)

(** What the end of the handshake needs and records leave alone. *)
Definition hs_core c := (tr c, c.(handshakeSecret), c.(flags), c.(mode), (c.(psk), c.(pskSz))).

Lemma hs_core_rng_step c c' : rng_step c c' -> hs_core c' = hs_core c.
Proof. intros [->|[x ->]]; [done|by destruct c]. Qed.
Lemma hs_core_sent c : hs_core (seq_sent c) = hs_core c.
Proof. by destruct c. Qed.
Lemma hs_core_rcvd c : hs_core (seq_rcvd c) = hs_core c.
Proof. by destruct c. Qed.
Lemma hs_core_swapped c : hs_core (swapped c) = hs_core c.
Proof. by destruct c. Qed.
Hint Rewrite hs_core_sent hs_core_rcvd hs_core_swapped : steady.

Lemma encrypt_core plain n c : ctx_wf c ->
  wp (wolfSPDM_EncryptInternal plain n) (fun _ c' => hs_core c' = hs_core c) (fun _ _ => True) c.
Proof.
  intros Hwf. apply EncryptRecord_wp; [done| |done]. intros rec c' Hs _ _ _.
  autorewrite with steady. by apply hs_core_rng_step.
Qed.

Lemma resp_encrypt_core plain n c : ctx_wf c ->
  wp (RespEncrypt plain n) (fun _ c' => hs_core c' = hs_core c) (fun _ _ => True) c.
Proof.
  intros Hwf. unfold RespEncrypt, RespSwapDataDir. do 2 (wp_step; cbv beta). wp_step. wp_step.
  eapply wp_mono; [apply (encrypt_core plain n (swapped c)); by apply swapped_wf| |].
  - intros rec c' Hc. do 3 (wp_step; cbv beta). by autorewrite with steady in *.
  - intros. by wp_step.
Qed.

(** The two halves of an exchange, with their failures accounted for. *)
Lemma send_request_sure plain n c q Q E :
  ctx_wf q -> linked q c -> wolfSPDM_IsTcgMode q = true -> rng_on q -> is_bytes plain ->
  len plain <= WOLFSPDM_MAX_MSG_SIZE -> len plain + 48 <= n ->
  (forall rec q', ctx_wf q' -> side_view q' = side_view q -> hs_core q' = hs_core q ->
     wolfSPDM_IsTcgMode q' = true -> is_bytes rec -> at_ rec 0 = Z.land q.(sessionId) 0xFF -> len rec <= n ->
     (forall m, len plain <= m -> RespDecrypt rec m c = Ok plain (answered_by c)) ->
     linked q' (answered_by c) -> Q rec q') ->
  (forall rc q', ~ CryptTotal -> E rc q') ->
  wp (wolfSPDM_EncryptInternal plain n) Q E q.
Proof.
  intros Hwf Hl Ht Hr Hb Hp Hn HQ HE.
  eapply (wp_broken _ _ (fun _ _ => True)); [|by apply Encrypt_sure|done].
  eapply wp_mono; [apply wp_conj; [|by apply (encrypt_core plain n)]| |by intros].
  - apply (send_request_wp plain n c q (fun rec q' => hs_core q' = hs_core q -> Q rec q') (fun _ _ => True));
      [done|done|done| |done]. intros. by apply HQ.
  - cbv beta. intros rec q' [HQ' Hc]. by apply HQ'.
Qed.

Lemma send_answer_sure plain n c q Q E :
  ctx_wf c -> linked q c -> wolfSPDM_IsTcgMode q = true -> rng_on c -> is_bytes plain ->
  len plain <= WOLFSPDM_MAX_MSG_SIZE -> len plain + 48 <= n ->
  (forall rec c', ctx_wf c' -> side_view c' = side_view c -> hs_core c' = hs_core c -> is_bytes rec ->
     len rec <= n -> (forall m, len plain <= m -> wolfSPDM_DecryptInternal rec m q = Ok plain (seq_rcvd q)) ->
     linked (seq_rcvd q) c' -> Q rec c') ->
  (forall rc c', ~ CryptTotal -> E rc c') ->
  wp (RespEncrypt plain n) Q E c.
Proof.
  intros Hwf Hl Ht Hr Hb Hp Hn HQ HE.
  assert (wolfSPDM_IsTcgMode c = true) as Htc by (apply linked_views in Hl; unfold rec_view in Hl; congruence).
  eapply (wp_broken _ _ (fun _ _ => True)); [|by apply RespEncrypt_sure|done].
  eapply wp_mono; [apply wp_conj; [|by apply (resp_encrypt_core plain n)]| |by intros].
  - apply (send_answer_wp plain n c q (fun rec c' => hs_core c' = hs_core c -> Q rec c') (fun _ _ => True));
      [done|done|done| |done]. intros. by apply HQ.
  - cbv beta. intros rec c' [HQ' Hc]. by apply HQ'.
Qed.

(** ** PSK_FINISH at the responder *)

Lemma offers_scratch key r b : offers key r -> len b = WOLFSPDM_MAX_TPM_MSG_SIZE ->
  offers key (r <| secureInPlain := b |>) /\ offers key (r <| secureOutPlain := b |>).
Proof.
  intros [[? ? ? ? ? Hscr] ? ? ?] Hb. destruct_and! Hscr.
  split; (split; [split; try done; by split_and!|done..]).
Qed.

Lemma offers_asym key r b : offers key r -> offers key (r <| rflags := r.(rflags) <| sessionAsym := b |> |>).
Proof.
  intros [? ? ? ?]. split; [|by destruct r as [? []]..]. by apply resp_wf_flags; [|by destruct r as [? []]].
Qed.

Lemma offers_wipe key r : offers key r -> offers key (wipe_scratch_secure r).
Proof. intros [? ? ? ?]. split; [by apply wipes_wf|by destruct r..]. Qed.

Definition psk_connected c r : WOLFSPDM_RESP_CTX :=
  (r <| rctx := c |>) <| rflags := r.(rflags) <| sessionAsym := false |> |>.

Definition psk_finish_rsp v : bytes := [v; SPDM_PSK_FINISH_RSP; 0x00; 0x00].

Lemma finish_handled key m q q' r (t : T) (Q : bytes * bool * bool -> SIDE -> Prop) E :
  offers key r -> r.(rctx).(state) = WOLFSPDM_STATE_KEY_EX -> r.(rflags).(pendingAsym) = false ->
  psk_finish_sent q m q' -> len m = 52 -> is_bytes m -> 4 <= WOLFSPDM_MAX_MSG_SIZE ->
  tr r.(rctx) = tr q -> r.(rctx).(reqFinishedKey) = q.(reqFinishedKey) ->
  len (tr q) + 56 <= WOLFSPDM_MAX_TRANSCRIPT ->
  (forall c', let out := psk_finish_rsp r.(rctx).(spdmVersion) in ctx_wf c' ->
     tr c' = tr q ++ m ++ out -> fin_core c' = fin_core (r.(rctx) <| state := WOLFSPDM_STATE_CONNECTED |>) ->
     offers key (psk_connected c' r) -> Q (out, true, false) (psk_connected c' r, t)) ->
  (forall rc x, ~ CryptTotal -> E rc x) ->
  wp (resp_secured_handler SPDM_PSK_FINISH m) Q E (r, t).
Proof.
  intros Hof Hst Hp Hsent Hl Hb Hmsg Htr Hkey Hmax HQ HE. unfold resp_secured_handler, get_r, on_r at 1.
  change (SPDM_PSK_FINISH =? SPDM_PSK_FINISH) with true. cbv zeta iota.
  do 3 wp_step. cbn [fst snd]. wp_step. wp_step; [by rewrite Hst, Hp in *|].
  wp_step. unfold RespHandlePskFinish, on_r, in_ctx. wp_step. cbn [fst snd]. wp_step. wp_step.
  apply (finish_rsp_sure m _ q q'); try done; [apply (rw_ctx _ (of_wf _ _ Hof))|by rewrite Htr| |by intros; apply HE].
  intros c' out Hwf' Htr' Hc'. do 4 (wp_step; cbv beta). rewrite Htr in Htr'. apply HQ; [done..|].
  change (psk_connected c' r) with ((r <| rctx := c' |>)
    <| rflags := (rflags (r <| rctx := c' |>)) <| sessionAsym := false |> |>).
  apply offers_asym, offers_ctx; [done|done| |].
  - apply (f_equal state) in Hc'. right; right; right; left. symmetry. exact Hc'.
  - pose proof (f_equal mode Hc') as Hm. pose proof (f_equal flags Hc') as Hf. cbn in Hm, Hf.
    by destruct (rctx r), c'; cbn in *; subst.
Qed.

(** Application keys over the whole transcript, and fresh counters. *)
Definition app_keyed v (hs tr2 : bytes) c : Prop :=
  exists th k, sha384 tr2 [] [] = Some th /\ app_schedule v hs th = Some k /\
    (c.(reqDataKey), c.(reqDataIv), (c.(rspDataKey), c.(rspDataIv))) = (k_areq k, k_arsp k) /\
    (c.(reqAppSecret), c.(rspAppSecret)) = (k_req_app k, k_rsp_app k) /\
    c.(reqSeqNum) = 0 /\ c.(rspSeqNum) = 0.

Lemma app_keyed_install v hs tr2 th k c : sha384 tr2 [] [] = Some th -> app_schedule v hs th = Some k ->
  app_keyed v hs tr2 (install_app k c).
Proof. intros Ht Hk. exists th, k. split_and!; try done. by destruct k as [? ? [] []], c. Qed.

(** A responder in the session. *)
Record psk_up (key : bytes) id v (hs tr2 : bytes) r : Prop := {
  pu_offers : offers key r;
  pu_state : r.(rctx).(state) = WOLFSPDM_STATE_CONNECTED /\ r.(rflags).(sessionAsym) = false;
  pu_tr : tr r.(rctx) = tr2;
  pu_id : r.(rctx).(sessionId) = id /\ r.(rctx).(spdmVersion) = v;
  pu_keys : app_keyed v hs tr2 r.(rctx)
}.

(** The answer goes out under the handshake keys, then the application keys
    take their place. *)
Lemma finish_sent key out n q hs tr2 r (t : T) (Q : bytes -> SIDE -> Prop) E :
  offers key r -> r.(rctx).(state) = WOLFSPDM_STATE_CONNECTED -> r.(rflags).(sessionAsym) = false ->
  linked q r.(rctx) -> wolfSPDM_IsTcgMode q = true -> is_bytes out -> len out = 4 ->
  64 <= WOLFSPDM_MAX_MSG_SIZE -> 52 <= n -> tr r.(rctx) = tr2 -> r.(rctx).(handshakeSecret) = hs ->
  (forall enc r', is_bytes enc -> len enc <= n ->
     (forall k, 4 <= k -> wolfSPDM_DecryptInternal enc k q = Ok out (seq_rcvd q)) ->
     psk_up key q.(sessionId) r.(rctx).(spdmVersion) hs tr2 r' -> conn_view r' = conn_view r ->
     Q enc (r', t)) ->
  (forall rc x, ~ CryptTotal -> E rc x) ->
  wp (let* enc := on_r (in_ctx (RespEncrypt out n)) in
      when true (on_r (in_ctx wolfSPDM_DeriveAppDataKeys)) ;;;
      when false (on_r wolfSPDM_RespReset) ;;; ret enc) Q E (r, t).
Proof.
  intros Hof Hst Ha Hl Ht Hb Hlo Hm Hn Htr Hhs HQ HE. pose proof (rw_ctx _ (of_wf _ _ Hof)) as Hc.
  destruct (of_ctx _ _ Hof) as [_ Hr]. unfold on_r, in_ctx. do 3 wp_step. cbn [fst snd].
  apply (send_answer_sure out n (rctx r) q); [done|done|done|done|done|lia|lia| |by intros; apply HE].
  intros enc c' Hc' Hv Hcore Heb Hel Hread Hl'.
  unfold side_view, rview in Hv. injection Hv as Hcn Hfp Hver Hst' Htp _ _.
  unfold hs_core in Hcore. injection Hcore as Htr' Hhs' Hf' Hmd' _ _. rewrite Htr in Htr'. rewrite Hhs in Hhs'.
  wp_step. cbn [when]. do 2 wp_step. cbn [fst snd]. rewrite rctx_put.
  apply DeriveAppDataKeys_sure; [done| |by intros; apply HE]. rewrite Htr', Hhs', Hver.
  intros th k Hth Hk Hwf5. wp_step. wp_step. wp_step. rewrite put_put.
  assert (sessionId c' = sessionId q) as Hsid
    by (apply linked_views in Hl'; unfold rec_view in Hl'; destruct q; cbn in *; congruence).
  assert (let c5 := install_app k c' in (mode c5, flags c5, state c5, tr c5, sessionId c5, spdmVersion c5,
    connectionHandle c5, fipsIndicator c5) = (mode c', flags c', state c', tr c', sessionId c', spdmVersion c',
    connectionHandle c', fipsIndicator c')) as Hsame by by destruct c'.
  pose proof (app_keyed_install _ _ _ _ _ c' Hth Hk) as Hkeys.
  revert Hwf5 Hsame Hkeys. generalize (install_app k c'). cbv zeta. intros c5 Hwf5 Hsame Hkeys.
  injection Hsame as Hs1 Hs2 Hs3 Hs4 Hs5 Hs6 Hs7 Hs8.
  apply HQ; [done|done|intros x Hx; apply Hread; lia| |puts; unfold conn_view; congruence].
  split; puts; [|split; [congruence|by destruct r]|congruence|split; congruence|done].
  apply offers_ctx; [done|done| |congruence]. right; right; right; left. congruence.
Qed.

(** The responder's context with the request decrypted. *)
Lemma answered_same c : let c' := answered_by c in
  hs_core c' = hs_core c /\ c'.(reqFinishedKey) = c.(reqFinishedKey) /\ c'.(state) = c.(state) /\
  c'.(spdmVersion) = c.(spdmVersion) /\ c'.(sessionId) = c.(sessionId) /\
  (connectionHandle c', fipsIndicator c') = (connectionHandle c, fipsIndicator c).
Proof. by destruct c. Qed.

Lemma fin_core_fields c c1 x : fin_core c = fin_core (c1 <| state := x |>) ->
  rec_view c = rec_view c1 /\ c.(handshakeSecret) = c1.(handshakeSecret) /\
  c.(spdmVersion) = c1.(spdmVersion) /\ c.(state) = x /\
  (connectionHandle c, fipsIndicator c) = (connectionHandle c1, fipsIndicator c1).
Proof.
  unfold fin_core. destruct c, c1; cbn. intros [=]; subst; by split_and!.
Qed.

Lemma psk_connected_put c c' r : psk_connected c (r <| rctx := c' |>) = psk_connected c r.
Proof. by destruct r. Qed.

(** What a scratch buffer of the session holds changes nothing else. *)
Lemma scratch_in key r (t : T) d (k : M SIDE bytes) Q E :
  offers key r -> len d <= WOLFSPDM_MAX_MSG_SIZE ->
  (forall r', offers key r' -> r'.(rctx) = r.(rctx) -> r'.(rflags) = r.(rflags) -> wp k Q E (r', t)) ->
  wp (resp_store secureInPlain (fun b r => r <| secureInPlain := b |>) d ;;; k) Q E (r, t).
Proof.
  intros Hof Hd HQ. destruct (rw_scratch _ (of_wf _ _ Hof)) as (Hs & _).
  wp_step. apply store_wp; [cbn [fst]; rewrite Hs; unfold WOLFSPDM_MAX_TPM_MSG_SIZE; lia|].
  cbn [fst snd]. intros b Hb. apply HQ; [|by destruct r..].
  apply (offers_scratch key r b); congruence.
Qed.

Lemma scratch_out key r (t : T) d (k : M SIDE bytes) Q E :
  offers key r -> len d <= WOLFSPDM_MAX_MSG_SIZE ->
  (forall r', offers key r' -> r'.(rctx) = r.(rctx) -> r'.(rflags) = r.(rflags) -> wp k Q E (r', t)) ->
  wp (resp_store secureOutPlain (fun b r => r <| secureOutPlain := b |>) d ;;; k) Q E (r, t).
Proof.
  intros Hof Hd HQ. destruct (rw_scratch _ (of_wf _ _ Hof)) as (_ & Hs & _).
  wp_step. apply store_wp; [cbn [fst]; rewrite Hs; unfold WOLFSPDM_MAX_TPM_MSG_SIZE; lia|].
  cbn [fst snd]. intros b Hb. apply HQ; [|by destruct r..].
  apply (offers_scratch key r b); congruence.
Qed.

(** The handler's answer on its way out. *)
Lemma finish_answered key q q0 q1 m n r (t : T) (Q : bytes -> SIDE -> Prop) E :
  let out := psk_finish_rsp r.(rctx).(spdmVersion) in
  offers key r -> r.(rctx).(state) = WOLFSPDM_STATE_KEY_EX -> r.(rflags).(pendingAsym) = false ->
  psk_finish_sent q0 m q1 -> len m = 52 -> is_bytes m ->
  tr r.(rctx) = tr q0 -> r.(rctx).(reqFinishedKey) = q0.(reqFinishedKey) ->
  64 <= WOLFSPDM_MAX_MSG_SIZE -> len (tr q0) + 56 <= WOLFSPDM_MAX_TRANSCRIPT -> 52 <= n ->
  wolfSPDM_IsTcgMode q = true -> is_byte r.(rctx).(spdmVersion) -> linked q r.(rctx) ->
  (forall enc r', is_bytes enc -> len enc <= n ->
     (forall x, 4 <= x -> wolfSPDM_DecryptInternal enc x q = Ok out (seq_rcvd q)) ->
     psk_up key q.(sessionId) r.(rctx).(spdmVersion) r.(rctx).(handshakeSecret) (tr q0 ++ m ++ out) r' ->
     conn_view r' = conn_view r -> Q enc (r', t)) ->
  (forall rc x, ~ CryptTotal -> E rc x) ->
  wp (let* (respPlain, derivedAppKeys, sessionEnded) := resp_secured_handler SPDM_PSK_FINISH m in
      resp_store secureOutPlain (fun b r => r <| secureOutPlain := b |>) respPlain ;;;
      let* enc := on_r (in_ctx (RespEncrypt respPlain n)) in
      when derivedAppKeys (on_r (in_ctx wolfSPDM_DeriveAppDataKeys)) ;;;
      when sessionEnded (on_r wolfSPDM_RespReset) ;;;
      ret enc) Q E (r, t).
Proof.
  intros out Hof Hst Hp Hsent Hlm Hbm Htr Hkey Hm Hmax Hn Ht Hvb Hl HQ HE.
  wp_step. apply (finish_handled key m q0 q1); try done; [lia|].
  intros c' out' Hwf' Htr' Hc' Hof3. fold out in out'. subst out'.
  destruct (fin_core_fields _ _ _ Hc') as (Hrv & Hhs & Hver & Hst' & Hcv).
  assert (rctx (psk_connected c' r) = c' /\ sessionAsym (rflags (psk_connected c' r)) = false)
    as (Hr3 & Ha3) by by destruct r.
  assert (linked q c') as Hl3 by (apply linked_views; apply linked_views in Hl; congruence).
  revert Hof3 Hr3 Ha3. generalize (psk_connected c' r). intros r3 Hof3 Hr3 Ha3.
  apply (scratch_out key); [done|change (len out) with 4; lia|]. intros r4 Hof4 Hr4 Hf4. rewrite Hr3 in Hr4.
  apply (finish_sent key out n q (handshakeSecret (rctx r)) (tr q0 ++ m ++ out));
    rewrite ?Hr4, ?Hf4; try done; try congruence.
  { repeat (apply List.Forall_cons; [done|]); apply List.Forall_nil. }
  rewrite Hver. intros enc r5 Heb Hel Hread Hup Hcn5. apply HQ; try done.
  rewrite Hcn5. transitivity (connectionHandle c', fipsIndicator c'); [by rewrite <- Hr4; destruct r4|].
  rewrite Hcv. by destruct r.
Qed.

Lemma dispatch_finish key q q0 q1 m rec n r (t : T) (Q : bytes -> SIDE -> Prop) E :
  let out := psk_finish_rsp r.(rctx).(spdmVersion) in
  offers key r -> r.(rctx).(state) = WOLFSPDM_STATE_KEY_EX -> r.(rflags).(pendingAsym) = false ->
  r.(rctx).(sessionId) <> 0 -> psk_finish_sent q0 m q1 -> len m = 52 -> is_bytes m ->
  tr r.(rctx) = tr q0 -> r.(rctx).(reqFinishedKey) = q0.(reqFinishedKey) ->
  64 <= WOLFSPDM_MAX_MSG_SIZE -> len (tr q0) + 56 <= WOLFSPDM_MAX_TRANSCRIPT -> 52 <= n ->
  wolfSPDM_IsTcgMode q = true -> is_byte r.(rctx).(spdmVersion) ->
  (forall x, 52 <= x -> RespDecrypt rec x r.(rctx) = Ok m (answered_by r.(rctx))) ->
  linked q (answered_by r.(rctx)) ->
  (forall enc r', is_bytes enc -> len enc <= n ->
     (forall x, 4 <= x -> wolfSPDM_DecryptInternal enc x q = Ok out (seq_rcvd q)) ->
     psk_up key q.(sessionId) r.(rctx).(spdmVersion) r.(rctx).(handshakeSecret) (tr q0 ++ m ++ out) r' ->
     conn_view r' = conn_view r -> Q enc (r', t)) ->
  (forall rc x, ~ CryptTotal -> E rc x) ->
  wp (dispatch WOLFSPDM_TCG_TAG_SECURED rec n) Q E (r, t).
Proof.
  intros out Hof Hst Hp Hid Hsent Hlm Hbm Htr Hkey Hm Hmax Hn Ht Hvb Hdec Hl HQ HE.
  change (dispatch WOLFSPDM_TCG_TAG_SECURED rec n) with (RespDispatchSecured (T := T) rec n).
  unfold RespDispatchSecured, always, RespDispatchSecuredInner, get_r, set_r, on_r at 1.
  do 3 wp_step. do 2 wp_step. cbn [fst snd]. wp_step. rewrite Hst.
  wp_step; [exfalso; apply Z.eqb_neq in Hid; rewrite Hid in *; done|].
  wp_step. unfold on_r at 1, in_ctx at 1. do 2 wp_step. cbn [fst snd].
  eapply wp_run; [apply Hdec; lia|]. cbn [fst snd].
  destruct (answered_same (rctx r)) as (Hcore & Hk1 & Hst1 & Hver1 & Hid1 & Hcv1).
  pose proof (answered_wf (rctx r) (rw_ctx _ (of_wf _ _ Hof))) as Hwf1.
  revert Hcore Hk1 Hst1 Hver1 Hid1 Hcv1 Hwf1 Hl. generalize (answered_by (rctx r)).
  intros c1 Hcore Hk1 Hst1 Hver1 Hid1 Hcv1 Hwf1 Hl. injection Hcore as Htr1 Hhs1 Hf1 Hmd1 _ _.
  assert (offers key (r <| rctx := c1 |>)) as Hof1.
  { apply offers_ctx; [done|done| |congruence]. right; right; left. congruence. }
  apply (scratch_in key); [done|lia|]. intros r2 Hof2 Hr2 Hf2. rewrite rctx_put in Hr2.
  assert (rflags r2 = rflags r) as Hf2' by (rewrite Hf2; by destruct r). clear Hf2.
  wp_step. wp_step; [lia|]. wp_step. apply (rd_is _ _ SPDM_PSK_FINISH); [lia| |].
  { by destruct Hsent as (? & -> & _). }
  apply (finish_answered key q q0 q1); rewrite ?Hr2, ?Hf2'; try congruence; try done;
    [|intros; unfold on_r; do 2 wp_step; by apply HE].
  rewrite Hver1, Hhs1. intros enc r5 Heb Hel Hread Hup Hcn5. unfold on_r. do 3 wp_step. apply HQ; [done..| |].
  - destruct Hup as [? [? ?] ? [? ?] ?]. split; [by apply offers_wipe|by destruct r5..].
  - transitivity (conn_view r5); [by destruct r5|]. rewrite Hcn5.
    transitivity (connectionHandle c1, fipsIndicator c1); [by rewrite <- Hr2; destruct r2|]. rewrite Hcv1. by destruct r.
Qed.

(** ** PSK_FINISH at the requester *)

Lemma finish_answer_parsed v c (Q : unit -> WOLFSPDM_CTX -> Prop) E : ctx_wf c ->
  len (tr c) + 4 <= WOLFSPDM_MAX_TRANSCRIPT ->
  (forall c', ctx_wf c' -> tr c' = tr c ++ psk_finish_rsp v ->
     fin_core c' = fin_core (c <| state := WOLFSPDM_STATE_FINISH |>) -> Q tt c') ->
  wp (wolfSPDM_ParsePskFinishRsp (psk_finish_rsp v)) Q E c.
Proof.
  intros Hwf Hmax HQ. unfold wolfSPDM_ParsePskFinishRsp, SPDM_CHECK_PARSE_ARGS.
  wp_step. wp_step; [done|]. wp_step. apply (rd_is _ _ SPDM_PSK_FINISH_RSP); [done|done|].
  change (SPDM_PSK_FINISH_RSP =? SPDM_PSK_FINISH_RSP) with true. cbv iota.
  wp_step. apply wp_rd_sub; [lia|lia|by change (len (psk_finish_rsp v)) with 4|].
  change (sub_bytes (psk_finish_rsp v) 0 4) with (psk_finish_rsp v).
  wp_step. apply TranscriptAdd_sure; [done|done|]. intros Hwf1 Ht1. wp_step. apply HQ; [wf_tac| |by destruct c].
  rewrite <- Ht1. by destruct (tr_add c (psk_finish_rsp v)).
Qed.

(** Both sides at the end of the handshake. *)
Record psk_ends (key : bytes) c r : Prop := {
  pe_req : ctx_wf c /\ c.(ioCb) <> 0 /\ wolfSPDM_IsTcgMode c = true;
  pe_version : WOLFSPDM_MIN_SPDM_VERSION <= c.(spdmVersion) <= WOLFSPDM_RESP_MAX_VERSION;
  pe_id : c.(sessionId) <> 0 /\ ~ 0x10 <= Z.land c.(sessionId) 0xFF <= 0x1F;
  pe_done : psk_done c;
  pe_keys : exists hs, app_keyed c.(spdmVersion) hs (tr c) c /\
    psk_up key c.(sessionId) c.(spdmVersion) hs (tr c) r
}.

Lemma app_keyed_same v hs tr2 c q : app_keyed v hs tr2 c -> app_keyed v hs tr2 q ->
  (c.(reqDataKey), c.(reqDataIv), (c.(rspDataKey), c.(rspDataIv))) =
  (q.(reqDataKey), q.(reqDataIv), (q.(rspDataKey), q.(rspDataIv))) /\
  (c.(reqAppSecret), c.(rspAppSecret)) = (q.(reqAppSecret), q.(rspAppSecret)) /\
  (c.(reqSeqNum), c.(rspSeqNum)) = (q.(reqSeqNum), q.(rspSeqNum)).
Proof.
  intros (th & k & Ht & Hk & -> & -> & -> & ->) (th' & k' & Ht' & Hk' & -> & -> & -> & ->). by simplify_eq.
Qed.

(** The two ends are in the session that the commands of WireSession.v use. *)
Lemma psk_ends_session key c r : psk_ends key c r ->
  let c' := c <| state := WOLFSPDM_STATE_CONNECTED |> in
  in_session c' r /\ phase_of r = P_connected false /\ tr c' = tr r.(rctx) /\ psk_done c' /\
  (c'.(reqAppSecret), c'.(rspAppSecret)) = (r.(rctx).(reqAppSecret), r.(rctx).(rspAppSecret)) /\
  sub_bytes r.(pskStore) 0 r.(pskStoreSz) = key.
Proof.
  intros [(Hwf & Hio & Ht) Hv [Hid0 Hid] Hd (hs & Hk & [Hof [Hst Ha] Htr [Hsid Hver] Hkr])] c'.
  destruct (app_keyed_same _ _ _ _ _ Hk Hkr) as (Hk1 & Hk2 & Hk3). injection Hk1 as ? ? ? ?. injection Hk3 as ? ?.
  destruct (of_ctx _ _ Hof) as [Htr' _].
  assert (ctx_wf c') as Hwf' by (unfold c'; wf_tac).
  assert (rec_view c' = rec_view c /\ spdmVersion c' = spdmVersion c /\ sessionId c' = sessionId c /\
    ioCb c' = ioCb c /\ state c' = WOLFSPDM_STATE_CONNECTED /\ tr c' = tr c /\ psk_done c' /\
    wolfSPDM_IsTcgMode c' = wolfSPDM_IsTcgMode c /\ (reqAppSecret c', rspAppSecret c') = (reqAppSecret c, rspAppSecret c))
    as (Hr' & Hv' & Hi' & Hio' & Hs' & Htr2 & Hd' & Ht' & Hap) by (unfold c'; split_and!; by destruct c).
  clearbody c'. split_and!; [|unfold phase_of; rewrite Hst, Ha; done|congruence|done|congruence|apply Hof].
  split; rewrite ?Hi'; [split_and!; congruence|split_and!; [apply Hof|apply Hof|done]| | |done].
  - unfold speaks, vendor_ver. rewrite Hver, Hv'. change (0x12 <= spdmVersion c <= 0x13) in Hv.
    replace (spdmVersion c =? 0) with false by lia. cbn [negb]. split; [exact Hv|by right].
  - apply linked_views. rewrite Hr'. unfold rec_view. congruence.
Qed.

(** What the last steps of the requester keep. *)
Definition end_view c := (c.(mode), c.(ioCb), (c.(psk), c.(pskSz))).

(** The requester with the answer in hand. *)
Lemma finish_concludes key v hs m tr2 q c r (t : T) (Q : unit -> WOLFSPDM_CTX * SIDE -> Prop) E :
  ctx_wf q -> q.(spdmVersion) = v -> q.(handshakeSecret) = hs -> tr q = m ->
  len m + 4 <= WOLFSPDM_MAX_TRANSCRIPT -> tr2 = m ++ psk_finish_rsp v ->
  end_view q = end_view c -> q.(sessionId) = c.(sessionId) ->
  c.(ioCb) <> 0 -> wolfSPDM_IsTcgMode c = true -> psk_done c ->
  c.(sessionId) <> 0 /\ ~ 0x10 <= Z.land c.(sessionId) 0xFF <= 0x1F ->
  WOLFSPDM_MIN_SPDM_VERSION <= v <= WOLFSPDM_RESP_MAX_VERSION ->
  psk_up key c.(sessionId) v hs tr2 r ->
  (forall c', psk_ends key c' r -> Q tt (c', (r, t))) ->
  (forall rc x, ~ CryptTotal -> E rc x) ->
  wp (on_ctx (wolfSPDM_ParsePskFinishRsp (psk_finish_rsp v)) ;;; on_ctx wolfSPDM_DeriveAppDataKeys) Q E (q, (r, t)).
Proof.
  intros Hwf Hv Hhs Hm Hmax -> Hak Hid Hio Ht [Hd1 Hd2] Hids Hver Hup HQ HE.
  io_step. io_step. apply finish_answer_parsed; [done|by rewrite Hm|]. rewrite Hm. intros q' Hwf' Htr' Hcore.
  assert (end_view q' = end_view c /\ sessionId q' = sessionId c /\ spdmVersion q' = v /\
    handshakeSecret q' = hs) as (Hak' & Hid' & Hv' & Hhs').
  { clear - Hcore Hak Hid Hv Hhs. unfold fin_core, end_view in *. destruct q', q, c. cbn in *.
    injection Hcore as; injection Hak as; by subst. }
  clear Hcore. io_step. apply DeriveAppDataKeys_sure; [done| |by intros; apply HE].
  rewrite Htr', Hv', Hhs'. intros th k Hth Hk Hwf2.
  pose proof (app_keyed_install _ _ _ _ _ q' Hth Hk) as Hkeys. apply HQ.
  assert (end_view (install_app k q') = end_view q' /\ sessionId (install_app k q') = sessionId q' /\
    spdmVersion (install_app k q') = spdmVersion q' /\ tr (install_app k q') = tr q') as (Ha2 & Hi2 & Hv2 & Ht2)
    by by destruct q'.
  revert Hkeys Hwf2 Ha2 Hi2 Hv2 Ht2. generalize (install_app k q'). intros c' Hkeys Hwf2 Ha2 Hi2 Hv2 Ht2.
  rewrite Hak' in Ha2. unfold end_view in Ha2. injection Ha2 as Hm2 Hio2 Hp2 Hz2.
  split; rewrite ?Hi2, ?Hv2, ?Ht2, ?Hid', ?Hv', ?Htr'; try done.
  - split_and!; [done|congruence|]. unfold wolfSPDM_IsTcgMode in *. by rewrite Hm2.
  - split; congruence.
  - by exists hs.
Qed.

(** The record with the answer, opened. *)
Lemma finish_read key v hs m enc q c r (t : T) (Q : unit -> WOLFSPDM_CTX * SIDE -> Prop) E :
  ctx_wf q -> q.(spdmVersion) = v -> q.(handshakeSecret) = hs -> tr q = m ->
  len m + 4 <= WOLFSPDM_MAX_TRANSCRIPT -> end_view q = end_view c -> q.(sessionId) = c.(sessionId) ->
  c.(ioCb) <> 0 -> wolfSPDM_IsTcgMode c = true -> psk_done c ->
  c.(sessionId) <> 0 /\ ~ 0x10 <= Z.land c.(sessionId) 0xFF <= 0x1F ->
  WOLFSPDM_MIN_SPDM_VERSION <= v <= WOLFSPDM_RESP_MAX_VERSION ->
  (forall x, 4 <= x -> wolfSPDM_DecryptInternal enc x q = Ok (psk_finish_rsp v) (seq_rcvd q)) ->
  psk_up key c.(sessionId) v hs (m ++ psk_finish_rsp v) r ->
  (forall c', psk_ends key c' r -> Q tt (c', (r, t))) ->
  (forall rc x, ~ CryptTotal -> E rc x) ->
  wp (let* decBuf := on_ctx (wolfSPDM_DecryptInternal enc 64) in
      on_ctx (wolfSPDM_ParsePskFinishRsp decBuf) ;;;
      on_ctx wolfSPDM_DeriveAppDataKeys) Q E (q, (r, t)).
Proof.
  intros Hwf Hv Hhs Hm Hmax Hend Hid Hio Ht Hd Hids Hver Hread Hup HQ HE.
  io_step. io_step. eapply wp_run; [by apply Hread|]. cbn [fst snd].
  assert (end_view (seq_rcvd q) = end_view q /\ spdmVersion (seq_rcvd q) = spdmVersion q /\
    handshakeSecret (seq_rcvd q) = handshakeSecret q /\ tr (seq_rcvd q) = tr q /\ sessionId (seq_rcvd q) = sessionId q)
    as (He3 & Hv3 & Hhs3 & Htr3 & Hid3) by by destruct q.
  pose proof (seq_rcvd_wf q Hwf) as Hwf3. revert He3 Hv3 Hhs3 Htr3 Hid3 Hwf3. generalize (seq_rcvd q).
  intros q3 He3 Hv3 Hhs3 Htr3 Hid3 Hwf3.
  apply (finish_concludes key v hs m (m ++ psk_finish_rsp v) q3 c r); try done; congruence.
Qed.

(** What the requester keeps from PSK_FINISH onwards. *)
Definition finish_view c := (end_view c, c.(flags), c.(spdmVersion), c.(handshakeSecret), c.(sessionId),
  (c.(connectionHandle), c.(fipsIndicator))).

Lemma finish_view_core c c' : fin_core c = fin_core c' -> finish_view c = finish_view c' /\ rec_view c = rec_view c'.
Proof. unfold fin_core, finish_view, end_view. destruct c, c'. cbn. intros [=]; by subst. Qed.

Lemma framed_paired conn fips key c r : paired key c r -> 0 <= conn < 2 ^ 32 -> 0 <= fips < 2 ^ 16 ->
  paired key c (framed conn fips r) /\ conn_view (framed conn fips r) = (conn, fips).
Proof.
  intros [Hreq Hof Hst Htr Hv Hs Hl Hid Hd] Hc Hf. split; [|by destruct r as [[]]].
  pose proof (framed_offers key conn fips r Hof Hc Hf) as Hof'.
  split; try done; try (by destruct r as [[]]). apply linked_views. apply linked_views in Hl. by destruct r as [[]].
Qed.

Lemma finish_wire key c r (t : T) (Q : unit -> WOLFSPDM_CTX * SIDE -> Prop) E :
  paired key c r -> 128 <= WOLFSPDM_MAX_MSG_SIZE -> 256 <= WOLFSPDM_MAX_TRANSCRIPT ->
  let bufSize := WOLFSPDM_MAX_MSG_SIZE + WOLFSPDM_AEAD_OVERHEAD in
  (forall c' r', psk_ends key c' r' -> Q tt (c', (r', t))) ->
  (forall rc x, ~ CryptTotal -> E rc x) ->
  wp (let* finBuf := on_ctx (wolfSPDM_BuildPskFinish 64) in
      let* encBuf := on_ctx (wolfSPDM_EncryptInternal finBuf bufSize) in
      let* rxBuf := wolfSPDM_SendReceive encBuf bufSize in
      let* decBuf := on_ctx (wolfSPDM_DecryptInternal rxBuf 64) in
      on_ctx (wolfSPDM_ParsePskFinishRsp decBuf) ;;;
      on_ctx wolfSPDM_DeriveAppDataKeys) Q E (c, (r, t)).
Proof.
  intros Hp Hm Hmax bufSize HQ HE. pose proof (pr_req _ _ _ Hp) as (Hwf & Hio & Ht & Hr).
  destruct (pr_tr _ _ _ Hp) as [_ Htl].
  io_step. io_step. apply BuildPskFinish_sure; [done|lia| |by intros; apply HE].
  intros m c1 Hml Hmb Hwf1 Hcore Hsent. destruct (finish_view_core _ _ Hcore) as [Hfv Hrv].
  unfold finish_view, end_view in Hfv. injection Hfv as Hmd Hio1 Hp1 Hz1 Hfl Hv1 Hhs1 Hid1 Hcn1 Hfp1.
  destruct (ctx_wf_link c Hwf) as (Hcb & Hfb & _).
  destruct (framed_paired _ _ _ _ _ Hp Hcb Hfb) as [Hp1' Hcv]. clear Hp.
  assert (tr c1 = tr c ++ m) as Htr1 by (destruct Hsent as (? & ? & ? & _); done).
  set (r1 := framed (connectionHandle c) (fipsIndicator c) r) in *.
  pose proof Hp1' as [_ Hof [Hst Hpa] [Htr _] [Hv Hvr] [Hhs Hk] Hl [Hid0 Hid] Hd].
  assert (linked c1 (rctx r1)) as Hl1 by (apply linked_views; apply linked_views in Hl; congruence).
  assert (wolfSPDM_IsTcgMode c1 = true) as Ht1 by (unfold wolfSPDM_IsTcgMode in *; by rewrite Hmd).
  io_step. io_step. apply (send_request_sure m bufSize (rctx r1)); try done;
    [by unfold rng_on; rewrite Hfl|lia|unfold bufSize, WOLFSPDM_AEAD_OVERHEAD in *; lia| |by intros; apply HE].
  rewrite Hid1, Hml. intros rec q Hqwf Hsv Hqc Hqt Hrb Hr0 Hrl Hdec Hlq.
  unfold side_view, rview in Hsv. injection Hsv as Hcn2 Hfp2 Hv2 _ _ Hio2 _.
  unfold hs_core in Hqc. injection Hqc as Htr2 Hhs2 _ Hmd2 Hp2 Hz2.
  destruct (answered_same (rctx r1)) as (_ & _ & _ & _ & Hida & _).
  assert (sessionId q = sessionId c /\ sessionId (rctx r1) = sessionId c) as [Hid2 Hidr].
  { apply linked_views in Hl, Hlq. unfold rec_view in Hl, Hlq. split; congruence. }
  io_step. apply SendReceive_wire; [done|congruence|done|apply Hof| |].
  { unfold bufSize, TCG_BUF_SZ, WOLFSPDM_TCG_HEADER_SIZE, WOLFSPDM_AEAD_OVERHEAD in *. lia. }
  replace (is_clear_msg rec) with false by (unfold is_clear_msg; rewrite Hr0; lia).
  cbn [fst snd]. rewrite Hcn2, Hfp2, Hcn1, Hfp1. fold r1.
  apply (dispatch_finish key q c c1 m); try done; try lia; try congruence.
  { unfold TCG_BUF_SZ, WOLFSPDM_TCG_HEADER_SIZE, WOLFSPDM_AEAD_OVERHEAD in *. lia. }
  { rewrite Hv. change (0x12 <= spdmVersion c <= 0x13) in Hvr. unfold is_byte. lia. }
  2: { intros rc x Hx. by apply HE. }
  rewrite Hv, Hid2, Hhs. intros enc r' Heb Hel Hread Hup Hcn'. rewrite Hcv in Hcn'. injection Hcn' as Hcn' Hfp'.
  cbn [fst snd]. split; [done|].
  split; [unfold bufSize, TCG_BUF_SZ, WOLFSPDM_TCG_HEADER_SIZE, WOLFSPDM_AEAD_OVERHEAD in *; lia|].
  split; [lia|]. split; [congruence|]. split; [congruence|].
  apply (finish_read key (spdmVersion c) (handshakeSecret c) (tr c ++ m) enc q c r'); try done; try congruence.
  - rewrite len_app. lia.
  - unfold end_view. congruence.
  - by rewrite <- app_assoc.
  - intros c' Hends. by apply HQ.
Qed.

(** ** The connection *)

(** What a reset keeps of the requester, and the counters it clears. *)
Definition kept_view c := (c.(mode), c.(ioCb), (c.(psk), c.(pskSz)), c.(reqSessionId), c.(maxVersion),
  (c.(flags).(rngInitialized), c.(flags).(initialized))).

Lemma reset_keeps c : kept_view (reset_ctx c) = kept_view c /\ reqSeqNum (reset_ctx c) = 0 /\
  rspSeqNum (reset_ctx c) = 0.
Proof.
  unfold reset_ctx. set (c1 := forget_peer (eph_freed (wiped c))).
  assert (kept_view c1 = kept_view c /\ reqSeqNum c1 = 0 /\ rspSeqNum c1 = 0) as (Hk & Hq & Hs).
  { assert (forall x, kept_view (eph_freed x) = kept_view x /\ reqSeqNum (eph_freed x) = reqSeqNum x /\
      rspSeqNum (eph_freed x) = rspSeqNum x) as Hx.
    { intros x. unfold eph_freed. destruct (ephemeralKeyInit _); [|done]. by destruct x as [], flags. }
    assert (kept_view (wiped c) = kept_view c /\ reqSeqNum (wiped c) = 0 /\ rspSeqNum (wiped c) = 0)
      as (Hw1 & Hw2 & Hw3) by by destruct c.
    destruct (Hx (wiped c)) as (Hx1 & Hx2 & Hx3). rewrite <- Hw1, <- Hx1.
    unfold c1. rewrite <- Hx3 in Hw3. rewrite <- Hx2 in Hw2. revert Hw2 Hw3. generalize (eph_freed (wiped c)).
    intros x. by destruct x. }
  clearbody c1. rewrite !(attest_freed_fields c1) by (intros x; by destruct x). done.
Qed.

Lemma asks_kept key c c' : asks key c -> ctx_wf c' -> kept_view c' = kept_view c -> asks key c'.
Proof.
  intros [Hwf (Ht & Hr & Hio) [Hz Hk] Hid Hv] Hwf' [= Hm Hi Hp Hs Hri Hmv Hrg _].
  split; unfold wolfSPDM_IsTcgMode, rng_on, max_version in *; rewrite ?Hm, ?Hi, ?Hp, ?Hs, ?Hri, ?Hmv, ?Hrg; done.
Qed.

(** The failures of a PSK connection are failures of wolfCrypt. *)
Lemma ConnectPsk_wire key c r (t : T) (Q : unit -> WOLFSPDM_CTX * SIDE -> Prop) E :
  asks key c -> c.(flags).(initialized) = true -> c.(reqSeqNum) = 0 -> c.(rspSeqNum) = 0 -> offers key r ->
  128 <= WOLFSPDM_MAX_MSG_SIZE -> 256 <= WOLFSPDM_MAX_TRANSCRIPT ->
  (forall c' r', psk_ends key c' r' -> Q tt (c' <| state := WOLFSPDM_STATE_CONNECTED |>, (r', t))) ->
  (forall rc x, ~ CryptTotal -> E rc x) ->
  wp wolfSPDM_ConnectPsk Q E (c, (r, t)).
Proof.
  intros Hak Hini Hq Hs Hof Hm Hmax HQ HE. pose proof Hak as [Hwf (_ & _ & Hio) [Hz _] _ _].
  unfold wolfSPDM_ConnectPsk. do 2 io_step. rewrite Hini. io_step. io_step; [done|].
  io_step. io_step; [lia|]. io_step. io_step; [lia|]. io_step. io_step. io_step. io_step.
  apply TranscriptReset_wp; [wf_tac|]. intros Hwf1.
  assert (forall x, tr (tr_reset x) = [] /\ kept_view (tr_reset x) = kept_view x /\
    reqSeqNum (tr_reset x) = reqSeqNum x /\ rspSeqNum (tr_reset x) = rspSeqNum x) as Htr by (intros x; by destruct x).
  destruct (Htr (c <| state := WOLFSPDM_STATE_INIT |>)) as (Ht1 & Hk1 & Hq1 & Hs1). clear Htr.
  assert (kept_view (c <| state := WOLFSPDM_STATE_INIT |>) = kept_view c /\
    reqSeqNum (c <| state := WOLFSPDM_STATE_INIT |>) = 0 /\ rspSeqNum (c <| state := WOLFSPDM_STATE_INIT |>) = 0)
    as (Hk0 & Hq0 & Hs0) by (destruct c; cbn in Hq, Hs |- *; by subst).
  rewrite Hk0 in Hk1. rewrite Hq0 in Hq1. rewrite Hs0 in Hs1. clear Hk0 Hq0 Hs0.
  revert Hwf1 Ht1 Hk1 Hq1 Hs1. generalize (tr_reset (c <| state := WOLFSPDM_STATE_INIT |>)).
  intros c1 Hwf1 Ht1 Hk1 Hq1 Hs1. pose proof (asks_kept key c c1 Hak Hwf1 Hk1) as Hak1.
  io_step. unfold SPDM_CONNECT_STEP. io_step.
  apply (wp_mono _ (fun _ x => exists c' r', x = (c', (r', t)) /\ psk_ends key c' r') _ (fun _ _ => ~ CryptTotal)).
  - io_step. apply (GetVersion_wire key); [done..|lia|].
    intros c2 r2 Hak2 Hof2 Hv2 Hkv [= Hq2 Hs2]. apply (exchange_wire key); try done; [split; congruence|].
    intros c3 r3 Hp. apply (finish_wire key); try done. intros c4 r4 He. by exists c4, r4.
  - intros [] ? (c4 & r4 & -> & He). io_step. by apply HQ.
  - intros rc [] Hx. io_step. by apply HE.
Qed.

(** The state both sides are left in. *)
Definition psk_joined (key : bytes) c r : Prop :=
  in_session c r /\ phase_of r = P_connected false /\ tr c = tr r.(rctx) /\ psk_done c /\
  (c.(reqAppSecret), c.(rspAppSecret)) = (r.(rctx).(reqAppSecret), r.(rctx).(rspAppSecret)) /\
  sub_bytes r.(pskStore) 0 r.(pskStoreSz) = key.

Lemma Connect_psk_wire key c r (t : T) (Q : unit -> WOLFSPDM_CTX * SIDE -> Prop) E :
  asks key c -> c.(flags).(initialized) = true -> c.(mode) = WOLFSPDM_MODE_NATIONS_PSK -> offers key r ->
  128 <= WOLFSPDM_MAX_MSG_SIZE -> 256 <= WOLFSPDM_MAX_TRANSCRIPT ->
  (forall c' r', psk_joined key c' r' -> Q tt (c', (r', t))) ->
  (forall rc x, ~ CryptTotal -> E rc x) ->
  wp wolfSPDM_Connect Q E (c, (r, t)).
Proof.
  intros Hak Hini Hmode Hof Hm Hmax HQ HE. pose proof Hak as [Hwf (_ & _ & Hio) _ _ _].
  destruct (reset_keeps c) as (Hk & Hq & Hs).
  unfold wolfSPDM_Connect. do 2 io_step. rewrite Hini. io_step. io_step; [done|].
  io_step. io_step; [lia|]. rewrite Hmode. io_step. io_step. apply ResetSession_wp; [done|].
  revert Hk Hq Hs. generalize (reset_ctx c). intros c1 Hk Hq Hs Hwf1.
  pose proof (asks_kept key c c1 Hak Hwf1 Hk) as Hak1. unfold kept_view in Hk. injection Hk as Hm1 _ _ _ _ _ _ Hi1.
  cbn [orb Z.eqb Pos.eqb WOLFSPDM_MODE_NATIONS_PSK WOLFSPDM_MODE_TCG WOLFSPDM_MODE_NUVOTON WOLFSPDM_MODE_NATIONS].
  apply (ConnectPsk_wire key); try done; [congruence|].
  intros c' r' Hends. apply HQ. by apply (psk_ends_session key).
Qed.
End Finish.

Section Established.
Context `{WolfCrypt} `{Config} `{!CryptSizes} `{!RecordFits} `{!TranscriptFits} `{!GcmRoundTrip}
  {T : Type} `{!TpmCallback T}.

(** C3: a requester and a responder of this repository that hold the same
    pre-shared key bring up a session.  Run over the responder, the whole of
    [wolfSPDM_Connect] in PSK mode ends with both sides connected, with the same
    transcript, the same application secrets and record keys in step, ready
    for the vendor commands; the requester has forgotten its key, the responder
    keeps its own, and no TPM command was run.  If it fails, a call of wolfCrypt
    on valid arguments failed. *)
Theorem psk_session_established (key : bytes) (c : WOLFSPDM_CTX) (r : WOLFSPDM_RESP_CTX) (t : T) :
  asks key c -> c.(flags).(initialized) = true -> c.(mode) = WOLFSPDM_MODE_NATIONS_PSK -> offers key r ->
  128 <= WOLFSPDM_MAX_MSG_SIZE -> 256 <= WOLFSPDM_MAX_TRANSCRIPT ->
  match wolfSPDM_Connect (c, (r, t)) with
  | Ok _ (c', (r', t')) => t' = t /\ psk_joined key c' r'
  | Err _ _ => ~ CryptTotal
  | Ub => False
  end.
Proof.
  intros Hak Hini Hmode Hof Hm Hmax.
  assert (wp wolfSPDM_Connect (fun _ x => x.2.2 = t /\ psk_joined key x.1 x.2.1) (fun _ _ => ~ CryptTotal)
    (c, (r, t))) as Hwp by (by apply (Connect_psk_wire key)).
  unfold wp in Hwp. by destruct (wolfSPDM_Connect (c, (r, t))) as [? [? []]|? [? []]|].
Qed.
End Established.
