(* ===== verification/Peer.v ===== *)
(** * A concrete responder for the standard profile

    A small responder, not part of the repository: it holds a context of its
    own and answers the requests of the standard flow with the library's own
    builders, under the concrete functions of [Toy].  The witnesses run the
    requester against it, so the successful branches of the theorems are seen
    to be reachable. *)
From Stdlib Require Import ZArith Lia String.
From stdpp Require Import base tactics list numbers.
From S2P Require Import Prelude Types Bytes Crypt Context Transcript Kdf CryptoOps Transport.
From S2P Require Import Secured Msg Chunk Cert Attest Session Standard.

Module Peer.
#[local] Existing Instance Toy.crypt.
#[local] Existing Instance small_config.
Notation CM := (M WOLFSPDM_CTX).

(** The context [wolfSPDM_Init] makes. *)
Definition init_ctx : WOLFSPDM_CTX := Eval vm_compute in
  match wolfSPDM_Init zero_ctx with Ok _ c => c | Err _ c => c | Ub => zero_ctx end.

(** A step that must succeed, for building example contexts. *)
Definition after {A} (m : CM A) (c : WOLFSPDM_CTX) : WOLFSPDM_CTX :=
  match m c with Ok _ c' => c' | _ => c end.

(** Key pairs: private 5 with public 30, private 7 with public 42. *)
Definition priv (p : Z) : bytes := Toy.coord p.
Definition pub (p : Z) : bytes := Toy.coord p ++ Toy.coord 9.

(** A root with key 42, and the responder's certificate for key 30. *)
Definition root_cert : bytes := [0x30; 0x02; 42; 42].
Definition leaf_cert : bytes := [0x30; 0x02; 30; 42].
Definition chain : bytes :=
  SPDM_Set16LE 56 ++ [0; 0] ++ Toy.digest root_cert ++ leaf_cert.

(** The two directions of the record layer change places. *)
Definition swap : CM unit :=
  modify (fun c : WOLFSPDM_CTX => c
    <| reqDataKey := c.(rspDataKey) |> <| rspDataKey := c.(reqDataKey) |>
    <| reqDataIv := c.(rspDataIv) |> <| rspDataIv := c.(reqDataIv) |>
    <| reqAppSecret := c.(rspAppSecret) |> <| rspAppSecret := c.(reqAppSecret) |>).

Definition record_exchange (tx rx : bytes) : CM bytes :=
  wolfSPDM_TranscriptAdd tx ;;; wolfSPDM_TranscriptAdd rx ;;; ret rx.

Definition rsp_caps : Z :=
  fold_right Z.lor required_caps [SPDM_CAP_HBEAT_CAP; SPDM_CAP_KEY_UPD_CAP; SPDM_CAP_CHAL_CAP;
    SPDM_CAP_MEAS_CAP_SIG].

(** A tail: nonce, no opaque data, the echoed context. *)
Definition tail (tx : bytes) : CM bytes :=
  let* nonce := wolfSPDM_GetRandom SPDM_NONCE_SZ in
  ret (nonce ++ [0; 0] ++ drop (Z.to_nat (len tx - SPDM_REQ_CONTEXT_SZ)) tx).

Definition sign (label digest : bytes) : CM bytes :=
  let* c := @get WOLFSPDM_CTX in
  let* h := wolfSPDM_BuildSignedHash c.(spdmVersion) label digest in
  wolfSPDM_SignHash h WOLFSPDM_ECC_SIG_SIZE.

(** Adds to a running hash and signs it. *)
Definition sign_run (r : run) (label tx body : bytes) : CM bytes :=
  run_update r tx ;;; run_update r body ;;;
  let* sha := run_obj r in
  let* d := lift_opt WOLFSPDM_E_CRYPTO_FAIL (wc_Sha384Final sha) in
  sign label d.

Definition key_exchange (tx : bytes) : CM bytes :=
  wolfSPDM_M1Start ;;;
  wolfSPDM_TranscriptAdd tx ;;;
  wolfSPDM_GenerateEphemeralKey ;;;
  let* (x, y) := wolfSPDM_ExportEphemeralPubKey 48 48 in
  let* rnd := wolfSPDM_GetRandom 32 in
  let* v := (let* c := @get WOLFSPDM_CTX in ret c.(spdmVersion)) in
  let part := [v; SPDM_KEY_EXCHANGE_RSP; 0; 0; 2; 0; 0; 0] ++ rnd ++ x ++ y ++ [0; 0] in
  wolfSPDM_TranscriptAdd part ;;;
  let* h := wolfSPDM_TranscriptHash in
  let* sg := sign kex_context h in
  wolfSPDM_TranscriptAdd sg ;;;
  wolfSPDM_ComputeSharedSecret (sub_bytes tx 40 48) (sub_bytes tx 88 48) ;;;
  let* h := wolfSPDM_TranscriptHash in
  wolfSPDM_DeriveHandshakeKeys h ;;;
  let* c := @get WOLFSPDM_CTX in
  let* vd := wolfSPDM_ComputeVerifyData c.(rspFinishedKey) h in
  wolfSPDM_TranscriptAdd vd ;;;
  modify (fun c : WOLFSPDM_CTX => c <| sessionId := SPDM_Get16LE (drop 4 tx) + 2 * 2 ^ 16 |>
    <| state := WOLFSPDM_STATE_KEY_EX |>) ;;;
  swap ;;;
  ret (part ++ sg ++ vd).

Definition clear (tx : bytes) : CM bytes :=
  let code := at_ tx 1 in
  let* v := (let* c := @get WOLFSPDM_CTX in ret c.(spdmVersion)) in
  if code =? SPDM_GET_VERSION then
    wolfSPDM_TranscriptReset ;;;
    modify (fun c : WOLFSPDM_CTX => c <| spdmVersion := SPDM_VERSION_13 |>) ;;;
    record_exchange tx [0x10; SPDM_VERSION; 0; 0; 0; 2; 0; 0x12; 0; 0x13]
  else if code =? SPDM_GET_CAPABILITIES then
    record_exchange tx ([v; SPDM_CAPABILITIES] ++ zeros 6 ++ SPDM_Set32LE rsp_caps ++
      SPDM_Set32LE 512 ++ SPDM_Set32LE 512)
  else if code =? SPDM_NEGOTIATE_ALGORITHMS then
    let* rx := record_exchange tx
      ([v; SPDM_ALGORITHMS; 4; 0] ++ SPDM_Set16LE 52 ++ [1; 2] ++ zeros 4 ++
       SPDM_Set32LE SPDM_ASYM_ALGO_ECDSA_P384 ++ SPDM_Set32LE SPDM_HASH_ALGO_SHA_384 ++ zeros 16 ++
       alg_struct SPDM_ALG_TYPE_DHE SPDM_DHE_ALGO_SECP384R1 ++
       alg_struct SPDM_ALG_TYPE_AEAD SPDM_AEAD_ALGO_AES_256_GCM ++
       alg_struct SPDM_ALG_TYPE_REQ_BASE_ASYM SPDM_ASYM_ALGO_ECDSA_P384 ++
       alg_struct SPDM_ALG_TYPE_KEY_SCHEDULE SPDM_KEY_SCHEDULE_SPDM) in
    modify (fun c : WOLFSPDM_CTX => c <| vcaLen := c.(transcriptLen) |>) ;;;
    wolfSPDM_M1Start ;;; ret rx
  else if code =? SPDM_GET_DIGESTS then
    let rx := [v; SPDM_DIGESTS; 0; 1] ++ Toy.digest chain in
    wolfSPDM_M1Add tx rx ;;; ret rx
  else if code =? SPDM_GET_CERTIFICATE then
    let off := SPDM_Get16LE (drop 4 tx) in
    let n := Z.min (SPDM_Get16LE (drop 6 tx)) (len chain - off) in
    let rx := [v; SPDM_CERTIFICATE; 0; 0] ++ SPDM_Set16LE n ++
              SPDM_Set16LE (len chain - off - n) ++ sub_bytes chain off n in
    wolfSPDM_M1Add tx rx ;;;
    when (off + n =? len chain) (wolfSPDM_TranscriptAdd (Toy.digest chain)) ;;; ret rx
  else if code =? SPDM_CHALLENGE then
    let* t := tail tx in
    let body := [v; SPDM_CHALLENGE_AUTH; 0; 1] ++ Toy.digest chain ++ t in
    let* sg := sign_run M1 chal_label tx body in
    ret (body ++ sg)
  else if code =? SPDM_KEY_EXCHANGE then key_exchange tx
  else ret [v; SPDM_ERROR; SPDM_ERROR_UNSUPPORTED_REQUEST; 0].

(** Answers inside the session; the second part is the work after sending. *)
Definition secured (tx : bytes) : CM (bytes * CM unit) :=
  let code := at_ tx 1 in
  let* v := (let* c := @get WOLFSPDM_CTX in ret c.(spdmVersion)) in
  if code =? SPDM_FINISH then
    let rx := [v; SPDM_FINISH_RSP; 0; 0] in
    record_exchange tx rx ;;;
    ret (rx, swap ;;; wolfSPDM_DeriveAppDataKeys ;;; swap)
  else if code =? SPDM_HEARTBEAT then ret ([v; SPDM_HEARTBEAT_ACK; 0; 0], ret tt)
  else if code =? SPDM_END_SESSION then ret ([v; SPDM_END_SESSION_ACK; 0; 0], ret tt)
  else if code =? SPDM_KEY_UPDATE then
    let rx := [v; SPDM_KEY_UPDATE_ACK; at_ tx 2; at_ tx 3] in
    if at_ tx 2 =? SPDM_KEY_UPDATE_OP_UPDATE_ALL_KEYS then
      wolfSPDM_DeriveUpdatedKeys true ;;;
      modify (fun c : WOLFSPDM_CTX => c <| reqSeqNum := 0 |> <| rspSeqNum := 0 |>) ;;;
      ret (rx, ret tt)
    else if at_ tx 2 =? SPDM_KEY_UPDATE_OP_UPDATE_KEY then
      ret (rx, swap ;;; wolfSPDM_DeriveUpdatedKeys false ;;; swap ;;;
               modify (fun c : WOLFSPDM_CTX => c <| rspSeqNum := 0 |>))
    else ret (rx, ret tt)
  else if code =? SPDM_GET_MEASUREMENTS then
    let* t := tail tx in
    let body := [v; SPDM_MEASUREMENTS; 0; 0; 1; 8; 0; 0] ++ [1; 1; 4; 0; 0; 1; 0; 77] ++ t in
    wolfSPDM_RunStart L1L2 ;;;
    let* sg := sign_run L1L2 meas_label tx body in
    ret (body ++ sg, ret tt)
  else ret ([v; SPDM_ERROR; SPDM_ERROR_UNSUPPORTED_REQUEST; 0], ret tt).

Definition serve (tx : bytes) : CM bytes :=
  if is_clear_msg tx then clear tx
  else
    let* plain := wolfSPDM_DecryptInternal tx 512 in
    let* (rx, later) := secured plain in
    let* enc := wolfSPDM_EncryptInternal rx 592 in
    later ;;; ret enc.

#[global] Instance transport : Transport WOLFSPDM_CTX := fun cb user ctx tx cap p =>
  match serve tx p with
  | Ok rx p' => (p', Some (map w8 rx))
  | Err _ p' => (p', None)
  | Ub => (p, None)
  end.

#[global] Instance bytes_ok : @TransportBytes _ _ transport.
Proof.
  intros cb user ctx tx cap w w' rx. unfold io_call, transport.
  destruct (serve tx w); intros [= _ <-].
  apply List.Forall_map, List.Forall_forall. intros. apply is_byte_w8.
Qed.

(** The responder with its signing key; the requester with the trusted root. *)
Definition responder : WOLFSPDM_CTX := Eval vm_compute in
  after (wolfSPDM_SetRequesterKeyPair (priv 5) (pub 30)) init_ctx.
Definition requester : WOLFSPDM_CTX := Eval vm_compute in
  after (wolfSPDM_SetTrustedCAs root_cert) (after (wolfSPDM_SetIO 1 0) init_ctx).

(** ** Runs *)

Definition is_ok {S A} (r : res S A) : bool := match r with Ok _ _ => true | _ => false end.
Definition is_err {S A} (r : res S A) : bool := match r with Err _ _ => true | _ => false end.

Definition W0 : WOLFSPDM_CTX * WOLFSPDM_CTX := (requester, responder).
Definition run_from {A} (m : M (WOLFSPDM_CTX * WOLFSPDM_CTX) A) (s : WOLFSPDM_CTX * WOLFSPDM_CTX)
    : WOLFSPDM_CTX * WOLFSPDM_CTX :=
  match m s with Ok _ s' => s' | _ => s end.

(** After negotiation; with the chain; with the session established.  The
    states are kept evaluated, so that what is said of one does not run the
    handshake again. *)
Definition negotiated := Eval vm_compute in run_from
  (wolfSPDM_GetVersion ;;; wolfSPDM_GetCapabilities ;;; wolfSPDM_NegotiateAlgorithms) W0.
Definition certified := Eval vm_compute in
  run_from (wolfSPDM_GetDigests ;;; wolfSPDM_GetCertificate 0) negotiated.
Definition trusted := Eval vm_compute in
  run_from (on_ctx wolfSPDM_ValidateCertChain) certified.
Definition exchanged := Eval vm_compute in
  run_from wolfSPDM_KeyExchange trusted.
Definition connected := Eval vm_compute in
  run_from wolfSPDM_ConnectStandard W0.
Definition measured := Eval vm_compute in
  run_from (wolfSPDM_GetMeasurements 255 true) connected.
End Peer.

#[export] Existing Instance Toy.crypt.
#[export] Existing Instance small_config.
#[export] Instance record_fits_small : @RecordFits small_config.
Proof. reflexivity. Qed.
#[export] Instance transcript_fits_small : @TranscriptFits small_config.
Proof. reflexivity. Qed.

(** Well-formedness of a computed context. *)
Ltac concrete_wf :=
  split;
  [ unfold sizes_ok; split_and!; first [vm_compute; reflexivity
      | apply Toy.is_bytes_forallb; vm_compute; reflexivity]
  | unfold bounds_ok; split_and!;
      first [vm_compute; discriminate | left; vm_compute; reflexivity
            | right; split; vm_compute; discriminate | vm_compute; reflexivity]
  | vm_compute; exact I
  | unfold objects_ok; split_and!;
      first [vm_compute; eexists; reflexivity
            | intros _; vm_compute; eexists; reflexivity
            | let H := fresh in intros H; exfalso; apply H; vm_compute; reflexivity] ].

Lemma requester_wf : ctx_wf Peer.requester.
Proof. concrete_wf. Qed.
Lemma certified_wf : ctx_wf Peer.certified.1.
Proof. concrete_wf. Qed.
Lemma trusted_wf : ctx_wf Peer.trusted.1.
Proof. concrete_wf. Qed.
Lemma exchanged_wf : ctx_wf Peer.exchanged.1.
Proof. concrete_wf. Qed.
Lemma peer_connected_wf : ctx_wf Peer.connected.2.
Proof. concrete_wf. Qed.
Lemma connected_wf : ctx_wf Peer.connected.1.
Proof. concrete_wf. Qed.
Lemma measured_wf : ctx_wf Peer.measured.1.
Proof. concrete_wf. Qed.
