(* ===== verification/Link.v ===== *)
(** * Requester and responder on one link

    The requester of this repository against its own responder, over the
    concrete functions of [Toy]: the transport hands every frame to
    [wolfSPDM_RespHandleMessage] and keeps the last frame with the responder
    that received it.  The TPM answers a command with its bytes
    reversed and remembers the commands. *)
From Stdlib Require Import ZArith Lia String.
From stdpp Require Import base tactics list numbers option.
From S2P Require Import Prelude Types Bytes Crypt Context Transcript Kdf CryptoOps Transport.
From S2P Require Import Secured Msg Chunk Cert Attest Session Standard Tcg Psk Connect.
From S2P Require Import Responder RespSpec RespRefine Peer.
Import Peer.

Module Link.
#[global] Instance tpm : TpmCallback (list bytes) := fun _ _ cmd cap t => (cmd :: t, Some (rev cmd)).

(** The responder with its TPM. *)
Definition side : Type := WOLFSPDM_RESP_CTX * list bytes.

Definition log : Type := option (bytes * side).

#[global] Instance transport : Transport (side * log) := fun cb user ctx tx cap '(s, l) =>
  match wolfSPDM_RespHandleMessage tx cap s with
  | Ok rx s' => ((s', Some (tx, s)), Some (map w8 rx))
  | Err _ s' => ((s', Some (tx, s)), None)
  | Ub => ((s, l), None)
  end.

#[global] Instance bytes_ok : @TransportBytes _ _ transport.
Proof.
  intros cb user ctx tx cap [s l] w' rx. unfold io_call, transport.
  destruct (wolfSPDM_RespHandleMessage tx cap s); intros [= _ <-].
  apply List.Forall_map, List.Forall_forall. intros. apply is_byte_w8.
Qed.

Definition then_r {A} (m : M WOLFSPDM_RESP_CTX A) (r : WOLFSPDM_RESP_CTX) : WOLFSPDM_RESP_CTX :=
  match m r with Ok _ r' => r' | _ => r end.

(** A responder with identity key 30, a pre-shared key and a TPM. *)
Definition psk_bytes : bytes := replicate 64 5.

Definition resp0 : WOLFSPDM_RESP_CTX := Eval vm_compute in
  then_r (wolfSPDM_RespSetTpmCallback 1 0) (then_r (wolfSPDM_RespSetPSK psk_bytes None)
    (then_r (wolfSPDM_RespSetIdentityKey (priv 5) (pub 30))
      (then_r (wolfSPDM_RespSetMode true true) (then_r wolfSPDM_RespInit zero_resp)))).

(** The same responder before a key is provisioned. *)
Definition resp_bare : WOLFSPDM_RESP_CTX := Eval vm_compute in
  then_r (wolfSPDM_RespSetTpmCallback 1 0)
    (then_r (wolfSPDM_RespSetIdentityKey (priv 5) (pub 30))
      (then_r (wolfSPDM_RespSetMode true true) (then_r wolfSPDM_RespInit zero_resp))).

(** A TCG requester that pins key 30, and a PSK requester. *)
Definition tcg_req : WOLFSPDM_CTX := Eval vm_compute in
  after (wolfSPDM_SetResponderPubKey (pub 30)) (after (wolfSPDM_SetMode WOLFSPDM_MODE_TCG)
    (after (wolfSPDM_SetIO 1 0) init_ctx)).

Definition psk_req : WOLFSPDM_CTX := Eval vm_compute in
  after (wolfSPDM_SetPSK psk_bytes None) (after (wolfSPDM_SetMode WOLFSPDM_MODE_NATIONS_PSK)
    (after (wolfSPDM_SetIO 1 0) init_ctx)).

Definition start (c : WOLFSPDM_CTX) : WOLFSPDM_CTX * (side * log) := (c, ((resp0, []), None)).

Definition go {A} (m : M (WOLFSPDM_CTX * (side * log)) A) (s : WOLFSPDM_CTX * (side * log)) :=
  match m s with Ok _ s' => s' | _ => s end.

(** The requester after PSK_EXCHANGE went out, and the answer it got. *)
Definition psk_sent : option (bytes * WOLFSPDM_CTX) := Eval vm_compute in
  match (on_ctx wolfSPDM_TranscriptReset ;;; wolfSPDM_GetVersion ;;;
     let* txBuf := on_ctx (wolfSPDM_BuildPskExchange 128) in
     on_ctx (wolfSPDM_TranscriptAdd txBuf) ;;;
     wolfSPDM_SendReceive txBuf 592) (start psk_req) with
  | Ok rx s => Some (rx, s.1)
  | _ => None
  end.
Definition psk_answer : bytes := match psk_sent with Some (rx, _) => rx | None => [] end.
Definition psk_waiting : WOLFSPDM_CTX := match psk_sent with Some (_, c) => c | None => psk_req end.

Definition tcg_up := Eval vm_compute in go wolfSPDM_Connect (start tcg_req).
Definition psk_up := Eval vm_compute in go wolfSPDM_Connect (start psk_req).

(** The last frame of a run - FINISH, after a connection - and the responder
    that received it. *)
Definition last_frame (s : WOLFSPDM_CTX * (side * log)) : bytes :=
  match s.2.2 with Some (tx, _) => tx | None => [] end.
Definition before_last (s : WOLFSPDM_CTX * (side * log)) : side :=
  match s.2.2 with Some (_, r) => r | None => s.2.1 end.

(** The responder after that frame. *)
Definition answered (n : Z) (s : WOLFSPDM_CTX * (side * log)) : side :=
  match wolfSPDM_RespHandleMessage (last_frame s) n ((before_last s).1, (before_last s).2) with
  | Ok _ s' | Err _ s' => s'
  | Ub => before_last s
  end.
End Link.

(** The same PSK requester and responder over functions that never fail. *)
Module Pair.
#[local] Existing Instance Toy.crypt_total.

Definition requester : WOLFSPDM_CTX := Eval vm_compute in
  match (wolfSPDM_Init ;;; wolfSPDM_SetIO 1 0 ;;; wolfSPDM_SetMode WOLFSPDM_MODE_NATIONS_PSK ;;;
         wolfSPDM_SetPSK Link.psk_bytes None) zero_ctx with
  | Ok _ c => c | Err _ c => c | Ub => zero_ctx end.

Definition responder : WOLFSPDM_RESP_CTX := Eval vm_compute in
  match (wolfSPDM_RespInit ;;; wolfSPDM_RespSetMode false true ;;;
         wolfSPDM_RespSetPSK Link.psk_bytes None) zero_resp with
  | Ok _ r => r | Err _ r => r | Ub => zero_resp end.
End Pair.

Ltac concrete_resp_wf :=
  split;
  [ concrete_wf
  | split_and!; vm_compute; (reflexivity || discriminate)
  | split_and!; first [apply Toy.is_bytes_forallb; vm_compute; reflexivity
      | vm_compute; (reflexivity || discriminate)]
  | split; [vm_compute; reflexivity|split; [apply Toy.is_bytes_forallb; vm_compute; reflexivity|
      intros _; vm_compute; reflexivity]]
  | vm_compute; tauto
  | split_and!; vm_compute; reflexivity ].

Lemma tcg_req_wf : ctx_wf Link.tcg_req.
Proof. concrete_wf. Qed.
Lemma psk_req_wf : ctx_wf Link.psk_req.
Proof. concrete_wf. Qed.
Lemma psk_waiting_wf : ctx_wf Link.psk_waiting.
Proof. concrete_wf. Qed.
Lemma tcg_up_wf : ctx_wf Link.tcg_up.1.
Proof. concrete_wf. Qed.
Lemma resp0_wf : resp_wf Link.resp0.
Proof. concrete_resp_wf. Qed.
Lemma resp_bare_wf : resp_wf Link.resp_bare.
Proof. concrete_resp_wf. Qed.
Lemma resp_up_wf : resp_wf Link.tcg_up.2.1.1.
Proof. concrete_resp_wf. Qed.
Lemma resp_finishing_wf : resp_wf (Link.before_last Link.tcg_up).1.
Proof. concrete_resp_wf. Qed.
Lemma resp_psk_finishing_wf : resp_wf (Link.before_last Link.psk_up).1.
Proof. concrete_resp_wf. Qed.

Lemma pair_req_wf : ctx_wf Pair.requester.
Proof. concrete_wf. Qed.
Lemma pair_rsp_wf : resp_wf Pair.responder.
Proof. concrete_resp_wf. Qed.
