(* ===== verification/Emu.v ===== *)
(** * An emulator behind a socket

    The responder of Peer.v at the other end of a stream: it collects what is
    sent, answers every complete frame with a frame, and delivers its answers
    in the pieces and with the interruptions that [cuts] prescribes.  It shows
    that the laws of Socket.v can hold and carries the runs of the
    demonstration in Witness.v. *)
From Stdlib Require Import ZArith Lia String.
From stdpp Require Import base tactics list numbers.
From S2P Require Import Prelude Types Bytes Crypt Context Transport Socket Peer.

Module Emu.
Record pipe := {
  got : bytes; unread : bytes; ready : bytes; cuts : list nat; device : WOLFSPDM_CTX
}.

(** The answer to the frame at the front of [unread], if it is complete. *)
Definition answer (n : pipe) : pipe :=
  let size := SPDM_Get32BE (sub_bytes n.(unread) 8 4) in
  if (len n.(unread) <? 13) || (len n.(unread) <? 12 + size) then n else
  match Peer.serve (sub_bytes n.(unread) 13 (size - 1)) n.(device) with
  | Ok rx dev =>
      {| got := n.(got); unread := drop (Z.to_nat (12 + size)) n.(unread);
         ready := n.(ready) ++ [0; 0; 0; 1; 0; 0; 0; 1] ++ SPDM_Set32BE (1 + len rx) ++ [0x05] ++ rx;
         cuts := n.(cuts); device := dev |}
  | _ => n
  end.

Definition write (p : bytes) (n : pipe) : pipe :=
  answer {| got := n.(got) ++ p; unread := n.(unread) ++ p; ready := n.(ready); cuts := n.(cuts);
            device := n.(device) |}.
Definition read (k : nat) (n : pipe) : pipe :=
  {| got := n.(got); unread := n.(unread); ready := drop k n.(ready); cuts := n.(cuts);
     device := n.(device) |}.

(** The next cut: 0 is an interruption, the end of the list no limit. *)
Definition cut (n : pipe) (all : nat) : pipe * option nat :=
  match n.(cuts) with
  | [] => (n, Some all)
  | k :: rest =>
      ({| got := n.(got); unread := n.(unread); ready := n.(ready); cuts := rest;
          device := n.(device) |},
       match k with O => None | _ => Some (Nat.min k all) end)
  end.

#[global] Instance posix : Posix pipe := {
  p_socket n := (n, 3);
  p_inet_pton _ := true;
  p_connect _ _ _ n := (n, true);
  p_close _ n := n;
  p_send _ p n :=
    match cut n (length p) with
    | (n, None) => (n, s_eintr)
    | (n, Some k) => (write (take k p) n, s_done (Z.of_nat k))
    end;
  p_recv _ k n :=
    match cut n (Z.to_nat k) with
    | (n, None) => (n, s_eintr)
    | (n, Some k) => (read k n, s_done (map w8 (take k n.(ready))))
    end;
  signals n := length n.(cuts)
}.

Lemma write_got p n : (write p n).(got) = n.(got) ++ p /\ (write p n).(cuts) = n.(cuts).
Proof. unfold write, answer. case_match; [done|]. by case_match. Qed.

Lemma cut_same n all : (cut n all).1.(got) = n.(got) /\ (cut n all).1.(ready) = n.(ready).
Proof. unfold cut. by destruct (cuts n). Qed.

Lemma cut_some n all k : (cut n all).2 = Some k ->
  (k <= all)%nat /\ (all <> 0 -> k <> 0)%nat /\ (length (cut n all).1.(cuts) <= length n.(cuts))%nat.
Proof.
  unfold cut. destruct (cuts n) as [|[|j] rest] eqn:E; cbn -[Nat.min]; intros [= <-]; rewrite ?E; cbn -[Nat.min]; destruct all; lia.
Qed.

Lemma cut_none n all : (cut n all).2 = None -> (length (cut n all).1.(cuts) < length n.(cuts))%nat.
Proof. unfold cut. destruct (cuts n) as [|[|j] rest]; cbn; intros; (lia || done). Qed.

#[global, program] Instance stream : TcpStream pipe := {
  sent := got;
  pending n := map w8 n.(ready)
}.
Next Obligation.
  intros fd p n n' r. cbn. pose proof (cut_same n (length p)) as [Hg _].
  pose proof (cut_some n (length p)) as Hs. pose proof (cut_none n (length p)) as Hn.
  destruct (cut n (length p)) as [n1 [k|]]; cbn [fst snd] in *; intros [= <- <-].
  - destruct (write_got (take k p) n1) as [-> ->]. destruct (Hs k eq_refl) as (? & _ & ?).
    rewrite Hg. unfold sub_bytes, len. rewrite Nat2Z.id, drop_0. split_and!; [lia|lia|done|done].
  - by split; [|apply Hn].
Qed.
Next Obligation.
  intros fd k n n' r. cbn. pose proof (cut_same n (Z.to_nat k)) as [Hg Hr].
  pose proof (cut_some n (Z.to_nat k)) as Hs. pose proof (cut_none n (Z.to_nat k)) as Hn.
  destruct (cut n (Z.to_nat k)) as [n1 [j|]]; cbn [fst snd] in *; intros [= <- <-].
  - destruct (Hs j eq_refl) as (? & _ & ?). cbn. rewrite <- Hr, Hg.
    split_and!; [apply List.Forall_map, List.Forall_forall; intros; apply is_byte_w8| | |done|done].
    + unfold len. rewrite length_map, length_take. lia.
    + by rewrite <- map_app, take_drop.
  - by split_and!; [rewrite Hr|rewrite Hg|apply Hn].
Qed.

#[global, program] Instance up : TcpAlive pipe := { alive _ := True }.
Next Obligation.
  intros fd p n n' r _ Hp. cbn. pose proof (cut_some n (length p)) as Hs.
  destruct (cut n (length p)) as [n1 [k|]]; cbn [fst snd] in *; intros [= <- <-]; [|done].
  destruct (Hs k eq_refl) as (_ & Hk & _). split; [done|]. destruct p; [done|]. cbn in Hk. lia.
Qed.
Next Obligation.
  intros fd k n n' r _ Hk Hp. cbn in *. pose proof (cut_same n (Z.to_nat k)) as [_ Hr].
  pose proof (cut_some n (Z.to_nat k)) as Hs.
  destruct (cut n (Z.to_nat k)) as [n1 [j|]]; cbn [fst snd] in *; intros [= <- <-]; [|done].
  destruct (Hs j eq_refl) as (_ & Hj & _). split; [done|]. rewrite Hr.
  destruct (ready n); [done|]. destruct j; [lia|done].
Qed.

(** The device as Peer.v prepares it, behind a stream with cuts. *)
Definition fresh : pipe := {|
  got := []; unread := []; ready := []; cuts := [5; 0; 1; 700; 3; 0; 0; 2; 1; 1; 64]%nat;
  device := Peer.responder |}.
End Emu.
