(* ===== verification/Witness.v ===== *)
(** * Witnesses: every theorem with hypotheses applied to a concrete run

    The runs use the functions of [Toy], the sizes of [small_config] and,
    where a peer answers, the responder of [Peer]. *)
From Stdlib Require Import ZArith Lia String Ascii.
From stdpp Require Import base tactics list numbers.
From S2P Require Import Prelude Types Bytes Crypt Context Transcript Kdf CryptoOps Transport.
From S2P Require Import Secured Msg Chunk Cert Attest Session Standard Tcg Psk Connect.
From S2P Require Import Vendor Frame Api Responder RespSpec RespRefine Wire WireSession PskSession PskFinish Peer Link.
From S2P Require Import Socket Demo Emu.
Import Peer.
Import Link.Link.

Lemma is_ok_inv {S A} (r : res S A) : is_ok r = true -> exists a s, r = Ok a s.
Proof. destruct r as [a s| |]; [eauto|discriminate..]. Qed.

(** [run_ok r]: the run [r] succeeds. *)
Ltac run_ok r a s E :=
  destruct (is_ok_inv r) as (a & s & E); [vm_compute; reflexivity|].

(** ** Key schedule *)

Lemma handshake_key_schedule_witness :
  exists hs k, let c := certified.1 in
    wc_HKDF_Extract (zeros 48) (sub_bytes c.(sharedSecret) 0 c.(sharedSecretSz)) = Some hs /\
    hs_schedule c.(spdmVersion) hs (zeros 48) = Some k /\
    wolfSPDM_DeriveHandshakeKeys (zeros 48) c = Ok tt (install_hs k (c <| handshakeSecret := hs |>)).
Proof.
  cbv zeta. rewrite (handshake_key_schedule certified.1 (zeros 48) certified_wf eq_refl).
  destruct (wc_HKDF_Extract _ _) as [hs|] eqn:E1; [|vm_compute in E1; discriminate].
  exists hs. vm_compute in E1. injection E1 as <-.
  destruct (hs_schedule _ _ _) as [k|] eqn:E2; [|vm_compute in E2; discriminate].
  exists k. split_and!; reflexivity.
Defined.

Lemma derivation_labels_separate_witness :
  (bin_concat 18 SPDM_LABEL_KEY [1] 32 = bin_concat 19 SPDM_LABEL_IV [1] 12 ->
   SPDM_LABEL_KEY = SPDM_LABEL_IV /\ [1] = [1]) /\
  wolfSPDM_HkdfExpandLabel 18 (zeros 48) SPDM_LABEL_KEY [1] 32 certified.1 =
  lift_opt WOLFSPDM_E_CRYPTO_FAIL
    (wc_HKDF_Expand (zeros 48) (bin_concat 18 SPDM_LABEL_KEY [1] 32) 32) certified.1.
Proof.
  destruct (derivation_labels_separate SPDM_LABEL_KEY SPDM_LABEL_IV 18 19 [1] [1] 32 12
    (zeros 48) certified.1) as [H1 H2]; [cbn; tauto..|].
  split; [exact H1|]. apply H2. vm_compute. discriminate.
Defined.

(** ** Frames *)

Lemma tcg_clear_size_wraps_witness :
  wolfSPDM_BuildTcgClearMessage (replicate (Z.to_nat (2 ^ 32 - 16)) 0) 64 requester = Ub.
Proof.
  apply (tcg_clear_size_wraps requester (replicate (Z.to_nat (2 ^ 32 - 16)) 0) 64);
    unfold len; rewrite ?length_replicate, ?Z2Nat.id by lia; lia.
Defined.

(** ** Records *)

Lemma record_round_trip_witness :
  exists rec c1,
    wolfSPDM_EncryptRecord true [7; 1; 2] 64 connected.1 = Ok rec c1 /\
    wolfSPDM_DecryptRecord true rec 8 connected.2 = Ok [7; 1; 2] (seq_rcvd connected.2) /\
    receives_from c1 (seq_rcvd connected.2).
Proof.
  run_ok (wolfSPDM_EncryptRecord true [7; 1; 2] 64 connected.1) rec c1 E.
  exists rec, c1. split; [exact E|].
  apply (record_round_trip true [7; 1; 2] 64 8 rec connected.1 c1 connected.2).
  - exact connected_wf.
  - split; vm_compute; reflexivity.
  - vm_compute; discriminate.
  - intros _ _. vm_compute. reflexivity.
  - exact E.
Defined.

Definition sample_record : bytes := Eval vm_compute in
  match wolfSPDM_EncryptRecord true [7; 1; 2] 64 connected.1 with Ok r _ => r | _ => [] end.

(** Two records out, a forgery in between. *)
Definition sample_ops : list rec_op :=
  [op_encrypt true [7; 1] 64; op_decrypt true [0; 1; 2] 8; op_encrypt false [19; 2; 0; 0] 64].

Lemma sample_ops_ok : Forall op_ok sample_ops.
Proof.
  apply Forall_cons_2; [exact I|]. apply Forall_cons_2; [|apply Forall_singleton; exact I].
  apply Toy.is_bytes_forallb. reflexivity.
Qed.

Lemma is_some_inv {A} (o : option A) :
  match o with Some _ => true | None => false end = true -> exists a, o = Some a.
Proof. destruct o as [a|]; [eauto|discriminate]. Qed.

Lemma replay_rejected_witness :
  exists p c1 recs c2, wolfSPDM_DecryptRecord true sample_record 8 connected.2 = Ok p c1 /\
    history sample_ops c1 = Some (recs, c2) /\
    wolfSPDM_DecryptRecord true sample_record 8 c2 = Err WOLFSPDM_E_SEQUENCE c2.
Proof.
  assert (match wolfSPDM_DecryptRecord true sample_record 8 connected.2 with
          | Ok _ c => match history sample_ops c with Some _ => true | None => false end
          | _ => false end = true) as Hh by (vm_compute; reflexivity).
  run_ok (wolfSPDM_DecryptRecord true sample_record 8 connected.2) p c1 E.
  rewrite E in Hh. destruct (is_some_inv _ Hh) as [[recs c2] E2].
  exists p, c1, recs, c2. split; [exact E|]. split; [exact E2|].
  apply (replay_rejected true sample_record 8 p connected.2 c1 sample_ops recs c2 true 8).
  - exact peer_connected_wf.
  - apply Toy.is_bytes_forallb. vm_compute. reflexivity.
  - exact sample_ops_ok.
  - vm_compute. reflexivity.
  - exact E.
  - exact E2.
Defined.

Lemma nonces_never_repeat_witness :
  exists recs c', history sample_ops connected.1 = Some (recs, c') /\ length recs = 2%nat /\
    let ivs := wolfSPDM_BuildIV connected.1.(reqDataIv) <$> seqZ connected.1.(reqSeqNum) 2 in
    NoDup ivs /\ Forall2 (sealed_under connected.1) ivs recs.
Proof.
  destruct (nonces_never_repeat sample_ops connected.1 connected_wf sample_ops_ok)
    as (recs & c' & Hh & _ & Hn & Hs); [vm_compute; reflexivity|].
  assert (match history sample_ops connected.1 with Some (l, _) => length l | None => 0%nat end = 2%nat)
    as Hl by (vm_compute; reflexivity).
  rewrite Hh in Hl. rewrite Hl in Hn, Hs.
  exists recs, c'. split; [exact Hh|]. split; [exact Hl|]. split; [exact Hn|exact Hs].
Defined.

Definition spent_ctx : WOLFSPDM_CTX := Eval vm_compute in
  connected.1 <| reqSeqNum := 0x10000 |> <| rspSeqNum := 0x10000 |>.

Lemma mctp_sequence_exhausted_witness :
  wolfSPDM_EncryptRecord true [7; 1] 64 spent_ctx = Err WOLFSPDM_E_SEQUENCE spent_ctx /\
  (forall p c', wolfSPDM_DecryptRecord true [1; 0; 2; 0; 0; 0] 8 spent_ctx <> Ok p c').
Proof.
  apply (mctp_sequence_exhausted true [7; 1] 64 [1; 0; 2; 0; 0; 0] 8 spent_ctx);
    vm_compute; (reflexivity || discriminate).
Defined.

(** ** Messages *)

Lemma parse_version_highest_witness :
  exists v, In v (offered [16; 4; 0; 0; 0; 2; 0; 18; 0; 19]) /\
    wolfSPDM_ParseVersion [16; 4; 0; 0; 0; 2; 0; 18; 0; 19] requester =
    Ok tt (requester <| spdmVersion := v |> <| state := WOLFSPDM_STATE_VERSION |>).
Proof.
  assert (is_bytes [16; 4; 0; 0; 0; 2; 0; 18; 0; 19]) as Hb
    by (apply Toy.is_bytes_forallb; reflexivity).
  pose proof (parse_version_highest _ requester Hb) as H.
  run_ok (wolfSPDM_ParseVersion [16; 4; 0; 0; 0; 2; 0; 18; 0; 19] requester) u c E.
  rewrite E in H. destruct H as (v & _ & Hin & _ & ->), u. exists v. split; [exact Hin|exact E].
Defined.

(** The responder's answer to the requester's KEY_EXCHANGE, as it parses it. *)
Definition kex_sent : bytes * WOLFSPDM_CTX := Eval vm_compute in
  match wolfSPDM_BuildKeyExchange WOLFSPDM_KEY_EX_TX_SZ trusted.1 with
  | Ok tx c => (tx, after (wolfSPDM_TranscriptAdd tx) c)
  | _ => ([], trusted.1)
  end.
Definition kex_answer : bytes := Eval vm_compute in
  match serve kex_sent.1 trusted.2 with Ok rx _ => rx | _ => [] end.

Lemma kex_rsp_authenticated_witness :
  exists c', wolfSPDM_ParseKeyExchangeRsp kex_answer kex_sent.2 = Ok tt c' /\
    kex_accepted kex_sent.2 kex_answer c'.
Proof.
  assert (ctx_wf kex_sent.2) as Hwf by concrete_wf.
  assert (is_bytes kex_answer) as Hb by (apply Toy.is_bytes_forallb; vm_compute; reflexivity).
  pose proof (kex_rsp_authenticated kex_answer kex_sent.2 Hwf Hb) as H.
  run_ok (wolfSPDM_ParseKeyExchangeRsp kex_answer kex_sent.2) u c E.
  rewrite E in H. destruct H as [_ Hk], u. exists c. split; [exact E|exact Hk].
Defined.

(** ** Chunks *)

Definition sample_chunks : list bytes := [[19; 0x60; 0; 0]; [1; 2; 3; 4; 5]; [6]].

#[local] Existing Instance Script.transport.
Lemma chunked_response_reassembled_witness :
  wolfSPDM_ChunkExchange false [19; 0xE0; 0; 0] 64
    (connected.1, [connected.1.(spdmVersion); SPDM_ERROR; SPDM_ERROR_LARGE_RESPONSE; 0; 9] ::
        chunk_rsps connected.1 9 (len (concat sample_chunks)) 0 sample_chunks ++ []) =
  Ok (concat sample_chunks) (connected.1, []).
Proof.
  apply (chunked_response_reassembled connected.1 [19; 0xE0; 0; 0] 64 9 sample_chunks []).
  - exact connected_wf.
  - vm_compute. reflexivity.
  - vm_compute. discriminate.
  - split; (discriminate || reflexivity).
  - vm_compute. discriminate.
  - discriminate.
  - unfold sample_chunks. repeat apply Forall_cons_2; try apply Forall_nil_2; (split;
      [apply Toy.is_bytes_forallb; reflexivity|vm_compute; split; (discriminate || reflexivity)]).
  - discriminate.
  - vm_compute. discriminate.
  - vm_compute. discriminate.
Defined.

Lemma chunk_exchange_safe_witness :
  exists rsp c w,
    wolfSPDM_ChunkExchange (Transport0 := Peer.transport) false [16; 0x84; 0; 0] 32 W0 =
      Ok rsp (c, w) /\ len rsp <= 32 /\ ctx_wf c /\ xfer false requester c.
Proof.
  pose proof (chunk_exchange_safe (Transport0 := Peer.transport) false [16; 0x84; 0; 0] 32
    requester responder requester_wf ltac:(discriminate)) as H.
  run_ok (wolfSPDM_ChunkExchange (Transport0 := Peer.transport) false [16; 0x84; 0; 0] 32
    (requester, responder)) rsp s E.
  rewrite E in H. destruct s as [c w], H as (_ & H1 & H2 & H3).
  exists rsp, c, w. split_and!; [exact E|exact H1|exact H2|exact H3].
Defined.

Definition large_req : bytes := [19; 0xE4] ++ zeros 98.
Definition size_answer (b : bytes) : bytes := [19; 0x64; len b].

Lemma chunked_request_delivered_witness :
  wolfSPDM_ChunkSend (Transport0 := collector size_answer) false 42 large_req 32
    (connected.1, []) =
  Ok [19; 0x64; 100] (connected.1 <| chunkHandle := 1 |>, large_req).
Proof.
  apply (chunked_request_delivered size_answer connected.1 large_req 42 32 []);
    vm_compute; (reflexivity || discriminate || (split; (reflexivity || discriminate))).
Defined.

(** ** Certificates and attestation *)

Lemma validated_chain_is_trusted_witness :
  exists c', wolfSPDM_ValidateCertChain certified.1 = Ok tt c' /\ chain_trusted certified.1 c'.
Proof.
  pose proof (validated_chain_is_trusted certified.1 certified_wf) as H.
  run_ok (wolfSPDM_ValidateCertChain certified.1) u c E.
  rewrite E in H. destruct H as [_ Hk], u. exists c. split; [exact E|exact Hk].
Defined.

Lemma measurements_verified_witness :
  exists c w, wolfSPDM_GetMeasurements (Transport0 := Peer.transport) 255 true
      (connected.1, connected.2) = Ok tt (c, w) /\ meas_result true connected.1 c.
Proof.
  pose proof (measurements_verified (Transport0 := Peer.transport) 255 true connected.1
    connected.2 connected_wf) as H.
  run_ok (wolfSPDM_GetMeasurements (Transport0 := Peer.transport) 255 true
    (connected.1, connected.2)) u s E.
  rewrite E in H. destruct s as [c w], H as (_ & _ & _ & Hk), u.
  exists c, w. split; [exact E|exact Hk].
Defined.

Lemma measurement_blocks_in_bounds_witness :
  exists i t v, wolfSPDM_GetMeasurementBlock 0 (Some 8) measured.1 =
      Ok (0, i, t, 1, v) measured.1 /\ len v = 1.
Proof.
  assert (meas_ok measured.1) as Hm by (vm_compute; split_and!; (discriminate || reflexivity)).
  pose proof (measurement_blocks_in_bounds 0 (Some 8) measured.1 measured_wf Hm) as H.
  run_ok (wolfSPDM_GetMeasurementBlock 0 (Some 8) measured.1) r c E.
  assert (match wolfSPDM_GetMeasurementBlock 0 (Some 8) measured.1 with
          | Ok (rc, _, _, n, _) _ => (rc, n) = (0, 1) | _ => False end) as Hf
    by (vm_compute; reflexivity).
  rewrite E in H, Hf. destruct r as [[[[rc i] t] n] v]. injection Hf as -> ->.
  destruct H as (-> & _ & _ & Hl & _). exists i, t, v. split; [exact E|exact Hl].
Defined.

Lemma challenge_authenticates_witness :
  exists c w, wolfSPDM_Challenge (Transport0 := Peer.transport) 0 0
      (certified.1, certified.2) = Ok tt (c, w) /\ chal_result certified.1 c.
Proof.
  pose proof (challenge_authenticates (Transport0 := Peer.transport) 0 0 certified.1
    certified.2 certified_wf) as H.
  run_ok (wolfSPDM_Challenge (Transport0 := Peer.transport) 0 0 (certified.1, certified.2)) u s E.
  rewrite E in H. destruct s as [c w], H as (_ & _ & Hk), u.
  exists c, w. split; [exact E|exact Hk].
Defined.

(** ** Sessions *)

Lemma exchange_recorded_atomically_witness :
  exists c w, wolfSPDM_ExchangeMsg (Transport0 := Peer.transport) wolfSPDM_BuildGetVersion
      wolfSPDM_ParseVersion 8 32 (requester, responder) = Ok tt (c, w) /\
    Session.exchanged wolfSPDM_BuildGetVersion wolfSPDM_ParseVersion 8 requester c.
Proof.
  pose proof (exchange_recorded_atomically (Transport0 := Peer.transport)
    wolfSPDM_BuildGetVersion wolfSPDM_ParseVersion 8 32 requester responder requester_wf
    ltac:(discriminate) ltac:(reflexivity)) as H.
  run_ok (wolfSPDM_ExchangeMsg (Transport0 := Peer.transport) wolfSPDM_BuildGetVersion
      wolfSPDM_ParseVersion 8 32 (requester, responder)) u s E.
  rewrite E in H. destruct s as [c w], H as (_ & Hk), u.
  exists c, w. split; [exact E|exact Hk].
Defined.

Lemma key_exchange_authenticated_witness :
  exists c w, wolfSPDM_KeyExchange (Transport0 := Peer.transport) (trusted.1, trusted.2) =
      Ok tt (c, w) /\ key_exchange_run (Transport0 := Peer.transport) trusted.1 trusted.2 c w.
Proof.
  pose proof (key_exchange_authenticated (Transport0 := Peer.transport) trusted.1 trusted.2
    trusted_wf) as H.
  run_ok (wolfSPDM_KeyExchange (Transport0 := Peer.transport) (trusted.1, trusted.2)) u s E.
  rewrite E in H. destruct s as [c w], H as (_ & Hk), u.
  exists c, w. split; [exact E|exact Hk].
Defined.

Lemma finish_installs_app_keys_witness :
  exists c w, wolfSPDM_Finish (Transport0 := Peer.transport) (exchanged.1, exchanged.2) =
      Ok tt (c, w) /\ finished exchanged.1 c.
Proof.
  pose proof (finish_installs_app_keys (Transport0 := Peer.transport) exchanged.1 exchanged.2
    exchanged_wf) as H.
  run_ok (wolfSPDM_Finish (Transport0 := Peer.transport) (exchanged.1, exchanged.2)) u s E.
  rewrite E in H. destruct s as [c w], H as (_ & _ & Hk), u.
  exists c, w. split; [exact E|exact Hk].
Defined.

Lemma key_update_all_or_nothing_witness :
  exists c w, wolfSPDM_KeyUpdate (Transport0 := Peer.transport) true
      (connected.1, connected.2) = Ok tt (c, w) /\ rotated true connected.1 c.
Proof.
  pose proof (key_update_all_or_nothing (Transport0 := Peer.transport) true connected.1
    connected.2 connected_wf) as H.
  run_ok (wolfSPDM_KeyUpdate (Transport0 := Peer.transport) true (connected.1, connected.2)) u s E.
  rewrite E in H. destruct s as [c w], H as (_ & _ & _ & Hk), u.
  exists c, w. split; [exact E|exact Hk].
Defined.

(** [Toy.crypt] refuses to expand an all-zero secret. *)
Definition zero_secret : WOLFSPDM_CTX := connected.1 <| reqAppSecret := zeros 48 |>.

Lemma failed_rotation_resets_counter_witness :
  rotate_req zero_secret = Err WOLFSPDM_E_CRYPTO_FAIL (zero_secret <| reqSeqNum := 0 |>).
Proof.
  apply (failed_rotation_resets_counter zero_secret). vm_compute. reflexivity.
Defined.

(** ** The standard profile *)

Definition algorithms_rsp : bytes :=
  [19; SPDM_ALGORITHMS; 4; 0] ++ SPDM_Set16LE 52 ++ [1; 2] ++ zeros 4 ++
  SPDM_Set32LE SPDM_ASYM_ALGO_ECDSA_P384 ++ SPDM_Set32LE SPDM_HASH_ALGO_SHA_384 ++ zeros 16 ++
  alg_struct SPDM_ALG_TYPE_DHE SPDM_DHE_ALGO_SECP384R1 ++
  alg_struct SPDM_ALG_TYPE_AEAD SPDM_AEAD_ALGO_AES_256_GCM ++
  alg_struct SPDM_ALG_TYPE_REQ_BASE_ASYM SPDM_ASYM_ALGO_ECDSA_P384 ++
  alg_struct SPDM_ALG_TYPE_KEY_SCHEDULE SPDM_KEY_SCHEDULE_SPDM.

Lemma algorithms_selected_once_witness :
  exists pqc kem c, wolfSPDM_ParseAlgorithms algorithms_rsp negotiated.1 = Ok tt c /\
    algs_selected negotiated.1 algorithms_rsp pqc kem /\ c = alg_sels pqc kem negotiated.1.
Proof.
  assert (is_bytes algorithms_rsp) as Hb by (apply Toy.is_bytes_forallb; reflexivity).
  pose proof (algorithms_selected_once algorithms_rsp negotiated.1 Hb) as H.
  run_ok (wolfSPDM_ParseAlgorithms algorithms_rsp negotiated.1) u c E.
  rewrite E in H. destruct H as (pqc & kem & H1 & H2), u.
  exists pqc, kem, c. split_and!; [exact E|exact H1|exact H2].
Defined.

Lemma certificate_retrieval_witness :
  exists c w, wolfSPDM_GetCertificate (Transport0 := Peer.transport) 0
      (negotiated.1, negotiated.2) = Ok tt (c, w) /\ chain_received negotiated.1 c.
Proof.
  assert (ctx_wf negotiated.1) as Hwf by concrete_wf.
  pose proof (certificate_retrieval (Transport0 := Peer.transport) 0 negotiated.1
    negotiated.2 Hwf) as H.
  run_ok (wolfSPDM_GetCertificate (Transport0 := Peer.transport) 0
    (negotiated.1, negotiated.2)) u s E.
  rewrite E in H. destruct s as [c w], H as (_ & _ & Hk), u.
  exists c, w. split; [exact E|exact Hk].
Defined.

Lemma standard_session_authenticated_witness :
  exists c w, wolfSPDM_ConnectStandard (Transport0 := Peer.transport) (requester, responder) =
      Ok tt (c, w) /\ c.(state) = WOLFSPDM_STATE_CONNECTED /\ handshake c.
Proof.
  pose proof (standard_session_authenticated (Transport0 := Peer.transport) requester responder
    requester_wf) as H.
  run_ok (wolfSPDM_ConnectStandard (Transport0 := Peer.transport) (requester, responder)) u s E.
  rewrite E in H. destruct s as [c w], H as (_ & H1 & Hk), u.
  exists c, w. split_and!; [exact E|exact H1|exact Hk].
Defined.

(** ** The TCG and PSK profiles, against the repository's own responder *)

Lemma tcg_algorithms_exact_witness :
  wolfSPDM_TCG_CheckAlgorithms (tcg_alg_rsp tcg_up.1.(spdmVersion)) tcg_up.1 = Ok tt tcg_up.1.
Proof.
  assert (is_bytes (tcg_alg_rsp tcg_up.1.(spdmVersion))) as Hb
    by (apply Toy.is_bytes_forallb; vm_compute; reflexivity).
  pose proof (tcg_algorithms_exact _ tcg_up.1 Hb) as H.
  destruct (wolfSPDM_TCG_CheckAlgorithms _ _) as [[] c'|rc c'|] eqn:E; [| |contradiction].
  - destruct H as [-> _]. reflexivity.
  - destruct H as (_ & _ & H). destruct (H eq_refl).
Defined.

Lemma tcg_session_authenticated_witness :
  exists c w, wolfSPDM_ConnectTCG (Transport0 := Link.transport) (start tcg_req) = Ok tt (c, w) /\
    c.(state) = WOLFSPDM_STATE_CONNECTED /\ tcg_handshake tcg_req c.
Proof.
  pose proof (tcg_session_authenticated (Transport0 := Link.transport) tcg_req (start tcg_req).2
    tcg_req_wf) as H.
  run_ok (wolfSPDM_ConnectTCG (Transport0 := Link.transport) (start tcg_req)) u s E.
  change (tcg_req, (start tcg_req).2) with (start tcg_req) in H. rewrite E in H.
  destruct s as [c w], H as (_ & _ & H1 & Hk), u. exists c, w. split_and!; [exact E|exact H1|exact Hk].
Defined.

Lemma psk_exchange_authenticated_witness :
  exists c, wolfSPDM_ParsePskExchangeRsp psk_answer psk_waiting = Ok tt c /\
    psk_accepted psk_waiting psk_answer c.
Proof.
  assert (is_bytes psk_answer) as Hb by (apply Toy.is_bytes_forallb; vm_compute; reflexivity).
  pose proof (psk_exchange_authenticated psk_answer psk_waiting psk_waiting_wf Hb) as H.
  run_ok (wolfSPDM_ParsePskExchangeRsp psk_answer psk_waiting) u c E.
  rewrite E in H. destruct u, H as [_ H]. exists c. split; [exact E|exact H].
Defined.

Lemma psk_session_authenticated_witness :
  exists c w, wolfSPDM_ConnectPsk (Transport0 := Link.transport) (start psk_req) = Ok tt (c, w) /\
    c.(state) = WOLFSPDM_STATE_CONNECTED /\ psk_handshake psk_req c.
Proof.
  pose proof (psk_session_authenticated (Transport0 := Link.transport) psk_req (start psk_req).2
    psk_req_wf) as H.
  run_ok (wolfSPDM_ConnectPsk (Transport0 := Link.transport) (start psk_req)) u s E.
  change (psk_req, (start psk_req).2) with (start psk_req) in H. rewrite E in H.
  destruct s as [c w], H as (_ & _ & Hk & H1 & _), u. exists c, w. split_and!; [exact E|exact H1|exact Hk].
Defined.

Lemma connect_by_mode_witness :
  exists c w, wolfSPDM_Connect (Transport0 := Link.transport) (start tcg_req) = Ok tt (c, w) /\
    c.(state) = WOLFSPDM_STATE_CONNECTED /\
    connected_by_mode (reset_ctx tcg_req) c.
Proof.
  pose proof (connect_by_mode (Transport0 := Link.transport) tcg_req (start tcg_req).2 tcg_req_wf) as H.
  run_ok (wolfSPDM_Connect (Transport0 := Link.transport) (start tcg_req)) u s E.
  change (tcg_req, (start tcg_req).2) with (start tcg_req) in H. rewrite E in H.
  destruct s as [c w], H as (_ & _ & Hk & H1), u. exists c, w. split_and!; [exact E|exact H1|exact Hk].
Defined.

Lemma disconnect_always_wipes_witness :
  exists c w, wolfSPDM_Disconnect (Transport0 := Link.transport) (tcg_up.1, tcg_up.2) = Ok tt (c, w) /\
    session_wiped c /\ configured c = configured tcg_up.1.
Proof.
  pose proof (disconnect_always_wipes (Transport0 := Link.transport) tcg_up.1 tcg_up.2 tcg_up_wf) as H.
  run_ok (wolfSPDM_Disconnect (Transport0 := Link.transport) (tcg_up.1, tcg_up.2)) u s E.
  rewrite E in H. destruct s as [c w], H as (_ & _ & Hw & Hc), u. exists c, w.
  split_and!; [exact E|exact Hw|exact Hc].
Defined.

(** ** The responder *)

Lemma resp_bytes (f : bytes) : forallb (fun x => (0 <=? x) && (x <? 256)) f = true -> is_bytes f.
Proof. apply Toy.is_bytes_forallb. Qed.

Lemma responder_refines_spec_witness :
  exists out s', wolfSPDM_RespHandleMessage (last_frame tcg_up) 600
      ((before_last tcg_up).1, (before_last tcg_up).2) = Ok out s' /\
    scratch_clean s'.1 /\
    sp_phase (abs_state (before_last tcg_up)) = P_keyex true /\
    sp_phase (abs_state s') = P_connected true.
Proof.
  assert (is_bytes (last_frame tcg_up)) as Hb by (apply Toy.is_bytes_forallb; vm_compute; reflexivity).
  assert (scratch_clean (before_last tcg_up).1) as Hc by (split_and!; vm_compute; reflexivity).
  pose proof (responder_refines_spec (last_frame tcg_up) 600 (before_last tcg_up).1 (before_last tcg_up).2
    resp_finishing_wf Hc Hb) as H.
  run_ok (wolfSPDM_RespHandleMessage (last_frame tcg_up) 600 ((before_last tcg_up).1, (before_last tcg_up).2)) out s' E.
  cbv zeta in H. rewrite E in H. destruct H as (_ & _ & Hs & _). exists out, s'.
  assert (answered 600 tcg_up = s') as <- by (unfold answered; rewrite E; reflexivity).
  split_and!; [exact E|exact Hs|vm_compute; reflexivity|vm_compute; reflexivity].
Defined.

Lemma session_opens_by_finish_witness :
  frame_channel (last_frame psk_up) = Secured /\ phase_of (answered 600 psk_up).1 = P_connected false /\
  exists plain c, RespDecrypt (frame_payload (last_frame psk_up)) WOLFSPDM_MAX_MSG_SIZE
      (received ((before_last psk_up).1, (before_last psk_up).2) (last_frame psk_up)).1.(rctx) =
        Ok plain c /\
    at_ plain 1 = SPDM_PSK_FINISH.
Proof.
  assert (is_bytes (last_frame psk_up)) as Hb by (apply Toy.is_bytes_forallb; vm_compute; reflexivity).
  assert (phase_of (before_last psk_up).1 <> P_connected false) as Hn by (vm_compute; discriminate).
  pose proof (session_opens_by_finish (last_frame psk_up) 600 (before_last psk_up).1 (before_last psk_up).2
    false resp_psk_finishing_wf Hb Hn) as H.
  run_ok (wolfSPDM_RespHandleMessage (last_frame psk_up) 600 ((before_last psk_up).1, (before_last psk_up).2)) out s' E.
  assert (answered 600 psk_up = s') as Hs by (unfold answered; rewrite E; reflexivity).
  assert (phase_of (answered 600 psk_up).1 = P_connected false) as Hp by (vm_compute; reflexivity).
  rewrite E in H. rewrite Hs in Hp |- *. destruct s' as [r' t'].
  destruct (H Hp) as (_ & Hch & plain & c & Hd & Hc & _).
  split_and!; [exact Hch|exact Hp|exists plain, c; split; [exact Hd|exact Hc]].
Defined.

Lemma err_inv {S A} (r : res S A) rc :
  match r with Err e _ => e =? rc | _ => false end = true -> exists s, r = Err rc s.
Proof. destruct r as [|e s|]; [discriminate| |discriminate]. intros ->%Z.eqb_eq. by exists s. Qed.

(** Twenty bytes take the header of the frame, but not the record. *)
Lemma finish_answer_lost_witness :
  exists out c1 r',
    finish_accepted true ((before_last tcg_up).1, (before_last tcg_up).2) (last_frame tcg_up) out c1 /\
    wolfSPDM_RespHandleMessage (last_frame tcg_up) 20 ((before_last tcg_up).1, (before_last tcg_up).2)
      = Err WOLFSPDM_E_BUFFER_SMALL (r', (before_last tcg_up).2) /\
    phase_of (before_last tcg_up).1 = P_keyex true /\ phase_of r' = P_connected true /\
    data_keys r'.(rctx) = data_keys (before_last tcg_up).1.(rctx).
Proof.
  assert (match RespDecrypt (frame_payload (last_frame tcg_up)) WOLFSPDM_MAX_MSG_SIZE
      (received ((before_last tcg_up).1, (before_last tcg_up).2) (last_frame tcg_up)).1.(rctx) with
    | Ok plain c0 => at_ plain 1 = SPDM_FINISH /\
        match finish_rsp SPDM_FINISH_RSP plain WOLFSPDM_MAX_MSG_SIZE c0 with
        | Ok out c1 => match RespEncrypt out (20 - WOLFSPDM_TCG_HEADER_SIZE) c1 with
                       | Err e _ => e =? WOLFSPDM_E_BUFFER_SMALL | _ => false end = true
        | _ => False end
    | _ => False end) as Hv by (vm_compute; split; reflexivity).
  destruct (RespDecrypt _ _ _) as [plain c0| |] eqn:E1; [|destruct Hv|destruct Hv].
  destruct Hv as [Hcode Hv].
  destruct (finish_rsp _ _ _ _) as [out c1| |] eqn:E2; [|destruct Hv|destruct Hv].
  destruct (err_inv _ _ Hv) as [c2 E3].
  assert (finish_accepted true ((before_last tcg_up).1, (before_last tcg_up).2) (last_frame tcg_up) out c1)
    as Hacc.
  { exists plain, c0. split_and!; [vm_compute; reflexivity|vm_compute; discriminate|vm_compute; reflexivity|
      exact E1|exact Hcode|exact E2]. }
  assert (is_bytes (last_frame tcg_up)) as Hb by (apply Toy.is_bytes_forallb; vm_compute; reflexivity).
  assert (secured_frame (before_last tcg_up).1 (last_frame tcg_up)) as Hf.
  { split_and!; vm_compute; (reflexivity || discriminate). }
  destruct (finish_answer_lost true (before_last tcg_up).1 (before_last tcg_up).2 (last_frame tcg_up) 20
    out c1 resp_finishing_wf Hb Hf ltac:(vm_compute; discriminate) Hacc) as [H _].
  destruct (H _ _ E3) as (r' & Hrun & Hp & Hk).
  exists out, c1, r'. split_and!; [exact Hacc|exact Hrun|vm_compute; reflexivity|exact Hp|exact Hk].
Defined.

(** GET_VERSION, a clear GET_PUBK and a clear TPM command. *)
Definition clear_frame (payload : bytes) : bytes :=
  wolfSPDM_WriteTcgHeader WOLFSPDM_TCG_TAG_CLEAR (16 + len payload) 0 0 ++ payload.
Definition vendor_msg (code : bytes) : bytes :=
  [19; SPDM_VENDOR_DEFINED_REQUEST; 0; 0; 1; 0; 0; 9; 0] ++ code ++ [7].
Definition clear_attempts : list (bytes * Z) :=
  [(clear_frame [16; SPDM_GET_VERSION; 0; 0], 64);
   (clear_frame (vendor_msg WOLFSPDM_VDCODE_GET_PUBK), 200);
   (clear_frame (vendor_msg WOLFSPDM_VDCODE_TPM2_CMD), 200);
   (clear_frame (vendor_msg WOLFSPDM_VDCODE_SPDMONLY), 200);
   ([1; 2; 3], 64)].

Lemma clear_messages_powerless_witness :
  exists r' t', RespRefine.serve clear_attempts (resp0, [[9]]) = Some (r', t') /\ resp_wf r' /\ t' = [[9]].
Proof.
  assert (Forall (fun f : bytes * Z => is_bytes f.1 /\ frame_channel f.1 = Clear) clear_attempts) as Hf.
  { unfold clear_attempts.
    repeat (apply List.Forall_cons; [split; [apply Toy.is_bytes_forallb; vm_compute; reflexivity
      |vm_compute; reflexivity]|]). apply List.Forall_nil. }
  destruct (clear_messages_powerless clear_attempts resp0 [[9]] resp0_wf Hf) as (r' & t' & H & Hw & Ht & _).
  exists r', t'. split_and!; [exact H|exact Hw|exact Ht].
Defined.

Lemma session_records_in_step_witness :
  exists rec q1 c1, wolfSPDM_EncryptInternal [18; 254; 1; 2] 64 tcg_up.1 = Ok rec q1 /\
    RespDecrypt rec 16 tcg_up.2.1.1.(rctx) = Ok [18; 254; 1; 2] c1 /\ linked q1 c1.
Proof.
  assert (linked tcg_up.1 tcg_up.2.1.1.(rctx)) as Hl
    by (split; split; vm_compute; reflexivity).
  destruct (session_records_in_step [18; 254; 1; 2] 64 16 tcg_up.1 tcg_up.2.1.1.(rctx) tcg_up_wf
    (rw_ctx _ resp_up_wf) Hl) as [H _]; [vm_compute; discriminate|].
  run_ok (wolfSPDM_EncryptInternal [18; 254; 1; 2] 64 tcg_up.1) rec q1 E.
  destruct (H rec q1 E) as (c1 & Hd & Hk). exists rec, q1, c1. split_and!; [exact E|exact Hd|exact Hk].
Defined.

(** ** Requester and responder composed *)

Definition clear_secret : bytes := replicate 32 7.

Lemma psk_provisioning_cycle_witness :
  exists r1 r2,
    Nations.wolfSPDM_Nations_PskSet (psk_bytes ++ Toy.digest clear_secret) (tcg_req, (resp_bare, [[9]])) =
      Ok tt (tcg_req, (r1, [[9]])) /\
    Nations.wolfSPDM_Nations_GetStatus (tcg_req, (r1, [[9]])) =
      Ok (nations_status true false) (tcg_req, (r2, [[9]])).
Proof.
  destruct (psk_provisioning_cycle psk_bytes (Toy.digest clear_secret) clear_secret tcg_req resp_bare [[9]])
    as (r1 & r2 & r3 & r4 & H1 & H2 & _).
  - split; [split; [exact tcg_req_wf|split; vm_compute; (discriminate || reflexivity)]|].
    split; [exact resp_bare_wf|].
    split; [split; vm_compute; reflexivity|split; [vm_compute; split; discriminate|left; reflexivity]].
  - vm_compute. discriminate.
  - reflexivity.
  - apply Toy.is_bytes_forallb. reflexivity.
  - reflexivity.
  - vm_compute. reflexivity.
  - reflexivity.
  - reflexivity.
  - exists r1, r2. split; [exact H1|exact H2].
Defined.

Lemma only_mode_switched_witness :
  exists c' r',
    Nations.wolfSPDM_Nations_SetOnlyMode 1 (tcg_up.1, (tcg_up.2.1.1, [[9]])) = Ok tt (c', (r', [[9]])) /\
    in_session c' r' /\
    abs_state (r', [[9]]) = (abs_state (tcg_up.2.1.1, [[9]])) <| sp_lock := true |>.
Proof.
  assert (in_session tcg_up.1 tcg_up.2.1.1) as Hin.
  { split.
    - split; [exact tcg_up_wf|]. split_and!; vm_compute; (discriminate || reflexivity).
    - split; [exact resp_up_wf|]. split; [split; vm_compute; reflexivity|vm_compute; reflexivity].
    - split; [vm_compute; split; discriminate|right; vm_compute; reflexivity].
    - split; split; vm_compute; reflexivity.
    - split; [vm_compute; discriminate|]. vm_compute. intros [? ?]. congruence. }
  destruct (only_mode_switched 1 tcg_up.1 tcg_up.2.1.1 [[9]] (Nations.wolfSPDM_Nations_SetOnlyMode 1))
    as [H _]; [right; left; reflexivity|]. specialize (H Hin).
  run_ok (Nations.wolfSPDM_Nations_SetOnlyMode 1 (tcg_up.1, (tcg_up.2.1.1, [[9]]))) u s E.
  cbv zeta in H. rewrite E in H. destruct s as [c' [r' t']], H as (-> & H1 & H2), u.
  exists c', r'. split; [exact E|]. split; [exact H1|exact H2].
Defined.

(** ** A PSK session between the two sides *)

Lemma psk_session_established_witness :
  exists c' r',
    wolfSPDM_Connect (Pair.requester, (Pair.responder, [[9]])) = Ok tt (c', (r', [[9]])) /\
    psk_joined psk_bytes c' r'.
Proof.
  assert (asks psk_bytes Pair.requester) as Hak.
  { split; [exact pair_req_wf| | | |vm_compute; discriminate].
    - split_and!; vm_compute; (discriminate || reflexivity).
    - split; vm_compute; (discriminate || reflexivity).
    - vm_compute. intros [Hlo _]. apply Hlo. reflexivity. }
  assert (offers psk_bytes Pair.responder) as Hof.
  { split; [exact pair_rsp_wf|..]; split; try split; vm_compute; (discriminate || reflexivity). }
  assert (128 <= WOLFSPDM_MAX_MSG_SIZE) as Hm by (vm_compute; discriminate).
  assert (256 <= WOLFSPDM_MAX_TRANSCRIPT) as Ht by (vm_compute; discriminate).
  pose proof (psk_session_established psk_bytes Pair.requester Pair.responder [[9]] Hak eq_refl eq_refl Hof Hm Ht) as H.
  destruct (wolfSPDM_Connect _) as [[] [c' [r' t']]|rc x|].
  - destruct H as [-> H]. exists c', r'. split; [reflexivity|exact H].
  - exfalso. apply H, Toy.total.
  - destruct H.
Defined.

(** ** An application *)

(** A session over the TCG binding, with calls out of state around it. *)
Definition sample_calls : list api_call :=
  [SetIO 1 0; SetMode WOLFSPDM_MODE_TCG; SetResponderPubKey (pub 30); Finish; Connect; IsConnected;
   SetOnlyMode 1; Heartbeat; GetMeasurementBlock 0 None; Disconnect; Heartbeat].

Lemma requester_api_safe_witness :
  exists rs s, Forall call_ok sample_calls /\
    application sample_calls (zero_ctx, ((resp0, []), None)) = Ok rs s /\
    s.1 = zero_ctx /\ Forall outcome_ok rs /\ nth 5 rs (inr 0) = inl (v_int 1).
Proof.
  assert (Forall call_ok sample_calls) as Hc by (repeat constructor).
  pose proof (requester_api_safe sample_calls zero_ctx ((resp0, []), None) Hc) as H.
  assert (match application sample_calls (zero_ctx, ((resp0, []), None)) with
          | Ok rs _ => nth 5 rs (inr 0) = inl (v_int 1) | _ => False end) as Hv
    by (vm_compute; reflexivity).
  run_ok (application sample_calls (zero_ctx, ((resp0, []), None))) rs s E.
  rewrite E in H, Hv. destruct H as (H1 & _ & H2 & _).
  exists rs, s. split; [exact Hc|]. split; [exact E|]. split; [exact H1|]. split; [exact H2|exact Hv].
Defined.

(** ** The demonstration program *)

Definition emu_link : TCP_CTX Emu.pipe := {| sockFd := 3; net := Emu.fresh |}.
Definition version_answer : bytes := [0x10; SPDM_VERSION; 0; 0; 0; 2; 0; 0x12; 0; 0x13].

(** GET_VERSION over the stream: sent whole, the answer returned whole. *)
Lemma mctp_socket_delivers_witness :
  exists t', tcp_io_callback init_ctx [0x10; SPDM_GET_VERSION; 0; 0] 32 1 emu_link = (t', Some version_answer) /\
    sent t'.(net) = mctp_frame init_ctx [0x10; SPDM_GET_VERSION; 0; 0] /\ pending t'.(net) = [].
Proof.
  pose proof (mctp_socket_delivers init_ctx [0x10; SPDM_GET_VERSION; 0; 0] 32 1 emu_link
    ltac:(lia) ltac:(vm_compute; discriminate) ltac:(vm_compute; discriminate) ltac:(lia)) as H.
  cbv zeta in H.
  destruct (tcp_io_callback init_ctx [0x10; SPDM_GET_VERSION; 0; 0] 32 1 emu_link) as [t' r] eqn:E.
  destruct H as (_ & _ & _ & Hs & Ha).
  destruct (Ha I) as (_ & _ & Hr).
  destruct (Hr [0; 0; 0; 1; 0; 0; 0; 1; 0; 0; 0; 11] 5 version_answer []) as [-> Hp];
    [lia|vm_compute; reflexivity|reflexivity|reflexivity|vm_compute; discriminate|].
  destruct (Hs _ eq_refl) as [H1 H2]. exists t'. split; [reflexivity|]. split; [|exact Hp].
  destruct H2 as (hdr & ty & _ & _ & _ & _ & _ & ->). rewrite H1. reflexivity.
Defined.

Definition emu_env : Env := {|
  SPDM_EMU_PATH := None; SPDM_EMU_CERT_DIR := None; PATH_MAX := 4096;
  realpath := fun _ => None; read_file := fun _ => None |}.
Definition emu_down : TCP_CTX Emu.pipe := {| sockFd := -1; net := Emu.fresh |}.

(** [spdm_demo --meas] against the emulator exits with 0. *)
Lemma demo_exit_status_witness :
  exists s, demo_main emu_env 20000 [("m"%char, EmptyString)] (zero_ctx, emu_down) = Ok 0 s /\
    demo_ran emu_env 20000 [("m"%char, EmptyString)] zero_ctx emu_down s /\
    s.1 = zero_ctx /\ s.2.(sockFd) < 0.
Proof.
  pose proof (demo_exit_status emu_env 20000 [("m"%char, EmptyString)] zero_ctx emu_down
    ltac:(reflexivity)) as H.
  assert (match demo_main emu_env 20000 [("m"%char, EmptyString)] (zero_ctx, emu_down) with
          | Ok code _ => code = 0 | _ => False end) as Hv by (vm_compute; reflexivity).
  run_ok (demo_main emu_env 20000 [("m"%char, EmptyString)] (zero_ctx, emu_down)) code s E.
  rewrite E in H, Hv. subst code.
  destruct H as (_ & Hfd & Hz). destruct (proj1 Hz eq_refl) as [Hh|[Hran Hzero]]; [discriminate Hh|].
  exists s. split; [exact E|]. split; [exact Hran|]. split; [exact Hzero|exact Hfd].
Defined.
